(** * Backward pass of the fused attention kernel (kernel_backward.h)

    A shallow embedding of [AttentionBackwardKernel]: its launch-time
    validation, workspace sizing, the tile scheduler of [attention_kernel],
    the delta pre-pass ([computeDelta]), the boundary zero-fill
    ([zfillGradKV]) and the element-wise stages of [processBlockIJ].

    Conventions.
    - Template parameters of the kernel are the fields of [KernelConfig].
    - Integers of the source are modelled in [Z]; where the source forms
      products of dimensions in 32-bit arithmetic (workspace sizing) the
      wrap-around is written out.
    - The element types [scalar_t] (storage) and [accum_t] (accumulation,
      [float] in the source) are abstract, with their arithmetic given by
      the class [Arith]; floating-point rounding is whatever the instance
      says it is.
    - A tensor is the array reached from its base pointer: global memory
      that the kernel reads is a function from element offsets, global
      memory that the kernel writes is a finite map from element offsets
      (an absent key is a cell the kernel has not written).
    - A threadblock-wide tile (register fragments of all threads taken
      together, or a shared-memory tile) is a function from tile
      coordinates. *)

From Stdlib Require Import ZArith List Bool Lia String.
From Stdlib Require Import SpecFloat.
From stdpp Require Import base gmap.

Local Open Scope Z_scope.

(** ** Machine integers *)

Definition wrap (bits : Z) (x : Z) : Z :=
  let m := 2 ^ bits in
  let r := x mod m in
  if r <? 2 ^ (bits - 1) then r else r - m.

Definition wrap32 : Z -> Z := wrap 32.
Definition wrap64 : Z -> Z := wrap 64.

Definition fits (bits : Z) (x : Z) : Prop :=
  - 2 ^ (bits - 1) <= x < 2 ^ (bits - 1).

Definition add32 (a b : Z) : Z := wrap32 (a + b).
Definition sub32 (a b : Z) : Z := wrap32 (a - b).
Definition mul32 (a b : Z) : Z := wrap32 (a * b).
Definition add64 (a b : Z) : Z := wrap64 (a + b).
Definition sub64 (a b : Z) : Z := wrap64 (a - b).
Definition mul64 (a b : Z) : Z := wrap64 (a * b).

(** C++ integer division and remainder truncate towards zero. *)
Definition cdiv (a b : Z) : Z := Z.quot a b.
Definition cmod (a b : Z) : Z := Z.rem a b.

(** ** Loops

    [for (i = start; i < stop; i += step) body(i)] with [step >= 1].  The
    fuel [stop - start] is enough for every such loop; the final value of
    the loop variable is returned together with the state, since the source
    reads it after the loop. *)

Fixpoint for_fuel {S : Type} (fuel : nat) (i stop step : Z)
  (body : Z -> S -> S) (s : S) : Z * S :=
  match fuel with
  | O => (i, s)
  | Datatypes.S f =>
      if i <? stop then for_fuel f (i + step) stop step body (body i s)
      else (i, s)
  end.

Definition for_loop {S : Type} (start stop step : Z)
  (body : Z -> S -> S) (s : S) : Z * S :=
  for_fuel (Z.to_nat (stop - start)) start stop step body s.

(** The values taken by the loop variable, in order. *)
Definition range_step (start stop step : Z) : list Z :=
  rev (snd (for_loop start stop step (fun i acc => i :: acc) nil)).

(** [for (i = 1; i < stop; i *= 2) body(i)] *)
Fixpoint for_doubling {S : Type} (fuel : nat) (i stop : Z)
  (body : Z -> S -> S) (s : S) : S :=
  match fuel with
  | O => s
  | Datatypes.S f =>
      if i <? stop then for_doubling f (2 * i) stop body (body i s) else s
  end.

(** ** Element types *)

Class Arith := {
  scalar_t : Type;
  accum_t : Type;
  s_zero : scalar_t;
  a_zero : accum_t;
  a_add : accum_t -> accum_t -> accum_t;
  a_sub : accum_t -> accum_t -> accum_t;
  a_mul : accum_t -> accum_t -> accum_t;
  a_exp : accum_t -> accum_t;
  to_accum : scalar_t -> accum_t;
  to_scalar : accum_t -> scalar_t
}.

(** Exact integer arithmetic, used to run the model on concrete inputs.
    [a_exp] is only a stand-in there (a doubling); no statement depends on
    what it computes. *)
Definition ZArith_inst : Arith := {|
  scalar_t := Z; accum_t := Z;
  s_zero := 0; a_zero := 0;
  a_add := Z.add; a_sub := Z.sub; a_mul := Z.mul;
  a_exp := fun x => 2 * x;
  to_accum := fun x => x; to_scalar := fun x => x
|}.

(** ** IEEE arithmetic

    The accumulation type as it is in the source, binary32 with rounding to
    nearest even, and binary16 as the storage type; a binary16 value is
    held as the binary32 value it converts to.  [a_exp] is only a stand-in
    there (the identity); no statement made in this instance depends on
    what it computes. *)
Definition round_to_half (x : spec_float) : spec_float :=
  match x with
  | S754_finite s m e => binary_round 11 16 s m e
  | _ => x
  end.

Definition Float_inst : Arith := {|
  scalar_t := spec_float; accum_t := spec_float;
  s_zero := S754_zero false; a_zero := S754_zero false;
  a_add := SFadd 24 128; a_sub := SFsub 24 128; a_mul := SFmul 24 128;
  a_exp := fun x => x;
  to_accum := fun x => x; to_scalar := round_to_half
|}.

(** The binary32 value of a small integer. *)
Definition float_of_Z (z : Z) : spec_float := binary_normalize 24 128 z 0 false.

(** ** Template parameters *)

Record KernelConfig := {
  (* scalar_t_: its width, and whether it is [float] *)
  scalar_bits : Z;
  scalar_is_float : bool;
  (* ArchTag_::kMinComputeCapability *)
  kMinComputeCapability : Z;
  kIsAligned : bool;
  kApplyDropout : bool;
  kPreload : bool;
  kBlockSizeI : Z;
  kBlockSizeJ : Z;
  kMaxK : Z;
  (* Broadcast1_<...>::kEnable, Broadcast2_<...>::kEnable *)
  broadcast_1_kEnable : bool;
  broadcast_2_kEnable : bool;
  (* GemmType::kMinimumAlignment (gemm_kernel_utils.h) *)
  kMinimumAlignment : Z;
  (* MatmulGradK::DefaultMmaFromSmem::kIsTransposedA (mma_from_smem.h),
     where DefaultMmaFromSmemT is instantiated with kTransposeA = kPreload *)
  kIsTransposedA : bool
}.

Section Kernel.

Context `{AR : Arith}.
Variable cfg : KernelConfig.

Definition kWarpSize : Z := 32.

Definition kIsHalf : bool := scalar_bits cfg <=? 16.
Definition kOutputInRF : bool := kIsHalf && (kMaxK cfg <=? kBlockSizeI cfg).
Definition kNumWarpsPerBlock : Z :=
  cdiv (kBlockSizeI cfg * kBlockSizeJ cfg) (32 * 32).
Definition kKernelComputesDelta : bool :=
  kIsHalf && (kOutputInRF || negb (kMinComputeCapability cfg =? 70)).
(* !is_same<output_accum_t, output_t>, with output_accum_t = float and
   output_t = scalar_t *)
Definition kNeedsAccumGradQ : bool := negb (scalar_is_float cfg).
Definition kNeedsAccumGradK : bool :=
  negb kOutputInRF && negb (scalar_is_float cfg).
Definition kNeedsAccumGradV : bool :=
  negb kOutputInRF && negb (scalar_is_float cfg).
Definition kNumThreads : Z := kWarpSize * kNumWarpsPerBlock.

(** ** Params *)

Record Params := {
  query_ptr : Z;
  key_ptr : Z;
  value_ptr : Z;
  output_ptr : Z;
  grad_output_ptr : Z;
  (* nullptr is 0 *)
  grad_bias1_ptr : Z;
  grad_bias2_ptr : Z;
  scale : accum_t;
  head_dim : Z;
  head_dim_value : Z;
  num_queries : Z;
  num_keys : Z;
  num_heads : Z;
  q_strideM : Z;
  k_strideM : Z;
  v_strideM : Z;
  gO_strideM : Z;
  gQKV_strideM_multiplier : Z;
  dropout_prob : spec_float;
  q_strideH : Z;
  k_strideH : Z;
  v_strideH : Z;
  q_strideB : Z;
  k_strideB : Z;
  v_strideB : Z;
  lse_strideB : Z;
  lse_strideH : Z;
  num_batches : Z
}.

Definition o_strideM (p : Params) : Z := head_dim_value p * num_heads p.
Definition gQ_strideM (p : Params) : Z :=
  gQKV_strideM_multiplier p * num_heads p * head_dim p.
Definition gK_strideM (p : Params) : Z :=
  gQKV_strideM_multiplier p * num_heads p * head_dim p.
Definition gV_strideM (p : Params) : Z :=
  gQKV_strideM_multiplier p * num_heads p * head_dim_value p.

(** ** Workspace sizing *)

(** Modelled from the spec: [ceil_div] is declared in gemm_kernel_utils.h,
    which is not among the sources at hand; it divides rounding up. *)
Definition ceil_div (n m : Z) : Z := cdiv (n + m - 1) m.

(** Modelled from the spec: [align_up] is declared in gemm_kernel_utils.h,
    which is not among the sources at hand; it rounds up to the next
    multiple.  This is the function in exact arithmetic. *)
Definition align_up (n m : Z) : Z := cdiv (n + m - 1) m * m.

(** Modelled from the spec: [align_up] of gemm_kernel_utils.h instantiated
    at [int32_t]. *)
Definition align_up32 (n m : Z) : Z :=
  mul32 (cdiv (sub32 (add32 n m) 1) m) m.

(** Modelled from the spec: [align_up] of gemm_kernel_utils.h instantiated
    at [int64_t]. *)
Definition align_up64 (n m : Z) : Z :=
  mul64 (cdiv (sub64 (add64 n m) 1) m) m.

(** The product of the two [int32_t] values is formed in 32 bits and then
    widened to the [int64_t] result. *)
Definition workspace_elements_gk (p : Params) : Z :=
  if negb kNeedsAccumGradK then 0
  else mul32 (align_up32 (num_keys p) (kBlockSizeJ cfg))
             (align_up32 (head_dim p) (kBlockSizeI cfg)).

Definition workspace_elements_gv (p : Params) : Z :=
  if negb kNeedsAccumGradV then 0
  else mul32 (align_up32 (num_keys p) (kBlockSizeJ cfg))
             (align_up32 (head_dim_value p) (kBlockSizeI cfg)).

Definition workspace_elements_gq (p : Params) : Z :=
  if negb kNeedsAccumGradQ then 0
  else if num_keys p <=? kBlockSizeJ cfg then 0
  else mul32 (align_up32 (num_queries p) (kBlockSizeI cfg))
             (align_up32 (head_dim p) (kBlockSizeJ cfg)).

Definition workspace_strideBH (p : Params) : Z :=
  align_up64
    (add64 (add64 (workspace_elements_gk p) (workspace_elements_gv p))
           (workspace_elements_gq p))
    4.

Definition sizeof_float : Z := 4.

(** [num_batches * num_heads] is an [int32_t] product, the product with the
    stride an [int64_t] one, and the product with [sizeof(float)] is formed
    in [size_t] before it is returned as [int64_t]. *)
Definition workspace_size (p : Params) : Z :=
  wrap64
    ((mul64 (mul32 (num_batches p) (num_heads p)) (workspace_strideBH p)
      mod 2 ^ 64) * sizeof_float).

(** ** Launch-time validation *)

Inductive check_result :=
| Supported
| Unsupported (err : string).

(** Modelled from the spec: the macro [EVOFORMER_CHECK] comes from
    gemm_kernel_utils.h, which is not among the sources at hand.  A failed
    condition is a named failure that ends the validation at once. *)
Definition EVOFORMER_CHECK (cond : bool) (err : string)
  (rest : check_result) : check_result :=
  if cond then rest else Unsupported err.

(** Modelled from the spec: the macro [CHECK_ALIGNED_PTR] comes from
    gemm_kernel_utils.h, which is not among the sources at hand.  It checks
    that the pointer is a multiple of the alignment. *)
Definition CHECK_ALIGNED_PTR (ptr : Z) (name : string) (alignment : Z)
  (rest : check_result) : check_result :=
  EVOFORMER_CHECK (cmod ptr alignment =? 0)
    (name ++ " is not correctly aligned") rest.

(* binary32 literals *)
Definition float_zero : spec_float := S754_zero false.
Definition float_one : spec_float := S754_finite false 8388608 (-23).

Definition check_supported (p : Params) : check_result :=
  let al := kMinimumAlignment cfg in
  CHECK_ALIGNED_PTR (query_ptr p) "p.query_ptr" al (
  CHECK_ALIGNED_PTR (key_ptr p) "p.key_ptr" al (
  CHECK_ALIGNED_PTR (value_ptr p) "p.value_ptr" al (
  CHECK_ALIGNED_PTR (output_ptr p) "p.output_ptr" al (
  CHECK_ALIGNED_PTR (grad_output_ptr p) "p.grad_output_ptr" al (
  EVOFORMER_CHECK (cmod (lse_strideH p) 8 =? 0)
    "LSE is not correctly aligned" (
  EVOFORMER_CHECK (cmod (lse_strideB p) 8 =? 0)
    "LSE is not correctly aligned" (
  EVOFORMER_CHECK ((num_heads p <=? 1) || (cmod (q_strideH p) al =? 0))
    "query is not correctly aligned (strideH)" (
  EVOFORMER_CHECK ((num_heads p <=? 1) || (cmod (k_strideH p) al =? 0))
    "key is not correctly aligned (strideH)" (
  EVOFORMER_CHECK ((num_heads p <=? 1) || (cmod (v_strideH p) al =? 0))
    "value is not correctly aligned (strideH)" (
  EVOFORMER_CHECK ((num_batches p <=? 1) || (cmod (q_strideB p) al =? 0))
    "query is not correctly aligned (strideB)" (
  EVOFORMER_CHECK ((num_batches p <=? 1) || (cmod (k_strideB p) al =? 0))
    "key is not correctly aligned (strideB)" (
  EVOFORMER_CHECK ((num_batches p <=? 1) || (cmod (v_strideB p) al =? 0))
    "value is not correctly aligned (strideB)" (
  EVOFORMER_CHECK (cmod (q_strideM p) al =? 0)
    "query is not correctly aligned (strideM)" (
  EVOFORMER_CHECK (cmod (k_strideM p) al =? 0)
    "key is not correctly aligned (strideM)" (
  EVOFORMER_CHECK (cmod (v_strideM p) al =? 0)
    "value is not correctly aligned (strideM)" (
  EVOFORMER_CHECK (SFleb (dropout_prob p) float_one
                   && SFleb float_zero (dropout_prob p))
    "Invalid value for `dropout_prob`" (
  EVOFORMER_CHECK (kApplyDropout cfg || SFeqb (dropout_prob p) float_zero)
    "Set `kApplyDropout`=True to support `dropout_prob > 0`" (
  EVOFORMER_CHECK (0 <? head_dim p) "Invalid value for `head_dim`" (
  EVOFORMER_CHECK (0 <? head_dim_value p)
    "Invalid value for `head_dim_value`" (
  EVOFORMER_CHECK (0 <? num_queries p) "Invalid value for `num_queries`" (
  EVOFORMER_CHECK (0 <? num_keys p) "Invalid value for `num_keys`" (
  EVOFORMER_CHECK (0 <? num_heads p) "Invalid value for `num_heads`" (
  EVOFORMER_CHECK (0 <? num_batches p) "Invalid value for `num_batches`" (
  EVOFORMER_CHECK (head_dim p <=? kMaxK cfg)
    "kMaxK: Expected `head_dim < kMaxK`" (
  EVOFORMER_CHECK (head_dim_value p <=? kMaxK cfg)
    "kMaxK: Expected `head_dim_value < kMaxK`"
  Supported))))))))))))))))))))))))).

(** The preconditions as the specification lists them: pointer alignment,
    LogSumExp batch and head strides multiples of 8, per-row strides
    aligned, dropout probability in [0,1] and zero unless the kernel variant
    applies dropout, all dimension counts strictly positive, feature
    dimensions at most [kMaxK]. *)
Definition listed_preconditions (p : Params) : bool :=
  let al := kMinimumAlignment cfg in
  (cmod (query_ptr p) al =? 0) && (cmod (key_ptr p) al =? 0)
  && (cmod (value_ptr p) al =? 0) && (cmod (output_ptr p) al =? 0)
  && (cmod (grad_output_ptr p) al =? 0)
  && (cmod (lse_strideB p) 8 =? 0) && (cmod (lse_strideH p) 8 =? 0)
  && (cmod (q_strideM p) al =? 0) && (cmod (k_strideM p) al =? 0)
  && (cmod (v_strideM p) al =? 0)
  && (SFleb float_zero (dropout_prob p) && SFleb (dropout_prob p) float_one)
  && (kApplyDropout cfg || SFeqb (dropout_prob p) float_zero)
  && (0 <? head_dim p) && (0 <? head_dim_value p)
  && (0 <? num_queries p) && (0 <? num_keys p)
  && (0 <? num_heads p) && (0 <? num_batches p)
  && (head_dim p <=? kMaxK cfg) && (head_dim_value p <=? kMaxK cfg).

(** The conditions the listing leaves out: head and batch strides of
    query, key and value, checked only when there is more than one head,
    resp. batch. *)
Definition head_batch_stride_preconditions (p : Params) : bool :=
  let al := kMinimumAlignment cfg in
  ((num_heads p <=? 1) || (cmod (q_strideH p) al =? 0))
  && ((num_heads p <=? 1) || (cmod (k_strideH p) al =? 0))
  && ((num_heads p <=? 1) || (cmod (v_strideH p) al =? 0))
  && ((num_batches p <=? 1) || (cmod (q_strideB p) al =? 0))
  && ((num_batches p <=? 1) || (cmod (k_strideB p) al =? 0))
  && ((num_batches p <=? 1) || (cmod (v_strideB p) al =? 0)).

(** ** Tiles, tensors and state *)

Definition tile (T : Type) : Type := Z -> Z -> T.

(** Tensors the kernel only reads, each seen from its pointer after
    [advance_to_block]. *)
Record Inputs := {
  query : Z -> scalar_t;
  key : Z -> scalar_t;
  value : Z -> scalar_t;
  output : Z -> scalar_t;
  grad_output : Z -> scalar_t;
  logsumexp : Z -> accum_t
}.

(** The logical buffers of [SharedStorage].  The unions that make buffers
    of different phases share memory are not modelled. *)
Record SharedStorage := {
  di : Z -> accum_t;
  bias : tile accum_t;
  attn_shared_storage : tile scalar_t;
  zij : tile scalar_t;
  tmpT_shared_storage : tile scalar_t;
  tmp_shared_storage : tile scalar_t
}.

Record OutputFragments := {
  gradV : tile accum_t;
  gradK : tile accum_t
}.

(** Global memory the kernel writes.  The workspace is addressed by the
    [storage_id] of a [GmemTile]. *)
Record GlobalMem := {
  delta : gmap Z accum_t;
  grad_query : gmap Z scalar_t;
  grad_key : gmap Z scalar_t;
  grad_value : gmap Z scalar_t;
  grad_bias1 : gmap Z accum_t;
  grad_bias2 : gmap Z accum_t;
  workspace_gk : Z -> tile accum_t;
  workspace_gv : Z -> tile accum_t;
  workspace_gq : Z -> tile accum_t
}.

Record KernelState := {
  shared_storage : SharedStorage;
  output_frags : OutputFragments;
  gmem : GlobalMem
}.

Definition set_di (v : Z -> accum_t) (s : SharedStorage) : SharedStorage :=
  Build_SharedStorage v (bias s) (attn_shared_storage s) (zij s)
    (tmpT_shared_storage s) (tmp_shared_storage s).
Definition set_bias (v : tile accum_t) (s : SharedStorage) : SharedStorage :=
  Build_SharedStorage (di s) v (attn_shared_storage s) (zij s)
    (tmpT_shared_storage s) (tmp_shared_storage s).
Definition set_attn_shared_storage (v : tile scalar_t) (s : SharedStorage)
  : SharedStorage :=
  Build_SharedStorage (di s) (bias s) v (zij s)
    (tmpT_shared_storage s) (tmp_shared_storage s).
Definition set_tmpT_shared_storage (v : tile scalar_t) (s : SharedStorage)
  : SharedStorage :=
  Build_SharedStorage (di s) (bias s) (attn_shared_storage s) (zij s)
    v (tmp_shared_storage s).
Definition set_tmp_shared_storage (v : tile scalar_t) (s : SharedStorage)
  : SharedStorage :=
  Build_SharedStorage (di s) (bias s) (attn_shared_storage s) (zij s)
    (tmpT_shared_storage s) v.

Definition set_gradV (v : tile accum_t) (f : OutputFragments)
  : OutputFragments := Build_OutputFragments v (gradK f).
Definition set_gradK (v : tile accum_t) (f : OutputFragments)
  : OutputFragments := Build_OutputFragments (gradV f) v.

Definition set_delta (v : gmap Z accum_t) (g : GlobalMem) : GlobalMem :=
  Build_GlobalMem v (grad_query g) (grad_key g) (grad_value g)
    (grad_bias1 g) (grad_bias2 g) (workspace_gk g) (workspace_gv g)
    (workspace_gq g).
Definition set_grad_query (v : gmap Z scalar_t) (g : GlobalMem) : GlobalMem :=
  Build_GlobalMem (delta g) v (grad_key g) (grad_value g)
    (grad_bias1 g) (grad_bias2 g) (workspace_gk g) (workspace_gv g)
    (workspace_gq g).
Definition set_grad_key (v : gmap Z scalar_t) (g : GlobalMem) : GlobalMem :=
  Build_GlobalMem (delta g) (grad_query g) v (grad_value g)
    (grad_bias1 g) (grad_bias2 g) (workspace_gk g) (workspace_gv g)
    (workspace_gq g).
Definition set_grad_value (v : gmap Z scalar_t) (g : GlobalMem) : GlobalMem :=
  Build_GlobalMem (delta g) (grad_query g) (grad_key g) v
    (grad_bias1 g) (grad_bias2 g) (workspace_gk g) (workspace_gv g)
    (workspace_gq g).
Definition set_grad_bias1 (v : gmap Z accum_t) (g : GlobalMem) : GlobalMem :=
  Build_GlobalMem (delta g) (grad_query g) (grad_key g) (grad_value g)
    v (grad_bias2 g) (workspace_gk g) (workspace_gv g) (workspace_gq g).
Definition set_grad_bias2 (v : gmap Z accum_t) (g : GlobalMem) : GlobalMem :=
  Build_GlobalMem (delta g) (grad_query g) (grad_key g) (grad_value g)
    (grad_bias1 g) v (workspace_gk g) (workspace_gv g) (workspace_gq g).
Definition set_workspace_gk (v : Z -> tile accum_t) (g : GlobalMem)
  : GlobalMem :=
  Build_GlobalMem (delta g) (grad_query g) (grad_key g) (grad_value g)
    (grad_bias1 g) (grad_bias2 g) v (workspace_gv g) (workspace_gq g).
Definition set_workspace_gv (v : Z -> tile accum_t) (g : GlobalMem)
  : GlobalMem :=
  Build_GlobalMem (delta g) (grad_query g) (grad_key g) (grad_value g)
    (grad_bias1 g) (grad_bias2 g) (workspace_gk g) v (workspace_gq g).
Definition set_workspace_gq (v : Z -> tile accum_t) (g : GlobalMem)
  : GlobalMem :=
  Build_GlobalMem (delta g) (grad_query g) (grad_key g) (grad_value g)
    (grad_bias1 g) (grad_bias2 g) (workspace_gk g) (workspace_gv g) v.

Definition with_shared (f : SharedStorage -> SharedStorage)
  (st : KernelState) : KernelState :=
  Build_KernelState (f (shared_storage st)) (output_frags st) (gmem st).
Definition with_frags (f : OutputFragments -> OutputFragments)
  (st : KernelState) : KernelState :=
  Build_KernelState (shared_storage st) (f (output_frags st)) (gmem st).
Definition with_gmem (f : GlobalMem -> GlobalMem)
  (st : KernelState) : KernelState :=
  Build_KernelState (shared_storage st) (output_frags st) (f (gmem st)).

Definition slot_store {T : Type} (slots : Z -> T) (id : Z) (v : T)
  : Z -> T := fun i => if i =? id then v else slots i.

Definition zero_tile : tile accum_t := fun _ _ => a_zero.

(** ** External collaborators

    The matrix-multiply engine and the epilogues come from CUTLASS and from
    headers of this kernel that are not among the sources at hand.  They are
    taken as an interface: an engine gets the problem size, its operand
    tiles and the accumulator it adds to, and returns the accumulator
    tile. *)
Class Engine := {
  (* MakeCustomMma<...>::Mma: D = A x B + C; the flag is
     set_zero_outside_bounds *)
  mma : bool -> Z * Z * Z -> tile scalar_t -> tile scalar_t ->
        tile accum_t -> tile accum_t;
  (* DefaultMmaFromSharedMemory<...>::Mma: operand A is a shared-memory
     tile, optionally scaled element-wise by a second shared-memory tile *)
  mma_from_smem : Z * Z * Z -> tile scalar_t -> option (tile scalar_t) ->
        tile scalar_t -> tile accum_t -> tile accum_t;
  (* AttentionBiasEpilogue: the bias tile built from the two bias tensors
     at their offsets, for an extent and a row stride *)
  AttentionBiasEpilogue : Z -> Z -> Z * Z -> Z -> tile accum_t;
  (* BiasGradEpilogueAffineRankN / BiasGradEpilogue: destination, offset of
     the destination pointer, extent, fragment *)
  BiasGradEpilogueAffineRankN :
    gmap Z accum_t -> Z -> Z * Z -> tile accum_t -> gmap Z accum_t;
  BiasGradEpilogue :
    gmap Z accum_t -> Z -> Z -> Z * Z -> tile accum_t -> gmap Z accum_t;
  (* EpiloguePipelined as used by accumulateInGmem: destination, offset of
     the destination pointer, row stride, extent, fragment, and whether the
     destination is overwritten (first) or added to *)
  EpiloguePipelined :
    gmap Z scalar_t -> Z -> Z -> Z * Z -> tile accum_t -> bool ->
    gmap Z scalar_t
}.

Context `{EN : Engine}.

(** Modelled from the spec: [B2bGemm::accumApplyLSEToSmem] is defined in
    gemm/mma_from_smem.h, which is not among the sources at hand.  It
    subtracts the log-sum-exp of the query row (the column of the
    transposed tile), exponentiates, and stores the tile in the storage
    type. *)
Definition accumApplyLSEToSmem (accum : tile accum_t) (lse : Z -> accum_t)
  : tile scalar_t :=
  fun m n => to_scalar (a_exp (a_sub (accum m n) (lse n))).

(** Modelled from the spec: [B2bGemm::accumToSmem] is defined in
    gemm/mma_from_smem.h, which is not among the sources at hand.  It
    stores the accumulator tile to shared memory in the storage type. *)
Definition accumToSmem (accum : tile accum_t) : tile scalar_t :=
  fun m n => to_scalar (accum m n).

(** ** Iteration helpers *)

Definition getQueryStart (p : Params) (key_start : Z) : Z := 0.

(** Returns [(next_query, next_key)]. *)
Definition incrIteration (p : Params) (query_start key_start : Z) : Z * Z :=
  let next_query := query_start + kBlockSizeI cfg in
  let next_key := key_start in
  if next_query >=? num_queries p then
    let next_key := key_start + kBlockSizeJ cfg in
    (getQueryStart p next_key, next_key)
  else (next_query, next_key).

(* MatmulQK::Mma::Shape is the threadblock shape
   GemmShape<kBlockSizeJ, kBlockSizeI, ThreadK> *)
Definition MatmulQK_kM : Z := kBlockSizeJ cfg.
Definition MatmulQK_kN : Z := kBlockSizeI cfg.

Definition num_queries_in_block (skipBoundsChecks : bool) (p : Params)
  (query_start : Z) : Z :=
  if skipBoundsChecks then MatmulQK_kN
  else Z.min MatmulQK_kN (num_queries p - query_start).

Definition num_keys_in_block (skipBoundsChecks : bool) (p : Params)
  (key_start : Z) : Z :=
  if skipBoundsChecks then MatmulQK_kM
  else Z.min MatmulQK_kM (num_keys p - key_start).

(** Reading a cell of global memory the kernel may have written. *)
Definition read_accum (m : gmap Z accum_t) (a : Z) : accum_t :=
  default a_zero (m !! a).

(** Threads [0 .. kNumThreads-1] run [loadDi]; thread [t] fills [di[t]]
    when [t < kBlockSizeI]. *)
Definition loadDi (d : Z -> accum_t) (dmem : gmap Z accum_t) (p : Params)
  (query_start : Z) : Z -> accum_t :=
  fun thread_id =>
    if (0 <=? thread_id) && (thread_id <? kNumThreads)
       && (thread_id <? kBlockSizeI cfg)
    then
      if query_start + thread_id <? num_queries p
      then read_accum dmem (query_start + thread_id)
      else a_zero
    else d thread_id.

(** ** processBlockIJ *)

(** MatmulQK: the recomputed attention tile, transposed (key rows, query
    columns). *)
Definition MatmulQK_accum (skipBoundsChecks : bool) (p : Params)
  (inp : Inputs) (query_start key_start : Z) : tile accum_t :=
  let problem_size :=
    (num_keys_in_block skipBoundsChecks p key_start,
     num_queries_in_block skipBoundsChecks p query_start,
     head_dim p) in
  (* k_j, row-major with stride k_strideM *)
  let iterator_A : tile scalar_t :=
    fun m k => key inp ((key_start + m) * k_strideM p + k) in
  (* q_i.transpose(-2, -1), column-major with stride q_strideM *)
  let iterator_B : tile scalar_t :=
    fun k n => query inp ((query_start + n) * q_strideM p + k) in
  mma (negb skipBoundsChecks) problem_size iterator_A iterator_B zero_tile.

Definition bias_enabled : bool :=
  broadcast_1_kEnable cfg || broadcast_2_kEnable cfg.

Definition MatmulQK_bias_tile (skipBoundsChecks : bool) (p : Params)
  (query_start key_start : Z) : tile accum_t :=
  AttentionBiasEpilogue key_start
    (query_start * num_keys p + key_start)
    (num_queries_in_block skipBoundsChecks p query_start,
     num_keys_in_block skipBoundsChecks p key_start)
    (num_keys p).

Definition stage_MatmulQK (skipBoundsChecks : bool) (p : Params)
  (inp : Inputs) (query_start key_start : Z) (st : KernelState)
  : KernelState :=
  let accum := MatmulQK_accum skipBoundsChecks p inp query_start key_start in
  let '(st, accum) :=
    if bias_enabled then
      let bias_tensor_ref :=
        MatmulQK_bias_tile skipBoundsChecks p query_start key_start in
      (with_shared (set_bias bias_tensor_ref) st,
       (* remember we are transposed *)
       (fun accum_m accum_n =>
          a_add (a_mul (accum accum_m accum_n) (scale p))
                (bias_tensor_ref accum_n accum_m)) : tile accum_t)
    else
      (st, (fun m n => a_mul (scale p) (accum m n)) : tile accum_t) in
  with_shared
    (set_attn_shared_storage
       (accumApplyLSEToSmem accum
          (fun n => logsumexp inp (query_start + n))))
    st.

Definition accumulateInGmem (dst : gmap Z scalar_t) (offset stride : Z)
  (extent : Z * Z) (accum : tile accum_t) (first : bool) : gmap Z scalar_t :=
  EpiloguePipelined dst offset stride extent accum first.

(* MatmulGradV::ThreadblockShape and MatmulGradK::ThreadblockShape are
   GemmShape<kBlockSizeJ, kBlockSizeI, ThreadK>; MatmulGradQ::ThreadblockShape
   and MatmulDOIVJ::ThreadblockShape are
   GemmShape<kBlockSizeI, kBlockSizeJ, ThreadK> *)
Definition MatmulGradV_kN : Z := kBlockSizeI cfg.
Definition MatmulGradQ_kN : Z := kBlockSizeJ cfg.
Definition MatmulGradK_kN : Z := kBlockSizeI cfg.

Definition kSingleIterationGradV : bool := kMaxK cfg <=? MatmulGradV_kN.
Definition kSingleIterationGradQ : bool := kMaxK cfg <=? MatmulGradQ_kN.
Definition kSingleIterationGradK : bool := kMaxK cfg <=? MatmulGradK_kN.

(** The operand that scales operand A of the GradV matmul: the dropout
    mask tile [zij], used when [kApplyDropout]. *)
Definition GradV_scale_operand (st : KernelState) : option (tile scalar_t) :=
  if kApplyDropout cfg then Some (zij (shared_storage st)) else None.

Definition stage_GradV (skipBoundsChecks : bool) (p : Params)
  (inp : Inputs) (query_start key_start : Z)
  (isFirstQuery isLastQuery : bool) (st : KernelState) : KernelState :=
  let num_queries_in_block :=
    num_queries_in_block skipBoundsChecks p query_start in
  let num_keys_in_block := num_keys_in_block skipBoundsChecks p key_start in
  snd (for_loop 0 (if kSingleIterationGradV then 1 else head_dim_value p)
         MatmulGradV_kN
    (fun col st =>
       let problem_size :=
         (num_keys_in_block, head_dim_value p - col, num_queries_in_block) in
       let iterator_B : tile scalar_t :=
         fun r c => grad_output inp ((query_start + r) * gO_strideM p
                                     + col + c) in
       let storage_id := cdiv col MatmulGradV_kN in
       let st :=
         if negb kOutputInRF then
           if isFirstQuery || negb kNeedsAccumGradV
           then with_frags (set_gradV zero_tile) st
           else with_frags (set_gradV (workspace_gv (gmem st) storage_id)) st
         else st in
       let st :=
         with_frags
           (set_gradV
              (mma_from_smem problem_size
                 (attn_shared_storage (shared_storage st))
                 (GradV_scale_operand st)
                 iterator_B (gradV (output_frags st))))
           st in
       if negb kOutputInRF then
         if kNeedsAccumGradV && negb isLastQuery then
           with_gmem
             (set_workspace_gv
                (slot_store (workspace_gv (gmem st)) storage_id
                   (gradV (output_frags st))))
             st
         else
           with_gmem
             (set_grad_value
                (accumulateInGmem (grad_value (gmem st))
                   (key_start * gV_strideM p + col) (gV_strideM p)
                   (num_keys_in_block, head_dim_value p - col)
                   (gradV (output_frags st))
                   (isFirstQuery || kNeedsAccumGradV)))
             st
       else st)
    st).

(** MatmulDOIVJ: [do_i @ v_j.transpose(-2, -1)]. *)
Definition MatmulDOIVJ_accum (skipBoundsChecks : bool) (p : Params)
  (inp : Inputs) (query_start key_start : Z) : tile accum_t :=
  let num_queries_in_block :=
    num_queries_in_block skipBoundsChecks p query_start in
  let num_keys_in_block := num_keys_in_block skipBoundsChecks p key_start in
  let iterator_A : tile scalar_t :=
    fun m k => grad_output inp ((query_start + m) * gO_strideM p + k) in
  let iterator_B : tile scalar_t :=
    fun k n => value inp ((key_start + n) * v_strideM p + k) in
  mma (negb skipBoundsChecks)
    (num_queries_in_block, num_keys_in_block, head_dim_value p)
    iterator_A iterator_B zero_tile.

(** [dSij = (dPij - Di) * Pij], zero outside the valid rows and columns. *)
Definition scoreGrad_correction (skipBoundsChecks : bool)
  (num_queries_in_block num_keys_in_block : Z)
  (d : Z -> accum_t) (attn_T : tile scalar_t) (accum : tile accum_t)
  : tile accum_t :=
  fun accum_m accum_n =>
    let current_di := d accum_m in
    if skipBoundsChecks
       || ((accum_m <? num_queries_in_block)
           && (accum_n <? num_keys_in_block))
    then
      let attn := to_accum (attn_T accum_n accum_m) in
      a_mul (a_sub (accum accum_m accum_n) current_di) attn
    else a_zero.

(** The score-gradient tile [dSij] held in registers after the
    correction, from the state at the entry of the MatmulDOIVJ stage. *)
Definition DOIVJ_scoreGrad (skipBoundsChecks : bool) (p : Params)
  (inp : Inputs) (query_start key_start : Z) (st : KernelState)
  : tile accum_t :=
  scoreGrad_correction skipBoundsChecks
    (num_queries_in_block skipBoundsChecks p query_start)
    (num_keys_in_block skipBoundsChecks p key_start)
    (di (shared_storage st))
    (attn_shared_storage (shared_storage st))
    (MatmulDOIVJ_accum skipBoundsChecks p inp query_start key_start).

Definition stage_MatmulDOIVJ (skipBoundsChecks : bool) (p : Params)
  (inp : Inputs) (query_start key_start : Z) (st : KernelState)
  : KernelState :=
  let num_queries_in_block :=
    num_queries_in_block skipBoundsChecks p query_start in
  let num_keys_in_block := num_keys_in_block skipBoundsChecks p key_start in
  let accum :=
    DOIVJ_scoreGrad skipBoundsChecks p inp query_start key_start st in
  let st :=
    if broadcast_1_kEnable cfg && negb (grad_bias1_ptr p =? 0) then
      with_gmem
        (fun g =>
           set_grad_bias1
             (BiasGradEpilogueAffineRankN (grad_bias1 g) key_start
                (num_queries_in_block, num_keys_in_block) accum) g)
        st
    else st in
  let st :=
    if broadcast_2_kEnable cfg && negb (grad_bias2_ptr p =? 0) then
      with_gmem
        (fun g =>
           set_grad_bias2
             (BiasGradEpilogue (grad_bias2 g)
                (query_start * num_keys p + key_start) (num_keys p)
                (num_queries_in_block, num_keys_in_block) accum) g)
        st
    else st in
  let accum : tile accum_t := fun m n => a_mul (accum m n) (scale p) in
  let st :=
    if negb (kIsTransposedA cfg) then
      with_shared
        (set_tmpT_shared_storage
           (fun accum_n accum_m => to_scalar (accum accum_m accum_n)))
        st
    else st in
  with_shared (set_tmp_shared_storage (accumToSmem accum)) st.

Definition stage_GradQ (skipBoundsChecks : bool) (p : Params)
  (inp : Inputs) (query_start key_start : Z) (st : KernelState)
  : KernelState :=
  let num_queries_in_block :=
    num_queries_in_block skipBoundsChecks p query_start in
  let num_keys_in_block := num_keys_in_block skipBoundsChecks p key_start in
  snd (for_loop 0 (if kSingleIterationGradQ then 1 else head_dim p)
         MatmulGradQ_kN
    (fun col st =>
       let problem_size :=
         (num_queries_in_block, head_dim p - col, num_keys_in_block) in
       let iterator_B : tile scalar_t :=
         fun r c => key inp ((key_start + r) * k_strideM p + col + c) in
       let isFirst := key_start =? 0 in
       let col_id := cdiv col MatmulGradQ_kN in
       let num_cols :=
         if kSingleIterationGradQ then 1
         else ceil_div (head_dim p) MatmulGradQ_kN in
       let storage_id :=
         col_id + cdiv query_start (kBlockSizeI cfg) * num_cols in
       let accum :=
         if isFirst || negb kNeedsAccumGradQ then zero_tile
         else workspace_gq (gmem st) storage_id in
       let accum :=
         mma_from_smem problem_size
           (tmp_shared_storage (shared_storage st)) None iterator_B accum in
       let '(next_query, next_key) :=
         incrIteration p (num_queries p) key_start in
       let isLast :=
         (next_query >? query_start) || (next_key >=? num_keys p) in
       if kNeedsAccumGradQ && negb isLast then
         with_gmem
           (set_workspace_gq
              (slot_store (workspace_gq (gmem st)) storage_id accum))
           st
       else
         with_gmem
           (set_grad_query
              (accumulateInGmem (grad_query (gmem st))
                 (query_start * gQ_strideM p + col) (gQ_strideM p)
                 (num_queries_in_block, head_dim p - col)
                 accum (isFirst || kNeedsAccumGradQ)))
           st)
    st).

(** Operand A of the GradK matmul as the engine sees it (key rows, query
    columns): [tmp] read transposed when [kIsTransposedA], else [tmpT]. *)
Definition GradK_operand_A (st : KernelState) : tile scalar_t :=
  if kIsTransposedA cfg
  then fun n m => tmp_shared_storage (shared_storage st) m n
  else tmpT_shared_storage (shared_storage st).

Definition stage_GradK (skipBoundsChecks : bool) (p : Params)
  (inp : Inputs) (query_start key_start : Z)
  (isFirstQuery isLastQuery : bool) (st : KernelState) : KernelState :=
  let num_queries_in_block :=
    num_queries_in_block skipBoundsChecks p query_start in
  let num_keys_in_block := num_keys_in_block skipBoundsChecks p key_start in
  snd (for_loop 0 (if kSingleIterationGradK then 1 else head_dim p)
         MatmulGradK_kN
    (fun col st =>
       let problem_size :=
         (num_keys_in_block, head_dim p - col, num_queries_in_block) in
       let iterator_B : tile scalar_t :=
         fun r c => query inp ((query_start + r) * q_strideM p + col + c) in
       let opA := GradK_operand_A st in
       let storage_id := cdiv col MatmulGradK_kN in
       let st :=
         if negb kOutputInRF then
           if isFirstQuery || negb kNeedsAccumGradK
           then with_frags (set_gradK zero_tile) st
           else with_frags (set_gradK (workspace_gk (gmem st) storage_id)) st
         else st in
       let st :=
         with_frags
           (set_gradK
              (mma_from_smem problem_size opA None iterator_B
                 (gradK (output_frags st))))
           st in
       if negb kOutputInRF then
         if kNeedsAccumGradK && negb isLastQuery then
           with_gmem
             (set_workspace_gk
                (slot_store (workspace_gk (gmem st)) storage_id
                   (gradK (output_frags st))))
             st
         else
           with_gmem
             (set_grad_key
                (accumulateInGmem (grad_key (gmem st))
                   (key_start * gK_strideM p + col) (gK_strideM p)
                   (num_keys_in_block, head_dim p - col)
                   (gradK (output_frags st))
                   (isFirstQuery || kNeedsAccumGradK)))
             st
       else st)
    st).

Definition isFirstQuery (p : Params) (query_start key_start : Z) : bool :=
  query_start =? getQueryStart p key_start.

Definition isLastQuery (p : Params) (query_start key_start : Z) : bool :=
  let '(next_query, next_key) := incrIteration p query_start key_start in
  negb (next_key =? key_start).

(** [processBlockIJ] up to and including the GradV matmul. *)
Definition processBlockIJ_front (skipBoundsChecks : bool) (p : Params)
  (inp : Inputs) (query_start key_start : Z) (st : KernelState)
  : KernelState :=
  let st :=
    with_shared
      (fun s => set_di (loadDi (di s) (delta (gmem st)) p query_start) s)
      st in
  let st := stage_MatmulQK skipBoundsChecks p inp query_start key_start st in
  stage_GradV skipBoundsChecks p inp query_start key_start
    (isFirstQuery p query_start key_start)
    (isLastQuery p query_start key_start) st.

Definition processBlockIJ (skipBoundsChecks : bool) (p : Params)
  (inp : Inputs) (query_start key_start : Z) (st : KernelState)
  : KernelState :=
  let st :=
    processBlockIJ_front skipBoundsChecks p inp query_start key_start st in
  let st :=
    stage_MatmulDOIVJ skipBoundsChecks p inp query_start key_start st in
  let st := stage_GradQ skipBoundsChecks p inp query_start key_start st in
  stage_GradK skipBoundsChecks p inp query_start key_start
    (isFirstQuery p query_start key_start)
    (isLastQuery p query_start key_start) st.

Definition writeFragsToGmem (skipBoundsChecks : bool) (p : Params)
  (key_start : Z) (st : KernelState) : KernelState :=
  let num_keys_in_block :=
    if skipBoundsChecks then MatmulQK_kM
    else Z.min MatmulQK_kM (num_keys p - key_start) in
  let st :=
    with_gmem
      (fun g =>
         set_grad_value
           (accumulateInGmem (grad_value g) (key_start * gV_strideM p)
              (gV_strideM p) (num_keys_in_block, head_dim_value p)
              (gradV (output_frags st)) true) g)
      st in
  with_gmem
    (fun g =>
       set_grad_key
         (accumulateInGmem (grad_key g) (key_start * gK_strideM p)
            (gK_strideM p) (num_keys_in_block, head_dim p)
            (gradK (output_frags st)) true) g)
    st.

(** ** Threads *)

(** [threadIdx.x] of the threads of the block; [warp_id = thread_id / 32]
    and [lane_id = thread_id % 32]. *)
Definition thread_ids : list Z :=
  map Z.of_nat (seq 0 (Z.to_nat kNumThreads)).

Definition warp_of (thread_id : Z) : Z := cdiv thread_id 32.
Definition lane_of (thread_id : Z) : Z := cmod thread_id 32.

(** ** zfillGradKV *)

Definition kThreadsPerKey : Z := 8.
Definition kParallelKeys : Z := cdiv kNumThreads kThreadsPerKey.

(** One thread of [zfillGradKV]; the state is the pair of [grad_value]
    and [grad_key]. *)
Definition zfillGradKV_thread (skipBoundsChecks : bool) (p : Params)
  (key_start : Z) (warp_id lane_id : Z)
  (g : gmap Z scalar_t * gmap Z scalar_t)
  : gmap Z scalar_t * gmap Z scalar_t :=
  let thread_id := 32 * warp_id + lane_id in
  let k_shift := cmod lane_id kThreadsPerKey in
  snd (for_loop 0 (kBlockSizeJ cfg) kParallelKeys
    (fun j g =>
       let key := key_start + j + cdiv thread_id kThreadsPerKey in
       if negb skipBoundsChecks && (key >=? num_keys p) then g
       else
         let gv_ptr := key * gV_strideM p in
         let gk_ptr := key * gK_strideM p in
         let gv :=
           snd (for_loop k_shift (head_dim_value p) kThreadsPerKey
                  (fun k gv => <[gv_ptr + k := s_zero]> gv) (fst g)) in
         let gk :=
           snd (for_loop k_shift (head_dim p) kThreadsPerKey
                  (fun k gk => <[gk_ptr + k := s_zero]> gk) (snd g)) in
         (gv, gk))
    g).

Definition zfillGradKV_mem (skipBoundsChecks : bool) (p : Params)
  (key_start : Z) (g : gmap Z scalar_t * gmap Z scalar_t)
  : gmap Z scalar_t * gmap Z scalar_t :=
  fold_left
    (fun g thread_id =>
       zfillGradKV_thread skipBoundsChecks p key_start
         (warp_of thread_id) (lane_of thread_id) g)
    thread_ids g.

Definition zfillGradKV (skipBoundsChecks : bool) (p : Params)
  (key_start : Z) (st : KernelState) : KernelState :=
  let g :=
    zfillGradKV_mem skipBoundsChecks p key_start
      (grad_value (gmem st), grad_key (gmem st)) in
  with_gmem (fun m => set_grad_key (snd g) (set_grad_value (fst g) m)) st.

(** ** computeDelta *)

Definition kNumThreadsPerLine : Z := cdiv kNumThreads (kBlockSizeI cfg).
Definition kPipelineStages : Z := 2.

Definition lanes (n : Z) : list Z := map Z.of_nat (seq 0 (Z.to_nat n)).

(** The registers of one thread of [computeDelta]; the two pointers are
    element offsets into [grad_output] and [output]. *)
Record DeltaThread := {
  pred : bool;
  grad_output_pos : Z;
  output_pos : Z;
  frag_grad_output : Z -> list scalar_t;
  frag_output : Z -> list scalar_t;
  delta_value : accum_t
}.

(* cutlass::arch::global_load: the fragment is left alone unless the guard
   holds *)
Definition global_load (kElementsPerAccess : Z) (frag : list scalar_t)
  (mem : Z -> scalar_t) (pos : Z) (pred_guard : bool) : list scalar_t :=
  if pred_guard then map (fun i => mem (pos + i)) (lanes kElementsPerAccess)
  else frag.

Definition cleared (kElementsPerAccess : Z) : list scalar_t :=
  map (fun _ => s_zero) (lanes kElementsPerAccess).

Definition loadAndIncrement (kElementsPerAccess : Z) (inp : Inputs)
  (ld_pos : Z) (is_valid : bool) (t : DeltaThread) : DeltaThread :=
  {| pred := pred t;
     grad_output_pos :=
       grad_output_pos t + kNumThreadsPerLine * kElementsPerAccess;
     output_pos := output_pos t + kNumThreadsPerLine * kElementsPerAccess;
     frag_grad_output :=
       slot_store (frag_grad_output t) ld_pos
         (global_load kElementsPerAccess (cleared kElementsPerAccess)
            (grad_output inp) (grad_output_pos t) is_valid);
     frag_output :=
       slot_store (frag_output t) ld_pos
         (global_load kElementsPerAccess (cleared kElementsPerAccess)
            (output inp) (output_pos t) is_valid);
     delta_value := delta_value t |}.

Definition set_pred (b : bool) (t : DeltaThread) : DeltaThread :=
  {| pred := b;
     grad_output_pos := grad_output_pos t;
     output_pos := output_pos t;
     frag_grad_output := frag_grad_output t;
     frag_output := frag_output t;
     delta_value := delta_value t |}.

Definition set_delta_value (v : accum_t) (t : DeltaThread) : DeltaThread :=
  {| pred := pred t;
     grad_output_pos := grad_output_pos t;
     output_pos := output_pos t;
     frag_grad_output := frag_grad_output t;
     frag_output := frag_output t;
     delta_value := v |}.

Definition columnIteration (kElementsPerAccess : Z) (p : Params)
  (inp : Inputs) (laneFirstCol : Z) (iter : Z) (t : DeltaThread)
  : DeltaThread :=
  (* Load for next iter *)
  let ld_pos := cmod (iter + kPipelineStages - 1) kPipelineStages in
  let t :=
    set_pred
      (pred t
       && (laneFirstCol
           + (iter + kPipelineStages - 1) * kElementsPerAccess
             * kNumThreadsPerLine <? head_dim_value p)) t in
  let t := loadAndIncrement kElementsPerAccess inp ld_pos (pred t) t in
  set_delta_value
    (fold_left
       (fun d og => a_add d (a_mul (to_accum (fst og)) (to_accum (snd og))))
       (combine (frag_output t (cmod iter kPipelineStages))
                (frag_grad_output t (cmod iter kPipelineStages)))
       (delta_value t))
    t.

(** The value one thread holds before the reduction between workers. *)
Definition computeDelta_thread (kElementsPerAccess : Z) (p : Params)
  (inp : Inputs) (query_start : Z) (warp_id lane_id : Z) : accum_t :=
  let thread_id := 32 * warp_id + lane_id in
  let laneFirstCol :=
    kElementsPerAccess * cmod lane_id kNumThreadsPerLine in
  let laneRow := cdiv thread_id kNumThreadsPerLine in
  let rowPred := query_start + laneRow <? num_queries p in
  let t :=
    {| pred := rowPred;
       grad_output_pos :=
         (query_start + laneRow) * gO_strideM p + laneFirstCol;
       output_pos := (query_start + laneRow) * o_strideM p + laneFirstCol;
       frag_grad_output := fun _ => nil;
       frag_output := fun _ => nil;
       delta_value := a_zero |} in
  let kMaxIters :=
    cdiv (kMaxK cfg) (kElementsPerAccess * kNumThreadsPerLine) in
  let t :=
    snd (for_loop 0 (kPipelineStages - 1) 1
      (fun iter t =>
         let ld_pos := cmod iter kPipelineStages in
         let t :=
           set_pred
             (pred t
              && (laneFirstCol
                  + iter * kElementsPerAccess * kNumThreadsPerLine
                  <? head_dim_value p)) t in
         loadAndIncrement kElementsPerAccess inp ld_pos (pred t) t)
      t) in
  let t :=
    if kMaxK cfg <=? 256 then
      snd (for_loop 0 kMaxIters 1
             (columnIteration kElementsPerAccess p inp laneFirstCol) t)
    else
      let num_iters :=
        ceil_div (head_dim_value p)
                 (kElementsPerAccess * kNumThreadsPerLine)
        * (kElementsPerAccess * kNumThreadsPerLine) in
      snd (for_loop 0 num_iters 1
             (columnIteration kElementsPerAccess p inp laneFirstCol) t) in
  delta_value t.

(* __shfl_xor_sync(0xffffffff, v, i): the value held by the lane whose id is
   lane_id xor i, in the same warp *)
Definition shfl_xor (v : Z -> accum_t) (i : Z) (thread_id : Z) : accum_t :=
  v (32 * warp_of thread_id + Z.lxor (lane_of thread_id) i).

(** Reduce between workers. *)
Definition reduce_between_workers (v : Z -> accum_t) : Z -> accum_t :=
  for_doubling (Z.to_nat kNumThreadsPerLine) 1 kNumThreadsPerLine
    (fun i v => fun thread_id => a_add (v thread_id) (shfl_xor v i thread_id))
    v.

(** [computeDelta<kElementsPerAccess>] run by all threads of the block. *)
Definition computeDelta_mem (kElementsPerAccess : Z) (p : Params)
  (inp : Inputs) (query_start : Z) (dmem : gmap Z accum_t)
  : gmap Z accum_t :=
  let delta_value :=
    reduce_between_workers
      (fun thread_id =>
         computeDelta_thread kElementsPerAccess p inp query_start
           (warp_of thread_id) (lane_of thread_id)) in
  fold_left
    (fun dmem thread_id =>
       let laneRow := cdiv thread_id kNumThreadsPerLine in
       let rowPred := query_start + laneRow <? num_queries p in
       if rowPred
       then <[query_start + laneRow := delta_value thread_id]> dmem
       else dmem)
    thread_ids dmem.

Definition computeDelta (kElementsPerAccess : Z) (p : Params)
  (inp : Inputs) (query_start : Z) (st : KernelState) : KernelState :=
  with_gmem
    (fun g =>
       set_delta
         (computeDelta_mem kElementsPerAccess p inp query_start (delta g)) g)
    st.

Definition clear_output_frags (st : KernelState) : KernelState :=
  with_frags (fun _ => Build_OutputFragments zero_tile zero_tile) st.

(** ** attention_kernel *)

(** The procedures [attention_kernel] calls.  The kernel is written once
    over this interface and used twice: with the procedures themselves, and
    with recorders that list the calls. *)
Record Handlers (S : Type) := {
  h_computeDelta : Z -> Z -> S -> S;
  h_clear : S -> S;
  h_processBlockIJ : bool -> Z -> Z -> S -> S;
  h_writeFragsToGmem : bool -> Z -> S -> S;
  h_zfillGradKV : bool -> Z -> S -> S
}.
Arguments h_computeDelta {S}.
Arguments h_clear {S}.
Arguments h_processBlockIJ {S}.
Arguments h_writeFragsToGmem {S}.
Arguments h_zfillGradKV {S}.

Definition delta_pass {S : Type} (h : Handlers S) (p : Params) (s : S) : S :=
  if kKernelComputesDelta then
    let kOptimalElements := cdiv 128 (scalar_bits cfg) in
    if cmod (head_dim_value p) kOptimalElements =? 0 then
      snd (for_loop 0 (num_queries p) (kBlockSizeI cfg)
             (fun query_start s =>
                h_computeDelta h kOptimalElements query_start s) s)
    else
      snd (for_loop 0 (num_queries p) (kBlockSizeI cfg)
             (fun query_start s => h_computeDelta h 1 query_start s) s)
  else s.

(** The body of the loop over full key tiles. *)
Definition key_tile_full {S : Type} (h : Handlers S) (p : Params)
  (key_start : Z) (s : S) : S :=
  let s := h_clear h s in
  let query_start := getQueryStart p key_start in
  let query_end :=
    query_start
    + cdiv (num_queries p - query_start) (kBlockSizeI cfg)
      * kBlockSizeI cfg in
  let '(query_start, s) :=
    for_loop query_start query_end (kBlockSizeI cfg)
      (fun query_start s =>
         h_processBlockIJ h true query_start key_start s) s in
  (* last (partial) query *)
  let s :=
    if query_start <? num_queries p
    then h_processBlockIJ h false query_start key_start s
    else s in
  if kOutputInRF then h_writeFragsToGmem h true key_start s
  else if getQueryStart p key_start >=? num_queries p
       then h_zfillGradKV h true key_start s
       else s.

(** The last (partial) key tile. *)
Definition key_tile_partial {S : Type} (h : Handlers S) (p : Params)
  (key_start : Z) (s : S) : S :=
  let s := h_clear h s in
  let query_start := getQueryStart p key_start in
  let s :=
    snd (for_loop query_start (num_queries p) (kBlockSizeI cfg)
           (fun query_start s =>
              h_processBlockIJ h false query_start key_start s) s) in
  if kOutputInRF then h_writeFragsToGmem h false key_start s
  else if getQueryStart p key_start >=? num_queries p
       then h_zfillGradKV h false key_start s
       else s.

Definition attention_kernel_gen {S : Type} (h : Handlers S) (p : Params)
  (s : S) : S :=
  let s := delta_pass h p s in
  let key_end := cdiv (num_keys p) (kBlockSizeJ cfg) * kBlockSizeJ cfg in
  let '(key_start, s) :=
    for_loop 0 key_end (kBlockSizeJ cfg) (key_tile_full h p) s in
  if negb (key_start =? num_keys p) then key_tile_partial h p key_start s
  else s.

Definition kernel_handlers (p : Params) (inp : Inputs)
  : Handlers KernelState := {|
  h_computeDelta := fun e q => computeDelta e p inp q;
  h_clear := clear_output_frags;
  h_processBlockIJ := fun skip q k => processBlockIJ skip p inp q k;
  h_writeFragsToGmem := fun skip k => writeFragsToGmem skip p k;
  h_zfillGradKV := fun skip k => zfillGradKV skip p k
|}.

Definition attention_kernel (p : Params) (inp : Inputs) (st : KernelState)
  : KernelState :=
  attention_kernel_gen (kernel_handlers p inp) p st.

Inductive Call :=
| CallComputeDelta (kElementsPerAccess query_start : Z)
| CallClear
| CallProcessBlockIJ (skipBoundsChecks : bool) (query_start key_start : Z)
| CallWriteFragsToGmem (skipBoundsChecks : bool) (key_start : Z)
| CallZfillGradKV (skipBoundsChecks : bool) (key_start : Z).

Definition recorder : Handlers (list Call) := {|
  h_computeDelta := fun e q acc => acc ++ [CallComputeDelta e q];
  h_clear := fun acc => acc ++ [CallClear];
  h_processBlockIJ := fun skip q k acc => acc ++ [CallProcessBlockIJ skip q k];
  h_writeFragsToGmem := fun skip k acc => acc ++ [CallWriteFragsToGmem skip k];
  h_zfillGradKV := fun skip k acc => acc ++ [CallZfillGradKV skip k]
|}.

(** The calls of [attention_kernel], in order. *)
Definition attention_kernel_calls (p : Params) : list Call :=
  attention_kernel_gen recorder p [].

Definition run_call {S : Type} (h : Handlers S) (c : Call) (s : S) : S :=
  match c with
  | CallComputeDelta e q => h_computeDelta h e q s
  | CallClear => h_clear h s
  | CallProcessBlockIJ skip q k => h_processBlockIJ h skip q k s
  | CallWriteFragsToGmem skip k => h_writeFragsToGmem h skip k s
  | CallZfillGradKV skip k => h_zfillGradKV h skip k s
  end.

(** The (key_start, query_start) pairs handed to [processBlockIJ]. *)
Definition visited (calls : list Call) : list (Z * Z) :=
  flat_map
    (fun c =>
       match c with
       | CallProcessBlockIJ _ q k => [(k, q)]
       | _ => []
       end)
    calls.

(** ** advance_to_block: the RNG offset

    [batch_id] is an [int64_t], [head_id] and the dimensions are
    [int32_t]; the result is stored in an [unsigned long long]. *)
Definition dropout_batch_head_rng_offset (p : Params) (batch_id head_id : Z)
  : Z :=
  (add64
     (mul64 batch_id
        (mul32 (mul32 (num_heads p) (num_queries p)) (num_keys p)))
     (mul32 head_id (mul32 (num_queries p) (num_keys p))))
  mod 2 ^ 64.

End Kernel.

Arguments Params {AR}.
Arguments Inputs {AR}.
Arguments KernelState {AR}.
Arguments h_computeDelta {S}.
Arguments h_clear {S}.
Arguments h_processBlockIJ {S}.
Arguments h_writeFragsToGmem {S}.
Arguments h_zfillGradKV {S}.

(** Running a list of calls. *)
Definition run_calls {S : Type} (h : Handlers S) (l : list Call) (s : S)
  : S :=
  fold_left (fun s c => run_call h c s) l s.

(** ** Closed forms used in the statements *)

(** Number of iterations of [for (i = start; i < stop; i += step)]. *)
Definition iter_count (start stop step : Z) : nat :=
  Z.to_nat ((stop - start + step - 1) / step).

(** The tile start offsets [0, t, 2t, ...] below [len]. *)
Definition tile_starts (len t : Z) : list Z :=
  map (fun n => Z.of_nat n * t) (seq 0 (iter_count 0 len t)).

(** The nested enumeration of the specification: key tiles in the outer
    loop, query tiles in the inner loop. *)
Definition nested_tiles (num_keys num_queries tileJ tileI : Z)
  : list (Z * Z) :=
  flat_map
    (fun key_start =>
       map (fun query_start => (key_start, query_start))
           (tile_starts num_queries tileI))
    (tile_starts num_keys tileJ).

(** The workspace size as the specification states it, in exact
    arithmetic: per (batch, head) pair the three accumulator planes,
    aligned to 4 elements, in bytes. *)
Definition spec_workspace_size `{AR : Arith} (cfg : KernelConfig)
  (p : Params) : Z :=
  let E_gk :=
    if kNeedsAccumGradK cfg
    then align_up (num_keys p) (kBlockSizeJ cfg)
         * align_up (head_dim p) (kBlockSizeI cfg)
    else 0 in
  let E_gv :=
    if kNeedsAccumGradV cfg
    then align_up (num_keys p) (kBlockSizeJ cfg)
         * align_up (head_dim_value p) (kBlockSizeI cfg)
    else 0 in
  let E_gq :=
    if kNeedsAccumGradQ cfg && (kBlockSizeJ cfg <? num_keys p)
    then align_up (num_queries p) (kBlockSizeI cfg)
         * align_up (head_dim p) (kBlockSizeJ cfg)
    else 0 in
  num_batches p * num_heads p * align_up (E_gk + E_gv + E_gq) 4
  * sizeof_float.

(** The sizes for which the 32-bit and 64-bit arithmetic of the workspace
    functions does not overflow. *)
Definition workspace_in_range `{AR : Arith} (cfg : KernelConfig)
  (p : Params) : Prop :=
  0 < kBlockSizeI cfg /\ 0 < kBlockSizeJ cfg
  /\ 0 <= num_keys p /\ 0 <= num_queries p
  /\ 0 <= head_dim p /\ 0 <= head_dim_value p
  /\ 0 <= num_batches p /\ 0 <= num_heads p
  /\ num_keys p + kBlockSizeJ cfg < 2 ^ 31
  /\ num_queries p + kBlockSizeI cfg < 2 ^ 31
  /\ head_dim p + kBlockSizeI cfg < 2 ^ 31
  /\ head_dim p + kBlockSizeJ cfg < 2 ^ 31
  /\ head_dim_value p + kBlockSizeI cfg < 2 ^ 31
  /\ align_up (num_keys p) (kBlockSizeJ cfg)
     * align_up (head_dim p) (kBlockSizeI cfg) < 2 ^ 31
  /\ align_up (num_keys p) (kBlockSizeJ cfg)
     * align_up (head_dim_value p) (kBlockSizeI cfg) < 2 ^ 31
  /\ align_up (num_queries p) (kBlockSizeI cfg)
     * align_up (head_dim p) (kBlockSizeJ cfg) < 2 ^ 31
  /\ num_batches p * num_heads p < 2 ^ 31
  /\ spec_workspace_size cfg p < 2 ^ 63.

(** ** Concrete configurations and inputs *)

#[local] Existing Instance ZArith_inst.

(** A half-precision kernel with 64x64 tiles whose gradients stay in
    registers. *)
Definition cfg_half_rf : KernelConfig := {|
  scalar_bits := 16; scalar_is_float := false;
  kMinComputeCapability := 80;
  kIsAligned := true; kApplyDropout := false; kPreload := true;
  kBlockSizeI := 64; kBlockSizeJ := 64; kMaxK := 64;
  broadcast_1_kEnable := true; broadcast_2_kEnable := true;
  kMinimumAlignment := 8; kIsTransposedA := true
|}.

(** A half-precision kernel with 64x64 tiles whose feature dimension may
    exceed the tile, so that the accumulators spill. *)
Definition cfg_half_spill : KernelConfig := {|
  scalar_bits := 16; scalar_is_float := false;
  kMinComputeCapability := 80;
  kIsAligned := true; kApplyDropout := false; kPreload := false;
  kBlockSizeI := 64; kBlockSizeJ := 64; kMaxK := 128;
  broadcast_1_kEnable := true; broadcast_2_kEnable := true;
  kMinimumAlignment := 8; kIsTransposedA := false
|}.

(** A single-precision kernel. *)
Definition cfg_float : KernelConfig := {|
  scalar_bits := 32; scalar_is_float := true;
  kMinComputeCapability := 80;
  kIsAligned := true; kApplyDropout := false; kPreload := false;
  kBlockSizeI := 64; kBlockSizeJ := 64; kMaxK := 64;
  broadcast_1_kEnable := false; broadcast_2_kEnable := false;
  kMinimumAlignment := 4; kIsTransposedA := false
|}.

(** The half-precision kernel of [cfg_half_spill] with dropout applied. *)
Definition cfg_half_dropout : KernelConfig := {|
  scalar_bits := 16; scalar_is_float := false;
  kMinComputeCapability := 80;
  kIsAligned := true; kApplyDropout := true; kPreload := false;
  kBlockSizeI := 64; kBlockSizeJ := 64; kMaxK := 128;
  broadcast_1_kEnable := false; broadcast_2_kEnable := false;
  kMinimumAlignment := 8; kIsTransposedA := false
|}.

(** Two batches of two heads, 100 queries, 130 keys, feature size 32;
    tensors laid out as [batch, sequence, head, feature]. *)
Definition params_example : @Params ZArith_inst := {|
  query_ptr := 4096; key_ptr := 8192; value_ptr := 16384;
  output_ptr := 32768; grad_output_ptr := 65536;
  grad_bias1_ptr := 0; grad_bias2_ptr := 0;
  scale := 1;
  head_dim := 32; head_dim_value := 32;
  num_queries := 100; num_keys := 130; num_heads := 2;
  q_strideM := 64; k_strideM := 64; v_strideM := 64; gO_strideM := 64;
  gQKV_strideM_multiplier := 1;
  dropout_prob := S754_zero false;
  q_strideH := 32; k_strideH := 32; v_strideH := 32;
  q_strideB := 6400; k_strideB := 8320; v_strideB := 8320;
  lse_strideB := 208; lse_strideH := 104;
  num_batches := 2
|}.

(** The same launch with a query tensor whose head stride is 36 elements:
    a view that is not a multiple of the alignment of 8. *)
Definition params_unaligned_strideH : @Params ZArith_inst := {|
  query_ptr := 4096; key_ptr := 8192; value_ptr := 16384;
  output_ptr := 32768; grad_output_ptr := 65536;
  grad_bias1_ptr := 0; grad_bias2_ptr := 0;
  scale := 1;
  head_dim := 32; head_dim_value := 32;
  num_queries := 100; num_keys := 130; num_heads := 2;
  q_strideM := 72; k_strideM := 64; v_strideM := 64; gO_strideM := 64;
  gQKV_strideM_multiplier := 1;
  dropout_prob := S754_zero false;
  q_strideH := 36; k_strideH := 32; v_strideH := 32;
  q_strideB := 7200; k_strideB := 8320; v_strideB := 8320;
  lse_strideB := 208; lse_strideH := 104;
  num_batches := 2
|}.

(** ** A reference engine

    The external collaborators in exact integer arithmetic, used to run the
    model on concrete inputs.  Operand elements outside the problem size
    count as zero; the bias tensors are given as functions. *)

Definition sum_upto (n : Z) (f : Z -> Z) : Z :=
  fold_left (fun acc k => acc + f k) (lanes n) 0.

Definition in_extent (m n M N : Z) : bool :=
  (0 <=? m) && (m <? M) && (0 <=? n) && (n <? N).

Definition ref_mma (zero_outside_bounds : bool) (problem_size : Z * Z * Z)
  (A B : tile Z) (C : tile Z) : tile Z :=
  let '(M, N, K) := problem_size in
  fun m n =>
    if in_extent m n M N
    then C m n + sum_upto K (fun k => A m k * B k n)
    else C m n.

Definition ref_mma_from_smem (problem_size : Z * Z * Z) (A : tile Z)
  (scaleA : option (tile Z)) (B : tile Z) (C : tile Z) : tile Z :=
  let '(M, N, K) := problem_size in
  let A' : tile Z :=
    match scaleA with
    | Some z => fun m k => A m k * z m k
    | None => A
    end in
  fun m n =>
    if in_extent m n M N
    then C m n + sum_upto K (fun k => A' m k * B k n)
    else C m n.

Definition coords (extent : Z * Z) : list (Z * Z) :=
  flat_map (fun r => map (fun c => (r, c)) (lanes (snd extent)))
           (lanes (fst extent)).

Definition add_at (dst : gmap Z Z) (a v : Z) : gmap Z Z :=
  <[a := default 0 (dst !! a) + v]> dst.

Definition ref_engine (bias1 bias2 : Z -> Z) : @Engine ZArith_inst := {|
  mma := ref_mma;
  mma_from_smem := ref_mma_from_smem;
  AttentionBiasEpilogue := fun off1 off2 extent stride q k =>
    if in_extent q k (fst extent) (snd extent)
    then bias1 (off1 + k) + bias2 (off2 + q * stride + k) else 0;
  BiasGradEpilogueAffineRankN := fun dst off extent acc =>
    fold_left (fun d rc => add_at d (off + snd rc) (acc (fst rc) (snd rc)))
      (coords extent) dst;
  BiasGradEpilogue := fun dst off stride extent acc =>
    fold_left
      (fun d rc =>
         add_at d (off + fst rc * stride + snd rc) (acc (fst rc) (snd rc)))
      (coords extent) dst;
  EpiloguePipelined := fun dst off stride extent acc first =>
    fold_left
      (fun d rc =>
         let a := off + fst rc * stride + snd rc in
         if first then <[a := acc (fst rc) (snd rc)]> d
         else add_at d a (acc (fst rc) (snd rc)))
      (coords extent) dst
|}.

(** ** A reference engine over any arithmetic

    The external collaborators with the additions and multiplications of
    the accumulation type, the products of a row added from left to
    right; there is no bias. *)
Section ArithEngine.

Context `{AR : Arith}.

Definition dot_from (K : Z) (f : Z -> accum_t) (c : accum_t) : accum_t :=
  fold_left (fun acc k => a_add acc (f k)) (lanes K) c.

Definition arith_mma (zero_outside_bounds : bool) (problem_size : Z * Z * Z)
  (A B : tile scalar_t) (C : tile accum_t) : tile accum_t :=
  let '(M, N, K) := problem_size in
  fun m n =>
    if in_extent m n M N
    then dot_from K (fun k => a_mul (to_accum (A m k)) (to_accum (B k n)))
           (C m n)
    else C m n.

Definition arith_mma_from_smem (problem_size : Z * Z * Z)
  (A : tile scalar_t) (scaleA : option (tile scalar_t)) (B : tile scalar_t)
  (C : tile accum_t) : tile accum_t :=
  let '(M, N, K) := problem_size in
  let A' : tile accum_t :=
    match scaleA with
    | Some z => fun m k => a_mul (to_accum (A m k)) (to_accum (z m k))
    | None => fun m k => to_accum (A m k)
    end in
  fun m n =>
    if in_extent m n M N
    then dot_from K (fun k => a_mul (A' m k) (to_accum (B k n))) (C m n)
    else C m n.

Definition accum_at (dst : gmap Z accum_t) (a : Z) (v : accum_t)
  : gmap Z accum_t :=
  <[a := a_add (default a_zero (dst !! a)) v]> dst.

Definition arith_engine : Engine := {|
  mma := arith_mma;
  mma_from_smem := arith_mma_from_smem;
  AttentionBiasEpilogue := fun off1 off2 extent stride q k => a_zero;
  BiasGradEpilogueAffineRankN := fun dst off extent acc =>
    fold_left (fun d rc => accum_at d (off + snd rc) (acc (fst rc) (snd rc)))
      (coords extent) dst;
  BiasGradEpilogue := fun dst off stride extent acc =>
    fold_left
      (fun d rc =>
         accum_at d (off + fst rc * stride + snd rc)
           (acc (fst rc) (snd rc)))
      (coords extent) dst;
  EpiloguePipelined := fun dst off stride extent acc first =>
    fold_left
      (fun d rc =>
         let a := off + fst rc * stride + snd rc in
         if first then <[a := to_scalar (acc (fst rc) (snd rc))]> d
         else <[a := to_scalar
                       (a_add (to_accum (default s_zero (d !! a)))
                          (acc (fst rc) (snd rc)))]> d)
      (coords extent) dst
|}.

End ArithEngine.

(** Concrete tensors and an initial state in which no output cell has
    been written. *)
Definition engine_example : @Engine ZArith_inst :=
  ref_engine (fun a => a mod 2) (fun a => a mod 3).

Definition inputs_example : @Inputs ZArith_inst := {|
  query := fun a => a mod 5 - 2;
  key := fun a => a mod 7 - 3;
  value := fun a => a mod 3 - 1;
  output := fun a => a mod 4 - 1;
  grad_output := fun a => a mod 6 - 2;
  logsumexp := fun a => a mod 4
|}.

Definition shared_example (mask : tile Z) : @SharedStorage ZArith_inst := {|
  di := fun _ => 0;
  bias := fun _ _ => 0;
  attn_shared_storage := fun _ _ => 0;
  zij := mask;
  tmpT_shared_storage := fun _ _ => 0;
  tmp_shared_storage := fun _ _ => 0
|}.

Definition gmem_example : @GlobalMem ZArith_inst := {|
  delta := ∅;
  grad_query := ∅;
  grad_key := ∅;
  grad_value := ∅;
  grad_bias1 := ∅;
  grad_bias2 := ∅;
  workspace_gk := fun _ _ _ => 0;
  workspace_gv := fun _ _ _ => 0;
  workspace_gq := fun _ _ _ => 0
|}.

(** The state at launch, with [mask] being what the shared-memory tile
    [zij] happens to hold. *)
Definition state_example (mask : tile Z) : @KernelState ZArith_inst := {|
  shared_storage := shared_example mask;
  output_frags := {| gradV := fun _ _ => 0; gradK := fun _ _ => 0 |};
  gmem := gmem_example
|}.

(** The launch of [params_example] with an empty query sequence. *)
Definition params_no_queries : @Params ZArith_inst := {|
  query_ptr := 4096; key_ptr := 8192; value_ptr := 16384;
  output_ptr := 32768; grad_output_ptr := 65536;
  grad_bias1_ptr := 0; grad_bias2_ptr := 0;
  scale := 1;
  head_dim := 32; head_dim_value := 32;
  num_queries := 0; num_keys := 130; num_heads := 2;
  q_strideM := 64; k_strideM := 64; v_strideM := 64; gO_strideM := 64;
  gQKV_strideM_multiplier := 1;
  dropout_prob := S754_zero false;
  q_strideH := 32; k_strideH := 32; v_strideH := 32;
  q_strideB := 6400; k_strideB := 8320; v_strideB := 8320;
  lse_strideB := 208; lse_strideH := 104;
  num_batches := 2
|}.

(** A small launch of the dropout kernel: one batch, one head, 4 queries,
    3 keys, feature size 2, dropout probability 1/2. *)
Definition params_dropout : @Params ZArith_inst := {|
  query_ptr := 4096; key_ptr := 8192; value_ptr := 16384;
  output_ptr := 32768; grad_output_ptr := 65536;
  grad_bias1_ptr := 0; grad_bias2_ptr := 0;
  scale := 1;
  head_dim := 2; head_dim_value := 2;
  num_queries := 4; num_keys := 3; num_heads := 1;
  q_strideM := 8; k_strideM := 8; v_strideM := 8; gO_strideM := 8;
  gQKV_strideM_multiplier := 1;
  dropout_prob := S754_finite false 8388608 (-24);
  q_strideH := 8; k_strideH := 8; v_strideH := 8;
  q_strideB := 32; k_strideB := 24; v_strideB := 24;
  lse_strideB := 8; lse_strideH := 8;
  num_batches := 1
|}.

(** The launch of [params_example] with a value feature size of 30, which
    is not a multiple of the vector width 8. *)
Definition params_odd_value_dim : @Params ZArith_inst := {|
  query_ptr := 4096; key_ptr := 8192; value_ptr := 16384;
  output_ptr := 32768; grad_output_ptr := 65536;
  grad_bias1_ptr := 0; grad_bias2_ptr := 0;
  scale := 1;
  head_dim := 32; head_dim_value := 30;
  num_queries := 100; num_keys := 130; num_heads := 2;
  q_strideM := 64; k_strideM := 64; v_strideM := 64; gO_strideM := 64;
  gQKV_strideM_multiplier := 1;
  dropout_prob := S754_zero false;
  q_strideH := 32; k_strideH := 32; v_strideH := 32;
  q_strideB := 6400; k_strideB := 8320; v_strideB := 8320;
  lse_strideB := 208; lse_strideH := 104;
  num_batches := 2
|}.

Section FloatLaunch.

#[local] Existing Instance Float_inst.

(** One batch of one head with one query, one key, feature size 8 and
    value feature size 4, in binary32. *)
Definition params_float : Params := {|
  query_ptr := 4096; key_ptr := 8192; value_ptr := 16384;
  output_ptr := 32768; grad_output_ptr := 65536;
  grad_bias1_ptr := 0; grad_bias2_ptr := 0;
  scale := float_of_Z 1;
  head_dim := 8; head_dim_value := 4;
  num_queries := 1; num_keys := 1; num_heads := 1;
  q_strideM := 8; k_strideM := 8; v_strideM := 8; gO_strideM := 4;
  gQKV_strideM_multiplier := 1;
  dropout_prob := S754_zero false;
  q_strideH := 8; k_strideH := 8; v_strideH := 8;
  q_strideB := 8; k_strideB := 8; v_strideB := 8;
  lse_strideB := 8; lse_strideH := 8;
  num_batches := 1
|}.

(** The output row [4096, 1, 4096, 1] and the output-gradient row
    [4096, 1, -4096, 1]: the products are [2^24, 1, -2^24, 1]. *)
Definition inputs_float : Inputs := {|
  query := fun _ => S754_zero false;
  key := fun _ => S754_zero false;
  value := fun _ => S754_zero false;
  output := fun a => float_of_Z (if Z.even a then 4096 else 1);
  grad_output := fun a =>
    float_of_Z (if a =? 0 then 4096 else if a =? 2 then -4096 else 1);
  logsumexp := fun _ => S754_zero false
|}.

Definition state_float : KernelState := {|
  shared_storage := {|
    di := fun _ => S754_zero false;
    bias := fun _ _ => S754_zero false;
    attn_shared_storage := fun _ _ => S754_zero false;
    zij := fun _ _ => S754_zero false;
    tmpT_shared_storage := fun _ _ => S754_zero false;
    tmp_shared_storage := fun _ _ => S754_zero false |};
  output_frags := {| gradV := fun _ _ => S754_zero false;
                     gradK := fun _ _ => S754_zero false |};
  gmem := {|
    delta := ∅; grad_query := ∅; grad_key := ∅; grad_value := ∅;
    grad_bias1 := ∅; grad_bias2 := ∅;
    workspace_gk := fun _ _ _ => S754_zero false;
    workspace_gv := fun _ _ _ => S754_zero false;
    workspace_gq := fun _ _ _ => S754_zero false |}
|}.

End FloatLaunch.

(** One batch of one head with 64 queries, 2^25 keys and feature size
    128: a launch the validation accepts, and for which the product of the
    aligned key count and the aligned feature size is 2^32. *)
Definition params_many_keys : @Params ZArith_inst := {|
  query_ptr := 4096; key_ptr := 8192; value_ptr := 16384;
  output_ptr := 32768; grad_output_ptr := 65536;
  grad_bias1_ptr := 0; grad_bias2_ptr := 0;
  scale := 1;
  head_dim := 128; head_dim_value := 128;
  num_queries := 64; num_keys := 33554432; num_heads := 1;
  q_strideM := 128; k_strideM := 128; v_strideM := 128; gO_strideM := 128;
  gQKV_strideM_multiplier := 1;
  dropout_prob := S754_zero false;
  q_strideH := 128; k_strideH := 128; v_strideH := 128;
  q_strideB := 8192; k_strideB := 4294967296; v_strideB := 4294967296;
  lse_strideB := 64; lse_strideH := 64;
  num_batches := 1
|}.

(** ** The calls of attention_kernel in closed form *)

Definition delta_calls `{AR : Arith} (cfg : KernelConfig) (p : Params)
  : list Call :=
  if kKernelComputesDelta cfg then
    let kOptimalElements := cdiv 128 (scalar_bits cfg) in
    map (CallComputeDelta
           (if cmod (head_dim_value p) kOptimalElements =? 0
            then kOptimalElements else 1))
        (tile_starts (num_queries p) (kBlockSizeI cfg))
  else [].

(** The calls for one key tile: [full] says whether it is a full key tile
    (first loop) or the last, partial one. *)
Definition key_tile_calls `{AR : Arith} (cfg : KernelConfig) (p : Params)
  (full : bool) (key_start : Z) : list Call :=
  let query_end :=
    cdiv (num_queries p) (kBlockSizeI cfg) * kBlockSizeI cfg in
  let query_start :=
    Z.of_nat (iter_count 0 query_end (kBlockSizeI cfg)) * kBlockSizeI cfg in
  [CallClear]
  ++ (if full then
        map (fun q => CallProcessBlockIJ true q key_start)
            (tile_starts query_end (kBlockSizeI cfg))
        ++ (if query_start <? num_queries p
            then [CallProcessBlockIJ false query_start key_start] else [])
      else
        map (fun q => CallProcessBlockIJ false q key_start)
            (tile_starts (num_queries p) (kBlockSizeI cfg)))
  ++ (if kOutputInRF cfg then [CallWriteFragsToGmem full key_start]
      else if 0 >=? num_queries p then [CallZfillGradKV full key_start]
           else []).

Definition kernel_calls `{AR : Arith} (cfg : KernelConfig) (p : Params)
  : list Call :=
  let key_end := cdiv (num_keys p) (kBlockSizeJ cfg) * kBlockSizeJ cfg in
  let key_start :=
    Z.of_nat (iter_count 0 key_end (kBlockSizeJ cfg)) * kBlockSizeJ cfg in
  delta_calls cfg p
  ++ flat_map (key_tile_calls cfg p true)
       (tile_starts key_end (kBlockSizeJ cfg))
  ++ (if negb (key_start =? num_keys p)
      then key_tile_calls cfg p false key_start else []).

(** ** Definitions used in the statements *)

(** The raw score as the specification gives it,
    [Key_tile x Query_tile^T] over the feature dimension: the product the
    matrix-multiply engine forms, from a zero accumulator, of the rows of
    the key tensor from [ks] on and the transposed rows of the query
    tensor from [qs] on, over the valid rows of the two tiles.  It is
    stated from the tensors, not from the stage. *)
Definition spec_rawScore `{AR : Arith} `{EN : !Engine} (cfg : KernelConfig)
  (p : Params) (inp : Inputs) (skip : bool) (qs ks : Z) : tile accum_t :=
  let Key_tile : tile scalar_t :=
    fun j f => key inp ((ks + j) * k_strideM p + f) in
  let Query_tile : tile scalar_t :=
    fun i f => query inp ((qs + i) * q_strideM p + f) in
  let Query_tile_T : tile scalar_t := fun f i => Query_tile i f in
  mma (negb skip)
    (num_keys_in_block cfg skip p ks, num_queries_in_block cfg skip p qs,
     head_dim p)
    Key_tile Query_tile_T zero_tile.

(** The raw score gradient as the specification gives it,
    [OutputGradient_tile x Value_tile^T] over the value feature dimension:
    the product the matrix-multiply engine forms, from a zero accumulator,
    of the rows of the output gradient from [qs] on and the transposed
    rows of the value tensor from [ks] on. *)
Definition spec_rawGrad `{AR : Arith} `{EN : !Engine} (cfg : KernelConfig)
  (p : Params) (inp : Inputs) (skip : bool) (qs ks : Z) : tile accum_t :=
  let OutputGradient_tile : tile scalar_t :=
    fun i f => grad_output inp ((qs + i) * gO_strideM p + f) in
  let Value_tile : tile scalar_t :=
    fun j f => value inp ((ks + j) * v_strideM p + f) in
  let Value_tile_T : tile scalar_t := fun f j => Value_tile j f in
  mma (negb skip)
    (num_queries_in_block cfg skip p qs, num_keys_in_block cfg skip p ks,
     head_dim_value p)
    OutputGradient_tile Value_tile_T zero_tile.

(** The attention tile as the specification gives it: the exponential of
    the scaled raw score, plus the bias when one is configured, minus the
    log-sum-exp of the query row; stored in the storage type. *)
Definition spec_weight `{AR : Arith} `{EN : !Engine} (cfg : KernelConfig)
  (p : Params) (inp : Inputs) (skip : bool) (qs ks : Z) (m n : Z)
  : scalar_t :=
  let rawScore := spec_rawScore cfg p inp skip qs ks in
  let scaled := a_mul (scale p) (rawScore m n) in
  let biased :=
    if bias_enabled cfg
    then a_add scaled (MatmulQK_bias_tile cfg skip p qs ks n m)
    else scaled in
  to_scalar (a_exp (a_sub biased (logsumexp inp (qs + n)))).

(** A cell of GradValue, resp. GradKey, holds zero. *)
Definition zero_at_v `{AR : Arith} (a : Z)
  (g : gmap Z scalar_t * gmap Z scalar_t) : Prop :=
  fst g !! a = Some s_zero.
Definition zero_at_k `{AR : Arith} (a : Z)
  (g : gmap Z scalar_t * gmap Z scalar_t) : Prop :=
  snd g !! a = Some s_zero.

(** The thread of [zfillGradKV] that clears element [k] of row [key]. *)
Definition zfill_owner (cfg : KernelConfig) (key_start key k : Z) : Z :=
  8 * ((key - key_start) mod kParallelKeys cfg) + k mod 8.

(** The kernel configuration with the GradK operand read transposed
    ([true]) or pre-transposed at write time ([false]); nothing else
    changes. *)
Definition with_transposedA (b : bool) (cfg : KernelConfig) : KernelConfig := {|
  scalar_bits := scalar_bits cfg;
  scalar_is_float := scalar_is_float cfg;
  kMinComputeCapability := kMinComputeCapability cfg;
  kIsAligned := kIsAligned cfg;
  kApplyDropout := kApplyDropout cfg;
  kPreload := kPreload cfg;
  kBlockSizeI := kBlockSizeI cfg;
  kBlockSizeJ := kBlockSizeJ cfg;
  kMaxK := kMaxK cfg;
  broadcast_1_kEnable := broadcast_1_kEnable cfg;
  broadcast_2_kEnable := broadcast_2_kEnable cfg;
  kMinimumAlignment := kMinimumAlignment cfg;
  kIsTransposedA := b
|}.

(** The sum of a list in the accumulation type, left to right. *)
Definition asum `{AR : Arith} (l : list accum_t) : accum_t :=
  fold_left a_add l a_zero.

(** [g 0 + g 1 + ... + g (n-1)] in the accumulation type. *)
Definition bsum `{AR : Arith} (n : nat) (g : nat -> accum_t) : accum_t :=
  asum (map g (seq 0 n)).

(** One term of the delta of query row [r]: the product, formed in the
    accumulation type, of the output and the output gradient at feature
    [f]. *)
Definition delta_term `{AR : Arith} (p : Params) (inp : Inputs) (r f : Z)
  : accum_t :=
  a_mul (to_accum (output inp (r * o_strideM p + f)))
        (to_accum (grad_output inp (r * gO_strideM p + f))).

(** The delta of query row [r] as the specification gives it: the sum over
    the feature dimension, accumulated in the accumulation type. *)
Definition spec_delta `{AR : Arith} (p : Params) (inp : Inputs) (r : Z)
  : accum_t :=
  bsum (Z.to_nat (head_dim_value p))
       (fun f => delta_term p inp r (Z.of_nat f)).

(** The term at feature [k], zero past the feature dimension. *)
Definition delta_term_z `{AR : Arith} (p : Params) (inp : Inputs) (r : Z)
  (k : nat) : accum_t :=
  if Z.of_nat k <? head_dim_value p then delta_term p inp r (Z.of_nat k)
  else a_zero.

(** The sum of the [e] terms of the vector access number [b] of a row. *)
Definition delta_block `{AR : Arith} (p : Params) (inp : Inputs) (r : Z)
  (e : nat) (b : nat) : accum_t :=
  bsum e (fun i => delta_term_z p inp r (b * e + i)%nat).

(** Number of column iterations one thread of [computeDelta] runs. *)
Definition delta_iters `{AR : Arith} (cfg : KernelConfig) (p : Params)
  (kElementsPerAccess : Z) : nat :=
  if kMaxK cfg <=? 256 then
    Z.to_nat (cdiv (kMaxK cfg) (kElementsPerAccess * kNumThreadsPerLine cfg))
  else
    Z.to_nat (ceil_div (head_dim_value p)
                (kElementsPerAccess * kNumThreadsPerLine cfg)
              * (kElementsPerAccess * kNumThreadsPerLine cfg)).

(** The vector width [attention_kernel] picks for [computeDelta]: eight
    halves when the row is a multiple of that, else one element. *)
Definition delta_access_width `{AR : Arith} (cfg : KernelConfig)
  (p : Params) : Z :=
  let kOptimalElements := cdiv 128 (scalar_bits cfg) in
  if cmod (head_dim_value p) kOptimalElements =? 0
  then kOptimalElements else 1.

(** The term a thread of [computeDelta] adds for feature [f] of row [r]:
    the product of the two elements, and, past the feature dimension,
    where the fragments of the thread are cleared, the product of two
    zeros of the storage type. *)
Definition delta_term_pad `{AR : Arith} (p : Params) (inp : Inputs)
  (r f : Z) : accum_t :=
  if f <? head_dim_value p then delta_term p inp r f
  else a_mul (to_accum s_zero) (to_accum s_zero).

(** The features thread [c] of the [T] threads of a row adds, in the order
    in which it adds them: the vector accesses [c], [c + T], [c + 2T], ...
    of the row, of [e] consecutive features each. *)
Definition lane_features (e T : Z) (iters : nat) (c : Z) : list Z :=
  flat_map
    (fun j => map (fun i => (Z.of_nat j * T + c) * e + i) (lanes e))
    (seq 0 iters).

(** The running sum of thread [c] of row [r], started at zero. *)
Definition lane_delta `{AR : Arith} (cfg : KernelConfig) (p : Params)
  (inp : Inputs) (e r c : Z) : accum_t :=
  asum (map (delta_term_pad p inp r)
          (lane_features e (kNumThreadsPerLine cfg) (delta_iters cfg p e)
             c)).

(** The partial sums of the one, two or four threads of a row, added in
    pairs. *)
Definition butterfly_sum `{AR : Arith} (T : Z) (v : Z -> accum_t)
  : accum_t :=
  if T =? 1 then v 0
  else if T =? 2 then a_add (v 0) (v 1)
  else a_add (a_add (v 0) (v 1)) (a_add (v 2) (v 3)).

(** The delta of query row [r] as [computeDelta] accumulates it. *)
Definition kernel_delta `{AR : Arith} (cfg : KernelConfig) (p : Params)
  (inp : Inputs) (e r : Z) : accum_t :=
  butterfly_sum (kNumThreadsPerLine cfg) (lane_delta cfg p inp e r).

(** ** GmemTile

    [GmemTile<FragmentType, kNumThreads>] stores and loads the register
    fragment of each thread as it is, four floats per access.  The
    fragment of a thread is a function from element indices; global memory
    is a function from float offsets, [ptr] being an offset into it. *)

Module GmemTile.

Section Tile.

Context `{AR : Arith}.
(* FragmentType::kElements and the template parameter kNumThreads *)
Variable FragmentType_kElements : Z.
Variable kNumThreads : Z.

(* AccessType = cutlass::Array<float, 4> *)
Definition AccessType_kElements : Z := 4.
Definition kStride : Z := kNumThreads * AccessType_kElements.
Definition kNumIters : Z := cdiv FragmentType_kElements AccessType_kElements.
Definition kElementsStored : Z := kNumThreads * FragmentType_kElements.

(* cutlass::arch::global_load<AccessType, kBytes>: the access is left alone
   unless the guard holds *)
Definition global_load (sub_fragment : Z -> accum_t) (mem : Z -> accum_t)
  (gmem_ptr : Z) (pred_guard : bool) : Z -> accum_t :=
  if pred_guard then fun j => mem (gmem_ptr + j) else sub_fragment.

(* cutlass::arch::global_store<AccessType, kBytes> *)
Definition global_store (sub_fragment : Z -> accum_t) (gmem_ptr : Z)
  (pred_guard : bool) (mem : Z -> accum_t) : Z -> accum_t :=
  if pred_guard then
    snd (for_loop 0 AccessType_kElements 1
           (fun j mem => slot_store mem (gmem_ptr + j) (sub_fragment j)) mem)
  else mem.

(* the contents of a local AccessType before it is assigned *)
Definition unassigned : Z -> accum_t := fun _ => a_zero.

Definition load (ptr : Z) (mem : Z -> accum_t) (fragment : Z -> accum_t)
  (thread_id : Z) : Z -> accum_t :=
  snd (for_loop 0 kNumIters 1
    (fun i fragment =>
       let gmem_ptr :=
         ptr + thread_id * AccessType_kElements + i * kStride in
       let sub_fragment := global_load unassigned mem gmem_ptr true in
       snd (for_loop 0 AccessType_kElements 1
              (fun j fragment =>
                 slot_store fragment (i * AccessType_kElements + j)
                   (sub_fragment j))
              fragment))
    fragment).

Definition store (ptr : Z) (fragment : Z -> accum_t) (thread_id : Z)
  (mem : Z -> accum_t) : Z -> accum_t :=
  snd (for_loop 0 kNumIters 1
    (fun i mem =>
       let gmem_ptr :=
         ptr + thread_id * AccessType_kElements + i * kStride in
       let sub_fragment :=
         snd (for_loop 0 AccessType_kElements 1
                (fun j sub_fragment =>
                   slot_store sub_fragment j
                     (fragment (i * AccessType_kElements + j)))
                unassigned) in
       global_store sub_fragment gmem_ptr true mem)
    mem).

(** [store] run by the threads [0 .. kNumThreads-1] of the block, thread
    [t] holding the fragment [fragments t]. *)
Definition store_block (ptr : Z) (fragments : Z -> Z -> accum_t)
  (mem : Z -> accum_t) : Z -> accum_t :=
  fold_left (fun mem thread_id => store ptr (fragments thread_id) thread_id mem)
    (lanes kNumThreads) mem.

End Tile.

End GmemTile.

(** ** Launch configuration *)

Section Launch.

Context `{AR : Arith}.
Variable cfg : KernelConfig.

Definition getWarpsPerSm : Z :=
  let is_half := negb (scalar_is_float cfg) in
  if kMinComputeCapability cfg >=? 80 then (if is_half then 12 else 8)
  else 8.

Definition kMinBlocksPerSm : Z := cdiv getWarpsPerSm (kNumWarpsPerBlock cfg).

(* dim3(1, num_heads, num_batches) *)
Definition getBlocksGrid (p : Params) : Z * Z * Z :=
  (1, num_heads p, num_batches p).

(* dim3(kWarpSize * kNumWarpsPerBlock, 1, 1) *)
Definition getThreadsGrid : Z * Z * Z :=
  (kWarpSize * kNumWarpsPerBlock cfg, 1, 1).

(** [(x, y, z)] is the index of a block, resp. thread, of a grid. *)
Definition in_grid (grid : Z * Z * Z) (x y z : Z) : Prop :=
  let '(gx, gy, gz) := grid in
  0 <= x < gx /\ 0 <= y < gy /\ 0 <= z < gz.

End Launch.

(** ** advance_to_block

    Pointers are byte addresses ([nullptr] is 0) and [ptr += n] moves a
    pointer by [n] elements of its type.  [BlockParams] holds the fields
    of [Params] that only [advance_to_block] uses, next to the ones
    modelled above. *)

Module Block.

Section Block.

Context `{AR : Arith}.
Variable cfg : KernelConfig.

(* warp_uniform (gemm_kernel_utils.h) *)
Variable warp_uniform : Z -> Z.
(* Broadcast1_<...>::advance and Broadcast2_<...>::advance
   (ptr, B_id, N_id, H_id, strideB, strideN, strideH) *)
Variable broadcast_1_advance : Z -> Z -> Z -> Z -> Z -> Z -> Z -> Z.
Variable broadcast_2_advance : Z -> Z -> Z -> Z -> Z -> Z -> Z -> Z.

Record BlockParams := {
  params : Params;
  logsumexp_ptr : Z;
  delta_ptr : Z;
  grad_query_ptr : Z;
  grad_key_ptr : Z;
  grad_value_ptr : Z;
  bias1_ptr : Z;
  bias2_ptr : Z;
  N : Z;
  (* union { workspace; workspace_gk } *)
  workspace : Z;
  workspace_gv : Z;
  workspace_gq : Z;
  dropout_batch_head_rng_offset : Z;
  o_strideH : Z;
  o_strideB : Z;
  delta_strideB : Z;
  delta_strideH : Z;
  gO_strideB : Z;
  gQ_strideB : Z;
  gK_strideB : Z;
  gV_strideB : Z;
  gO_strideH : Z;
  gQ_strideH : Z;
  gK_strideH : Z;
  gV_strideH : Z
}.

Definition sizeof_scalar_t : Z := cdiv (scalar_bits cfg) 8.

Definition ptr_add (size : Z) (ptr n : Z) : Z := ptr + size * n.

(** [advance_to_block] for the block [(0, blockIdx_y, blockIdx_z)];
    [None] is a failed [assert]. *)
Definition advance_to_block (bp : BlockParams) (blockIdx_y blockIdx_z : Z)
  : option (bool * BlockParams) :=
  let p := params bp in
  let batch_id := blockIdx_z in
  let head_id := blockIdx_y in
  let needs_accum :=
    kNeedsAccumGradQ cfg || kNeedsAccumGradK cfg || kNeedsAccumGradV cfg in
  if needs_accum
     && negb ((workspace_size cfg p =? 0) || negb (workspace bp =? 0))
  then None
  else
    let '(workspace', workspace_gv', workspace_gq') :=
      if needs_accum then
        let w :=
          ptr_add sizeof_float (workspace bp)
            (mul64 (add64 (mul64 batch_id (num_heads p)) head_id)
                   (workspace_strideBH cfg p)) in
        let w := warp_uniform w in
        let w_gv := ptr_add sizeof_float w (workspace_elements_gk cfg p) in
        let w_gq := ptr_add sizeof_float w_gv (workspace_elements_gv cfg p) in
        (w, w_gv, w_gq)
      else (0, workspace_gv bp, workspace_gq bp) in
    let rng_offset :=
      (add64
         (mul64 batch_id
            (mul32 (mul32 (num_heads p) (num_queries p)) (num_keys p)))
         (mul32 head_id (mul32 (num_queries p) (num_keys p))))
      mod 2 ^ 64 in
    let logsumexp_ptr' :=
      ptr_add sizeof_float (logsumexp_ptr bp)
        (add64 (mul64 batch_id (lse_strideB p))
               (mul64 head_id (lse_strideH p))) in
    let query_ptr' :=
      ptr_add sizeof_scalar_t (query_ptr p)
        (add64 (mul64 batch_id (q_strideB p))
               (mul32 head_id (q_strideH p))) in
    let key_ptr' :=
      ptr_add sizeof_scalar_t (key_ptr p)
        (add64 (mul64 batch_id (k_strideB p))
               (mul32 head_id (k_strideH p))) in
    let value_ptr' :=
      ptr_add sizeof_scalar_t (value_ptr p)
        (add64 (mul64 batch_id (v_strideB p))
               (mul32 head_id (v_strideH p))) in
    let output_ptr' :=
      ptr_add sizeof_scalar_t (output_ptr p)
        (add64 (mul64 batch_id (o_strideB bp))
               (mul64 head_id (o_strideH bp))) in
    let grad_output_ptr' :=
      ptr_add sizeof_scalar_t (grad_output_ptr p)
        (add64 (mul64 batch_id (gO_strideB bp))
               (mul64 head_id (gO_strideH bp))) in
    let delta_ptr' :=
      ptr_add sizeof_float (delta_ptr bp)
        (add64 (mul64 batch_id (delta_strideB bp))
               (mul64 head_id (delta_strideH bp))) in
    let grad_query_ptr' :=
      ptr_add sizeof_scalar_t (grad_query_ptr bp)
        (add64 (mul64 batch_id (gQ_strideB bp))
               (mul64 head_id (gQ_strideH bp))) in
    let grad_key_ptr' :=
      ptr_add sizeof_scalar_t (grad_key_ptr bp)
        (add64 (mul64 batch_id (gK_strideB bp))
               (mul64 head_id (gK_strideH bp))) in
    let grad_value_ptr' :=
      ptr_add sizeof_scalar_t (grad_value_ptr bp)
        (add64 (mul64 batch_id (gV_strideB bp))
               (mul64 head_id (gV_strideH bp))) in
    let grad_bias1_ptr' :=
      if broadcast_1_kEnable cfg && negb (grad_bias1_ptr p =? 0)
      then ptr_add sizeof_float (grad_bias1_ptr p)
             (mul64 batch_id (num_queries p))
      else grad_bias1_ptr p in
    let grad_bias2_ptr' :=
      if broadcast_2_kEnable cfg && negb (grad_bias2_ptr p =? 0)
      then
        let strideB :=
          mul32 (mul32 (num_heads p) (num_queries p)) (num_keys p) in
        let strideH := mul32 (num_queries p) (num_keys p) in
        ptr_add sizeof_float (grad_bias2_ptr p)
          (add64 (mul64 (cdiv batch_id (N bp)) strideB)
                 (mul32 head_id strideH))
      else grad_bias2_ptr p in
    let bias1_ptr' :=
      if broadcast_1_kEnable cfg && negb (bias1_ptr bp =? 0)
      then broadcast_1_advance (bias1_ptr bp)
             (cdiv batch_id (N bp)) (cmod batch_id (N bp)) head_id
             (mul32 (num_queries p) (N bp)) (num_queries p) 0
      else bias1_ptr bp in
    let bias2_ptr' :=
      if broadcast_2_kEnable cfg && negb (bias2_ptr bp =? 0)
      then
        let strideB :=
          mul32 (mul32 (num_heads p) (num_queries p)) (num_keys p) in
        let strideH := mul32 (num_queries p) (num_keys p) in
        broadcast_2_advance (bias2_ptr bp)
          (cdiv batch_id (N bp)) (cmod batch_id (N bp)) head_id
          strideB 0 strideH
      else bias2_ptr bp in
    let uniform_if (b : bool) (x : Z) := if b then warp_uniform x else x in
    Some
      (true,
       {| params :=
            {| query_ptr := warp_uniform query_ptr';
               key_ptr := warp_uniform key_ptr';
               value_ptr := warp_uniform value_ptr';
               output_ptr := warp_uniform output_ptr';
               grad_output_ptr := warp_uniform grad_output_ptr';
               grad_bias1_ptr :=
                 uniform_if (broadcast_1_kEnable cfg) grad_bias1_ptr';
               grad_bias2_ptr :=
                 uniform_if (broadcast_2_kEnable cfg) grad_bias2_ptr';
               scale := scale p;
               head_dim := head_dim p;
               head_dim_value := head_dim_value p;
               num_queries := warp_uniform (num_queries p);
               num_keys := warp_uniform (num_keys p);
               num_heads := num_heads p;
               q_strideM := q_strideM p;
               k_strideM := k_strideM p;
               v_strideM := v_strideM p;
               gO_strideM := gO_strideM p;
               gQKV_strideM_multiplier := gQKV_strideM_multiplier p;
               dropout_prob := dropout_prob p;
               q_strideH := q_strideH p;
               k_strideH := k_strideH p;
               v_strideH := v_strideH p;
               q_strideB := q_strideB p;
               k_strideB := k_strideB p;
               v_strideB := v_strideB p;
               lse_strideB := lse_strideB p;
               lse_strideH := lse_strideH p;
               num_batches := num_batches p |};
          logsumexp_ptr := warp_uniform logsumexp_ptr';
          delta_ptr := warp_uniform delta_ptr';
          grad_query_ptr := warp_uniform grad_query_ptr';
          grad_key_ptr := warp_uniform grad_key_ptr';
          grad_value_ptr := warp_uniform grad_value_ptr';
          bias1_ptr := uniform_if (broadcast_1_kEnable cfg) bias1_ptr';
          bias2_ptr := uniform_if (broadcast_2_kEnable cfg) bias2_ptr';
          N := N bp;
          workspace := workspace';
          workspace_gv := workspace_gv';
          workspace_gq := workspace_gq';
          dropout_batch_head_rng_offset := rng_offset;
          o_strideH := o_strideH bp;
          o_strideB := o_strideB bp;
          delta_strideB := delta_strideB bp;
          delta_strideH := delta_strideH bp;
          gO_strideB := gO_strideB bp;
          gQ_strideB := gQ_strideB bp;
          gK_strideB := gK_strideB bp;
          gV_strideB := gV_strideB bp;
          gO_strideH := gO_strideH bp;
          gQ_strideH := gQ_strideH bp;
          gK_strideH := gK_strideH bp;
          gV_strideH := gV_strideH bp |}).

End Block.

End Block.

(** ** Definitions used in the statements about the schedule and the
    workspace *)

(** The first [n] tiles reached from [(query_start, key_start)] by
    advancing with [incrIteration], as (key_start, query_start) pairs. *)
Fixpoint iterate_incrIteration `{AR : Arith} (cfg : KernelConfig)
  (p : Params) (n : nat) (query_start key_start : Z) : list (Z * Z) :=
  match n with
  | O => []
  | Datatypes.S n' =>
      (key_start, query_start)
      :: (let '(next_query, next_key) :=
            incrIteration cfg p query_start key_start in
          iterate_incrIteration cfg p n' next_query next_key)
  end.

(** The number of workspace slots ([GmemTile]s) the GradQ stage uses: one
    per query tile and column block. *)
Definition GradQ_num_cols `{AR : Arith} (cfg : KernelConfig) (p : Params)
  : Z :=
  if kSingleIterationGradQ cfg then 1
  else ceil_div (head_dim p) (MatmulGradQ_kN cfg).

Definition workspace_slots_gq `{AR : Arith} (cfg : KernelConfig)
  (p : Params) : Z :=
  Z.of_nat (iter_count 0 (num_queries p) (kBlockSizeI cfg))
  * GradQ_num_cols cfg p.

(** The number of workspace slots the GradV, resp. GradK, stage uses: one
    per column block. *)
Definition workspace_slots_gv `{AR : Arith} (cfg : KernelConfig)
  (p : Params) : Z :=
  Z.of_nat
    (iter_count 0 (if kSingleIterationGradV cfg then 1 else head_dim_value p)
       (MatmulGradV_kN cfg)).

Definition workspace_slots_gk `{AR : Arith} (cfg : KernelConfig)
  (p : Params) : Z :=
  Z.of_nat
    (iter_count 0 (if kSingleIterationGradK cfg then 1 else head_dim p)
       (MatmulGradK_kN cfg)).

(** Two states that hold the same shared memory, registers and tensors,
    whatever their workspaces hold. *)
Definition agree_but_workspace `{AR : Arith} (s1 s2 : KernelState) : Prop :=
  shared_storage s1 = shared_storage s2
  /\ output_frags s1 = output_frags s2
  /\ delta (gmem s1) = delta (gmem s2)
  /\ grad_query (gmem s1) = grad_query (gmem s2)
  /\ grad_key (gmem s1) = grad_key (gmem s2)
  /\ grad_value (gmem s1) = grad_value (gmem s2)
  /\ grad_bias1 (gmem s1) = grad_bias1 (gmem s2)
  /\ grad_bias2 (gmem s1) = grad_bias2 (gmem s2).

(** Register fragments that hold something at launch. *)
Definition frags_example : @OutputFragments ZArith_inst := {|
  gradV := fun _ _ => 7;
  gradK := fun _ _ => 9
|}.

(** The launch of [params_example] with the fields that only
    [advance_to_block] uses: output tensors laid out like the inputs, a
    workspace at byte 1048576. *)
Definition block_example : Block.BlockParams := {|
  Block.params := params_example;
  Block.logsumexp_ptr := 131072;
  Block.delta_ptr := 196608;
  Block.grad_query_ptr := 262144;
  Block.grad_key_ptr := 327680;
  Block.grad_value_ptr := 393216;
  Block.bias1_ptr := 0;
  Block.bias2_ptr := 0;
  Block.N := 1;
  Block.workspace := 1048576;
  Block.workspace_gv := 0;
  Block.workspace_gq := 0;
  Block.dropout_batch_head_rng_offset := 0;
  Block.o_strideH := 32;
  Block.o_strideB := 6400;
  Block.delta_strideB := 208;
  Block.delta_strideH := 104;
  Block.gO_strideB := 6400;
  Block.gQ_strideB := 6400;
  Block.gK_strideB := 8320;
  Block.gV_strideB := 8320;
  Block.gO_strideH := 32;
  Block.gQ_strideH := 32;
  Block.gK_strideH := 32;
  Block.gV_strideH := 32
|}.

(** ** Loop lemmas *)

Section Loops.

Context {S : Type}.
Variable body : Z -> S -> S.

Lemma fold_left_seq_shift (f : nat -> S -> S) (n : nat) (s : S) :
  forall a, fold_left (fun s k => f k s) (seq (Datatypes.S a) n) s
          = fold_left (fun s k => f (Datatypes.S k) s) (seq a n) s.
Proof.
  revert s. induction n as [|n IH]; intros s a; simpl; [reflexivity|].
  apply IH.
Qed.

Lemma fold_left_ext_in {A : Type} (f g : S -> A -> S) (l : list A) :
  (forall s x, In x l -> f s x = g s x) ->
  forall s, fold_left f l s = fold_left g l s.
Proof.
  induction l as [|x l IH]; intros H s; simpl; [reflexivity|].
  rewrite H by (left; reflexivity).
  apply IH. intros s' y Hy. apply H. right; exact Hy.
Qed.

Lemma for_fuel_steps (stop step : Z) :
  forall (n fuel : nat) (i : Z) (s : S),
    (n <= fuel)%nat ->
    (forall k, (k < n)%nat -> i + Z.of_nat k * step < stop) ->
    stop <= i + Z.of_nat n * step ->
    for_fuel fuel i stop step body s
    = (i + Z.of_nat n * step,
       fold_left (fun s k => body (i + Z.of_nat k * step) s) (seq 0 n) s).
Proof.
  induction n as [|n IH]; intros fuel i s Hfuel Hlt Hge.
  - replace (i + Z.of_nat 0 * step) with i in * by lia.
    destruct fuel as [|f]; simpl; [reflexivity|].
    destruct (i <? stop) eqn:E; [apply Z.ltb_lt in E; lia | reflexivity].
  - destruct fuel as [|f]; [lia|].
    simpl for_fuel.
    assert (H0 : i < stop) by (specialize (Hlt 0%nat); lia).
    apply Z.ltb_lt in H0. rewrite H0.
    rewrite (IH f (i + step) (body i s)).
    + f_equal; [lia|].
      change (seq 0 (Datatypes.S n)) with (0%nat :: seq 1 n).
      simpl fold_left.
      rewrite (fold_left_seq_shift
                 (fun k s => body (i + Z.of_nat k * step) s) n).
      replace (i + Z.of_nat 0 * step) with i by lia.
      apply fold_left_ext_in. intros s' k _. f_equal. lia.
    + lia.
    + intros k Hk. specialize (Hlt (Datatypes.S k)). lia.
    + lia.
Qed.

Lemma for_loop_spec (start stop step : Z) (s : S) :
  0 < step ->
  for_loop start stop step body s
  = (start + Z.of_nat (iter_count start stop step) * step,
     fold_left (fun s k => body (start + Z.of_nat k * step) s)
       (seq 0 (iter_count start stop step)) s).
Proof.
  intros Hstep. unfold for_loop, iter_count.
  set (q := (stop - start + step - 1) / step).
  assert (Hq : step * q <= stop - start + step - 1 < step * q + step).
  { pose proof (Z.div_mod (stop - start + step - 1) step ltac:(lia)) as Hdm.
    pose proof (Z.mod_pos_bound (stop - start + step - 1) step Hstep).
    fold q in Hdm. lia. }
  apply for_fuel_steps.
  - destruct (Z_le_gt_dec q 0) as [Hle|Hgt].
    + replace (Z.to_nat q) with 0%nat by lia. lia.
    + apply Z2Nat.inj_le; nia.
  - intros k Hk.
    assert (Z.of_nat k < q) by lia. nia.
  - destruct (Z_le_gt_dec q 0) as [Hle|Hgt].
    + replace (Z.to_nat q) with 0%nat by lia. nia.
    + rewrite Z2Nat.id by lia. nia.
Qed.

Lemma for_loop_fold (start stop step : Z) (s : S) :
  0 < step ->
  snd (for_loop start stop step body s)
  = fold_left (fun s i => body i s)
      (map (fun k => start + Z.of_nat k * step)
           (seq 0 (iter_count start stop step))) s.
Proof.
  intros Hstep. rewrite for_loop_spec by assumption. simpl snd.
  generalize (seq 0 (iter_count start stop step)). intros l. revert s.
  induction l as [|k l IH]; intros s; simpl; [reflexivity|apply IH].
Qed.

Lemma for_loop_invariant (P : S -> Prop) (start stop step : Z) (s : S) :
  P s -> (forall i s, P s -> P (body i s)) ->
  P (snd (for_loop start stop step body s)).
Proof.
  intros Hs Hbody. unfold for_loop.
  generalize (Z.to_nat (stop - start)) as fuel. intros fuel.
  revert start s Hs. induction fuel as [|f IH]; intros i s Hs; simpl.
  - exact Hs.
  - destruct (i <? stop); [apply IH, Hbody, Hs | exact Hs].
Qed.

Lemma fold_left_flat_map {A B : Type} (f : S -> B -> S) (g : A -> list B)
  (l : list A) :
  forall s, fold_left f (flat_map g l) s
            = fold_left (fun s x => fold_left f (g x) s) l s.
Proof.
  induction l as [|x l IH]; intros s; simpl; [reflexivity|].
  rewrite fold_left_app. apply IH.
Qed.

Lemma fold_left_map' {A B : Type} (f : S -> B -> S) (g : A -> B)
  (l : list A) :
  forall s, fold_left f (map g l) s = fold_left (fun s x => f s (g x)) l s.
Proof.
  induction l as [|x l IH]; intros s; simpl; [reflexivity|apply IH].
Qed.

End Loops.

(** ** Machine-integer lemmas *)

Lemma wrap32_fits (x : Z) : fits 32 x -> wrap32 x = x.
Proof.
  unfold fits, wrap32, wrap. intros H.
  change (2 ^ (32 - 1)) with 2147483648 in *.
  change (2 ^ 32) with 4294967296.
  destruct (Z_lt_ge_dec x 0) as [Hneg|Hpos].
  - replace (x mod 4294967296) with (x + 4294967296).
    + destruct (x + 4294967296 <? 2147483648) eqn:E;
        [apply Z.ltb_lt in E; lia | lia].
    + apply Z.mod_unique with (q := -1); lia.
  - rewrite Z.mod_small by lia.
    destruct (x <? 2147483648) eqn:E; [reflexivity|].
    apply Z.ltb_ge in E. lia.
Qed.

Lemma wrap64_fits (x : Z) : fits 64 x -> wrap64 x = x.
Proof.
  unfold fits, wrap64, wrap. intros H.
  change (2 ^ (64 - 1)) with 9223372036854775808 in *.
  change (2 ^ 64) with 18446744073709551616.
  destruct (Z_lt_ge_dec x 0) as [Hneg|Hpos].
  - replace (x mod 18446744073709551616) with (x + 18446744073709551616).
    + destruct (x + 18446744073709551616 <? 9223372036854775808) eqn:E;
        [apply Z.ltb_lt in E; lia | lia].
    + apply Z.mod_unique with (q := -1); lia.
  - rewrite Z.mod_small by lia.
    destruct (x <? 9223372036854775808) eqn:E; [reflexivity|].
    apply Z.ltb_ge in E. lia.
Qed.

Lemma cdiv_nonneg (a b : Z) : 0 <= a -> 0 < b -> cdiv a b = a / b.
Proof. intros. unfold cdiv. apply Z.quot_div_nonneg; lia. Qed.

Lemma align_up_bounds (n m : Z) :
  0 <= n -> 0 < m -> n <= align_up n m < n + m.
Proof.
  intros Hn Hm. unfold align_up. rewrite cdiv_nonneg by lia.
  pose proof (Z.div_mod (n + m - 1) m ltac:(lia)).
  pose proof (Z.mod_pos_bound (n + m - 1) m Hm). lia.
Qed.

Lemma align_up32_exact (n m : Z) :
  0 <= n -> 0 < m -> n + m < 2 ^ 31 -> align_up32 n m = align_up n m.
Proof.
  intros Hn Hm Hfit. change (2 ^ 31) with 2147483648 in Hfit.
  pose proof (align_up_bounds n m Hn Hm) as Hb.
  unfold align_up32, align_up in *. unfold mul32, sub32, add32.
  rewrite (wrap32_fits (n + m))
    by (unfold fits; change (2 ^ (32 - 1)) with 2147483648; lia).
  rewrite (wrap32_fits (n + m - 1))
    by (unfold fits; change (2 ^ (32 - 1)) with 2147483648; lia).
  apply wrap32_fits.
  unfold fits; change (2 ^ (32 - 1)) with 2147483648; lia.
Qed.

Lemma align_up64_exact (n m : Z) :
  0 <= n -> 0 < m -> n + m < 2 ^ 63 -> align_up64 n m = align_up n m.
Proof.
  intros Hn Hm Hfit. change (2 ^ 63) with 9223372036854775808 in Hfit.
  pose proof (align_up_bounds n m Hn Hm) as Hb.
  unfold align_up64, align_up in *. unfold mul64, sub64, add64.
  rewrite (wrap64_fits (n + m))
    by (unfold fits; change (2 ^ (64 - 1)) with 9223372036854775808; lia).
  rewrite (wrap64_fits (n + m - 1))
    by (unfold fits; change (2 ^ (64 - 1)) with 9223372036854775808; lia).
  apply wrap64_fits.
  unfold fits; change (2 ^ (64 - 1)) with 9223372036854775808; lia.
Qed.

(** ** Workspace sizing: C9 *)

Lemma workspace_elements_exact `{AR : Arith} (cfg : KernelConfig)
  (p : Params) (a b : Z) :
  0 <= a -> 0 <= b ->
  0 < kBlockSizeI cfg -> 0 < kBlockSizeJ cfg ->
  forall (ta tb : Z), 0 < ta -> 0 < tb ->
  a + ta < 2 ^ 31 -> b + tb < 2 ^ 31 ->
  align_up a ta * align_up b tb < 2 ^ 31 ->
  mul32 (align_up32 a ta) (align_up32 b tb) = align_up a ta * align_up b tb.
Proof.
  intros Ha Hb _ _ ta tb Hta Htb Hfa Hfb Hprod.
  rewrite !align_up32_exact by assumption.
  pose proof (align_up_bounds a ta Ha Hta).
  pose proof (align_up_bounds b tb Hb Htb).
  unfold mul32. apply wrap32_fits. unfold fits.
  change (2 ^ 31) with 2147483648 in *.
  change (2 ^ (32 - 1)) with 2147483648. nia.
Qed.




(** ** Launch-time validation: C8 *)

Ltac head_atom c :=
  lazymatch c with
  | andb ?a _ => head_atom a
  | orb ?a _ => head_atom a
  | _ => c
  end.

Ltac bool_tidy :=
  repeat rewrite ?andb_true_l, ?andb_true_r, ?andb_false_l, ?andb_false_r,
    ?orb_true_l, ?orb_true_r, ?orb_false_l, ?orb_false_r.

Ltac check_step :=
  lazymatch goal with
  | |- (if ?c then _ else _) = Supported <-> _ =>
      let a := head_atom c in
      destruct a eqn:?; bool_tidy; cbv iota
  | |- Unsupported _ = Supported <-> _ =>
      split; [discriminate | intros; discriminate]
  | |- Supported = Supported <-> _ =>
      split; [reflexivity | reflexivity]
  end.

Lemma check_supported_all_checks `{AR : Arith} (cfg : KernelConfig)
  (p : Params) :
  check_supported cfg p = Supported
  <-> listed_preconditions cfg p && head_batch_stride_preconditions cfg p
      = true.
Proof.
  unfold check_supported, CHECK_ALIGNED_PTR, EVOFORMER_CHECK,
    listed_preconditions, head_batch_stride_preconditions.
  cbv zeta.
  repeat check_step.
Qed.

(** C8, as amended.  [check_supported] succeeds if and only if the listed
    preconditions hold (aligned input pointers, LogSumExp batch and head
    strides multiples of 8, aligned per-row strides, dropout probability in
    [0,1] and zero unless the kernel applies dropout, all six dimension
    counts strictly positive, both feature dimensions at most [kMaxK]) and,
    in addition, the head strides of query, key and value are aligned when
    there is more than one head and their batch strides are aligned when
    there is more than one batch; every violation is reported as a named
    failure by the validation itself, which processes no tile. *)
Theorem check_supported_iff `{AR : Arith} (cfg : KernelConfig)
  (p : Params) :
  (check_supported cfg p = Supported
   <-> listed_preconditions cfg p = true
       /\ head_batch_stride_preconditions cfg p = true)
  /\ (listed_preconditions cfg p && head_batch_stride_preconditions cfg p
      = false
      -> exists err, check_supported cfg p = Unsupported err).
Proof.
  split.
  - rewrite check_supported_all_checks. apply andb_true_iff.
  - intros Hfalse.
    destruct (check_supported cfg p) as [|err] eqn:E; [|eauto].
    apply check_supported_all_checks in E. congruence.
Qed.

Lemma check_supported_iff_witness :
  check_supported cfg_half_rf params_example = Supported
  /\ exists err,
       check_supported cfg_half_rf params_unaligned_strideH = Unsupported err.
Proof.
  split.
  - apply (proj1 (check_supported_iff cfg_half_rf params_example)).
    split; reflexivity.
  - apply (proj2 (check_supported_iff cfg_half_rf params_unaligned_strideH)).
    reflexivity.
Defined.

(** C8 as stated fails: with two heads and a query head stride of 36 every
    listed precondition holds, yet the validation rejects the launch. *)
Lemma check_supported_listed_counterexample :
  listed_preconditions cfg_half_rf params_unaligned_strideH = true
  /\ check_supported cfg_half_rf params_unaligned_strideH
     = Unsupported "query is not correctly aligned (strideH)"
  /\ ~ (check_supported cfg_half_rf params_unaligned_strideH = Supported
        <-> listed_preconditions cfg_half_rf params_unaligned_strideH = true).
Proof.
  split; [reflexivity|]. split; [reflexivity|].
  intros [_ H]. specialize (H eq_refl). discriminate H.
Qed.

(** ** The scheduler in closed form *)

Lemma tile_starts_map (len t : Z) :
  map (fun k => 0 + Z.of_nat k * t) (seq 0 (iter_count 0 len t))
  = tile_starts len t.
Proof. unfold tile_starts. apply map_ext. intros k. lia. Qed.

Section Scheduler.

Context `{AR : Arith}.
Variable cfg : KernelConfig.
Variable p : Params.
Hypothesis HI : 0 < kBlockSizeI cfg.
Hypothesis HJ : 0 < kBlockSizeJ cfg.

Context {S : Type}.
Variable h : Handlers S.

Lemma delta_pass_calls (s : S) :
  delta_pass cfg h p s = run_calls h (delta_calls cfg p) s.
Proof.
  unfold run_calls, delta_pass, delta_calls.
  destruct (kKernelComputesDelta cfg); [|reflexivity].
  cbv zeta.
  destruct (cmod (head_dim_value p) (cdiv 128 (scalar_bits cfg)) =? 0);
    rewrite for_loop_fold by assumption;
    rewrite tile_starts_map, fold_left_map'; reflexivity.
Qed.

Lemma write_or_zfill_calls (full : bool) (key_start : Z) (s : S) :
  (if kOutputInRF cfg then h_writeFragsToGmem h full key_start s
   else if 0 >=? num_queries p
        then h_zfillGradKV h full key_start s else s)
  = run_calls h
      (if kOutputInRF cfg then [CallWriteFragsToGmem full key_start]
       else if 0 >=? num_queries p then [CallZfillGradKV full key_start]
            else []) s.
Proof.
  unfold run_calls.
  destruct (kOutputInRF cfg); [reflexivity|].
  destruct (0 >=? num_queries p); reflexivity.
Qed.

Lemma key_tile_full_calls (key_start : Z) (s : S) :
  key_tile_full cfg h p key_start s
  = run_calls h (key_tile_calls cfg p true key_start) s.
Proof.
  unfold key_tile_full. cbv zeta. unfold key_tile_calls. cbv zeta.
  unfold getQueryStart.
  rewrite Z.sub_0_r, Z.add_0_l.
  set (query_end := cdiv (num_queries p) (kBlockSizeI cfg) * kBlockSizeI cfg).
  rewrite for_loop_spec by assumption.
  rewrite Z.add_0_l.
  rewrite write_or_zfill_calls. unfold run_calls.
  rewrite !fold_left_app. simpl fold_left at 4.
  f_equal.
  rewrite fold_left_map'.
  set (n := iter_count 0 query_end (kBlockSizeI cfg)).
  assert (Hloop :
    fold_left
      (fun (s0 : S) (k : nat) =>
         h_processBlockIJ h true (0 + Z.of_nat k * kBlockSizeI cfg)
           key_start s0) (seq 0 n) (h_clear h s)
    = fold_left
        (fun (s0 : S) (x : Z) =>
           run_call h (CallProcessBlockIJ true x key_start) s0)
        (tile_starts query_end (kBlockSizeI cfg)) (h_clear h s)).
  { unfold tile_starts. rewrite fold_left_map'. fold n.
    apply fold_left_ext_in. intros s' k _. simpl.
    try reflexivity; f_equal; lia. }
  rewrite Hloop.
  destruct (Z.of_nat n * kBlockSizeI cfg <? num_queries p); reflexivity.
Qed.

Lemma key_tile_partial_calls (key_start : Z) (s : S) :
  key_tile_partial cfg h p key_start s
  = run_calls h (key_tile_calls cfg p false key_start) s.
Proof.
  unfold key_tile_partial. cbv zeta. unfold key_tile_calls. cbv zeta.
  unfold getQueryStart.
  rewrite write_or_zfill_calls. unfold run_calls.
  rewrite for_loop_fold by assumption.
  rewrite tile_starts_map.
  rewrite !fold_left_app. simpl fold_left at 3.
  f_equal. rewrite !fold_left_map'. reflexivity.
Qed.

(** [attention_kernel] runs the calls of [kernel_calls], in order. *)
Lemma attention_kernel_gen_calls (s : S) :
  attention_kernel_gen cfg h p s = run_calls h (kernel_calls cfg p) s.
Proof.
  unfold attention_kernel_gen, kernel_calls. cbv zeta.
  rewrite delta_pass_calls. unfold run_calls.
  set (key_end := cdiv (num_keys p) (kBlockSizeJ cfg) * kBlockSizeJ cfg).
  rewrite for_loop_spec by assumption.
  rewrite Z.add_0_l.
  rewrite !fold_left_app.
  set (s1 := fold_left (fun s c => run_call h c s) (delta_calls cfg p) s).
  set (n := iter_count 0 key_end (kBlockSizeJ cfg)).
  rewrite fold_left_flat_map.
  unfold tile_starts. fold n. rewrite fold_left_map'.
  assert (Hloop :
    fold_left
      (fun (s0 : S) (k : nat) =>
         key_tile_full cfg h p (0 + Z.of_nat k * kBlockSizeJ cfg) s0)
      (seq 0 n) s1
    = fold_left
        (fun (s0 : S) (x : nat) =>
           run_calls h
             (key_tile_calls cfg p true (Z.of_nat x * kBlockSizeJ cfg))
             s0) (seq 0 n) s1).
  { apply fold_left_ext_in. intros s' k _.
    rewrite Z.add_0_l. apply key_tile_full_calls. }
  unfold run_calls in Hloop.
  rewrite Hloop. clear Hloop.
  destruct (negb (Z.of_nat n * kBlockSizeJ cfg =? num_keys p));
    [|reflexivity].
  apply key_tile_partial_calls.
Qed.

End Scheduler.

Lemma run_recorder (l : list Call) :
  forall acc, run_calls recorder l acc = acc ++ l.
Proof.
  unfold run_calls. induction l as [|c l IH]; intros acc; simpl.
  - symmetry. apply app_nil_r.
  - rewrite IH. destruct c; simpl; rewrite <- app_assoc; reflexivity.
Qed.

Lemma attention_kernel_calls_closed `{AR : Arith} (cfg : KernelConfig)
  (p : Params) :
  0 < kBlockSizeI cfg -> 0 < kBlockSizeJ cfg ->
  attention_kernel_calls cfg p = kernel_calls cfg p.
Proof.
  intros HI HJ. unfold attention_kernel_calls.
  rewrite attention_kernel_gen_calls by assumption.
  apply run_recorder.
Qed.

(** ** The tile scheduler: C4 *)

Lemma iter_count_multiple (q t : Z) :
  0 < t -> iter_count 0 (q * t) t = Z.to_nat q.
Proof.
  intros Ht. unfold iter_count. f_equal.
  replace (q * t - 0 + t - 1) with (q * t + (t - 1)) by lia.
  rewrite Z.div_add_l by lia. rewrite Z.div_small by lia. lia.
Qed.

Lemma iter_count_nonpos (len t : Z) :
  0 < t -> len <= 0 -> iter_count 0 len t = 0%nat.
Proof.
  intros Ht Hlen. unfold iter_count.
  assert ((len - 0 + t - 1) / t <= 0).
  { apply Z.lt_succ_r. apply Z.div_lt_upper_bound; lia. }
  lia.
Qed.

Lemma cdiv_mul_bounds (len t : Z) :
  0 < t -> 0 <= len ->
  cdiv len t * t <= len < cdiv len t * t + t /\ 0 <= cdiv len t.
Proof.
  intros Ht Hlen. rewrite cdiv_nonneg by lia.
  pose proof (Z.div_mod len t ltac:(lia)).
  pose proof (Z.mod_pos_bound len t Ht).
  pose proof (Z.div_pos len t Hlen Ht). lia.
Qed.

Lemma cdiv_mul_nonpos (len t : Z) :
  0 < t -> len <= 0 -> cdiv len t * t <= 0.
Proof.
  intros Ht Hlen. unfold cdiv.
  assert (len ÷ t <= 0) by (apply Z.quot_le_upper_bound; lia).
  nia.
Qed.

(** Full tiles followed by the ragged one are the tiles below [len]. *)
Lemma tile_starts_split (len t : Z) :
  0 < t ->
  let e := cdiv len t * t in
  let x := Z.of_nat (iter_count 0 e t) * t in
  tile_starts e t ++ (if x <? len then [x] else []) = tile_starts len t.
Proof.
  intros Ht e x.
  destruct (Z_le_gt_dec len 0) as [Hneg|Hpos].
  - pose proof (cdiv_mul_nonpos len t Ht Hneg) as He. fold e in He.
    unfold tile_starts. subst x.
    rewrite (iter_count_nonpos e t) by assumption.
    rewrite (iter_count_nonpos len t) by assumption.
    simpl Z.of_nat. rewrite Z.mul_0_l. simpl.
    destruct (0 <? len) eqn:E; [apply Z.ltb_lt in E; lia|reflexivity].
  - destruct (cdiv_mul_bounds len t Ht ltac:(lia)) as [Hb Hq].
    fold e in Hb.
    assert (Hn : iter_count 0 e t = Z.to_nat (cdiv len t))
      by (apply iter_count_multiple; assumption).
    assert (Hx : x = e) by (subst x e; rewrite Hn; lia).
    rewrite Hx. unfold tile_starts. rewrite Hn.
    destruct (e <? len) eqn:E.
    + apply Z.ltb_lt in E.
      assert (Hc : iter_count 0 len t = Datatypes.S (Z.to_nat (cdiv len t))).
      { unfold iter_count.
        replace (len - 0 + t - 1) with ((len - e - 1) + (cdiv len t + 1) * t)
          by (subst e; lia).
        rewrite Z.div_add by lia. rewrite Z.div_small by lia. lia. }
      rewrite Hc. rewrite seq_S, map_app. simpl. f_equal. f_equal.
      subst e. lia.
    + apply Z.ltb_ge in E. assert (len = e) by lia.
      rewrite app_nil_r. f_equal. f_equal. symmetry.
      replace len with (cdiv len t * t) at 1 by (subst e; lia).
      apply iter_count_multiple. assumption.
Qed.

Lemma tile_starts_full_In (len t x : Z) :
  0 < t -> In x (tile_starts (cdiv len t * t) t) ->
  0 <= x /\ x + t <= len.
Proof.
  intros Ht Hin. unfold tile_starts in Hin.
  apply in_map_iff in Hin. destruct Hin as (m & <- & Hm).
  apply in_seq in Hm.
  destruct (Z_le_gt_dec len 0) as [Hneg|Hpos].
  - rewrite iter_count_nonpos in Hm; [lia|assumption|].
    apply cdiv_mul_nonpos; assumption.
  - rewrite iter_count_multiple in Hm by assumption.
    destruct (cdiv_mul_bounds len t Ht ltac:(lia)) as [Hb Hq]. nia.
Qed.

Lemma visited_app (a b : list Call) :
  visited (a ++ b) = visited a ++ visited b.
Proof. unfold visited. apply flat_map_app. Qed.

Lemma visited_process (skip : bool) (k : Z) (l : list Z) :
  visited (map (fun q => CallProcessBlockIJ skip q k) l)
  = map (fun q => (k, q)) l.
Proof.
  induction l as [|q l IH]; simpl; [reflexivity|].
  f_equal. exact IH.
Qed.

Lemma visited_key_tile `{AR : Arith} (cfg : KernelConfig) (p : Params)
  (full : bool) (k : Z) :
  0 < kBlockSizeI cfg ->
  visited (key_tile_calls cfg p full k)
  = map (fun q => (k, q)) (tile_starts (num_queries p) (kBlockSizeI cfg)).
Proof.
  intros HI. unfold key_tile_calls. cbv zeta.
  rewrite !visited_app.
  assert (Htail :
    visited (if kOutputInRF cfg then [CallWriteFragsToGmem full k]
             else if 0 >=? num_queries p then [CallZfillGradKV full k]
                  else []) = []).
  { destruct (kOutputInRF cfg); [reflexivity|].
    destruct (0 >=? num_queries p); reflexivity. }
  rewrite Htail, app_nil_r. simpl visited at 1. simpl app.
  destruct full.
  - rewrite visited_app, visited_process.
    rewrite <- (tile_starts_split (num_queries p) (kBlockSizeI cfg) HI).
    cbv zeta. rewrite map_app. f_equal.
    destruct (_ <? num_queries p); reflexivity.
  - apply visited_process.
Qed.

Lemma visited_delta_calls `{AR : Arith} (cfg : KernelConfig) (p : Params) :
  visited (delta_calls cfg p) = [].
Proof.
  unfold delta_calls. destruct (kKernelComputesDelta cfg); [|reflexivity].
  cbv zeta. induction (tile_starts _ _) as [|q l IH]; simpl; auto.
Qed.

Lemma visited_flat_map `{AR : Arith} (cfg : KernelConfig) (p : Params)
  (l : list Z) :
  0 < kBlockSizeI cfg ->
  visited (flat_map (key_tile_calls cfg p true) l)
  = flat_map
      (fun k => map (fun q => (k, q))
                    (tile_starts (num_queries p) (kBlockSizeI cfg))) l.
Proof.
  intros HI. induction l as [|k l IH]; [reflexivity|].
  cbn [flat_map].
  rewrite visited_app, IH, visited_key_tile by assumption. reflexivity.
Qed.

Lemma kernel_calls_process_In `{AR : Arith} (cfg : KernelConfig)
  (p : Params) (skip : bool) (q k : Z) :
  0 < kBlockSizeI cfg -> 0 < kBlockSizeJ cfg ->
  In (CallProcessBlockIJ skip q k) (kernel_calls cfg p) ->
  skip = true ->
  q + kBlockSizeI cfg <= num_queries p /\ k + kBlockSizeJ cfg <= num_keys p.
Proof.
  intros HI HJ Hin ->. unfold kernel_calls in Hin. cbv zeta in Hin.
  rewrite !in_app_iff in Hin. destruct Hin as [Hin|[Hin|Hin]].
  - exfalso. unfold delta_calls in Hin.
    destruct (kKernelComputesDelta cfg); [|contradiction].
    apply in_map_iff in Hin. destruct Hin as (? & Heq & _). discriminate.
  - apply in_flat_map in Hin. destruct Hin as (k' & Hk' & Hin).
    apply (tile_starts_full_In _ _ _ HJ) in Hk'.
    unfold key_tile_calls in Hin. cbv zeta in Hin.
    rewrite !in_app_iff in Hin. destruct Hin as [Hin|[[Hin|Hin]|Hin]].
    + destruct Hin as [Hin|[]]; discriminate.
    + apply in_map_iff in Hin. destruct Hin as (q' & Heq & Hq').
      inversion Heq; subst.
      apply (tile_starts_full_In _ _ _ HI) in Hq'. lia.
    + destruct (_ <? num_queries p); [|contradiction].
      destruct Hin as [Hin|[]]; discriminate.
    + destruct (kOutputInRF cfg); [destruct Hin as [Hin|[]]; discriminate|].
      destruct (0 >=? num_queries p); [|contradiction].
      destruct Hin as [Hin|[]]; discriminate.
  - exfalso. destruct (negb _); [|contradiction].
    unfold key_tile_calls in Hin. cbv zeta in Hin.
    rewrite !in_app_iff in Hin. destruct Hin as [Hin|[Hin|Hin]].
    + destruct Hin as [Hin|[]]; discriminate.
    + apply in_map_iff in Hin. destruct Hin as (? & Heq & _). discriminate.
    + destruct (kOutputInRF cfg); [destruct Hin as [Hin|[]]; discriminate|].
      destruct (0 >=? num_queries p); [|contradiction].
      destruct Hin as [Hin|[]]; discriminate.
Qed.

(** C4.  The tile scheduler hands to [processBlockIJ] exactly the pairs
    [(key_start, query_start)] with [key_start] in [0, kBlockSizeJ, ...]
    below the key length (outer loop) and, for each, [query_start] in
    [0, kBlockSizeI, ...] below the query length (inner loop), in that
    nested order; and in every such call the valid row and column counts
    [num_queries_in_block] and [num_keys_in_block] are
    [min(tileSize, remaining)] (a call that skips the bounds checks is only
    made for a full tile). *)
Theorem tile_scheduler_visits `{AR : Arith} (cfg : KernelConfig)
  (p : Params) :
  0 < kBlockSizeI cfg -> 0 < kBlockSizeJ cfg -> 0 <= num_keys p ->
  visited (attention_kernel_calls cfg p)
  = nested_tiles (num_keys p) (num_queries p)
      (kBlockSizeJ cfg) (kBlockSizeI cfg)
  /\ forall skip q k,
       In (CallProcessBlockIJ skip q k) (attention_kernel_calls cfg p) ->
       num_queries_in_block cfg skip p q
       = Z.min (kBlockSizeI cfg) (num_queries p - q)
       /\ num_keys_in_block cfg skip p k
          = Z.min (kBlockSizeJ cfg) (num_keys p - k).
Proof.
  intros HI HJ Hnk.
  rewrite attention_kernel_calls_closed by assumption.
  split.
  - unfold kernel_calls, nested_tiles. cbv zeta.
    rewrite !visited_app, visited_delta_calls, visited_flat_map by assumption.
    simpl app.
    rewrite <- (tile_starts_split (num_keys p) (kBlockSizeJ cfg) HJ).
    cbv zeta. rewrite flat_map_app. f_equal.
    set (x := Z.of_nat (iter_count 0 _ _) * kBlockSizeJ cfg).
    assert (Hx : x = cdiv (num_keys p) (kBlockSizeJ cfg) * kBlockSizeJ cfg).
    { subst x. rewrite iter_count_multiple by assumption.
      destruct (cdiv_mul_bounds (num_keys p) (kBlockSizeJ cfg) HJ Hnk). lia. }
    destruct (cdiv_mul_bounds (num_keys p) (kBlockSizeJ cfg) HJ Hnk) as [Hb _].
    destruct (x =? num_keys p) eqn:E1; destruct (x <? num_keys p) eqn:E2;
      cbn [negb flat_map].
    + apply Z.eqb_eq in E1. apply Z.ltb_lt in E2. lia.
    + reflexivity.
    + rewrite visited_key_tile, app_nil_r by assumption. reflexivity.
    + apply Z.eqb_neq in E1. apply Z.ltb_ge in E2. lia.
  - intros skip q k Hin.
    unfold num_queries_in_block, num_keys_in_block, MatmulQK_kN, MatmulQK_kM.
    destruct skip; [|split; reflexivity].
    destruct (kernel_calls_process_In cfg p true q k HI HJ Hin eq_refl).
    lia.
Qed.

Lemma tile_scheduler_visits_witness :
  visited (attention_kernel_calls cfg_half_rf params_example)
  = [(0, 0); (0, 64); (64, 0); (64, 64); (128, 0); (128, 64)]
  /\ num_queries_in_block cfg_half_rf false params_example 64 = 36
  /\ num_keys_in_block cfg_half_rf false params_example 128 = 2.
Proof.
  pose proof (tile_scheduler_visits cfg_half_rf params_example
                ltac:(reflexivity) ltac:(reflexivity) ltac:(discriminate))
    as [Hv Hc].
  split; [rewrite Hv; reflexivity|].
  apply (Hc false 64 128). vm_compute. tauto.
Defined.

(** ** Folds that establish and keep a property *)

Lemma fold_left_keep_in {S A : Type} (f : S -> A -> S) (Q : S -> Prop)
  (l : list A) :
  (forall s y, In y l -> Q s -> Q (f s y)) ->
  forall s, Q s -> Q (fold_left f l s).
Proof.
  induction l as [|y l IH]; intros Hkeep s Hs; simpl; [exact Hs|].
  apply IH.
  - intros s' z Hz. apply Hkeep. right; exact Hz.
  - apply Hkeep; [left; reflexivity | exact Hs].
Qed.

Lemma fold_left_establish_in {S A : Type} (f : S -> A -> S) (Q : S -> Prop)
  (l : list A) (x : A) :
  In x l ->
  (forall s, Q (f s x)) ->
  (forall s y, In y l -> Q s -> Q (f s y)) ->
  forall s, Q (fold_left f l s).
Proof.
  induction l as [|y l IH]; intros Hin Hx Hkeep s; [contradiction|].
  simpl. destruct Hin as [->|Hin].
  - apply fold_left_keep_in; [|apply Hx].
    intros s' z Hz. apply Hkeep. right; exact Hz.
  - apply IH; [exact Hin | exact Hx |].
    intros s' z Hz. apply Hkeep. right; exact Hz.
Qed.

Lemma fold_left_establish {S A : Type} (f : S -> A -> S) (Q : S -> Prop)
  (l : list A) (x : A) :
  In x l ->
  (forall s, Q (f s x)) ->
  (forall s y, Q s -> Q (f s y)) ->
  forall s, Q (fold_left f l s).
Proof.
  intros Hin Hx Hkeep. apply (fold_left_establish_in f Q l x Hin Hx).
  intros s y _. apply Hkeep.
Qed.

Lemma fold_left_keep {S A : Type} (f : S -> A -> S) (Q : S -> Prop)
  (l : list A) :
  (forall s y, Q s -> Q (f s y)) ->
  forall s, Q s -> Q (fold_left f l s).
Proof.
  intros Hkeep. induction l as [|y l IH]; intros s Hs; simpl; [exact Hs|].
  apply IH, Hkeep, Hs.
Qed.

Lemma loop_index_In (start stop step x : Z) :
  0 < step -> start <= x < stop -> (x - start) mod step = 0 ->
  In x (map (fun k => start + Z.of_nat k * step)
            (seq 0 (iter_count start stop step))).
Proof.
  intros Hstep Hx Hmod.
  apply in_map_iff. exists (Z.to_nat ((x - start) / step)).
  pose proof (Z.div_mod (x - start) step ltac:(lia)) as Hdm.
  rewrite Hmod in Hdm.
  assert (Hq : 0 <= (x - start) / step) by (apply Z.div_pos; lia).
  split; [rewrite Z2Nat.id by lia; lia|].
  apply in_seq. split; [lia|]. simpl. unfold iter_count.
  apply Z2Nat.inj_lt; [lia| |].
  - apply Z.div_pos; lia.
  - apply Z.div_lt_upper_bound; [lia|].
    pose proof (Z.div_mod (stop - start + step - 1) step ltac:(lia)).
    pose proof (Z.mod_pos_bound (stop - start + step - 1) step Hstep).
    nia.
Qed.

Lemma for_loop_establish {S : Type} (body : Z -> S -> S) (Q : S -> Prop)
  (start stop step x : Z) :
  0 < step -> start <= x < stop -> (x - start) mod step = 0 ->
  (forall s, Q (body x s)) ->
  (forall s i, Q s -> Q (body i s)) ->
  forall s, Q (snd (for_loop start stop step body s)).
Proof.
  intros Hstep Hx Hmod Hest Hkeep s.
  rewrite for_loop_fold by assumption.
  apply (fold_left_establish (fun s i => body i s) Q _ x).
  - apply loop_index_In; assumption.
  - exact Hest.
  - exact Hkeep.
Qed.

Lemma thread_ids_In `{AR : Arith} (cfg : KernelConfig) (t : Z) :
  0 <= t < kNumThreads cfg -> In t (thread_ids cfg).
Proof.
  intros Ht. unfold thread_ids. apply in_map_iff.
  exists (Z.to_nat t). split; [lia|]. apply in_seq. lia.
Qed.

(** ** Boundary zero-fill: C7 *)

Section ZeroFill.

Context `{AR : Arith}.
Variable cfg : KernelConfig.
Variable p : Params.

Lemma zero_loop_keep (base start stop a : Z) (m : gmap Z scalar_t) :
  m !! a = Some s_zero ->
  snd (for_loop start stop kThreadsPerKey
         (fun k m => <[base + k := s_zero]> m) m) !! a = Some s_zero.
Proof.
  intros Hm.
  apply (for_loop_invariant _ (fun m => m !! a = Some s_zero));
    [exact Hm|].
  intros i m' Hm'. destruct (decide (base + i = a)) as [->|Hne].
  - apply lookup_insert_eq.
  - rewrite lookup_insert_ne by exact Hne. exact Hm'.
Qed.

Lemma zero_loop_cover (base start stop k : Z) (m : gmap Z scalar_t) :
  start <= k < stop -> (k - start) mod kThreadsPerKey = 0 ->
  snd (for_loop start stop kThreadsPerKey
         (fun k m => <[base + k := s_zero]> m) m) !! (base + k)
  = Some s_zero.
Proof.
  intros Hk Hmod.
  apply (for_loop_establish _ (fun m => m !! (base + k) = Some s_zero)
           start stop kThreadsPerKey k); try assumption.
  - reflexivity.
  - intros s. apply lookup_insert_eq.
  - intros s i Hs. destruct (decide (base + i = base + k)) as [->|Hne].
    + apply lookup_insert_eq.
    + rewrite lookup_insert_ne by exact Hne. exact Hs.
Qed.

Lemma zfill_thread_keep (skip : bool) (key_start warp_id lane_id a : Z)
  (g : gmap Z scalar_t * gmap Z scalar_t) :
  (zero_at_v a g ->
   zero_at_v a (zfillGradKV_thread cfg skip p key_start warp_id lane_id g))
  /\ (zero_at_k a g ->
      zero_at_k a (zfillGradKV_thread cfg skip p key_start warp_id lane_id g)).
Proof.
  unfold zfillGradKV_thread. cbv zeta. split; intros Hg.
  - apply (for_loop_invariant _ (zero_at_v a)); [exact Hg|].
    intros j g' Hg'.
    destruct (negb skip && _); [exact Hg'|].
    unfold zero_at_v in *. simpl. apply zero_loop_keep, Hg'.
  - apply (for_loop_invariant _ (zero_at_k a)); [exact Hg|].
    intros j g' Hg'.
    destruct (negb skip && _); [exact Hg'|].
    unfold zero_at_k in *. simpl. apply zero_loop_keep, Hg'.
Qed.

Lemma zfill_mem_keep (skip : bool) (key_start a : Z)
  (g : gmap Z scalar_t * gmap Z scalar_t) :
  (zero_at_v a g -> zero_at_v a (zfillGradKV_mem cfg skip p key_start g))
  /\ (zero_at_k a g -> zero_at_k a (zfillGradKV_mem cfg skip p key_start g)).
Proof.
  unfold zfillGradKV_mem. split; intros Hg.
  - apply (fold_left_keep _ (zero_at_v a)); [|exact Hg].
    intros s t Hs. apply zfill_thread_keep, Hs.
  - apply (fold_left_keep _ (zero_at_k a)); [|exact Hg].
    intros s t Hs. apply zfill_thread_keep, Hs.
Qed.

Hypothesis Hwarps : 1 <= kNumWarpsPerBlock cfg.
Hypothesis HJ : 0 < kBlockSizeJ cfg.
(* static_assert(kBlockSizeJ % kParallelKeys == 0, "") *)
Hypothesis Hassert : cmod (kBlockSizeJ cfg) (kParallelKeys cfg) = 0.

Lemma kParallelKeys_eq : kParallelKeys cfg = 4 * kNumWarpsPerBlock cfg.
Proof.
  unfold kParallelKeys, kNumThreads, kWarpSize, kThreadsPerKey.
  rewrite cdiv_nonneg by lia.
  replace (32 * kNumWarpsPerBlock cfg) with (4 * kNumWarpsPerBlock cfg * 8)
    by lia.
  apply Z.div_mul. lia.
Qed.

Lemma zfill_owner_facts (key_start key k : Z) :
  key_start <= key -> 0 <= k ->
  let t := zfill_owner cfg key_start key k in
  0 <= t < kNumThreads cfg
  /\ cmod (lane_of t) kThreadsPerKey = k mod 8
  /\ cdiv (32 * warp_of t + lane_of t) kThreadsPerKey
     = (key - key_start) mod kParallelKeys cfg.
Proof.
  intros Hkey Hk t. subst t. unfold zfill_owner.
  pose proof kParallelKeys_eq as HP.
  set (P := kParallelKeys cfg) in *.
  assert (HPpos : 0 < P) by lia.
  pose proof (Z.mod_pos_bound (key - key_start) P HPpos) as Hr.
  pose proof (Z.mod_pos_bound k 8 ltac:(lia)) as Hk8.
  set (r := (key - key_start) mod P) in *.
  set (c := k mod 8) in *.
  assert (Ht : 0 <= 8 * r + c) by lia.
  unfold lane_of, warp_of, cmod, cdiv, kThreadsPerKey.
  rewrite (Z.rem_mod_nonneg (8 * r + c) 32) by lia.
  rewrite (Z.quot_div_nonneg (8 * r + c) 32) by lia.
  pose proof (Z.div_mod (8 * r + c) 32 ltac:(lia)) as Hdm.
  pose proof (Z.mod_pos_bound (8 * r + c) 32 ltac:(lia)) as Hl.
  rewrite <- Hdm.
  rewrite Z.rem_mod_nonneg by lia.
  rewrite Z.quot_div_nonneg by lia.
  split; [unfold kNumThreads, kWarpSize; lia|]. split.
  - rewrite (Z.mod_mod_divide (8 * r + c) 32 8).
    + rewrite Z.add_comm, Z.mul_comm, Z.mod_add by lia.
      apply Z.mod_small. lia.
    + exists 4. lia.
  - rewrite Z.add_comm, Z.mul_comm, Z.div_add by lia.
    rewrite Z.div_small by lia. lia.
Qed.

Lemma zfill_thread_cover (skip : bool) (key_start key k : Z)
  (g : gmap Z scalar_t * gmap Z scalar_t) :
  key_start <= key < key_start + kBlockSizeJ cfg ->
  (skip = true \/ key < num_keys p) -> 0 <= k ->
  let t := zfill_owner cfg key_start key k in
  let g' :=
    zfillGradKV_thread cfg skip p key_start (warp_of t) (lane_of t) g in
  (k < head_dim_value p -> zero_at_v (key * gV_strideM p + k) g')
  /\ (k < head_dim p -> zero_at_k (key * gK_strideM p + k) g').
Proof.
  intros Hkey Hin Hk t g'.
  destruct (zfill_owner_facts key_start key k ltac:(lia) Hk)
    as (Ht & Hshift & Hrow).
  fold t in Ht, Hshift, Hrow.
  pose proof kParallelKeys_eq as HP.
  assert (HPpos : 0 < kParallelKeys cfg) by lia.
  pose proof (Z.div_mod (key - key_start) (kParallelKeys cfg) ltac:(lia))
    as Hdm.
  pose proof (Z.mod_pos_bound (key - key_start) (kParallelKeys cfg) HPpos)
    as Hr.
  set (j0 := kParallelKeys cfg * ((key - key_start) / kParallelKeys cfg)).
  assert (Hq : 0 <= (key - key_start) / kParallelKeys cfg)
    by (apply Z.div_pos; lia).
  assert (Hj0 : 0 <= j0 < kBlockSizeJ cfg) by (subst j0; nia).
  assert (Hj0mod : (j0 - 0) mod kParallelKeys cfg = 0).
  { subst j0. rewrite Z.sub_0_r, Z.mul_comm. apply Z.mod_mul. lia. }
  assert (Hkeyeq :
    key_start + j0
    + cdiv (32 * warp_of t + lane_of t) kThreadsPerKey = key)
    by (rewrite Hrow; subst j0; lia).
  pose proof (Z.div_mod k 8 ltac:(lia)) as Hk8.
  pose proof (Z.mod_pos_bound k 8 ltac:(lia)) as Hk8b.
  assert (Hkmod : (k - k mod 8) mod kThreadsPerKey = 0).
  { replace (k - k mod 8) with (k / 8 * 8) by lia.
    apply Z.mod_mul. unfold kThreadsPerKey. lia. }
  assert (Hguard :
    negb skip && (key >=? num_keys p) = false).
  { destruct Hin as [->|Hlt]; [reflexivity|].
    replace (key >=? num_keys p) with false; [apply andb_false_r|].
    symmetry. rewrite Z.geb_leb. apply Z.leb_gt. exact Hlt. }
  subst g'. unfold zfillGradKV_thread. cbv zeta. split; intros Hklt.
  - apply (for_loop_establish _ (zero_at_v (key * gV_strideM p + k))
             0 (kBlockSizeJ cfg) (kParallelKeys cfg) j0);
      try assumption.
    + intros s. rewrite Hkeyeq, Hguard. unfold zero_at_v. simpl.
      rewrite Hshift. apply zero_loop_cover; [lia|exact Hkmod].
    + intros s i Hs.
      match goal with
      | |- context [if ?c then _ else _] => destruct c
      end; [exact Hs|].
      unfold zero_at_v in *. simpl. apply zero_loop_keep, Hs.
  - apply (for_loop_establish _ (zero_at_k (key * gK_strideM p + k))
             0 (kBlockSizeJ cfg) (kParallelKeys cfg) j0);
      try assumption.
    + intros s. rewrite Hkeyeq, Hguard. unfold zero_at_k. simpl.
      rewrite Hshift. apply zero_loop_cover; [lia|exact Hkmod].
    + intros s i Hs.
      match goal with
      | |- context [if ?c then _ else _] => destruct c
      end; [exact Hs|].
      unfold zero_at_k in *. simpl. apply zero_loop_keep, Hs.
Qed.

Lemma zfill_mem_cover (skip : bool) (key_start key k : Z)
  (g : gmap Z scalar_t * gmap Z scalar_t) :
  key_start <= key < key_start + kBlockSizeJ cfg ->
  (skip = true \/ key < num_keys p) -> 0 <= k ->
  let g' := zfillGradKV_mem cfg skip p key_start g in
  (k < head_dim_value p -> zero_at_v (key * gV_strideM p + k) g')
  /\ (k < head_dim p -> zero_at_k (key * gK_strideM p + k) g').
Proof.
  intros Hkey Hin Hk g'. subst g'. unfold zfillGradKV_mem.
  destruct (zfill_owner_facts key_start key k ltac:(lia) Hk) as (Ht & _).
  split; intros Hklt.
  - apply (fold_left_establish _ (zero_at_v (key * gV_strideM p + k)) _
             (zfill_owner cfg key_start key k)).
    + apply thread_ids_In. exact Ht.
    + intros s.
      apply (zfill_thread_cover skip key_start key k s Hkey Hin Hk).
      exact Hklt.
    + intros s y Hs. apply zfill_thread_keep, Hs.
  - apply (fold_left_establish _ (zero_at_k (key * gK_strideM p + k)) _
             (zfill_owner cfg key_start key k)).
    + apply thread_ids_In. exact Ht.
    + intros s.
      apply (zfill_thread_cover skip key_start key k s Hkey Hin Hk).
      exact Hklt.
    + intros s y Hs. apply zfill_thread_keep, Hs.
Qed.

End ZeroFill.

Lemma attention_kernel_calls_run `{AR : Arith} `{EN : !Engine}
  (cfg : KernelConfig) (p : Params) (inp : Inputs) (st : KernelState) :
  0 < kBlockSizeI cfg -> 0 < kBlockSizeJ cfg ->
  attention_kernel cfg p inp st
  = run_calls (kernel_handlers cfg p inp) (kernel_calls cfg p) st.
Proof.
  intros HI HJ. unfold attention_kernel.
  apply attention_kernel_gen_calls; assumption.
Qed.

Lemma tile_starts_nonpos (len t : Z) :
  0 < t -> len <= 0 -> tile_starts len t = [].
Proof.
  intros Ht Hlen. unfold tile_starts.
  rewrite iter_count_nonpos by assumption. reflexivity.
Qed.

Lemma key_tile_calls_no_queries `{AR : Arith} (cfg : KernelConfig)
  (p : Params) (full : bool) (k : Z) :
  0 < kBlockSizeI cfg -> num_queries p <= 0 -> kOutputInRF cfg = false ->
  key_tile_calls cfg p full k = [CallClear; CallZfillGradKV full k].
Proof.
  intros HI Hnq HRF. unfold key_tile_calls. cbv zeta. rewrite HRF.
  pose proof (cdiv_mul_nonpos (num_queries p) (kBlockSizeI cfg) HI Hnq) as He.
  rewrite (tile_starts_nonpos _ _ HI He), (tile_starts_nonpos _ _ HI Hnq).
  rewrite (iter_count_nonpos _ _ HI He).
  replace (0 >=? num_queries p) with true
    by (symmetry; rewrite Z.geb_leb; apply Z.leb_le; exact Hnq).
  replace (Z.of_nat 0 * kBlockSizeI cfg <? num_queries p) with false
    by (symmetry; apply Z.ltb_ge; lia).
  destruct full; reflexivity.
Qed.

(** C7.  In a kernel that does not keep the key and value gradients in
    registers, for every key tile that receives no query contribution (its
    starting query offset [getQueryStart] is at or past the number of
    queries), after [attention_kernel] every in-range feature element of
    every in-range row of that tile holds exactly zero in the GradValue and
    GradKey tensors: the cells have been written, not left as they were. *)
Theorem zfill_empty_key_tile `{AR : Arith} `{EN : !Engine}
  (cfg : KernelConfig) (p : Params) (inp : Inputs) (st : KernelState)
  (key_start key k : Z) :
  0 < kBlockSizeI cfg -> 0 < kBlockSizeJ cfg ->
  1 <= kNumWarpsPerBlock cfg ->
  kOutputInRF cfg = false ->
  In key_start (tile_starts (num_keys p) (kBlockSizeJ cfg)) ->
  getQueryStart p key_start >= num_queries p ->
  key_start <= key < key_start + kBlockSizeJ cfg -> key < num_keys p ->
  0 <= k ->
  let final := gmem (attention_kernel cfg p inp st) in
  (k < head_dim_value p ->
   grad_value final !! (key * gV_strideM p + k) = Some s_zero)
  /\ (k < head_dim p ->
      grad_key final !! (key * gK_strideM p + k) = Some s_zero).
Proof.
  intros HI HJ Hw HRF Hks Hnoq Hkey Hlt Hk final.
  unfold getQueryStart in Hnoq.
  assert (Hnq : num_queries p <= 0) by lia.
  subst final. rewrite attention_kernel_calls_run by assumption.
  set (Qv := fun s : KernelState =>
               grad_value (gmem s) !! (key * gV_strideM p + k) = Some s_zero).
  set (Qk := fun s : KernelState =>
               grad_key (gmem s) !! (key * gK_strideM p + k) = Some s_zero).
  (* every call of this run is a clear or a zero-fill *)
  assert (Hcalls : forall c, In c (kernel_calls cfg p) ->
            c = CallClear \/ exists full ks, c = CallZfillGradKV full ks).
  { intros c Hc. unfold kernel_calls in Hc. cbv zeta in Hc.
    unfold delta_calls in Hc.
    rewrite (tile_starts_nonpos _ _ HI Hnq) in Hc.
    assert (Hd : (if kKernelComputesDelta cfg
                  then map (CallComputeDelta
                              (if cmod (head_dim_value p)
                                       (cdiv 128 (scalar_bits cfg)) =? 0
                               then cdiv 128 (scalar_bits cfg) else 1)) []
                  else []) = [])
      by (destruct (kKernelComputesDelta cfg); reflexivity).
    cbv zeta in Hc. rewrite Hd in Hc. clear Hd. simpl app in Hc.
    apply in_app_iff in Hc. destruct Hc as [Hc|Hc].
    - apply in_flat_map in Hc. destruct Hc as (ks & _ & Hc).
      rewrite key_tile_calls_no_queries in Hc by assumption.
      destruct Hc as [<-|[<-|[]]]; eauto.
    - destruct (negb _); [|contradiction].
      rewrite key_tile_calls_no_queries in Hc by assumption.
      destruct Hc as [<-|[<-|[]]]; eauto. }
  (* the zero-fill of this key tile is one of them *)
  assert (Hmine : exists full,
            In (CallZfillGradKV full key_start) (kernel_calls cfg p)
            /\ (full = true \/ key < num_keys p)).
  { rewrite <- (tile_starts_split (num_keys p) (kBlockSizeJ cfg) HJ) in Hks.
    cbv zeta in Hks. apply in_app_iff in Hks.
    unfold kernel_calls. cbv zeta.
    destruct Hks as [Hks|Hks].
    - exists true. split; [|left; reflexivity].
      apply in_app_iff. right. apply in_app_iff. left.
      apply in_flat_map. exists key_start. split; [exact Hks|].
      rewrite key_tile_calls_no_queries by assumption.
      right. left. reflexivity.
    - exists false. split; [|right; exact Hlt].
      apply in_app_iff. right. apply in_app_iff. right.
      set (x := Z.of_nat (iter_count 0 _ _) * kBlockSizeJ cfg) in *.
      destruct (x <? num_keys p) eqn:E; [|contradiction].
      destruct Hks as [<-|[]]. apply Z.ltb_lt in E.
      replace (x =? num_keys p) with false
        by (symmetry; apply Z.eqb_neq; lia).
      simpl negb. cbv iota.
      rewrite key_tile_calls_no_queries by assumption.
      right. left. reflexivity. }
  destruct Hmine as (full & Hmine & Hfull).
  assert (Hkeep : forall (Q : KernelState -> Prop),
            (forall s skip ks, Q s ->
               Q (zfillGradKV cfg skip p ks s)) ->
            (forall s, Q s -> Q (clear_output_frags s)) ->
            forall s c, In c (kernel_calls cfg p) -> Q s ->
              Q (run_call (kernel_handlers cfg p inp) c s)).
  { intros Q Hz Hc s c Hin Hs.
    destruct (Hcalls c Hin) as [->|(f & ks & ->)]; simpl; auto. }
  unfold run_calls. split; intros Hklt.
  - apply (fold_left_establish_in _ Qv _ (CallZfillGradKV full key_start)
             Hmine).
    + intros s. subst Qv. simpl.
      apply (zfill_mem_cover cfg p Hw HJ full key_start key k _ Hkey Hfull Hk).
      exact Hklt.
    + apply (Hkeep Qv).
      * intros s skip ks Hs. subst Qv. simpl.
        apply (zfill_mem_keep cfg p skip ks). exact Hs.
      * intros s Hs. exact Hs.
  - apply (fold_left_establish_in _ Qk _ (CallZfillGradKV full key_start)
             Hmine).
    + intros s. subst Qk. simpl.
      apply (zfill_mem_cover cfg p Hw HJ full key_start key k _ Hkey Hfull Hk).
      exact Hklt.
    + apply (Hkeep Qk).
      * intros s skip ks Hs. subst Qk. simpl.
        apply (zfill_mem_keep cfg p skip ks). exact Hs.
      * intros s Hs. exact Hs.
Qed.

Lemma zfill_empty_key_tile_witness :
  In 128 (tile_starts (num_keys params_no_queries)
            (kBlockSizeJ cfg_half_spill))
  /\ grad_value
       (gmem (attention_kernel (EN := engine_example) cfg_half_spill
                params_no_queries inputs_example
                (state_example (fun _ _ => 1))))
     !! (129 * 64 + 5) = Some 0
  /\ grad_key
       (gmem (attention_kernel (EN := engine_example) cfg_half_spill
                params_no_queries inputs_example
                (state_example (fun _ _ => 1))))
     !! (129 * 64 + 31) = Some 0.
Proof.
  assert (Hin : In 128 (tile_starts (num_keys params_no_queries)
                          (kBlockSizeJ cfg_half_spill)))
    by (vm_compute; tauto).
  split; [exact Hin|]. split.
  - apply (zfill_empty_key_tile (EN := engine_example) cfg_half_spill
             params_no_queries inputs_example (state_example (fun _ _ => 1))
             128 129 5); try exact Hin; try reflexivity;
      try (vm_compute; intuition congruence).
  - apply (zfill_empty_key_tile (EN := engine_example) cfg_half_spill
             params_no_queries inputs_example (state_example (fun _ _ => 1))
             128 129 31); try exact Hin; try reflexivity;
      try (vm_compute; intuition congruence).
Defined.

(** ** The stages of processBlockIJ *)

Ltac break_ifs :=
  repeat match goal with
         | |- context [let '(_, _) := ?x in _] => destruct x
         | |- context [if ?c then _ else _] => destruct c
         end.

Ltac frame_loop f st :=
  apply (for_loop_invariant _ (fun s => f s = f st));
  [ reflexivity
  | let i := fresh "i" in
    let s := fresh "s" in
    let Hs := fresh "Hs" in
    intros i s Hs; rewrite <- Hs; cbv zeta; break_ifs; reflexivity ].

Section Stages.

Context `{AR : Arith} `{EN : !Engine}.
Variable cfg : KernelConfig.
Variable p : Params.
Variable inp : Inputs.

Lemma stage_GradV_shared (skip : bool) (qs ks : Z) (f l : bool)
  (st : KernelState) :
  shared_storage (stage_GradV cfg skip p inp qs ks f l st)
  = shared_storage st.
Proof. unfold stage_GradV. cbv zeta. frame_loop shared_storage st. Qed.

Lemma stage_GradQ_shared (skip : bool) (qs ks : Z) (st : KernelState) :
  shared_storage (stage_GradQ cfg skip p inp qs ks st) = shared_storage st.
Proof. unfold stage_GradQ. cbv zeta. frame_loop shared_storage st. Qed.

Lemma stage_GradK_shared (skip : bool) (qs ks : Z) (f l : bool)
  (st : KernelState) :
  shared_storage (stage_GradK cfg skip p inp qs ks f l st)
  = shared_storage st.
Proof. unfold stage_GradK. cbv zeta. frame_loop shared_storage st. Qed.

Lemma stage_GradV_delta (skip : bool) (qs ks : Z) (f l : bool)
  (st : KernelState) :
  delta (gmem (stage_GradV cfg skip p inp qs ks f l st)) = delta (gmem st).
Proof.
  unfold stage_GradV. cbv zeta.
  frame_loop (fun s : KernelState => delta (gmem s)) st.
Qed.

Lemma stage_GradQ_bias_grads (skip : bool) (qs ks : Z) (st : KernelState) :
  let st' := stage_GradQ cfg skip p inp qs ks st in
  grad_bias1 (gmem st') = grad_bias1 (gmem st)
  /\ grad_bias2 (gmem st') = grad_bias2 (gmem st).
Proof.
  cbv zeta. unfold stage_GradQ. cbv zeta. split.
  - frame_loop (fun s : KernelState => grad_bias1 (gmem s)) st.
  - frame_loop (fun s : KernelState => grad_bias2 (gmem s)) st.
Qed.

Lemma stage_GradK_bias_grads (skip : bool) (qs ks : Z) (f l : bool)
  (st : KernelState) :
  let st' := stage_GradK cfg skip p inp qs ks f l st in
  grad_bias1 (gmem st') = grad_bias1 (gmem st)
  /\ grad_bias2 (gmem st') = grad_bias2 (gmem st).
Proof.
  cbv zeta. unfold stage_GradK. cbv zeta. split.
  - frame_loop (fun s : KernelState => grad_bias1 (gmem s)) st.
  - frame_loop (fun s : KernelState => grad_bias2 (gmem s)) st.
Qed.

Lemma stage_GradV_bias_grads (skip : bool) (qs ks : Z) (f l : bool)
  (st : KernelState) :
  let st' := stage_GradV cfg skip p inp qs ks f l st in
  grad_bias1 (gmem st') = grad_bias1 (gmem st)
  /\ grad_bias2 (gmem st') = grad_bias2 (gmem st).
Proof.
  cbv zeta. unfold stage_GradV. cbv zeta. split.
  - frame_loop (fun s : KernelState => grad_bias1 (gmem s)) st.
  - frame_loop (fun s : KernelState => grad_bias2 (gmem s)) st.
Qed.

Lemma stage_MatmulQK_attn (skip : bool) (qs ks : Z) (st : KernelState)
  (m n : Z) :
  attn_shared_storage
    (shared_storage (stage_MatmulQK cfg skip p inp qs ks st)) m n
  = to_scalar
      (a_exp
         (a_sub
            (if bias_enabled cfg
             then a_add (a_mul (MatmulQK_accum cfg skip p inp qs ks m n)
                               (scale p))
                        (MatmulQK_bias_tile cfg skip p qs ks n m)
             else a_mul (scale p) (MatmulQK_accum cfg skip p inp qs ks m n))
            (logsumexp inp (qs + n)))).
Proof.
  unfold stage_MatmulQK. cbv zeta.
  destruct (bias_enabled cfg); reflexivity.
Qed.

Lemma front_shared (skip : bool) (qs ks : Z) (st : KernelState) :
  shared_storage (processBlockIJ_front cfg skip p inp qs ks st)
  = shared_storage
      (stage_MatmulQK cfg skip p inp qs ks
         (with_shared
            (fun s => set_di (loadDi cfg (di s) (delta (gmem st)) p qs) s)
            st)).
Proof. unfold processBlockIJ_front. cbv zeta. apply stage_GradV_shared. Qed.

Lemma stage_MatmulQK_di (skip : bool) (qs ks : Z) (st : KernelState) :
  di (shared_storage (stage_MatmulQK cfg skip p inp qs ks st))
  = di (shared_storage st).
Proof.
  unfold stage_MatmulQK. cbv zeta. destruct (bias_enabled cfg); reflexivity.
Qed.

Lemma stage_MatmulQK_gmem (skip : bool) (qs ks : Z) (st : KernelState) :
  gmem (stage_MatmulQK cfg skip p inp qs ks st) = gmem st.
Proof.
  unfold stage_MatmulQK. cbv zeta. destruct (bias_enabled cfg); reflexivity.
Qed.


(** C2.  In the score-gradient stage of an iteration, every element of the
    score-gradient tile inside the valid rows and columns is
    [(rawGrad[q,k] - delta[q]) * weight[q,k]], where
    [rawGrad = OutputGradient_tile x Value_tile^T] is the engine's product
    of the output-gradient rows and the transposed value rows read from
    the two tensors ([spec_rawGrad]), [delta[q]] is the
    per-row correction read from the delta tensor and [weight] is the tile
    written by the score-recomputation stage of the same iteration; in a
    ragged tile every element whose row is at or past the valid query count
    or whose column is at or past the valid key count is exactly zero. *)
Theorem score_gradient_corrected (skip : bool) (qs ks : Z)
  (st : KernelState) (m n : Z) :
  0 <= m < kBlockSizeI cfg ->
  kBlockSizeI cfg <= kNumThreads cfg ->
  (skip = true -> qs + kBlockSizeI cfg <= num_queries p) ->
  let dS :=
    DOIVJ_scoreGrad cfg skip p inp qs ks
      (processBlockIJ_front cfg skip p inp qs ks st) in
  let rawGrad := spec_rawGrad cfg p inp skip qs ks in
  let weight_T :=
    attn_shared_storage
      (shared_storage (stage_MatmulQK cfg skip p inp qs ks st)) in
  (m < num_queries_in_block cfg skip p qs ->
   n < num_keys_in_block cfg skip p ks ->
   dS m n
   = a_mul (a_sub (rawGrad m n) (read_accum (delta (gmem st)) (qs + m)))
           (to_accum (weight_T n m)))
  /\ (skip = false ->
      num_queries_in_block cfg skip p qs <= m
      \/ num_keys_in_block cfg skip p ks <= n ->
      dS m n = a_zero).
Proof.
  intros Hm Hthreads Hfull dS rawGrad weight_T.
  subst dS. unfold DOIVJ_scoreGrad. rewrite front_shared.
  rewrite stage_MatmulQK_di.
  assert (Hattn :
    attn_shared_storage
      (shared_storage
         (stage_MatmulQK cfg skip p inp qs ks
            (with_shared
               (fun s => set_di (loadDi cfg (di s) (delta (gmem st)) p qs) s)
               st))) n m
    = weight_T n m).
  { subst weight_T. rewrite !stage_MatmulQK_attn. reflexivity. }
  unfold scoreGrad_correction. rewrite Hattn. split.
  - intros Hmq Hnk.
    replace (skip || ((m <? num_queries_in_block cfg skip p qs)
                      && (n <? num_keys_in_block cfg skip p ks)))
      with true.
    2:{ symmetry. apply orb_true_iff. right. apply andb_true_iff.
        split; apply Z.ltb_lt; assumption. }
    f_equal. f_equal. simpl. unfold loadDi.
    replace ((0 <=? m) && (m <? kNumThreads cfg) && (m <? kBlockSizeI cfg))
      with true.
    2:{ symmetry. rewrite !andb_true_iff.
        repeat split; [apply Z.leb_le|apply Z.ltb_lt|apply Z.ltb_lt]; lia. }
    replace (qs + m <? num_queries p) with true; [reflexivity|].
    symmetry. apply Z.ltb_lt.
    unfold num_queries_in_block, MatmulQK_kN in Hmq.
    destruct skip; [specialize (Hfull eq_refl)|]; lia.
  - intros -> Hout. cbn [orb].
    replace ((m <? num_queries_in_block cfg false p qs)
             && (n <? num_keys_in_block cfg false p ks)) with false;
      [reflexivity|].
    symmetry. apply andb_false_iff.
    destruct Hout as [H|H]; [left|right]; apply Z.ltb_ge; exact H.
Qed.


End Stages.

(** ** One representation of the GradK operand: C10 *)

Lemma for_loop_rel {S1 S2 : Type} (R : S1 -> S2 -> Prop)
  (body1 : Z -> S1 -> S1) (body2 : Z -> S2 -> S2) (start stop step : Z)
  (s1 : S1) (s2 : S2) :
  R s1 s2 ->
  (forall i a b, R a b -> R (body1 i a) (body2 i b)) ->
  R (snd (for_loop start stop step body1 s1))
    (snd (for_loop start stop step body2 s2)).
Proof.
  intros Hs Hbody. unfold for_loop.
  generalize (Z.to_nat (stop - start)) as fuel. intros fuel.
  revert start s1 s2 Hs.
  induction fuel as [|f IH]; intros i s1 s2 Hs; simpl; [exact Hs|].
  destruct (i <? stop); [apply IH, Hbody, Hs | exact Hs].
Qed.

Section Transposed.

Context `{AR : Arith} `{EN : !Engine}.
Variable cfg : KernelConfig.
Variable p : Params.
Variable inp : Inputs.

Lemma front_transposedA (b : bool) (skip : bool) (qs ks : Z)
  (st : KernelState) :
  processBlockIJ_front (with_transposedA b cfg) skip p inp qs ks st
  = processBlockIJ_front cfg skip p inp qs ks st.
Proof. reflexivity. Qed.

Lemma scoreGrad_transposedA (b : bool) (skip : bool) (qs ks : Z)
  (st : KernelState) :
  DOIVJ_scoreGrad (with_transposedA b cfg) skip p inp qs ks st
  = DOIVJ_scoreGrad cfg skip p inp qs ks st.
Proof. reflexivity. Qed.

Lemma with_transposedA_same :
  with_transposedA (kIsTransposedA cfg) cfg = cfg.
Proof. destruct cfg; reflexivity. Qed.

Lemma stage_GradQ_rel (skip : bool) (qs ks : Z) (a b : KernelState)
  (cfg1 cfg2 : bool) :
  output_frags a = output_frags b -> gmem a = gmem b ->
  tmp_shared_storage (shared_storage a)
  = tmp_shared_storage (shared_storage b) ->
  let a' := stage_GradQ (with_transposedA cfg1 cfg) skip p inp qs ks a in
  let b' := stage_GradQ (with_transposedA cfg2 cfg) skip p inp qs ks b in
  output_frags a' = output_frags b' /\ gmem a' = gmem b'.
Proof.
  intros Hf Hg Ht a' b'. subst a' b'. unfold stage_GradQ. cbv zeta.
  apply (for_loop_rel
           (fun x y : KernelState =>
              (output_frags x = output_frags y /\ gmem x = gmem y)
              /\ tmp_shared_storage (shared_storage x)
                 = tmp_shared_storage (shared_storage y))).
  - auto.
  - intros i [sx fx gx] [sy fy gy] [[Hfx Hgx] Htx].
    simpl in Hfx, Hgx, Htx. subst fy gy.
    destruct (incrIteration (with_transposedA cfg1 cfg) p (num_queries p) ks)
      as [nq nk] eqn:E1.
    change (incrIteration (with_transposedA cfg2 cfg) p (num_queries p) ks)
      with (incrIteration (with_transposedA cfg1 cfg) p (num_queries p) ks).
    rewrite E1. cbn [shared_storage gmem output_frags].
    rewrite Htx.
    change (kNeedsAccumGradQ (with_transposedA cfg2 cfg))
      with (kNeedsAccumGradQ (with_transposedA cfg1 cfg)).
    destruct (kNeedsAccumGradQ (with_transposedA cfg1 cfg)
              && negb ((nq >? qs) || (nk >=? num_keys p)));
      simpl; auto.
Qed.

Lemma stage_GradK_rel (skip : bool) (qs ks : Z) (f l : bool)
  (a b : KernelState) :
  output_frags a = output_frags b -> gmem a = gmem b ->
  GradK_operand_A (with_transposedA true cfg) a
  = GradK_operand_A (with_transposedA false cfg) b ->
  let a' := stage_GradK (with_transposedA true cfg) skip p inp qs ks f l a in
  let b' := stage_GradK (with_transposedA false cfg) skip p inp qs ks f l b in
  output_frags a' = output_frags b' /\ gmem a' = gmem b'.
Proof.
  intros Hf Hg Hop a' b'. subst a' b'. unfold stage_GradK. cbv zeta.
  apply (for_loop_rel
           (fun x y : KernelState =>
              (output_frags x = output_frags y /\ gmem x = gmem y)
              /\ GradK_operand_A (with_transposedA true cfg) x
                 = GradK_operand_A (with_transposedA false cfg) y)).
  - auto.
  - intros i [sx fx gx] [sy fy gy] [[Hfx Hgx] Hox].
    simpl in Hfx, Hgx. subst fy gy.
    change (kOutputInRF (with_transposedA false cfg))
      with (kOutputInRF (with_transposedA true cfg)).
    change (kNeedsAccumGradK (with_transposedA false cfg))
      with (kNeedsAccumGradK (with_transposedA true cfg)).
    assert (Hop1 : forall f1 g1 f2 g2,
      GradK_operand_A (with_transposedA true cfg)
        (Build_KernelState sx f1 g1)
      = GradK_operand_A (with_transposedA false cfg)
          (Build_KernelState sy f2 g2)) by (intros; exact Hox).
    destruct (negb (kOutputInRF (with_transposedA true cfg)));
      destruct (f || negb (kNeedsAccumGradK (with_transposedA true cfg)));
      destruct (kNeedsAccumGradK (with_transposedA true cfg) && negb l);
      unfold with_frags, with_gmem;
      cbn [shared_storage gmem output_frags set_gradK gradK gradV];
      rewrite ?Hox, 1?(Hop1 _ _ fx gx);
      repeat split; try reflexivity; try apply Hop1.
Qed.

(** C10.  The score-gradient operand of the key-gradient matmul has exactly
    one representation per kernel configuration, fixed by the compile-time
    constant [kIsTransposedA]: either only the untransposed tile [tmp] is
    stored and the matmul reads it transposed (the transposed buffer is not
    written), or the tile is also stored pre-transposed in [tmpT] and the
    matmul reads that buffer untransposed.  Every configuration is one of
    the two, and the two choices leave the same key-gradient accumulators
    and the same global memory after the iteration. *)
Theorem gradK_operand_one_representation (skip : bool) (qs ks : Z)
  (st : KernelState) :
  let cfgT := with_transposedA true cfg in
  let cfgN := with_transposedA false cfg in
  let st0 := processBlockIJ_front cfg skip p inp qs ks st in
  let inT := stage_MatmulDOIVJ cfgT skip p inp qs ks st0 in
  let inN := stage_MatmulDOIVJ cfgN skip p inp qs ks st0 in
  let outT := processBlockIJ cfgT skip p inp qs ks st in
  let outN := processBlockIJ cfgN skip p inp qs ks st in
  (cfg = cfgT \/ cfg = cfgN)
  /\ tmpT_shared_storage (shared_storage inT)
     = tmpT_shared_storage (shared_storage st0)
  /\ (forall s : KernelState,
        GradK_operand_A cfgT s
        = fun n m => tmp_shared_storage (shared_storage s) m n)
  /\ (forall n m,
        tmpT_shared_storage (shared_storage inN) n m
        = tmp_shared_storage (shared_storage inN) m n)
  /\ (forall s : KernelState,
        GradK_operand_A cfgN s = tmpT_shared_storage (shared_storage s))
  /\ output_frags outT = output_frags outN
  /\ gmem outT = gmem outN.
Proof.
  intros cfgT cfgN st0 inT inN outT outN.
  assert (Hin : output_frags inT = output_frags inN
                /\ gmem inT = gmem inN
                /\ tmp_shared_storage (shared_storage inT)
                   = tmp_shared_storage (shared_storage inN)
                /\ GradK_operand_A cfgT inT = GradK_operand_A cfgN inN
                /\ tmpT_shared_storage (shared_storage inT)
                   = tmpT_shared_storage (shared_storage st0)
                /\ (forall n m,
                      tmpT_shared_storage (shared_storage inN) n m
                      = tmp_shared_storage (shared_storage inN) m n)).
  { subst inT inN cfgT cfgN.
    unfold stage_MatmulDOIVJ, GradK_operand_A. cbv zeta.
    change (broadcast_1_kEnable (with_transposedA true cfg))
      with (broadcast_1_kEnable cfg).
    change (broadcast_2_kEnable (with_transposedA true cfg))
      with (broadcast_2_kEnable cfg).
    change (broadcast_1_kEnable (with_transposedA false cfg))
      with (broadcast_1_kEnable cfg).
    change (broadcast_2_kEnable (with_transposedA false cfg))
      with (broadcast_2_kEnable cfg).
    destruct (broadcast_1_kEnable cfg && negb (grad_bias1_ptr p =? 0));
      destruct (broadcast_2_kEnable cfg && negb (grad_bias2_ptr p =? 0));
      repeat split; reflexivity. }
  destruct Hin as (Hf & Hg & Ht & Hop & HtmpT & HtmpN).
  split; [|split; [exact HtmpT|split; [reflexivity|split;
                  [exact HtmpN|split; [reflexivity|]]]]].
  - subst cfgT cfgN. pose proof with_transposedA_same as Hsame.
    destruct (kIsTransposedA cfg); [left|right]; symmetry; exact Hsame.
  - subst outT outN. unfold processBlockIJ. cbv zeta.
    change (processBlockIJ_front cfgT skip p inp qs ks st) with st0.
    change (processBlockIJ_front cfgN skip p inp qs ks st) with st0.
    fold inT inN.
    destruct (stage_GradQ_rel skip qs ks inT inN true false Hf Hg Ht)
      as [HfQ HgQ].
    apply stage_GradK_rel; [exact HfQ | exact HgQ |].
    unfold GradK_operand_A in *.
    rewrite !stage_GradQ_shared. exact Hop.
Qed.

End Transposed.

(** ** The dropout mask operand: C6 *)

Section Dropout.

Context `{AR : Arith} `{EN : !Engine}.
Variable cfg : KernelConfig.
Variable p : Params.
Variable inp : Inputs.

Lemma stage_MatmulQK_zij (skip : bool) (qs ks : Z) (st : KernelState) :
  zij (shared_storage (stage_MatmulQK cfg skip p inp qs ks st))
  = zij (shared_storage st).
Proof.
  unfold stage_MatmulQK. cbv zeta. destruct (bias_enabled cfg); reflexivity.
Qed.

Lemma stage_MatmulDOIVJ_zij (skip : bool) (qs ks : Z) (st : KernelState) :
  zij (shared_storage (stage_MatmulDOIVJ cfg skip p inp qs ks st))
  = zij (shared_storage st).
Proof. unfold stage_MatmulDOIVJ. cbv zeta. break_ifs; reflexivity. Qed.

Lemma processBlockIJ_zij (skip : bool) (qs ks : Z) (st : KernelState) :
  zij (shared_storage (processBlockIJ cfg skip p inp qs ks st))
  = zij (shared_storage st).
Proof.
  unfold processBlockIJ. cbv zeta.
  rewrite stage_GradK_shared, stage_GradQ_shared, stage_MatmulDOIVJ_zij.
  rewrite front_shared, stage_MatmulQK_zij. reflexivity.
Qed.

(** The mask operand of the GradV matmul of an iteration is the [zij] tile
    as it was when the iteration began. *)
Lemma GradV_mask_operand_entry (skip : bool) (qs ks : Z) (st : KernelState) :
  GradV_scale_operand cfg
    (stage_MatmulQK cfg skip p inp qs ks
       (with_shared
          (fun s => set_di (loadDi cfg (di s) (delta (gmem st)) p qs) s) st))
  = if kApplyDropout cfg then Some (zij (shared_storage st)) else None.
Proof.
  unfold GradV_scale_operand. rewrite stage_MatmulQK_zij. reflexivity.
Qed.

End Dropout.

Lemma attention_kernel_gen_invariant `{AR : Arith} (cfg : KernelConfig)
  {S : Type} (h : Handlers S) (p : Params) (P : S -> Prop) :
  (forall e q s, P s -> P (h_computeDelta h e q s)) ->
  (forall s, P s -> P (h_clear h s)) ->
  (forall skip q k s, P s -> P (h_processBlockIJ h skip q k s)) ->
  (forall skip k s, P s -> P (h_writeFragsToGmem h skip k s)) ->
  (forall skip k s, P s -> P (h_zfillGradKV h skip k s)) ->
  forall s, P s -> P (attention_kernel_gen cfg h p s).
Proof.
  intros Hd Hc Hp Hw Hz s Hs. unfold attention_kernel_gen. cbv zeta.
  assert (Hdelta : P (delta_pass cfg h p s)).
  { unfold delta_pass. destruct (kKernelComputesDelta cfg); [|exact Hs].
    cbv zeta. destruct (_ =? 0);
      apply for_loop_invariant; auto. }
  assert (Hfull : forall k s', P s' -> P (key_tile_full cfg h p k s')).
  { intros k s' Hs'. unfold key_tile_full. cbv zeta.
    match goal with
    | |- context [for_loop ?a ?b ?c ?body ?s0] =>
        pose proof (for_loop_invariant body P a b c s0 (Hc _ Hs')
                      (fun i s1 H => Hp true i k s1 H)) as Hloop;
        destruct (for_loop a b c body s0) as [q s1]
    end.
    simpl in Hloop.
    assert (P (if q <? num_queries p
               then h_processBlockIJ h false q k s1 else s1))
      by (destruct (q <? num_queries p); auto).
    destruct (kOutputInRF cfg); [auto|].
    destruct (_ >=? _); auto. }
  assert (Hpart : forall k s', P s' -> P (key_tile_partial cfg h p k s')).
  { intros k s' Hs'. unfold key_tile_partial. cbv zeta.
    assert (P (snd (for_loop (getQueryStart p k) (num_queries p)
                      (kBlockSizeI cfg)
                      (fun query_start s0 =>
                         h_processBlockIJ h false query_start k s0)
                      (h_clear h s'))))
      by (apply for_loop_invariant; auto).
    destruct (kOutputInRF cfg); [auto|].
    destruct (_ >=? _); auto. }
  match goal with
  | |- context [for_loop ?a ?b ?c ?body ?s0] =>
      pose proof (for_loop_invariant body P a b c s0 Hdelta
                    (fun i s1 H => Hfull i s1 H)) as Hloop;
      destruct (for_loop a b c body s0) as [k s1]
  end.
  simpl in Hloop. destruct (negb _); auto.
Qed.

(** Nothing in the kernel writes the mask tile: after the whole kernel the
    shared-memory tile [zij] holds what it held at launch. *)
Lemma attention_kernel_zij `{AR : Arith} `{EN : !Engine}
  (cfg : KernelConfig) (p : Params) (inp : Inputs) (st : KernelState) :
  zij (shared_storage (attention_kernel cfg p inp st))
  = zij (shared_storage st).
Proof.
  unfold attention_kernel.
  apply (attention_kernel_gen_invariant cfg (kernel_handlers cfg p inp) p
           (fun s => zij (shared_storage s) = zij (shared_storage st)));
    simpl; try reflexivity; intros; try assumption.
  rewrite processBlockIJ_zij. assumption.
Qed.

(** C6, evaluated on the code.  The dropout kernel accepts a launch with
    dropout probability 1/2.  Two executions of the same iteration with the
    same parameters, the same (batch, head) RNG offset and the same tile
    coordinates, which differ only in what the shared-memory tile [zij]
    held at launch, hand different masks to the GradV matmul and leave
    different value gradients: the mask is not regenerated from the seed
    and the coordinates; it is whatever the shared memory held. *)
Theorem dropout_mask_is_stale_shared_memory :
  let run := fun mask =>
    processBlockIJ_front (EN := engine_example) cfg_half_dropout false
      params_dropout inputs_example 0 0 (state_example mask) in
  let ones : tile Z := fun _ _ => 1 in
  let zeros : tile Z := fun _ _ => 0 in
  check_supported cfg_half_dropout params_dropout = Supported
  /\ kApplyDropout cfg_half_dropout = true
  /\ (exists z, GradV_scale_operand cfg_half_dropout (run ones) = Some z
                /\ z 0 0 = 1)
  /\ (exists z, GradV_scale_operand cfg_half_dropout (run zeros) = Some z
                /\ z 0 0 = 0)
  /\ gradV (output_frags (run ones)) 0 0 = -8
  /\ gradV (output_frags (run zeros)) 0 0 = 0.
Proof.
  cbv zeta. split; [reflexivity|]. split; [reflexivity|].
  split; [eexists; split; [reflexivity|reflexivity]|].
  split; [eexists; split; [reflexivity|reflexivity]|].
  split; vm_compute; reflexivity.
Qed.

(** ** The stage theorems at a concrete iteration *)


Lemma score_gradient_corrected_witness :
  let st := state_example (fun _ _ => 1) in
  let dS :=
    DOIVJ_scoreGrad (EN := engine_example) cfg_half_rf false
      params_example inputs_example 64 128
      (processBlockIJ_front (EN := engine_example) cfg_half_rf false
         params_example inputs_example 64 128 st) in
  num_queries_in_block cfg_half_rf false params_example 64 = 36
  /\ num_keys_in_block cfg_half_rf false params_example 128 = 2
  /\ spec_rawGrad (EN := engine_example) cfg_half_rf params_example
       inputs_example false 64 128 10 1
     = sum_upto 32
         (fun f => grad_output inputs_example ((64 + 10) * 64 + f)
                   * value inputs_example ((128 + 1) * 64 + f))
  /\ dS 10 1
     = a_mul
         (a_sub
            (spec_rawGrad (EN := engine_example) cfg_half_rf
               params_example inputs_example false 64 128 10 1)
            (read_accum (delta (gmem st)) (64 + 10)))
         (to_accum
            (attn_shared_storage
               (shared_storage
                  (stage_MatmulQK (EN := engine_example) cfg_half_rf false
                     params_example inputs_example 64 128 st)) 1 10))
  /\ dS 40 1 = 0.
Proof.
  cbv zeta.
  pose proof (score_gradient_corrected (AR := ZArith_inst)
                (EN := engine_example) cfg_half_rf params_example
                inputs_example false 64 128
                (state_example (fun _ _ => 1)) 10 1
                ltac:(vm_compute; intuition congruence)
                ltac:(vm_compute; congruence)
                ltac:(discriminate)) as [Hin _].
  pose proof (score_gradient_corrected (AR := ZArith_inst)
                (EN := engine_example) cfg_half_rf params_example
                inputs_example false 64 128
                (state_example (fun _ _ => 1)) 40 1
                ltac:(vm_compute; intuition congruence)
                ltac:(vm_compute; congruence)
                ltac:(discriminate)) as [_ Hout].
  split; [reflexivity|]. split; [reflexivity|].
  split; [vm_compute; reflexivity|]. split.
  - apply Hin; vm_compute; reflexivity.
  - apply Hout; [reflexivity|]. left. vm_compute. congruence.
Defined.

(** ** Sums in the accumulation type *)

Section Sums.

Context `{AR : Arith}.
Hypothesis add_assoc : forall x y z : accum_t,
  a_add x (a_add y z) = a_add (a_add x y) z.
Hypothesis add_comm : forall x y : accum_t, a_add x y = a_add y x.
Hypothesis add_0_r : forall x : accum_t, a_add x a_zero = x.

Lemma add_0_l (x : accum_t) : a_add a_zero x = x.
Proof. rewrite add_comm. apply add_0_r. Qed.

Lemma fold_add_start (l : list accum_t) (d : accum_t) :
  fold_left a_add l d = a_add d (asum l).
Proof.
  unfold asum. revert d. induction l as [|x l IH]; intros d; simpl.
  - symmetry. apply add_0_r.
  - rewrite (IH (a_add d x)), (IH (a_add a_zero x)), add_0_l.
    symmetry. apply add_assoc.
Qed.

Lemma asum_app (l1 l2 : list accum_t) :
  asum (l1 ++ l2) = a_add (asum l1) (asum l2).
Proof.
  unfold asum at 1. rewrite fold_left_app. apply fold_add_start.
Qed.

Lemma asum_cons (x : accum_t) (l : list accum_t) :
  asum (x :: l) = a_add x (asum l).
Proof.
  unfold asum at 1. simpl. rewrite fold_add_start, add_0_l. reflexivity.
Qed.

Lemma fold_add_map {A : Type} (g : A -> accum_t) (l : list A)
  (d : accum_t) :
  fold_left (fun d x => a_add d (g x)) l d = a_add d (asum (map g l)).
Proof.
  rewrite <- fold_add_start. revert d.
  induction l as [|x l IH]; intros d; simpl; [reflexivity|apply IH].
Qed.

Lemma bsum_0 (g : nat -> accum_t) : bsum 0 g = a_zero.
Proof. reflexivity. Qed.

Lemma bsum_S (n : nat) (g : nat -> accum_t) :
  bsum (Datatypes.S n) g = a_add (bsum n g) (g n).
Proof.
  unfold bsum. rewrite seq_S, map_app, asum_app. simpl.
  rewrite asum_cons. unfold asum at 2. simpl. rewrite add_0_r. reflexivity.
Qed.

Lemma bsum_ext (n : nat) (f g : nat -> accum_t) :
  (forall k, (k < n)%nat -> f k = g k) -> bsum n f = bsum n g.
Proof.
  intros H. unfold bsum. f_equal. apply map_ext_in.
  intros k Hk. apply in_seq in Hk. apply H. lia.
Qed.

Lemma bsum_zero (n : nat) : bsum n (fun _ => a_zero) = a_zero.
Proof.
  induction n as [|n IH]; [reflexivity|].
  rewrite bsum_S, IH. apply add_0_r.
Qed.

Lemma bsum_add (n : nat) (f g : nat -> accum_t) :
  bsum n (fun k => a_add (f k) (g k)) = a_add (bsum n f) (bsum n g).
Proof.
  induction n as [|n IH].
  - rewrite !bsum_0. symmetry. apply add_0_r.
  - rewrite !bsum_S, IH.
    rewrite <- !add_assoc. f_equal.
    rewrite !add_assoc. f_equal. apply add_comm.
Qed.

Lemma bsum_plus (n m : nat) (g : nat -> accum_t) :
  bsum (n + m) g = a_add (bsum n g) (bsum m (fun k => g (n + k)%nat)).
Proof.
  induction m as [|m IH].
  - rewrite Nat.add_0_r, bsum_0, add_0_r. reflexivity.
  - rewrite Nat.add_succ_r, !bsum_S, IH. symmetry. apply add_assoc.
Qed.

Lemma bsum_nested (n m : nat) (g : nat -> accum_t) :
  bsum (n * m) g = bsum n (fun a => bsum m (fun b => g (a * m + b)%nat)).
Proof.
  induction n as [|n IH]; [reflexivity|].
  rewrite bsum_S, <- IH.
  replace (Datatypes.S n * m)%nat with (n * m + m)%nat by lia.
  apply bsum_plus.
Qed.

Lemma bsum_exchange (n m : nat) (g : nat -> nat -> accum_t) :
  bsum n (fun a => bsum m (fun b => g a b))
  = bsum m (fun b => bsum n (fun a => g a b)).
Proof.
  induction n as [|n IH].
  - rewrite bsum_0. symmetry.
    rewrite (bsum_ext m _ (fun _ => a_zero)) by (intros; apply bsum_0).
    apply bsum_zero.
  - rewrite bsum_S, IH.
    rewrite <- (bsum_add m (fun b => bsum n (fun a => g a b))
                  (fun b => g n b)).
    apply bsum_ext. intros b _. symmetry.
    apply (bsum_S n (fun a => g a b)).
Qed.

Lemma bsum_zero_tail (n0 n : nat) (g : nat -> accum_t) :
  (n0 <= n)%nat -> (forall k, (n0 <= k < n)%nat -> g k = a_zero) ->
  bsum n g = bsum n0 g.
Proof.
  intros Hle Hz. replace n with (n0 + (n - n0))%nat by lia.
  rewrite bsum_plus.
  rewrite (bsum_ext (n - n0) _ (fun _ => a_zero))
    by (intros k Hk; apply Hz; lia).
  rewrite bsum_zero. apply add_0_r.
Qed.

End Sums.

(** ** One thread of computeDelta *)

Lemma combine_map {A B C : Type} (f : A -> B) (g : A -> C) (l : list A) :
  combine (map f l) (map g l) = map (fun x => (f x, g x)) l.
Proof. induction l as [|x l IH]; simpl; [reflexivity|]. f_equal. exact IH. Qed.

Lemma fold_left_seq_ind {S : Type} (f : S -> nat -> S) (P : nat -> S -> Prop)
  (n : nat) (s : S) :
  P 0%nat s ->
  (forall k s, (k < n)%nat -> P k s -> P (Datatypes.S k) (f s k)) ->
  P n (fold_left f (seq 0 n) s).
Proof.
  intros H0 Hstep. induction n as [|n IH]; [exact H0|].
  rewrite seq_S, fold_left_app. simpl. apply Hstep; [lia|].
  apply IH. intros k s' Hk. apply Hstep. lia.
Qed.

Section DeltaThreadProof.

Context `{AR : Arith}.
Hypothesis add_assoc : forall x y z : accum_t,
  a_add x (a_add y z) = a_add (a_add x y) z.
Hypothesis add_comm : forall x y : accum_t, a_add x y = a_add y x.
Hypothesis add_0_r : forall x : accum_t, a_add x a_zero = x.
Hypothesis mul_zero : a_mul (to_accum s_zero) (to_accum s_zero) = a_zero.

Variable cfg : KernelConfig.
Variable p : Params.
Variable inp : Inputs.
Variable E : Z.
Variable query_start warp_id lane_id : Z.

Let T := kNumThreadsPerLine cfg.
Let S := E * T.
Let thread_id := 32 * warp_id + lane_id.
Let c := lane_id mod T.
Let c0 := E * c.
Let R := query_start + thread_id / T.

Hypothesis HE : 0 < E.
Hypothesis HT : 0 < T.
Hypothesis Hlane : 0 <= lane_id.
Hypothesis Hthread : 0 <= thread_id.
Hypothesis Hdiv : (E | head_dim_value p).
Hypothesis Hrow : R < num_queries p.

(* the fragment a valid or invalid load leaves in a slot *)
Let blk (mem : Z -> scalar_t) (base : Z) (j : Z) : list scalar_t :=
  if c0 + j * S <? head_dim_value p
  then map (fun i => mem (base + c0 + j * S + i)) (lanes E)
  else cleared E.

Let Bthread (j : nat) : accum_t :=
  asum (map (fun og => a_mul (to_accum (fst og)) (to_accum (snd og)))
          (combine (blk (output inp) (R * o_strideM p) (Z.of_nat j))
                   (blk (grad_output inp) (R * gO_strideM p) (Z.of_nat j)))).

Let Inv (n : nat) (t : DeltaThread) : Prop :=
  pred t = (c0 + Z.of_nat n * S <? head_dim_value p)
  /\ grad_output_pos t = R * gO_strideM p + c0 + (Z.of_nat n + 1) * S
  /\ output_pos t = R * o_strideM p + c0 + (Z.of_nat n + 1) * S
  /\ frag_output t (Z.of_nat n mod 2)
     = blk (output inp) (R * o_strideM p) (Z.of_nat n)
  /\ frag_grad_output t (Z.of_nat n mod 2)
     = blk (grad_output inp) (R * gO_strideM p) (Z.of_nat n)
  /\ delta_value t = bsum n Bthread.

Lemma cmod_nonneg (a b : Z) : 0 <= a -> 0 < b -> cmod a b = a mod b.
Proof. intros. unfold cmod. apply Z.rem_mod_nonneg; lia. Qed.

Lemma blk_load (mem : Z -> scalar_t) (base pos j : Z) :
  pos = base + c0 + j * S ->
  global_load E (cleared E) mem pos (c0 + j * S <? head_dim_value p)
  = blk mem base j.
Proof.
  intros ->. unfold global_load, blk.
  destruct (c0 + j * S <? head_dim_value p); reflexivity.
Qed.

Lemma columnIteration_Inv (n : nat) (t : DeltaThread) :
  Inv n t ->
  Inv (Datatypes.S n) (columnIteration cfg E p inp c0 (Z.of_nat n) t).
Proof.
  intros (Hp & Hgo & Ho & Hfo & Hfg & Hd).
  assert (HS : 0 < S) by (subst S; nia).
  assert (Hld : cmod (Z.of_nat n + kPipelineStages - 1) kPipelineStages
                = (Z.of_nat n + 1) mod 2).
  { unfold kPipelineStages. rewrite cmod_nonneg by lia. f_equal. lia. }
  assert (Hrd : cmod (Z.of_nat n) kPipelineStages = Z.of_nat n mod 2)
    by (unfold kPipelineStages; apply cmod_nonneg; lia).
  assert (Hne : (Z.of_nat n mod 2 =? (Z.of_nat n + 1) mod 2) = false).
  { apply Z.eqb_neq. Z.to_euclidean_division_equations. lia. }
  assert (Hpred :
    pred t && (c0 + (Z.of_nat n + kPipelineStages - 1) * E
                    * kNumThreadsPerLine cfg <? head_dim_value p)
    = (c0 + (Z.of_nat n + 1) * S <? head_dim_value p)).
  { rewrite Hp. unfold kPipelineStages. fold T.
    replace ((Z.of_nat n + 2 - 1) * E * T) with ((Z.of_nat n + 1) * S)
      by (subst S; lia).
    destruct (c0 + (Z.of_nat n + 1) * S <? head_dim_value p) eqn:E1.
    - apply Z.ltb_lt in E1. rewrite andb_true_r. apply Z.ltb_lt. nia.
    - apply andb_false_r. }
  unfold Inv, columnIteration. cbv zeta.
  rewrite Hld, Hrd, Hpred.
  cbn [pred grad_output_pos output_pos frag_grad_output frag_output
       delta_value loadAndIncrement set_pred set_delta_value].
  replace (Z.of_nat (Datatypes.S n)) with (Z.of_nat n + 1) by lia.
  unfold slot_store. rewrite Z.eqb_refl, Hne.
  fold T. fold S.
  split; [reflexivity|]. split; [rewrite Hgo; lia|]. split; [rewrite Ho; lia|].
  split; [apply blk_load; rewrite Ho; lia|].
  split; [apply blk_load; rewrite Hgo; lia|].
  rewrite Hfo, Hfg, Hd.
  rewrite (fold_add_map add_assoc add_comm add_0_r).
  symmetry. apply (bsum_S add_assoc add_comm add_0_r).
Qed.

Lemma Bthread_block (j : nat) :
  Bthread j
  = delta_block p inp R (Z.to_nat E) (j * Z.to_nat T + Z.to_nat c).
Proof.
  assert (Hc : 0 <= c < T) by (subst c; apply Z.mod_pos_bound; exact HT).
  destruct Hdiv as [q Hq].
  assert (Hidx : forall i : nat,
            Z.of_nat ((j * Z.to_nat T + Z.to_nat c) * Z.to_nat E + i)
            = c0 + Z.of_nat j * S + Z.of_nat i).
  { intros i. subst c0 S. rewrite Nat2Z.inj_add, !Nat2Z.inj_mul,
      Nat2Z.inj_add, Nat2Z.inj_mul, !Z2Nat.id by lia. lia. }
  unfold Bthread, delta_block, blk.
  destruct (c0 + Z.of_nat j * S <? head_dim_value p) eqn:Ev.
  - apply Z.ltb_lt in Ev.
    rewrite combine_map, map_map. unfold lanes. rewrite map_map.
    unfold bsum. f_equal. apply map_ext_in. intros i Hi.
    apply in_seq in Hi. cbn [fst snd].
    unfold delta_term_z. rewrite Hidx.
    replace (c0 + Z.of_nat j * S + Z.of_nat i <? head_dim_value p)
      with true.
    + unfold delta_term. f_equal; f_equal; f_equal; lia.
    + symmetry. apply Z.ltb_lt. subst c0 S.
      assert (c + Z.of_nat j * T < q) by nia. nia.
  - apply Z.ltb_ge in Ev.
    unfold cleared. rewrite combine_map, map_map. cbn [fst snd].
    unfold lanes. rewrite map_map.
    change (asum (map (fun _ : nat => a_mul (to_accum s_zero)
                                        (to_accum s_zero))
                    (seq 0 (Z.to_nat E))))
      with (bsum (Z.to_nat E)
              (fun _ => a_mul (to_accum s_zero) (to_accum s_zero))).
    apply bsum_ext. intros i Hi. rewrite mul_zero.
    unfold delta_term_z. rewrite Hidx.
    replace (c0 + Z.of_nat j * S + Z.of_nat i <? head_dim_value p)
      with false; [reflexivity|].
    symmetry. apply Z.ltb_ge. lia.
Qed.

Lemma iter_count_unit (n : Z) : iter_count 0 n 1 = Z.to_nat n.
Proof.
  unfold iter_count. f_equal.
  replace (n - 0 + 1 - 1) with n by lia. apply Z.div_1_r.
Qed.

Lemma columnIteration_loop (n : Z) (t : DeltaThread) :
  Inv 0 t ->
  delta_value
    (snd (for_loop 0 n 1 (columnIteration cfg E p inp c0) t))
  = bsum (Z.to_nat n) Bthread.
Proof.
  intros H0. rewrite for_loop_fold by lia.
  rewrite iter_count_unit, fold_left_map'.
  assert (H : Inv (Z.to_nat n)
                (fold_left
                   (fun (s : DeltaThread) (x : nat) =>
                      columnIteration cfg E p inp c0
                        (0 + Z.of_nat x * 1) s)
                   (seq 0 (Z.to_nat n)) t)).
  { apply (fold_left_seq_ind _ Inv); [exact H0|].
    intros k s _ Hs.
    replace (0 + Z.of_nat k * 1) with (Z.of_nat k) by lia.
    apply columnIteration_Inv, Hs. }
  destruct H as (_ & _ & _ & _ & _ & H). exact H.
Qed.

(** What one thread of [computeDelta] has accumulated before the reduction
    between workers: the sum of the vector accesses
    [c, c + T, c + 2T, ...] of its row. *)
Lemma computeDelta_thread_value :
  computeDelta_thread cfg E p inp query_start warp_id lane_id
  = bsum (delta_iters cfg p E)
      (fun j => delta_block p inp R (Z.to_nat E)
                  (j * Z.to_nat T + Z.to_nat c)).
Proof.
  assert (Hc : 0 <= c < T) by (subst c; apply Z.mod_pos_bound; exact HT).
  unfold computeDelta_thread. cbv zeta. fold T.
  rewrite (cmod_nonneg lane_id T) by assumption.
  fold c. fold c0. fold thread_id.
  rewrite (cdiv_nonneg thread_id T) by assumption.
  fold R.
  replace (R <? num_queries p) with true
    by (symmetry; apply Z.ltb_lt; exact Hrow).
  set (t0 := {| pred := true;
                grad_output_pos := R * gO_strideM p + c0;
                output_pos := R * o_strideM p + c0;
                frag_grad_output := fun _ => [];
                frag_output := fun _ => [];
                delta_value := a_zero |}).
  set (prologue := for_loop 0 (kPipelineStages - 1) 1 _ t0).
  assert (Hpro : Inv 0 (snd prologue)).
  { subst prologue. unfold for_loop, kPipelineStages. simpl for_fuel.
    cbn [snd]. unfold Inv.
    cbn [pred grad_output_pos output_pos frag_grad_output frag_output
         delta_value loadAndIncrement set_pred t0].
    rewrite (cmod_nonneg 0 2) by lia.
    change (0 mod 2) with 0. change (Z.of_nat 0) with 0.
    unfold slot_store. rewrite Z.eqb_refl. fold T. fold S.
    replace (c0 + 0 * E * T) with (c0 + 0 * S) by lia.
    cbn [andb].
    split; [reflexivity|]. split; [lia|]. split; [lia|].
    split; [apply blk_load; lia|]. split; [apply blk_load; lia|].
    reflexivity. }
  transitivity (bsum (delta_iters cfg p E) Bthread).
  - unfold delta_iters. fold T.
    destruct (kMaxK cfg <=? 256); apply columnIteration_loop; exact Hpro.
  - apply bsum_ext. intros j _. apply Bthread_block.
Qed.

End DeltaThreadProof.

(** ** The reduction between workers *)

Lemma lane_xor (l : Z) :
  0 <= l < 32 ->
  Z.lxor l 1 = l + 1 - 2 * (l mod 2)
  /\ Z.lxor l 2 = l + 2 - 4 * ((l / 2) mod 2).
Proof.
  intros Hl.
  assert (Hall :
    forallb (fun l => (Z.lxor l 1 =? l + 1 - 2 * (l mod 2))
                      && (Z.lxor l 2 =? l + 2 - 4 * ((l / 2) mod 2)))
      (lanes 32) = true) by (vm_compute; reflexivity).
  rewrite forallb_forall in Hall.
  assert (Hin : In l (lanes 32)).
  { unfold lanes. apply in_map_iff. exists (Z.to_nat l).
    split; [lia|]. apply in_seq. lia. }
  specialize (Hall l Hin). apply andb_true_iff in Hall.
  destruct Hall as [H1 H2]. apply Z.eqb_eq in H1, H2. split; assumption.
Qed.

Section Shuffle.

Context `{AR : Arith}.
Variable v : Z -> accum_t.

Lemma shfl_xor_1 (t : Z) :
  0 <= t -> shfl_xor v 1 t = v (t + 1 - 2 * (t mod 2)).
Proof.
  intros Ht. unfold shfl_xor, warp_of, lane_of, cdiv, cmod.
  rewrite Z.quot_div_nonneg, Z.rem_mod_nonneg by lia.
  destruct (lane_xor (t mod 32) ltac:(apply Z.mod_pos_bound; lia)) as [H _].
  rewrite H. f_equal. Z.to_euclidean_division_equations. lia.
Qed.

Lemma shfl_xor_2 (t : Z) :
  0 <= t -> shfl_xor v 2 t = v (t + 2 - 4 * ((t / 2) mod 2)).
Proof.
  intros Ht. unfold shfl_xor, warp_of, lane_of, cdiv, cmod.
  rewrite Z.quot_div_nonneg, Z.rem_mod_nonneg by lia.
  destruct (lane_xor (t mod 32) ltac:(apply Z.mod_pos_bound; lia)) as [_ H].
  rewrite H. f_equal. Z.to_euclidean_division_equations. lia.
Qed.

End Shuffle.

Ltac euclid := Z.to_euclidean_division_equations; lia.

Section Reduce.

Context `{AR : Arith}.
Hypothesis add_assoc : forall x y z : accum_t,
  a_add x (a_add y z) = a_add (a_add x y) z.
Hypothesis add_comm : forall x y : accum_t, a_add x y = a_add y x.
Hypothesis add_0_r : forall x : accum_t, a_add x a_zero = x.

Variable cfg : KernelConfig.
Variable v : Z -> accum_t.

Lemma bsum_1 (g : nat -> accum_t) : bsum 1 g = g 0%nat.
Proof.
  rewrite (bsum_S add_assoc add_comm add_0_r), bsum_0.
  apply (add_0_l add_comm add_0_r).
Qed.

Lemma bsum_2 (g : nat -> accum_t) :
  bsum 2 g = a_add (g 0%nat) (g 1%nat).
Proof. rewrite (bsum_S add_assoc add_comm add_0_r), bsum_1. reflexivity. Qed.

Lemma bsum_4 (g : nat -> accum_t) :
  bsum 4 g
  = a_add (a_add (g 0%nat) (g 1%nat)) (a_add (g 2%nat) (g 3%nat)).
Proof.
  rewrite 2!(bsum_S add_assoc add_comm add_0_r), bsum_2.
  symmetry. apply add_assoc.
Qed.

(** After the butterfly every thread holds the sum over the threads of its
    line. *)
Lemma reduce_between_workers_value (t : Z) :
  0 <= t ->
  kNumThreadsPerLine cfg = 1 \/ kNumThreadsPerLine cfg = 2
  \/ kNumThreadsPerLine cfg = 4 ->
  reduce_between_workers cfg v t
  = bsum (Z.to_nat (kNumThreadsPerLine cfg))
      (fun c => v (kNumThreadsPerLine cfg * (t / kNumThreadsPerLine cfg)
                   + Z.of_nat c)).
Proof.
  intros Ht HT. unfold reduce_between_workers.
  destruct HT as [-> | [-> | ->]].
  - change (Z.to_nat 1) with 1%nat. simpl for_doubling.
    rewrite bsum_1. f_equal. rewrite Z.div_1_r. simpl. lia.
  - change (Z.to_nat 2) with 2%nat. simpl for_doubling.
    rewrite bsum_2, shfl_xor_1 by assumption.
    change (Z.of_nat 0) with 0. change (Z.of_nat 1) with 1.
    assert (Hc : t mod 2 = 0 \/ t mod 2 = 1) by euclid.
    destruct Hc as [Hc|Hc]; rewrite Hc.
    + f_equal; f_equal; euclid.
    + rewrite add_comm. f_equal; f_equal; euclid.
  - change (Z.to_nat 4) with 4%nat. simpl for_doubling.
    rewrite bsum_4.
    rewrite (shfl_xor_2 (fun thread_id =>
                           a_add (v thread_id) (shfl_xor v 1 thread_id)))
      by assumption.
    rewrite !shfl_xor_1 by euclid.
    change (Z.of_nat 0) with 0. change (Z.of_nat 1) with 1.
    change (Z.of_nat 2) with 2. change (Z.of_nat 3) with 3.
    set (g := 4 * (t / 4)).
    assert (Hc : t = g + 0 \/ t = g + 1 \/ t = g + 2 \/ t = g + 3)
      by (subst g; euclid).
    destruct Hc as [Hc | [Hc | [Hc | Hc]]].
    + replace (t + 1 - 2 * (t mod 2)) with (g + 1) by (subst g; euclid).
      replace (t + 2 - 4 * (t / 2 mod 2)) with (g + 2) by (subst g; euclid).
      replace (g + 2 + 1 - 2 * ((g + 2) mod 2)) with (g + 3)
        by (subst g; euclid).
      rewrite Hc at 1. reflexivity.
    + replace (t + 1 - 2 * (t mod 2)) with (g + 0) by (subst g; euclid).
      replace (t + 2 - 4 * (t / 2 mod 2)) with (g + 3) by (subst g; euclid).
      replace (g + 3 + 1 - 2 * ((g + 3) mod 2)) with (g + 2)
        by (subst g; euclid).
      rewrite Hc at 1.
      rewrite (add_comm (v (g + 1)) (v (g + 0))).
      rewrite (add_comm (v (g + 3)) (v (g + 2))). reflexivity.
    + replace (t + 1 - 2 * (t mod 2)) with (g + 3) by (subst g; euclid).
      replace (t + 2 - 4 * (t / 2 mod 2)) with (g + 0) by (subst g; euclid).
      replace (g + 0 + 1 - 2 * ((g + 0) mod 2)) with (g + 1)
        by (subst g; euclid).
      rewrite Hc at 1. apply add_comm.
    + replace (t + 1 - 2 * (t mod 2)) with (g + 2) by (subst g; euclid).
      replace (t + 2 - 4 * (t / 2 mod 2)) with (g + 1) by (subst g; euclid).
      replace (g + 1 + 1 - 2 * ((g + 1) mod 2)) with (g + 0)
        by (subst g; euclid).
      rewrite Hc at 1.
      rewrite (add_comm (v (g + 3)) (v (g + 2))).
      rewrite (add_comm (v (g + 1)) (v (g + 0))). apply add_comm.
Qed.

End Reduce.

(** ** computeDelta for a block of rows, and the delta pass *)

Section DeltaBlock.

Context `{AR : Arith}.
Hypothesis add_assoc : forall x y z : accum_t,
  a_add x (a_add y z) = a_add (a_add x y) z.
Hypothesis add_comm : forall x y : accum_t, a_add x y = a_add y x.
Hypothesis add_0_r : forall x : accum_t, a_add x a_zero = x.
Hypothesis mul_zero : a_mul (to_accum s_zero) (to_accum s_zero) = a_zero.

Variable cfg : KernelConfig.
Variable p : Params.
Variable inp : Inputs.
Variable E : Z.

Hypothesis HT : kNumThreadsPerLine cfg = 1 \/ kNumThreadsPerLine cfg = 2
                \/ kNumThreadsPerLine cfg = 4.
Hypothesis HE : 0 < E.
Hypothesis Hdiv : (E | head_dim_value p).
Hypothesis Hhdv : 0 <= head_dim_value p.
Hypothesis Hcover :
  head_dim_value p
  <= Z.of_nat (delta_iters cfg p E) * (E * kNumThreadsPerLine cfg).

Lemma threads_per_line_pos : 0 < kNumThreadsPerLine cfg.
Proof. destruct HT as [-> | [-> | ->]]; lia. Qed.

Lemma threads_per_line_divides_warp (t : Z) :
  0 <= t -> (t mod 32) mod kNumThreadsPerLine cfg
            = t mod kNumThreadsPerLine cfg.
Proof. intros Ht. destruct HT as [-> | [-> | ->]]; euclid. Qed.

(** The value a thread holds after the reduction is the delta of its
    row. *)
Lemma reduced_value (query_start t : Z) :
  0 <= t ->
  query_start + t / kNumThreadsPerLine cfg < num_queries p ->
  reduce_between_workers cfg
    (fun thread_id =>
       computeDelta_thread cfg E p inp query_start
         (warp_of thread_id) (lane_of thread_id)) t
  = spec_delta p inp (query_start + t / kNumThreadsPerLine cfg).
Proof.
  intros Ht Hrow. pose proof threads_per_line_pos as HTpos.
  set (T := kNumThreadsPerLine cfg) in *.
  set (R := query_start + t / T) in *.
  rewrite (reduce_between_workers_value add_assoc add_comm add_0_r)
    by assumption.
  fold T.
  (* every thread of the line *)
  rewrite (bsum_ext (Z.to_nat T) _
             (fun c => bsum (delta_iters cfg p E)
                         (fun j => delta_block p inp R (Z.to_nat E)
                                     (j * Z.to_nat T + c)))).
  2:{ intros c Hc.
      set (t' := T * (t / T) + Z.of_nat c).
      assert (Ht' : 0 <= t').
      { assert (0 <= t / T) by (apply Z.div_pos; lia). subst t'. nia. }
      assert (Hid : 32 * warp_of t' + lane_of t' = t').
      { unfold warp_of, lane_of, cdiv, cmod.
        rewrite Z.quot_div_nonneg, Z.rem_mod_nonneg by lia. euclid. }
      assert (Hq : t' / T = t / T).
      { subst t'. rewrite Z.mul_comm, Z.div_add_l by lia.
        rewrite (Z.div_small (Z.of_nat c)) by lia. lia. }
      assert (Hr : lane_of t' mod T = Z.of_nat c).
      { unfold lane_of, cmod. rewrite Z.rem_mod_nonneg by lia.
        pose proof (threads_per_line_divides_warp t' Ht') as Hw.
        fold T in Hw. rewrite Hw.
        subst t'. rewrite Z.add_comm, Z.mul_comm, Z.mod_add by lia.
        apply Z.mod_small. lia. }
      rewrite (computeDelta_thread_value add_assoc add_comm add_0_r mul_zero
                 cfg p inp E query_start (warp_of t') (lane_of t')).
      - fold T. rewrite Hid, Hq, Hr, Nat2Z.id. reflexivity.
      - exact HE.
      - exact HTpos.
      - unfold lane_of, cmod. rewrite Z.rem_mod_nonneg by lia.
        apply Z.mod_pos_bound. lia.
      - rewrite Hid. exact Ht'.
      - exact Hdiv.
      - fold T. rewrite Hid, Hq. exact Hrow. }
  (* iterations outside, threads inside; then flatten twice *)
  rewrite (bsum_exchange add_assoc add_comm add_0_r).
  rewrite <- (bsum_nested add_assoc add_comm add_0_r
                (delta_iters cfg p E) (Z.to_nat T)
                (delta_block p inp R (Z.to_nat E))).
  unfold delta_block.
  rewrite <- (bsum_nested add_assoc add_comm add_0_r
                (delta_iters cfg p E * Z.to_nat T) (Z.to_nat E)
                (delta_term_z p inp R)).
  (* the terms past the feature dimension are zero *)
  rewrite (bsum_zero_tail add_assoc add_comm add_0_r
             (Z.to_nat (head_dim_value p))).
  - unfold spec_delta. apply bsum_ext. intros k Hk.
    unfold delta_term_z.
    replace (Z.of_nat k <? head_dim_value p) with true; [reflexivity|].
    symmetry. apply Z.ltb_lt. lia.
  - apply Nat2Z.inj_le. rewrite !Nat2Z.inj_mul, !Z2Nat.id by lia.
    fold T in Hcover. lia.
  - intros k Hk. unfold delta_term_z.
    replace (Z.of_nat k <? head_dim_value p) with false; [reflexivity|].
    symmetry. apply Z.ltb_ge. lia.
Qed.

(** A block of [computeDelta] writes the delta of each row it covers and
    only ever writes deltas. *)
Lemma computeDelta_mem_keep (query_start r : Z) (dmem : gmap Z accum_t) :
  dmem !! r = Some (spec_delta p inp r) ->
  computeDelta_mem cfg E p inp query_start dmem !! r
  = Some (spec_delta p inp r).
Proof.
  intros Hd. unfold computeDelta_mem. cbv zeta.
  apply (fold_left_keep_in _ (fun m => m !! r = Some (spec_delta p inp r)));
    [|exact Hd].
  intros m t Hin Hm.
  pose proof threads_per_line_pos as HTpos.
  assert (Ht : 0 <= t).
  { unfold thread_ids in Hin. apply in_map_iff in Hin.
    destruct Hin as (k & <- & _). lia. }
  rewrite (cdiv_nonneg t) by assumption.
  destruct (query_start + t / kNumThreadsPerLine cfg <? num_queries p)
    eqn:Erow; [|exact Hm].
  apply Z.ltb_lt in Erow.
  destruct (decide (query_start + t / kNumThreadsPerLine cfg = r))
    as [Heq|Hne].
  - rewrite Heq, lookup_insert_eq. f_equal. rewrite <- Heq.
    apply reduced_value; assumption.
  - rewrite lookup_insert_ne by exact Hne. exact Hm.
Qed.

Lemma computeDelta_mem_cover (query_start r : Z) (dmem : gmap Z accum_t) :
  kBlockSizeI cfg * kNumThreadsPerLine cfg <= kNumThreads cfg ->
  query_start <= r < query_start + kBlockSizeI cfg ->
  r < num_queries p ->
  computeDelta_mem cfg E p inp query_start dmem !! r
  = Some (spec_delta p inp r).
Proof.
  intros Hthreads Hr Hnq. unfold computeDelta_mem. cbv zeta.
  pose proof threads_per_line_pos as HTpos.
  set (t := kNumThreadsPerLine cfg * (r - query_start)).
  assert (Ht : 0 <= t < kNumThreads cfg) by (subst t; nia).
  assert (Hq : t / kNumThreadsPerLine cfg = r - query_start)
    by (subst t; rewrite Z.mul_comm; apply Z.div_mul; lia).
  assert (Hstep : forall (m : gmap Z accum_t) t',
            In t' (thread_ids cfg) ->
            m !! r = Some (spec_delta p inp r) ->
            (let laneRow := cdiv t' (kNumThreadsPerLine cfg) in
             if query_start + laneRow <? num_queries p
             then <[query_start + laneRow :=
                      reduce_between_workers cfg
                        (fun thread_id =>
                           computeDelta_thread cfg E p inp query_start
                             (warp_of thread_id) (lane_of thread_id)) t']> m
             else m) !! r = Some (spec_delta p inp r)).
  { intros m t' Hin Hm. cbv zeta.
    assert (Ht' : 0 <= t').
    { unfold thread_ids in Hin. apply in_map_iff in Hin.
      destruct Hin as (k & <- & _). lia. }
    rewrite (cdiv_nonneg t') by assumption.
    destruct (query_start + t' / kNumThreadsPerLine cfg <? num_queries p)
      eqn:Erow; [|exact Hm].
    apply Z.ltb_lt in Erow.
    destruct (decide (query_start + t' / kNumThreadsPerLine cfg = r))
      as [Heq|Hne].
    - rewrite Heq, lookup_insert_eq. f_equal. rewrite <- Heq.
      apply reduced_value; assumption.
    - rewrite lookup_insert_ne by exact Hne. exact Hm. }
  apply (fold_left_establish_in _
           (fun m => m !! r = Some (spec_delta p inp r)) _ t).
  - apply thread_ids_In. exact Ht.
  - intros m. rewrite (cdiv_nonneg t) by lia. rewrite Hq.
    replace (query_start + (r - query_start)) with r by lia.
    replace (r <? num_queries p) with true
      by (symmetry; apply Z.ltb_lt; exact Hnq).
    rewrite lookup_insert_eq. f_equal.
    assert (Hrr : r = query_start + t / kNumThreadsPerLine cfg)
      by (rewrite Hq; lia).
    rewrite Hrr at 1.
    apply reduced_value; [lia|]. rewrite Hq. lia.
  - intros m t' Hin Hm. apply (Hstep m t' Hin Hm).
Qed.

End DeltaBlock.

Lemma tile_starts_In_intro (len t k : Z) :
  0 < t -> 0 <= k -> k * t < len -> In (k * t) (tile_starts len t).
Proof.
  intros Ht Hk Hlt. unfold tile_starts. apply in_map_iff.
  exists (Z.to_nat k). split; [lia|]. apply in_seq. split; [lia|].
  simpl. unfold iter_count.
  assert (k + 1 <= (len - 0 + t - 1) / t)
    by (apply Z.div_le_lower_bound; lia).
  lia.
Qed.

Section DeltaFrame.

Context `{AR : Arith} `{EN : !Engine}.
Variable cfg : KernelConfig.
Variable p : Params.
Variable inp : Inputs.

Lemma stage_GradQ_delta (skip : bool) (qs ks : Z) (st : KernelState) :
  delta (gmem (stage_GradQ cfg skip p inp qs ks st)) = delta (gmem st).
Proof.
  unfold stage_GradQ. cbv zeta.
  frame_loop (fun s : KernelState => delta (gmem s)) st.
Qed.

Lemma stage_GradK_delta (skip : bool) (qs ks : Z) (f l : bool)
  (st : KernelState) :
  delta (gmem (stage_GradK cfg skip p inp qs ks f l st)) = delta (gmem st).
Proof.
  unfold stage_GradK. cbv zeta.
  frame_loop (fun s : KernelState => delta (gmem s)) st.
Qed.

Lemma stage_MatmulDOIVJ_delta (skip : bool) (qs ks : Z) (st : KernelState) :
  delta (gmem (stage_MatmulDOIVJ cfg skip p inp qs ks st)) = delta (gmem st).
Proof. unfold stage_MatmulDOIVJ. cbv zeta. break_ifs; reflexivity. Qed.

(** [processBlockIJ] reads the delta tensor and never writes it. *)
Lemma processBlockIJ_delta (skip : bool) (qs ks : Z) (st : KernelState) :
  delta (gmem (processBlockIJ cfg skip p inp qs ks st)) = delta (gmem st).
Proof.
  unfold processBlockIJ, processBlockIJ_front. cbv zeta.
  rewrite stage_GradK_delta, stage_GradQ_delta, stage_MatmulDOIVJ_delta.
  rewrite stage_GradV_delta, stage_MatmulQK_gmem. reflexivity.
Qed.

End DeltaFrame.

(** The vector width [attention_kernel] picks for [computeDelta]. *)
Lemma delta_calls_In `{AR : Arith} (cfg : KernelConfig) (p : Params)
  (e q : Z) :
  In (CallComputeDelta e q) (kernel_calls cfg p) ->
  e = (if cmod (head_dim_value p) (cdiv 128 (scalar_bits cfg)) =? 0
       then cdiv 128 (scalar_bits cfg) else 1).
Proof.
  intros Hin. unfold kernel_calls in Hin. cbv zeta in Hin.
  rewrite !in_app_iff in Hin. destruct Hin as [Hin|[Hin|Hin]].
  - unfold delta_calls in Hin.
    destruct (kKernelComputesDelta cfg); [|contradiction].
    cbv zeta in Hin. apply in_map_iff in Hin.
    destruct Hin as (x & Heq & _). inversion Heq. reflexivity.
  - exfalso. apply in_flat_map in Hin. destruct Hin as (k & _ & Hin).
    unfold key_tile_calls in Hin. cbv zeta in Hin.
    rewrite !in_app_iff in Hin. destruct Hin as [Hin|[[Hin|Hin]|Hin]].
    + destruct Hin as [Hin|[]]; discriminate.
    + apply in_map_iff in Hin. destruct Hin as (? & Heq & _). discriminate.
    + destruct (_ <? num_queries p); [|contradiction].
      destruct Hin as [Hin|[]]; discriminate.
    + destruct (kOutputInRF cfg); [destruct Hin as [Hin|[]]; discriminate|].
      destruct (0 >=? num_queries p); [|contradiction].
      destruct Hin as [Hin|[]]; discriminate.
  - exfalso. destruct (negb _); [|contradiction].
    unfold key_tile_calls in Hin. cbv zeta in Hin.
    rewrite !in_app_iff in Hin. destruct Hin as [Hin|[Hin|Hin]].
    + destruct Hin as [Hin|[]]; discriminate.
    + apply in_map_iff in Hin. destruct Hin as (? & Heq & _). discriminate.
    + destruct (kOutputInRF cfg); [destruct Hin as [Hin|[]]; discriminate|].
      destruct (0 >=? num_queries p); [|contradiction].
      destruct Hin as [Hin|[]]; discriminate.
Qed.

(** In exact arithmetic the order of the additions does not matter: when
    addition in the accumulation type is associative and commutative with
    zero as unit, and the product of two zeros is zero, the delta tensor
    holds after [attention_kernel], for every query row [r], the running
    sum over the feature dimension of [output[r,f] * outputGradient[r,f]].
    Addition in binary32 is not associative; what the kernel writes there
    is stated further down. *)
Lemma delta_exact_arithmetic `{AR : Arith} `{EN : !Engine}
  (cfg : KernelConfig) (p : Params) (inp : Inputs) (st : KernelState)
  (r : Z) :
  (forall x y z : accum_t, a_add x (a_add y z) = a_add (a_add x y) z) ->
  (forall x y : accum_t, a_add x y = a_add y x) ->
  (forall x : accum_t, a_add x a_zero = x) ->
  a_mul (to_accum s_zero) (to_accum s_zero) = a_zero ->
  kKernelComputesDelta cfg = true ->
  0 < scalar_bits cfg ->
  0 < kBlockSizeI cfg -> 0 < kBlockSizeJ cfg ->
  (kNumThreadsPerLine cfg = 1 \/ kNumThreadsPerLine cfg = 2
   \/ kNumThreadsPerLine cfg = 4) ->
  0 <= head_dim_value p <= kMaxK cfg ->
  (kMaxK cfg <= 256 ->
   (cdiv 128 (scalar_bits cfg) * kNumThreadsPerLine cfg | kMaxK cfg)) ->
  0 <= r < num_queries p ->
  delta (gmem (attention_kernel cfg p inp st)) !! r
  = Some (spec_delta p inp r).
Proof.
  intros add_assoc add_comm add_0_r mul_zero Hdelta Hbits HI HJ HT Hhdv
    Hunroll Hr.
  set (Eopt := cdiv 128 (scalar_bits cfg)) in *.
  set (E := if cmod (head_dim_value p) Eopt =? 0 then Eopt else 1).
  set (T := kNumThreadsPerLine cfg) in *.
  assert (HTpos : 0 < T) by (destruct HT as [H | [H | H]]; lia).
  assert (Hhalf : scalar_bits cfg <= 16).
  { unfold kKernelComputesDelta, kIsHalf in Hdelta.
    apply andb_true_iff in Hdelta. destruct Hdelta as [H _].
    apply Z.leb_le in H. exact H. }
  assert (HEopt : 0 < Eopt).
  { subst Eopt. rewrite cdiv_nonneg by lia.
    apply Z.div_str_pos. lia. }
  assert (HE : 0 < E) by (subst E; destruct (_ =? 0); lia).
  assert (Hdiv : (E | head_dim_value p)).
  { subst E. destruct (cmod (head_dim_value p) Eopt =? 0) eqn:Ec.
    - apply Z.eqb_eq in Ec. unfold cmod in Ec.
      rewrite Z.rem_mod_nonneg in Ec by lia.
      apply Z.mod_divide; [lia|exact Ec].
    - apply Z.divide_1_l. }
  assert (HEdiv : (E | Eopt)).
  { subst E. destruct (_ =? 0); [apply Z.divide_refl|apply Z.divide_1_l]. }
  assert (Hcover :
    head_dim_value p <= Z.of_nat (delta_iters cfg p E) * (E * T)).
  { unfold delta_iters. fold T.
    assert (HS : 0 < E * T) by nia.
    destruct (kMaxK cfg <=? 256) eqn:Ek.
    - apply Z.leb_le in Ek. specialize (Hunroll Ek).
      assert (HSdiv : (E * T | kMaxK cfg)).
      { apply Z.divide_trans with (m := Eopt * T); [|exact Hunroll].
        apply Z.mul_divide_mono_r. exact HEdiv. }
      destruct HSdiv as [q Hq].
      rewrite cdiv_nonneg by lia. rewrite Hq, Z.div_mul by lia.
      assert (0 <= q) by nia. rewrite Z2Nat.id by lia. lia.
    - unfold ceil_div. rewrite cdiv_nonneg by lia.
      pose proof (Z.div_mod (head_dim_value p + E * T - 1) (E * T)
                    ltac:(lia)) as Hdm.
      pose proof (Z.mod_pos_bound (head_dim_value p + E * T - 1) (E * T) HS).
      assert (0 <= (head_dim_value p + E * T - 1) / (E * T))
        by (apply Z.div_pos; lia).
      rewrite Z2Nat.id by nia. nia. }
  assert (Hthreads : kBlockSizeI cfg * T <= kNumThreads cfg).
  { subst T. unfold kNumThreadsPerLine.
    assert (0 <= kNumThreads cfg).
    { unfold kNumThreads, kWarpSize, kNumWarpsPerBlock.
      rewrite cdiv_nonneg by nia.
      assert (0 <= kBlockSizeI cfg * kBlockSizeJ cfg / (32 * 32))
        by (apply Z.div_pos; nia). lia. }
    rewrite cdiv_nonneg by lia.
    pose proof (Z.div_mod (kNumThreads cfg) (kBlockSizeI cfg) ltac:(lia)).
    pose proof (Z.mod_pos_bound (kNumThreads cfg) (kBlockSizeI cfg) HI).
    nia. }
  rewrite attention_kernel_calls_run by assumption.
  set (qs0 := r / kBlockSizeI cfg * kBlockSizeI cfg).
  assert (Hqs0 : qs0 <= r < qs0 + kBlockSizeI cfg).
  { subst qs0.
    pose proof (Z.div_mod r (kBlockSizeI cfg) ltac:(lia)).
    pose proof (Z.mod_pos_bound r (kBlockSizeI cfg) HI). lia. }
  assert (Hmine : In (CallComputeDelta E qs0) (kernel_calls cfg p)).
  { unfold kernel_calls. cbv zeta. apply in_app_iff. left.
    unfold delta_calls. rewrite Hdelta. cbv zeta. fold Eopt. fold E.
    apply in_map. subst qs0. apply tile_starts_In_intro; [lia| |lia].
    apply Z.div_pos; lia. }
  unfold run_calls.
  apply (fold_left_establish_in _
           (fun s : KernelState =>
              delta (gmem s) !! r = Some (spec_delta p inp r))
           _ (CallComputeDelta E qs0) Hmine).
  - intros s. simpl.
    apply (computeDelta_mem_cover add_assoc add_comm add_0_r mul_zero
             cfg p inp E HT HE Hdiv ltac:(lia) Hcover qs0 r _ Hthreads
             Hqs0 ltac:(lia)).
  - intros s c Hc Hs. destruct c as [e q| |skip q k|skip k|skip k]; simpl.
    + apply delta_calls_In in Hc. fold Eopt in Hc. fold E in Hc. subst e.
      apply (computeDelta_mem_keep add_assoc add_comm add_0_r mul_zero
               cfg p inp E HT HE Hdiv ltac:(lia) Hcover q r _ Hs).
    + exact Hs.
    + rewrite processBlockIJ_delta. exact Hs.
    + exact Hs.
    + exact Hs.
Qed.

Lemma delta_exact_arithmetic_witness :
  kKernelComputesDelta cfg_half_rf = true
  /\ cmod (head_dim_value params_odd_value_dim) 8 = 6
  /\ delta
       (gmem (attention_kernel (EN := engine_example) cfg_half_rf
                params_odd_value_dim inputs_example
                (state_example (fun _ _ => 1)))) !! 99
     = Some (spec_delta params_odd_value_dim inputs_example 99).
Proof.
  split; [reflexivity|]. split; [reflexivity|].
  apply (delta_exact_arithmetic (AR := ZArith_inst) (EN := engine_example)
           cfg_half_rf params_odd_value_dim inputs_example
           (state_example (fun _ _ => 1)) 99).
  - exact Z.add_assoc.
  - exact Z.add_comm.
  - exact Z.add_0_r.
  - reflexivity.
  - reflexivity.
  - reflexivity.
  - reflexivity.
  - reflexivity.
  - right. left. reflexivity.
  - vm_compute. intuition congruence.
  - intros _. exists 4. reflexivity.
  - vm_compute. intuition congruence.
Defined.

(** ** The model run on the small launch *)

Example attention_kernel_calls_small :
  attention_kernel_calls cfg_half_rf params_dropout
  = [CallComputeDelta 1 0; CallClear; CallProcessBlockIJ false 0 0;
     CallWriteFragsToGmem false 0].
Proof. vm_compute. reflexivity. Qed.

Example attention_kernel_calls_spill :
  attention_kernel_calls cfg_half_spill params_no_queries
  = [CallClear; CallZfillGradKV true 0; CallClear; CallZfillGradKV true 64;
     CallClear; CallZfillGradKV false 128].
Proof. vm_compute. reflexivity. Qed.

Example spec_delta_small :
  map (spec_delta params_dropout inputs_example) [0; 1; 2; 3] = [2; 2; -2; -4].
Proof. vm_compute. reflexivity. Qed.

Example computeDelta_small :
  map (fun r =>
         computeDelta_mem cfg_half_rf 1 params_dropout inputs_example 0 ∅
         !! r)
      [0; 1; 2; 3; 4]
  = [Some 2; Some 2; Some (-2); Some (-4); None].
Proof. vm_compute. reflexivity. Qed.

Example check_supported_dropout_rejected :
  check_supported cfg_half_rf params_dropout
  = Unsupported "Set `kApplyDropout`=True to support `dropout_prob > 0`".
Proof. vm_compute. reflexivity. Qed.

Example rng_offset_example :
  dropout_batch_head_rng_offset params_example 1 1 = 39000.
Proof. vm_compute. reflexivity. Qed.

(** ** Loops with the range of the loop variable *)

Lemma loop_index_bounds (start stop step x : Z) :
  0 < step ->
  In x (map (fun k => start + Z.of_nat k * step)
            (seq 0 (iter_count start stop step))) ->
  start <= x < stop /\ (x - start) mod step = 0.
Proof.
  intros Hstep Hin. apply in_map_iff in Hin. destruct Hin as (k & <- & Hk).
  apply in_seq in Hk. unfold iter_count in Hk.
  set (q := (stop - start + step - 1) / step) in *.
  assert (Hq : step * q <= stop - start + step - 1).
  { pose proof (Z.div_mod (stop - start + step - 1) step ltac:(lia)) as Hdm.
    pose proof (Z.mod_pos_bound (stop - start + step - 1) step Hstep).
    fold q in Hdm. lia. }
  split; [nia|].
  replace (start + Z.of_nat k * step - start) with (Z.of_nat k * step) by lia.
  apply Z.mod_mul. lia.
Qed.

Lemma for_loop_invariant_in {S : Type} (body : Z -> S -> S) (P : S -> Prop)
  (start stop step : Z) (s : S) :
  0 < step -> P s ->
  (forall i s, start <= i < stop -> (i - start) mod step = 0 ->
               P s -> P (body i s)) ->
  P (snd (for_loop start stop step body s)).
Proof.
  intros Hstep Hs Hbody. rewrite for_loop_fold by assumption.
  apply (fold_left_keep_in (fun s i => body i s) P); [|exact Hs].
  intros s' i Hin Hs'.
  destruct (loop_index_bounds _ _ _ _ Hstep Hin). apply Hbody; assumption.
Qed.

Lemma for_loop_establish_in {S : Type} (body : Z -> S -> S) (Q : S -> Prop)
  (start stop step x : Z) :
  0 < step -> start <= x < stop -> (x - start) mod step = 0 ->
  (forall s, Q (body x s)) ->
  (forall s i, start <= i < stop -> (i - start) mod step = 0 ->
               Q s -> Q (body i s)) ->
  forall s, Q (snd (for_loop start stop step body s)).
Proof.
  intros Hstep Hx Hmod Hest Hkeep s.
  rewrite for_loop_fold by assumption.
  apply (fold_left_establish_in (fun s i => body i s) Q _ x).
  - apply loop_index_In; assumption.
  - exact Hest.
  - intros s' i Hin Hs'.
    destruct (loop_index_bounds _ _ _ _ Hstep Hin). apply Hkeep; assumption.
Qed.

Lemma for_loop_unrolled_4 {S : Type} (body : Z -> S -> S) (s : S) :
  snd (for_loop 0 4 1 body s) = body 3 (body 2 (body 1 (body 0 s))).
Proof. reflexivity. Qed.

Lemma lanes_In (n t : Z) : In t (lanes n) <-> 0 <= t < n.
Proof.
  unfold lanes. rewrite in_map_iff. split.
  - intros (k & <- & Hk). apply in_seq in Hk. lia.
  - intros Ht. exists (Z.to_nat t). split; [lia|]. apply in_seq. lia.
Qed.

(** ** One thread of computeDelta, in the order of its additions *)

Lemma cmod_floor (a b : Z) : 0 <= a -> 0 < b -> cmod a b = a mod b.
Proof. intros Ha Hb. unfold cmod. apply Z.rem_mod_nonneg; lia. Qed.

Lemma fold_add_terms `{AR : Arith} {A : Type} (g : A -> accum_t)
  (l : list A) (d : accum_t) :
  fold_left (fun d x => a_add d (g x)) l d = fold_left a_add (map g l) d.
Proof.
  revert d. induction l as [|x l IH]; intros d; simpl; [reflexivity|].
  apply IH.
Qed.

Lemma lane_features_S (e T : Z) (n : nat) (c : Z) :
  lane_features e T (Datatypes.S n) c
  = lane_features e T n c
    ++ map (fun i => (Z.of_nat n * T + c) * e + i) (lanes e).
Proof.
  unfold lane_features. rewrite seq_S, flat_map_app. simpl.
  rewrite app_nil_r. reflexivity.
Qed.

Section DeltaThreadOrder.

Context `{AR : Arith}.
Variable cfg : KernelConfig.
Variable p : Params.
Variable inp : Inputs.
Variable E : Z.
Variable query_start warp_id lane_id : Z.

Let T := kNumThreadsPerLine cfg.
Let S := E * T.
Let thread_id := 32 * warp_id + lane_id.
Let c := lane_id mod T.
Let c0 := E * c.
Let R := query_start + thread_id / T.

Hypothesis HE : 0 < E.
Hypothesis HT : 0 < T.
Hypothesis Hlane : 0 <= lane_id.
Hypothesis Hthread : 0 <= thread_id.
Hypothesis Hdiv : (E | head_dim_value p).
Hypothesis Hrow : R < num_queries p.

(* the fragment a valid or invalid load leaves in a slot *)
Let blk (mem : Z -> scalar_t) (base : Z) (j : Z) : list scalar_t :=
  if c0 + j * S <? head_dim_value p
  then map (fun i => mem (base + c0 + j * S + i)) (lanes E)
  else cleared E.

Let Inv (n : nat) (t : DeltaThread) : Prop :=
  pred t = (c0 + Z.of_nat n * S <? head_dim_value p)
  /\ grad_output_pos t = R * gO_strideM p + c0 + (Z.of_nat n + 1) * S
  /\ output_pos t = R * o_strideM p + c0 + (Z.of_nat n + 1) * S
  /\ frag_output t (Z.of_nat n mod 2)
     = blk (output inp) (R * o_strideM p) (Z.of_nat n)
  /\ frag_grad_output t (Z.of_nat n mod 2)
     = blk (grad_output inp) (R * gO_strideM p) (Z.of_nat n)
  /\ delta_value t
     = asum (map (delta_term_pad p inp R) (lane_features E T n c)).

Lemma blk_load_order (mem : Z -> scalar_t) (base pos j : Z) :
  pos = base + c0 + j * S ->
  global_load E (cleared E) mem pos (c0 + j * S <? head_dim_value p)
  = blk mem base j.
Proof.
  intros ->. unfold global_load, blk.
  destruct (c0 + j * S <? head_dim_value p); reflexivity.
Qed.

(** The products of one vector access, added to the running sum. *)
Lemma access_terms (n : nat) (d : accum_t) :
  fold_left
    (fun d og => a_add d (a_mul (to_accum (fst og)) (to_accum (snd og))))
    (combine (blk (output inp) (R * o_strideM p) (Z.of_nat n))
             (blk (grad_output inp) (R * gO_strideM p) (Z.of_nat n)))
    d
  = fold_left a_add
      (map (delta_term_pad p inp R)
         (map (fun i => (Z.of_nat n * T + c) * E + i) (lanes E)))
      d.
Proof.
  assert (Hc : 0 <= c < T) by (subst c; apply Z.mod_pos_bound; exact HT).
  destruct Hdiv as [q Hq].
  assert (Hidx : forall i, (Z.of_nat n * T + c) * E + i
                           = c0 + Z.of_nat n * S + i)
    by (intros i; subst c0 S; lia).
  unfold blk.
  destruct (c0 + Z.of_nat n * S <? head_dim_value p) eqn:Ev.
  - apply Z.ltb_lt in Ev.
    rewrite combine_map, fold_add_terms, !map_map.
    f_equal. apply map_ext_in. intros i Hi. apply lanes_In in Hi.
    cbn [fst snd]. unfold delta_term_pad. rewrite Hidx.
    replace (c0 + Z.of_nat n * S + i <? head_dim_value p) with true.
    + unfold delta_term. rewrite !Z.add_assoc. reflexivity.
    + symmetry. apply Z.ltb_lt. subst c0 S.
      assert (c + Z.of_nat n * T < q) by nia. nia.
  - apply Z.ltb_ge in Ev.
    unfold cleared. rewrite combine_map, fold_add_terms, !map_map.
    f_equal. apply map_ext_in. intros i Hi. apply lanes_In in Hi.
    cbn [fst snd]. unfold delta_term_pad. rewrite Hidx.
    replace (c0 + Z.of_nat n * S + i <? head_dim_value p) with false;
      [reflexivity|].
    symmetry. apply Z.ltb_ge. lia.
Qed.

Lemma columnIteration_order (n : nat) (t : DeltaThread) :
  Inv n t ->
  Inv (Datatypes.S n) (columnIteration cfg E p inp c0 (Z.of_nat n) t).
Proof.
  intros (Hp & Hgo & Ho & Hfo & Hfg & Hd).
  assert (HS : 0 < S) by (subst S; nia).
  assert (Hld : cmod (Z.of_nat n + kPipelineStages - 1) kPipelineStages
                = (Z.of_nat n + 1) mod 2).
  { unfold kPipelineStages. rewrite cmod_floor by lia. f_equal. lia. }
  assert (Hrd : cmod (Z.of_nat n) kPipelineStages = Z.of_nat n mod 2)
    by (unfold kPipelineStages; apply cmod_floor; lia).
  assert (Hne : (Z.of_nat n mod 2 =? (Z.of_nat n + 1) mod 2) = false).
  { apply Z.eqb_neq. Z.to_euclidean_division_equations. lia. }
  assert (Hpred :
    pred t && (c0 + (Z.of_nat n + kPipelineStages - 1) * E
                    * kNumThreadsPerLine cfg <? head_dim_value p)
    = (c0 + (Z.of_nat n + 1) * S <? head_dim_value p)).
  { rewrite Hp. unfold kPipelineStages. fold T.
    replace ((Z.of_nat n + 2 - 1) * E * T) with ((Z.of_nat n + 1) * S)
      by (subst S; lia).
    destruct (c0 + (Z.of_nat n + 1) * S <? head_dim_value p) eqn:E1.
    - apply Z.ltb_lt in E1. rewrite andb_true_r. apply Z.ltb_lt. nia.
    - apply andb_false_r. }
  unfold Inv, columnIteration. cbv zeta.
  rewrite Hld, Hrd, Hpred.
  cbn [pred grad_output_pos output_pos frag_grad_output frag_output
       delta_value loadAndIncrement set_pred set_delta_value].
  replace (Z.of_nat (Datatypes.S n)) with (Z.of_nat n + 1) by lia.
  unfold slot_store. rewrite Z.eqb_refl, Hne.
  fold T. fold S.
  split; [reflexivity|]. split; [rewrite Hgo; lia|]. split; [rewrite Ho; lia|].
  split; [apply blk_load_order; rewrite Ho; lia|].
  split; [apply blk_load_order; rewrite Hgo; lia|].
  rewrite Hfo, Hfg, Hd, access_terms.
  rewrite lane_features_S, map_app. unfold asum.
  rewrite fold_left_app. reflexivity.
Qed.

Lemma columnIteration_loop_order (n : Z) (t : DeltaThread) :
  Inv 0 t ->
  delta_value
    (snd (for_loop 0 n 1 (columnIteration cfg E p inp c0) t))
  = asum (map (delta_term_pad p inp R)
            (lane_features E T (Z.to_nat n) c)).
Proof.
  intros H0. rewrite for_loop_fold by lia.
  rewrite (iter_count_unit cfg E query_start warp_id lane_id n).
  rewrite fold_left_map'.
  assert (H : Inv (Z.to_nat n)
                (fold_left
                   (fun (s : DeltaThread) (x : nat) =>
                      columnIteration cfg E p inp c0
                        (0 + Z.of_nat x * 1) s)
                   (seq 0 (Z.to_nat n)) t)).
  { apply (fold_left_seq_ind _ Inv); [exact H0|].
    intros k s _ Hs.
    replace (0 + Z.of_nat k * 1) with (Z.of_nat k) by lia.
    apply columnIteration_order, Hs. }
  destruct H as (_ & _ & _ & _ & _ & H). exact H.
Qed.

(** What one thread of [computeDelta] has accumulated before the reduction
    between workers: the running sum, from zero, of the terms of the vector
    accesses [c, c + T, c + 2T, ...] of its row, in that order. *)
Lemma computeDelta_thread_order :
  computeDelta_thread cfg E p inp query_start warp_id lane_id
  = lane_delta cfg p inp E R c.
Proof.
  assert (Hc : 0 <= c < T) by (subst c; apply Z.mod_pos_bound; exact HT).
  unfold computeDelta_thread. cbv zeta. fold T.
  rewrite (cmod_floor lane_id T) by assumption.
  fold c. fold c0. fold thread_id.
  rewrite (cdiv_nonneg thread_id T) by assumption.
  fold R.
  replace (R <? num_queries p) with true
    by (symmetry; apply Z.ltb_lt; exact Hrow).
  set (t0 := {| pred := true;
                grad_output_pos := R * gO_strideM p + c0;
                output_pos := R * o_strideM p + c0;
                frag_grad_output := fun _ => [];
                frag_output := fun _ => [];
                delta_value := a_zero |}).
  set (prologue := for_loop 0 (kPipelineStages - 1) 1 _ t0).
  assert (Hpro : Inv 0 (snd prologue)).
  { subst prologue. unfold for_loop, kPipelineStages. simpl for_fuel.
    cbn [snd]. unfold Inv.
    cbn [pred grad_output_pos output_pos frag_grad_output frag_output
         delta_value loadAndIncrement set_pred t0].
    rewrite (cmod_floor 0 2) by lia.
    change (0 mod 2) with 0. change (Z.of_nat 0) with 0.
    unfold slot_store. rewrite Z.eqb_refl. fold T. fold S.
    replace (c0 + 0 * E * T) with (c0 + 0 * S) by lia.
    cbn [andb].
    split; [reflexivity|]. split; [lia|]. split; [lia|].
    split; [apply blk_load_order; lia|].
    split; [apply blk_load_order; lia|].
    reflexivity. }
  unfold lane_delta, delta_iters. fold T.
  destruct (kMaxK cfg <=? 256); apply columnIteration_loop_order;
    exact Hpro.
Qed.

End DeltaThreadOrder.

(** ** The reduction between workers, in the order of its additions *)

Section ReduceOrder.

Context `{AR : Arith}.
Hypothesis add_comm : forall x y : accum_t, a_add x y = a_add y x.

Variable cfg : KernelConfig.
Variable v : Z -> accum_t.

(** After the butterfly every thread of a row holds the same value: the
    partial sums of the threads of the row added in pairs. *)
Lemma reduce_between_workers_order (t : Z) :
  0 <= t ->
  kNumThreadsPerLine cfg = 1 \/ kNumThreadsPerLine cfg = 2
  \/ kNumThreadsPerLine cfg = 4 ->
  reduce_between_workers cfg v t
  = butterfly_sum (kNumThreadsPerLine cfg)
      (fun c => v (kNumThreadsPerLine cfg * (t / kNumThreadsPerLine cfg)
                   + c)).
Proof.
  intros Ht HT. unfold reduce_between_workers, butterfly_sum.
  destruct HT as [-> | [-> | ->]].
  - change (Z.to_nat 1) with 1%nat. simpl for_doubling.
    cbn [Z.eqb Pos.eqb]. f_equal. rewrite Z.div_1_r. lia.
  - change (Z.to_nat 2) with 2%nat. simpl for_doubling.
    cbn [Z.eqb Pos.eqb]. rewrite shfl_xor_1 by assumption.
    assert (Hc : t mod 2 = 0 \/ t mod 2 = 1) by euclid.
    destruct Hc as [Hc|Hc]; rewrite Hc.
    + f_equal; f_equal; euclid.
    + rewrite add_comm. f_equal; f_equal; euclid.
  - change (Z.to_nat 4) with 4%nat. simpl for_doubling.
    cbn [Z.eqb Pos.eqb].
    rewrite (shfl_xor_2 (fun thread_id =>
                           a_add (v thread_id) (shfl_xor v 1 thread_id)))
      by assumption.
    rewrite !shfl_xor_1 by euclid.
    set (g := 4 * (t / 4)).
    assert (Hc : t = g + 0 \/ t = g + 1 \/ t = g + 2 \/ t = g + 3)
      by (subst g; euclid).
    destruct Hc as [Hc | [Hc | [Hc | Hc]]].
    + replace (t + 1 - 2 * (t mod 2)) with (g + 1) by (subst g; euclid).
      replace (t + 2 - 4 * (t / 2 mod 2)) with (g + 2) by (subst g; euclid).
      replace (g + 2 + 1 - 2 * ((g + 2) mod 2)) with (g + 3)
        by (subst g; euclid).
      rewrite Hc at 1. reflexivity.
    + replace (t + 1 - 2 * (t mod 2)) with (g + 0) by (subst g; euclid).
      replace (t + 2 - 4 * (t / 2 mod 2)) with (g + 3) by (subst g; euclid).
      replace (g + 3 + 1 - 2 * ((g + 3) mod 2)) with (g + 2)
        by (subst g; euclid).
      rewrite Hc at 1.
      rewrite (add_comm (v (g + 1)) (v (g + 0))).
      rewrite (add_comm (v (g + 3)) (v (g + 2))). reflexivity.
    + replace (t + 1 - 2 * (t mod 2)) with (g + 3) by (subst g; euclid).
      replace (t + 2 - 4 * (t / 2 mod 2)) with (g + 0) by (subst g; euclid).
      replace (g + 0 + 1 - 2 * ((g + 0) mod 2)) with (g + 1)
        by (subst g; euclid).
      rewrite Hc at 1. apply add_comm.
    + replace (t + 1 - 2 * (t mod 2)) with (g + 2) by (subst g; euclid).
      replace (t + 2 - 4 * (t / 2 mod 2)) with (g + 1) by (subst g; euclid).
      replace (g + 1 + 1 - 2 * ((g + 1) mod 2)) with (g + 0)
        by (subst g; euclid).
      rewrite Hc at 1.
      rewrite (add_comm (v (g + 3)) (v (g + 2))).
      rewrite (add_comm (v (g + 1)) (v (g + 0))). apply add_comm.
Qed.

End ReduceOrder.

Lemma butterfly_sum_ext `{AR : Arith} (T : Z) (u v : Z -> accum_t) :
  T = 1 \/ T = 2 \/ T = 4 ->
  (forall c, 0 <= c < T -> u c = v c) ->
  butterfly_sum T u = butterfly_sum T v.
Proof.
  intros HT H. unfold butterfly_sum.
  destruct HT as [-> | [-> | ->]]; cbn [Z.eqb Pos.eqb];
    rewrite ?(H 0), ?(H 1), ?(H 2), ?(H 3) by lia; reflexivity.
Qed.

(** ** computeDelta for a block of rows, in the order of its additions *)

Section DeltaBlockOrder.

Context `{AR : Arith}.
Hypothesis add_comm : forall x y : accum_t, a_add x y = a_add y x.

Variable cfg : KernelConfig.
Variable p : Params.
Variable inp : Inputs.
Variable E : Z.

Hypothesis HT : kNumThreadsPerLine cfg = 1 \/ kNumThreadsPerLine cfg = 2
                \/ kNumThreadsPerLine cfg = 4.
Hypothesis HE : 0 < E.
Hypothesis Hdiv : (E | head_dim_value p).

Lemma threads_per_row_pos : 0 < kNumThreadsPerLine cfg.
Proof. destruct HT as [-> | [-> | ->]]; lia. Qed.

(** The value a thread holds after the reduction. *)
Lemma reduced_order (query_start t : Z) :
  0 <= t ->
  query_start + t / kNumThreadsPerLine cfg < num_queries p ->
  reduce_between_workers cfg
    (fun thread_id =>
       computeDelta_thread cfg E p inp query_start
         (warp_of thread_id) (lane_of thread_id)) t
  = kernel_delta cfg p inp E
      (query_start + t / kNumThreadsPerLine cfg).
Proof.
  intros Ht Hrow. pose proof threads_per_row_pos as HTpos.
  rewrite (reduce_between_workers_order add_comm) by assumption.
  unfold kernel_delta. apply butterfly_sum_ext; [exact HT|].
  set (T := kNumThreadsPerLine cfg) in *.
  intros c Hc.
  set (t' := T * (t / T) + c).
  assert (Ht' : 0 <= t').
  { assert (0 <= t / T) by (apply Z.div_pos; lia). subst t'. nia. }
  assert (Hid : 32 * warp_of t' + lane_of t' = t').
  { unfold warp_of, lane_of, cdiv, cmod.
    rewrite Z.quot_div_nonneg, Z.rem_mod_nonneg by lia. euclid. }
  assert (Hq : t' / T = t / T).
  { subst t'. rewrite Z.mul_comm, Z.div_add_l by lia.
    rewrite (Z.div_small c) by lia. lia. }
  assert (Hr : lane_of t' mod T = c).
  { unfold lane_of, cmod. rewrite Z.rem_mod_nonneg by lia.
    assert (Hw : (t' mod 32) mod T = t' mod T)
      by (subst T; destruct HT as [-> | [-> | ->]]; euclid).
    rewrite Hw.
    subst t'. rewrite Z.add_comm, Z.mul_comm, Z.mod_add by lia.
    apply Z.mod_small. lia. }
  rewrite (computeDelta_thread_order cfg p inp E query_start
             (warp_of t') (lane_of t')).
  - fold T. rewrite Hid, Hq, Hr. reflexivity.
  - exact HE.
  - exact threads_per_row_pos.
  - unfold lane_of, cmod. rewrite Z.rem_mod_nonneg by lia.
    apply Z.mod_pos_bound. lia.
  - rewrite Hid. exact Ht'.
  - exact Hdiv.
  - fold T. rewrite Hid, Hq. exact Hrow.
Qed.

(** A block of [computeDelta] writes the delta of each row it covers and
    only ever writes deltas. *)
Lemma computeDelta_mem_order_keep (query_start r : Z)
  (dmem : gmap Z accum_t) :
  dmem !! r = Some (kernel_delta cfg p inp E r) ->
  computeDelta_mem cfg E p inp query_start dmem !! r
  = Some (kernel_delta cfg p inp E r).
Proof.
  intros Hd. unfold computeDelta_mem. cbv zeta.
  apply (fold_left_keep_in _
           (fun m => m !! r = Some (kernel_delta cfg p inp E r)));
    [|exact Hd].
  intros m t Hin Hm. pose proof threads_per_row_pos as HTpos.
  assert (Ht : 0 <= t).
  { unfold thread_ids in Hin. apply in_map_iff in Hin.
    destruct Hin as (k & <- & _). lia. }
  rewrite (cdiv_nonneg t) by assumption.
  destruct (query_start + t / kNumThreadsPerLine cfg <? num_queries p)
    eqn:Erow; [|exact Hm].
  apply Z.ltb_lt in Erow.
  destruct (decide (query_start + t / kNumThreadsPerLine cfg = r))
    as [Heq|Hne].
  - rewrite Heq, lookup_insert_eq. f_equal. rewrite <- Heq.
    apply reduced_order; assumption.
  - rewrite lookup_insert_ne by exact Hne. exact Hm.
Qed.

Lemma computeDelta_mem_order_cover (query_start r : Z)
  (dmem : gmap Z accum_t) :
  kBlockSizeI cfg * kNumThreadsPerLine cfg <= kNumThreads cfg ->
  query_start <= r < query_start + kBlockSizeI cfg ->
  r < num_queries p ->
  computeDelta_mem cfg E p inp query_start dmem !! r
  = Some (kernel_delta cfg p inp E r).
Proof.
  intros Hthreads Hr Hnq. unfold computeDelta_mem. cbv zeta.
  pose proof threads_per_row_pos as HTpos.
  set (t := kNumThreadsPerLine cfg * (r - query_start)).
  assert (Ht : 0 <= t < kNumThreads cfg) by (subst t; nia).
  assert (Hq : t / kNumThreadsPerLine cfg = r - query_start)
    by (subst t; rewrite Z.mul_comm; apply Z.div_mul; lia).
  assert (Hstep : forall (m : gmap Z accum_t) t',
            In t' (thread_ids cfg) ->
            m !! r = Some (kernel_delta cfg p inp E r) ->
            (let laneRow := cdiv t' (kNumThreadsPerLine cfg) in
             if query_start + laneRow <? num_queries p
             then <[query_start + laneRow :=
                      reduce_between_workers cfg
                        (fun thread_id =>
                           computeDelta_thread cfg E p inp query_start
                             (warp_of thread_id) (lane_of thread_id)) t']> m
             else m) !! r = Some (kernel_delta cfg p inp E r)).
  { intros m t' Hin Hm. cbv zeta.
    assert (Ht' : 0 <= t').
    { unfold thread_ids in Hin. apply in_map_iff in Hin.
      destruct Hin as (k & <- & _). lia. }
    rewrite (cdiv_nonneg t') by assumption.
    destruct (query_start + t' / kNumThreadsPerLine cfg <? num_queries p)
      eqn:Erow; [|exact Hm].
    apply Z.ltb_lt in Erow.
    destruct (decide (query_start + t' / kNumThreadsPerLine cfg = r))
      as [Heq|Hne].
    - rewrite Heq, lookup_insert_eq. f_equal. rewrite <- Heq.
      apply reduced_order; assumption.
    - rewrite lookup_insert_ne by exact Hne. exact Hm. }
  apply (fold_left_establish_in _
           (fun m => m !! r = Some (kernel_delta cfg p inp E r)) _ t).
  - apply thread_ids_In. exact Ht.
  - intros m. rewrite (cdiv_nonneg t) by lia. rewrite Hq.
    replace (query_start + (r - query_start)) with r by lia.
    replace (r <? num_queries p) with true
      by (symmetry; apply Z.ltb_lt; exact Hnq).
    rewrite lookup_insert_eq. f_equal.
    assert (Hrr : r = query_start + t / kNumThreadsPerLine cfg)
      by (rewrite Hq; lia).
    rewrite Hrr at 1.
    apply reduced_order; [lia|]. rewrite Hq. lia.
  - intros m t' Hin Hm. apply (Hstep m t' Hin Hm).
Qed.

End DeltaBlockOrder.

(** ** The features the threads of a row add *)

Lemma NoDup_app_intro {A : Type} (l k : list A) :
  NoDup l -> NoDup k -> (forall x, In x l -> ~ In x k) -> NoDup (l ++ k).
Proof.
  intros Hl Hk Hd. apply NoDup_app. split; [exact Hl|]. split; [|exact Hk].
  intros x Hx Hx'. apply list_elem_of_In in Hx, Hx'. exact (Hd x Hx Hx').
Qed.

Lemma NoDup_map_inj {A B : Type} (f : A -> B) (l : list A) :
  (forall x y, In x l -> In y l -> f x = f y -> x = y) ->
  NoDup l -> NoDup (map f l).
Proof.
  intros Hinj Hl. induction Hl as [|a l Ha Hl IH]; simpl; constructor.
  - intros Hin. apply list_elem_of_In, in_map_iff in Hin.
    destruct Hin as (y & Hy & Hyl).
    assert (y = a) by (apply Hinj; [right; exact Hyl | left; reflexivity
                                   | exact Hy]).
    subst y. apply Ha, list_elem_of_In, Hyl.
  - apply IH. intros x y Hx Hy. apply Hinj; right; assumption.
Qed.

Lemma NoDup_flat_map {A B : Type} (f : A -> list B) (l : list A) :
  NoDup l -> (forall x, In x l -> NoDup (f x)) ->
  (forall x y b, In x l -> In y l -> In b (f x) -> In b (f y) -> x = y) ->
  NoDup (flat_map f l).
Proof.
  intros Hl. induction Hl as [|a l Ha Hl IH]; intros Hf Hd; simpl.
  - constructor.
  - apply NoDup_app_intro.
    + apply Hf. left. reflexivity.
    + apply IH.
      * intros x Hx. apply Hf. right. exact Hx.
      * intros x y b Hx Hy. apply Hd; right; assumption.
    + intros b Hb Hb'. apply in_flat_map in Hb'.
      destruct Hb' as (y & Hy & Hby).
      assert (a = y)
        by (apply (Hd a y b); [left; reflexivity | right; exact Hy
                              | exact Hb | exact Hby]).
      subst y. apply Ha, list_elem_of_In, Hy.
Qed.

Lemma lanes_NoDup (n : Z) : NoDup (lanes n).
Proof.
  unfold lanes. apply NoDup_map_inj; [|apply NoDup_seq].
  intros x y _ _ H. lia.
Qed.

Lemma mixed_radix_unique (e b b' i i' : Z) :
  0 <= i < e -> 0 <= i' < e -> b * e + i = b' * e + i' ->
  b = b' /\ i = i'.
Proof.
  intros Hi Hi' H.
  destruct (Z.lt_trichotomy b b') as [Hlt | [Heq | Hgt]]; [nia | | nia].
  subst b'. split; [reflexivity | lia].
Qed.

Lemma lane_features_In (e T : Z) (iters : nat) (c v : Z) :
  In v (lane_features e T iters c)
  <-> exists (j : nat) (i : Z),
        (j < iters)%nat /\ 0 <= i < e
        /\ v = (Z.of_nat j * T + c) * e + i.
Proof.
  unfold lane_features. rewrite in_flat_map. split.
  - intros (j & Hj & Hin). apply in_seq in Hj.
    apply in_map_iff in Hin. destruct Hin as (i & <- & Hi).
    apply lanes_In in Hi. exists j, i. repeat split; lia.
  - intros (j & i & Hj & Hi & ->). exists j. split; [apply in_seq; lia|].
    apply in_map_iff. exists i. split; [reflexivity|].
    apply lanes_In. exact Hi.
Qed.

(** No feature is added twice, by one thread or by two. *)
Lemma lane_features_NoDup (e T : Z) (iters : nat) :
  0 < e -> 0 < T ->
  NoDup (flat_map (lane_features e T iters) (lanes T)).
Proof.
  intros He HT.
  assert (Huniq : forall c c' (j j' : nat) i i',
            0 <= c < T -> 0 <= c' < T -> 0 <= i < e -> 0 <= i' < e ->
            (Z.of_nat j * T + c) * e + i = (Z.of_nat j' * T + c') * e + i' ->
            c = c' /\ j = j' /\ i = i').
  { intros c c' j j' i i' Hc Hc' Hi Hi' H.
    destruct (mixed_radix_unique e _ _ i i' Hi Hi' H) as [Hb ->].
    destruct (mixed_radix_unique T _ _ c c' Hc Hc' Hb) as [Hj ->].
    repeat split. lia. }
  apply NoDup_flat_map.
  - apply lanes_NoDup.
  - intros c Hc. apply lanes_In in Hc. unfold lane_features.
    apply NoDup_flat_map.
    + apply NoDup_seq.
    + intros j _. apply NoDup_map_inj; [|apply lanes_NoDup].
      intros x y _ _ H. lia.
    + intros j j' v _ _ Hv Hv'.
      apply in_map_iff in Hv, Hv'.
      destruct Hv as (i & <- & Hi). destruct Hv' as (i' & Heq & Hi').
      apply lanes_In in Hi, Hi'.
      destruct (Huniq c c j' j i' i Hc Hc Hi' Hi Heq) as (_ & Hj & _).
      symmetry. exact Hj.
  - intros c c' v Hc Hc' Hv Hv'. apply lanes_In in Hc, Hc'.
    apply lane_features_In in Hv, Hv'.
    destruct Hv as (j & i & _ & Hi & ->).
    destruct Hv' as (j' & i' & _ & Hi' & Heq).
    destruct (Huniq c c' j j' i i' Hc Hc' Hi Hi' Heq) as (Hcc & _).
    exact Hcc.
Qed.

(** Every feature of a row is added by a thread of the row, when the
    column iterations reach the end of the row. *)
Lemma lane_features_cover (e T hdv : Z) (iters : nat) (f : Z) :
  0 < e -> 0 < T -> hdv <= Z.of_nat iters * (e * T) ->
  0 <= f < hdv ->
  exists c, 0 <= c < T /\ In f (lane_features e T iters c).
Proof.
  intros He HT Hcover Hf.
  pose proof (Z.div_mod f e ltac:(lia)) as Hfe.
  pose proof (Z.mod_pos_bound f e He) as Hi.
  assert (Hb : 0 <= f / e) by (apply Z.div_pos; lia).
  pose proof (Z.div_mod (f / e) T ltac:(lia)) as Hbt.
  pose proof (Z.mod_pos_bound (f / e) T HT) as Hc.
  assert (Hj : 0 <= f / e / T) by (apply Z.div_pos; lia).
  assert (Hblt : f / e < Z.of_nat iters * T) by nia.
  assert (Hjlt : f / e / T < Z.of_nat iters) by nia.
  exists ((f / e) mod T). split; [exact Hc|].
  apply lane_features_In.
  exists (Z.to_nat (f / e / T)), (f mod e).
  split; [|split; [exact Hi|]].
  - apply Nat2Z.inj_lt. rewrite Z2Nat.id by exact Hj. exact Hjlt.
  - rewrite Z2Nat.id by exact Hj. nia.
Qed.

(** Addition in binary32 commutes. *)
Lemma SFadd_comm (prec emax : Z) (x y : spec_float) :
  SFadd prec emax x y = SFadd prec emax y x.
Proof.
  destruct x as [sx|sx| |sx mx ex]; destruct y as [sy|sy| |sy my ey];
    try reflexivity;
    try (destruct sx, sy; reflexivity).
  unfold SFadd. rewrite (Z.min_comm ey ex).
  rewrite (Z.add_comm (cond_Zopp sy _)). reflexivity.
Qed.




(** ** GmemTile *)

Section GmemTileProofs.

Context `{AR : Arith}.
Variable E : Z.
Variable N : Z.
Variable ptr : Z.

(* static_assert(FragmentType::kElements % AccessType::kElements == 0) *)
Hypothesis Haligned : cmod E GmemTile.AccessType_kElements = 0.
Hypothesis HE : 0 <= E.
Hypothesis HN : 0 < N.

Lemma kNumIters_eq : 4 * GmemTile.kNumIters E = E.
Proof.
  unfold GmemTile.kNumIters, GmemTile.AccessType_kElements in *.
  unfold cmod, cdiv in *.
  pose proof (Z.quot_rem' E 4). lia.
Qed.

Lemma kNumIters_nonneg : 0 <= GmemTile.kNumIters E.
Proof. pose proof kNumIters_eq. lia. Qed.

(** The float offset of element [j] of access [i] of thread [t]. *)
Let addr (t i j : Z) : Z := ptr + t * 4 + i * (N * 4) + j.

Lemma addr_inj (t i j t' i' j' : Z) :
  0 <= t < N -> 0 <= t' < N -> 0 <= j < 4 -> 0 <= j' < 4 ->
  addr t i j = addr t' i' j' -> t = t' /\ i = i' /\ j = j'.
Proof.
  unfold addr. intros Ht Ht' Hj Hj' Heq.
  assert (j = j') by lia. subst j'.
  assert (Hd : t - t' = N * (i' - i)) by lia.
  assert (i' = i) by nia.
  lia.
Qed.

Lemma store_step (fragment : Z -> accum_t) (t i : Z) (mem : Z -> accum_t)
  (a : Z) :
  let gmem_ptr := ptr + t * 4 + i * (N * 4) in
  GmemTile.global_store
    (snd (for_loop 0 GmemTile.AccessType_kElements 1
            (fun j sub_fragment =>
               slot_store sub_fragment j
                 (fragment (i * GmemTile.AccessType_kElements + j)))
            GmemTile.unassigned))
    gmem_ptr true mem a
  = if (gmem_ptr <=? a) && (a <? gmem_ptr + 4)
    then fragment (i * 4 + (a - gmem_ptr)) else mem a.
Proof.
  cbv zeta. unfold GmemTile.global_store, GmemTile.AccessType_kElements.
  rewrite !for_loop_unrolled_4. unfold slot_store.
  repeat match goal with
         | |- context [?x =? ?y] => destruct (Z.eqb_spec x y)
         end;
    destruct (Z.leb_spec (ptr + t * 4 + i * (N * 4)) a);
    destruct (Z.ltb_spec a (ptr + t * 4 + i * (N * 4) + 4));
    simpl; try lia; try reflexivity; f_equal; lia.
Qed.


Lemma load_step (mem fragment : Z -> accum_t) (t i e : Z) :
  let gmem_ptr := ptr + t * 4 + i * (N * 4) in
  snd (for_loop 0 GmemTile.AccessType_kElements 1
         (fun j fragment =>
            slot_store fragment (i * GmemTile.AccessType_kElements + j)
              (GmemTile.global_load GmemTile.unassigned mem gmem_ptr true j))
         fragment) e
  = if (i * 4 <=? e) && (e <? i * 4 + 4)
    then mem (gmem_ptr + (e - i * 4)) else fragment e.
Proof.
  cbv zeta. unfold GmemTile.global_load, GmemTile.AccessType_kElements.
  rewrite !for_loop_unrolled_4. unfold slot_store.
  repeat match goal with
         | |- context [?x =? ?y] => destruct (Z.eqb_spec x y)
         end;
    destruct (Z.leb_spec (i * 4) e); destruct (Z.ltb_spec e (i * 4 + 4));
    simpl; try lia; try reflexivity; f_equal; lia.
Qed.

(** What [load] leaves in element [e] of the fragment. *)
Lemma load_value (mem fragment : Z -> accum_t) (t e : Z) :
  0 <= e < E ->
  GmemTile.load E N ptr mem fragment t e = mem (addr t (e / 4) (e mod 4)).
Proof.
  intros He. unfold GmemTile.load, GmemTile.kStride. cbv zeta.
  pose proof kNumIters_eq as Hk.
  pose proof (Z.div_mod e 4 ltac:(lia)) as Hdm.
  pose proof (Z.mod_pos_bound e 4 ltac:(lia)) as Hm.
  change GmemTile.AccessType_kElements with 4 at 1 3.
  apply (for_loop_establish_in _
           (fun f : Z -> accum_t => f e = mem (addr t (e / 4) (e mod 4)))
           0 (GmemTile.kNumIters E) 1 (e / 4)).
  - lia.
  - lia.
  - apply Z.mod_1_r.
  - intros f. rewrite load_step.
    destruct (Z.leb_spec (e / 4 * 4) e); [|lia].
    destruct (Z.ltb_spec e (e / 4 * 4 + 4)); [|lia].
    simpl. unfold addr. f_equal. lia.
  - intros f i Hi _ Hf. rewrite load_step.
    destruct (Z.leb_spec (i * 4) e); destruct (Z.ltb_spec e (i * 4 + 4));
      simpl; try exact Hf.
    assert (i = e / 4) by lia. subst i. unfold addr. f_equal. lia.
Qed.

(** A cell that already holds the value of its owner keeps it under the
    store of any thread. *)
Lemma store_keep (fragments : Z -> Z -> accum_t) (t t0 i0 j0 : Z)
  (mem : Z -> accum_t) :
  0 <= t < N -> 0 <= t0 < N -> 0 <= j0 < 4 ->
  mem (addr t0 i0 j0) = fragments t0 (i0 * 4 + j0) ->
  GmemTile.store E N ptr (fragments t) t mem (addr t0 i0 j0)
  = fragments t0 (i0 * 4 + j0).
Proof.
  intros Ht Ht0 Hj0 Hm. unfold GmemTile.store, GmemTile.kStride. cbv zeta.
  change GmemTile.AccessType_kElements with 4 at 1 3.
  apply (for_loop_invariant _
           (fun m : Z -> accum_t =>
              m (addr t0 i0 j0) = fragments t0 (i0 * 4 + j0)));
    [exact Hm|].
  intros i m Hmi. rewrite store_step. cbv zeta.
  destruct (Z.leb_spec (ptr + t * 4 + i * (N * 4)) (addr t0 i0 j0));
    destruct (Z.ltb_spec (addr t0 i0 j0) (ptr + t * 4 + i * (N * 4) + 4));
    simpl; try exact Hmi.
  set (j := addr t0 i0 j0 - (ptr + t * 4 + i * (N * 4))) in *.
  assert (Hj : 0 <= j < 4) by lia.
  assert (Heq : addr t i j = addr t0 i0 j0) by (unfold addr in *; lia).
  destruct (addr_inj _ _ _ _ _ _ Ht Ht0 Hj Hj0 Heq) as (-> & -> & ->).
  reflexivity.
Qed.

Lemma store_own (fragments : Z -> Z -> accum_t) (t i j : Z)
  (mem : Z -> accum_t) :
  0 <= t < N -> 0 <= i < GmemTile.kNumIters E -> 0 <= j < 4 ->
  GmemTile.store E N ptr (fragments t) t mem (addr t i j)
  = fragments t (i * 4 + j).
Proof.
  intros Ht Hi Hj. unfold GmemTile.store, GmemTile.kStride. cbv zeta.
  change GmemTile.AccessType_kElements with 4 at 1 3.
  apply (for_loop_establish_in _
           (fun m : Z -> accum_t => m (addr t i j) = fragments t (i * 4 + j))
           0 (GmemTile.kNumIters E) 1 i).
  - lia.
  - lia.
  - apply Z.mod_1_r.
  - intros m. rewrite store_step. cbv zeta.
    destruct (Z.leb_spec (ptr + t * 4 + i * (N * 4)) (addr t i j));
      [|unfold addr in *; lia].
    destruct (Z.ltb_spec (addr t i j) (ptr + t * 4 + i * (N * 4) + 4));
      [|unfold addr in *; lia].
    simpl. f_equal. unfold addr. lia.
  - intros m i' _ _ Hm. rewrite store_step. cbv zeta.
    destruct (Z.leb_spec (ptr + t * 4 + i' * (N * 4)) (addr t i j));
      destruct (Z.ltb_spec (addr t i j) (ptr + t * 4 + i' * (N * 4) + 4));
      simpl; try exact Hm.
    set (j' := addr t i j - (ptr + t * 4 + i' * (N * 4))) in *.
    assert (Hj' : 0 <= j' < 4) by lia.
    assert (Heq : addr t i' j' = addr t i j) by (unfold addr in *; lia).
    destruct (addr_inj _ _ _ _ _ _ Ht Ht Hj' Hj Heq) as (_ & -> & ->).
    reflexivity.
Qed.

(** After the block has stored, every cell of the tile holds the element
    of its owner. *)
Lemma store_block_value (fragments : Z -> Z -> accum_t) (t i j : Z)
  (mem : Z -> accum_t) :
  0 <= t < N -> 0 <= i < GmemTile.kNumIters E -> 0 <= j < 4 ->
  GmemTile.store_block E N ptr fragments mem (addr t i j)
  = fragments t (i * 4 + j).
Proof.
  intros Ht Hi Hj. unfold GmemTile.store_block.
  apply (fold_left_establish_in
           (fun m t' => GmemTile.store E N ptr (fragments t') t' m)
           (fun m : Z -> accum_t => m (addr t i j) = fragments t (i * 4 + j))
           (lanes N) t).
  - apply lanes_In. exact Ht.
  - intros m. apply store_own; assumption.
  - intros m t' Hin Hm. apply lanes_In in Hin.
    apply store_keep; assumption.
Qed.

(** A store of the block writes no cell outside the [kElementsStored]
    floats that start at [ptr]. *)
Lemma store_block_outside (fragments : Z -> Z -> accum_t)
  (mem : Z -> accum_t) (a : Z) :
  a < ptr \/ ptr + GmemTile.kElementsStored E N <= a ->
  GmemTile.store_block E N ptr fragments mem a = mem a.
Proof.
  intros Ha. unfold GmemTile.store_block, GmemTile.kElementsStored in *.
  pose proof kNumIters_eq as Hk.
  apply (fold_left_keep_in
           (fun m t' => GmemTile.store E N ptr (fragments t') t' m)
           (fun m : Z -> accum_t => m a = mem a)); [|reflexivity].
  intros m t Hin Hm. apply lanes_In in Hin.
  unfold GmemTile.store, GmemTile.kStride. cbv zeta.
  change GmemTile.AccessType_kElements with 4 at 1 3.
  apply (for_loop_invariant_in _ (fun m' : Z -> accum_t => m' a = mem a));
    [lia | exact Hm |].
  intros i m' Hi _ Hm'. rewrite store_step. cbv zeta.
  destruct (Z.leb_spec (ptr + t * 4 + i * (N * 4)) a);
    destruct (Z.ltb_spec a (ptr + t * 4 + i * (N * 4) + 4));
    simpl; try exact Hm'.
  exfalso. nia.
Qed.

End GmemTileProofs.

(** X1.  Round trip.  Once the threads of the block have stored their
    fragments to a tile, each thread loads back exactly the fragment it
    stored, whatever its registers and the tile held before. *)
Theorem GmemTile_store_then_load `{AR : Arith} (E N ptr : Z)
  (fragments : Z -> Z -> accum_t) (mem fragment : Z -> accum_t)
  (thread_id e : Z) :
  cmod E GmemTile.AccessType_kElements = 0 -> 0 <= E -> 0 < N ->
  0 <= thread_id < N -> 0 <= e < E ->
  GmemTile.load E N ptr (GmemTile.store_block E N ptr fragments mem)
    fragment thread_id e
  = fragments thread_id e.
Proof.
  intros Hal HE HN Ht He.
  rewrite load_value by assumption.
  pose proof (kNumIters_eq E Hal) as Hk.
  pose proof (Z.div_mod e 4 ltac:(lia)) as Hdm.
  pose proof (Z.mod_pos_bound e 4 ltac:(lia)) as Hm.
  rewrite store_block_value; try assumption; try lia.
  f_equal. lia.
Qed.

(** X2.  Footprint.  A store of the block changes no float outside the
    [kElementsStored] floats of its tile, so a tile stored under one
    storage id leaves what is loaded under any other storage id as it
    was. *)
Theorem GmemTile_store_stays_in_tile `{AR : Arith} (E N base : Z)
  (fragments : Z -> Z -> accum_t) (mem fragment : Z -> accum_t)
  (storage_id : Z) :
  cmod E GmemTile.AccessType_kElements = 0 -> 0 <= E -> 0 < N ->
  let ptr := base + storage_id * GmemTile.kElementsStored E N in
  let mem' := GmemTile.store_block E N ptr fragments mem in
  (forall a, a < ptr \/ ptr + GmemTile.kElementsStored E N <= a ->
             mem' a = mem a)
  /\ (forall other thread_id e,
        other <> storage_id -> 0 <= thread_id < N -> 0 <= e < E ->
        GmemTile.load E N (base + other * GmemTile.kElementsStored E N)
          mem' fragment thread_id e
        = GmemTile.load E N (base + other * GmemTile.kElementsStored E N)
            mem fragment thread_id e).
Proof.
  intros Hal HE HN ptr mem'. split.
  - intros a Ha. apply store_block_outside; assumption.
  - intros other t e Hne Ht He.
    rewrite !load_value by assumption.
    apply store_block_outside; try assumption.
    pose proof (kNumIters_eq E Hal) as Hk.
    pose proof (Z.div_mod e 4 ltac:(lia)) as Hdm.
    pose proof (Z.mod_pos_bound e 4 ltac:(lia)) as Hm.
    subst ptr. unfold GmemTile.kElementsStored.
    set (K := N * E).
    assert (HK : 0 <= K) by (subst K; nia).
    assert (Hq : 0 <= e / 4 <= GmemTile.kNumIters E - 1) by lia.
    assert (Hoff : 0 <= t * 4 + e / 4 * (N * 4) + e mod 4 < K).
    { assert (e / 4 * N <= (GmemTile.kNumIters E - 1) * N) by nia.
      subst K. nia. }
    cbv beta.
    destruct (Z_lt_ge_dec other storage_id); [left|right]; nia.
Qed.

(** ** What the stages leave alone *)

Section Frames.

Context `{AR : Arith} `{EN : !Engine}.
Variable cfg : KernelConfig.
Variable p : Params.
Variable inp : Inputs.

Lemma stage_MatmulDOIVJ_grad_bias1 (skip : bool) (qs ks : Z)
  (st : KernelState) :
  broadcast_1_kEnable cfg = false \/ grad_bias1_ptr p = 0 ->
  grad_bias1 (gmem (stage_MatmulDOIVJ cfg skip p inp qs ks st))
  = grad_bias1 (gmem st).
Proof.
  intros H. unfold stage_MatmulDOIVJ. cbv zeta.
  assert (Hc : broadcast_1_kEnable cfg && negb (grad_bias1_ptr p =? 0)
               = false).
  { destruct H as [-> | ->]; [reflexivity|].
    rewrite Z.eqb_refl. apply andb_false_r. }
  rewrite Hc. break_ifs; reflexivity.
Qed.

Lemma stage_MatmulDOIVJ_grad_bias2 (skip : bool) (qs ks : Z)
  (st : KernelState) :
  broadcast_2_kEnable cfg = false \/ grad_bias2_ptr p = 0 ->
  grad_bias2 (gmem (stage_MatmulDOIVJ cfg skip p inp qs ks st))
  = grad_bias2 (gmem st).
Proof.
  intros H. unfold stage_MatmulDOIVJ. cbv zeta.
  assert (Hc : broadcast_2_kEnable cfg && negb (grad_bias2_ptr p =? 0)
               = false).
  { destruct H as [-> | ->]; [reflexivity|].
    rewrite Z.eqb_refl. apply andb_false_r. }
  rewrite Hc. break_ifs; reflexivity.
Qed.

Lemma processBlockIJ_grad_bias1 (skip : bool) (qs ks : Z)
  (st : KernelState) :
  broadcast_1_kEnable cfg = false \/ grad_bias1_ptr p = 0 ->
  grad_bias1 (gmem (processBlockIJ cfg skip p inp qs ks st))
  = grad_bias1 (gmem st).
Proof.
  intros H. unfold processBlockIJ, processBlockIJ_front. cbv zeta.
  rewrite (proj1 (stage_GradK_bias_grads cfg p inp _ _ _ _ _ _)).
  rewrite (proj1 (stage_GradQ_bias_grads cfg p inp _ _ _ _)).
  rewrite stage_MatmulDOIVJ_grad_bias1 by exact H.
  rewrite (proj1 (stage_GradV_bias_grads cfg p inp _ _ _ _ _ _)).
  rewrite stage_MatmulQK_gmem. reflexivity.
Qed.

Lemma processBlockIJ_grad_bias2 (skip : bool) (qs ks : Z)
  (st : KernelState) :
  broadcast_2_kEnable cfg = false \/ grad_bias2_ptr p = 0 ->
  grad_bias2 (gmem (processBlockIJ cfg skip p inp qs ks st))
  = grad_bias2 (gmem st).
Proof.
  intros H. unfold processBlockIJ, processBlockIJ_front. cbv zeta.
  rewrite (proj2 (stage_GradK_bias_grads cfg p inp _ _ _ _ _ _)).
  rewrite (proj2 (stage_GradQ_bias_grads cfg p inp _ _ _ _)).
  rewrite stage_MatmulDOIVJ_grad_bias2 by exact H.
  rewrite (proj2 (stage_GradV_bias_grads cfg p inp _ _ _ _ _ _)).
  rewrite stage_MatmulQK_gmem. reflexivity.
Qed.

End Frames.

(** X10.  A bias-gradient tensor that is not configured, or whose pointer is
    null, is never written by the kernel. *)
Theorem null_bias_gradient_untouched `{AR : Arith} `{EN : !Engine}
  (cfg : KernelConfig) (p : Params) (inp : Inputs) (st : KernelState) :
  (broadcast_1_kEnable cfg = false \/ grad_bias1_ptr p = 0 ->
   grad_bias1 (gmem (attention_kernel cfg p inp st)) = grad_bias1 (gmem st))
  /\ (broadcast_2_kEnable cfg = false \/ grad_bias2_ptr p = 0 ->
      grad_bias2 (gmem (attention_kernel cfg p inp st))
      = grad_bias2 (gmem st)).
Proof.
  split; intros H; unfold attention_kernel.
  - apply (attention_kernel_gen_invariant cfg (kernel_handlers cfg p inp) p
             (fun s => grad_bias1 (gmem s) = grad_bias1 (gmem st)));
      simpl; try reflexivity; intros; try assumption.
    rewrite processBlockIJ_grad_bias1; assumption.
  - apply (attention_kernel_gen_invariant cfg (kernel_handlers cfg p inp) p
             (fun s => grad_bias2 (gmem s) = grad_bias2 (gmem st)));
      simpl; try reflexivity; intros; try assumption.
    rewrite processBlockIJ_grad_bias2; assumption.
Qed.

(** ** The calls of the kernel and their arguments *)

Lemma tile_starts_In (len t x : Z) :
  0 < t -> In x (tile_starts len t) ->
  0 <= x < len /\ x mod t = 0.
Proof.
  intros Ht Hin. unfold tile_starts in Hin.
  assert (Hin' : In x (map (fun k => 0 + Z.of_nat k * t)
                           (seq 0 (iter_count 0 len t)))).
  { apply in_map_iff in Hin. destruct Hin as (k & <- & Hk).
    apply in_map_iff. exists k. split; [lia | exact Hk]. }
  destruct (loop_index_bounds 0 len t x Ht Hin') as [Hb Hm].
  rewrite Z.sub_0_r in Hm. split; assumption.
Qed.

(** Every call of the kernel, with where its tile starts. *)
Lemma kernel_calls_In `{AR : Arith} (cfg : KernelConfig) (p : Params)
  (c : Call) :
  0 < kBlockSizeI cfg -> 0 < kBlockSizeJ cfg ->
  In c (kernel_calls cfg p) ->
  match c with
  | CallComputeDelta e q =>
      kKernelComputesDelta cfg = true
      /\ In q (tile_starts (num_queries p) (kBlockSizeI cfg))
  | CallClear => True
  | CallProcessBlockIJ skip q k =>
      In q (tile_starts (num_queries p) (kBlockSizeI cfg)) /\ 0 <= k
      /\ (0 <= num_keys p ->
          In k (tile_starts (num_keys p) (kBlockSizeJ cfg)))
  | CallWriteFragsToGmem skip k => kOutputInRF cfg = true /\ 0 <= k
  | CallZfillGradKV skip k =>
      kOutputInRF cfg = false /\ num_queries p <= 0 /\ 0 <= k
  end.
Proof.
  intros HI HJ Hin.
  assert (Htile : forall full k,
            0 <= k ->
            (0 <= num_keys p ->
             In k (tile_starts (num_keys p) (kBlockSizeJ cfg))) ->
            In c (key_tile_calls cfg p full k) ->
            match c with
            | CallComputeDelta e q =>
                kKernelComputesDelta cfg = true
                /\ In q (tile_starts (num_queries p) (kBlockSizeI cfg))
            | CallClear => True
            | CallProcessBlockIJ skip q k =>
                In q (tile_starts (num_queries p) (kBlockSizeI cfg))
                /\ 0 <= k
                /\ (0 <= num_keys p ->
                    In k (tile_starts (num_keys p) (kBlockSizeJ cfg)))
            | CallWriteFragsToGmem skip k => kOutputInRF cfg = true /\ 0 <= k
            | CallZfillGradKV skip k =>
                kOutputInRF cfg = false /\ num_queries p <= 0 /\ 0 <= k
            end).
  { intros full k Hk0 Hk Hc. unfold key_tile_calls in Hc. cbv zeta in Hc.
    pose proof (tile_starts_split (num_queries p) (kBlockSizeI cfg) HI)
      as Hsplit. cbv zeta in Hsplit.
    rewrite !in_app_iff in Hc. destruct Hc as [Hc|[Hc|Hc]].
    - destruct Hc as [<-|[]]. exact I.
    - destruct full.
      + assert (Hq : exists q,
                  (c = CallProcessBlockIJ true q k
                   \/ c = CallProcessBlockIJ false q k)
                  /\ In q (tile_starts (num_queries p) (kBlockSizeI cfg))).
        { rewrite in_app_iff in Hc. destruct Hc as [Hc|Hc].
          - apply in_map_iff in Hc. destruct Hc as (q & <- & Hq).
            exists q. split; [left; reflexivity|].
            rewrite <- Hsplit. apply in_app_iff. left. exact Hq.
          - destruct (_ <? num_queries p) eqn:E; [|contradiction].
            destruct Hc as [<-|[]]. eexists. split; [right; reflexivity|].
            rewrite <- Hsplit. apply in_app_iff. right.
            left. reflexivity. }
        destruct Hq as (q & Hc' & Hq). destruct Hc'; subst c; auto.
      + apply in_map_iff in Hc. destruct Hc as (q & <- & Hq). auto.
    - destruct (kOutputInRF cfg) eqn:ERF.
      + destruct Hc as [<-|[]]. auto.
      + destruct (0 >=? num_queries p) eqn:E; [|contradiction].
        destruct Hc as [<-|[]]. rewrite Z.geb_leb in E.
        apply Z.leb_le in E. auto. }
  unfold kernel_calls in Hin. cbv zeta in Hin.
  rewrite !in_app_iff in Hin. destruct Hin as [Hin|[Hin|Hin]].
  - unfold delta_calls in Hin.
    destruct (kKernelComputesDelta cfg) eqn:EK; [|contradiction].
    cbv zeta in Hin. apply in_map_iff in Hin.
    destruct Hin as (q & <- & Hq). auto.
  - apply in_flat_map in Hin. destruct Hin as (k & Hk & Hc).
    refine (Htile true k _ _ Hc).
    + apply (tile_starts_In _ _ _ HJ) in Hk. lia.
    + intros Hnk.
      pose proof (tile_starts_split (num_keys p) (kBlockSizeJ cfg) HJ)
        as Hsplit. cbv zeta in Hsplit.
      rewrite <- Hsplit. apply in_app_iff. left. exact Hk.
  - destruct (negb _) eqn:E; [|contradiction].
    refine (Htile false _ _ _ Hin).
    + pose proof (Nat2Z.is_nonneg
                    (iter_count 0 (cdiv (num_keys p) (kBlockSizeJ cfg)
                                   * kBlockSizeJ cfg) (kBlockSizeJ cfg))).
      nia.
    + intros Hnk.
      pose proof (tile_starts_split (num_keys p) (kBlockSizeJ cfg) HJ)
        as Hsplit. cbv zeta in Hsplit.
      rewrite <- Hsplit. apply in_app_iff. right.
      set (x := Z.of_nat (iter_count 0 _ _) * kBlockSizeJ cfg) in *.
      assert (Hx : x = cdiv (num_keys p) (kBlockSizeJ cfg)
                       * kBlockSizeJ cfg).
      { subst x. rewrite iter_count_multiple by assumption.
        destruct (cdiv_mul_bounds (num_keys p) (kBlockSizeJ cfg) HJ Hnk).
        lia. }
      destruct (cdiv_mul_bounds (num_keys p) (kBlockSizeJ cfg) HJ Hnk)
        as [Hb _].
      apply negb_true_iff, Z.eqb_neq in E.
      replace (x <? num_keys p) with true
        by (symmetry; apply Z.ltb_lt; lia).
      left. reflexivity.
Qed.

(** A property of the state kept by every call of the kernel, each call
    taken with the arguments the kernel gives it, holds when the kernel
    ends. *)
Lemma attention_kernel_keeps `{AR : Arith} `{EN : !Engine}
  (cfg : KernelConfig) (p : Params) (inp : Inputs)
  (P : KernelState -> Prop) (st : KernelState) :
  0 < kBlockSizeI cfg -> 0 < kBlockSizeJ cfg ->
  (forall c s, In c (kernel_calls cfg p) -> P s ->
               P (run_call (kernel_handlers cfg p inp) c s)) ->
  P st -> P (attention_kernel cfg p inp st).
Proof.
  intros HI HJ Hkeep Hst.
  rewrite attention_kernel_calls_run by assumption. unfold run_calls.
  apply (fold_left_keep_in
           (fun s c => run_call (kernel_handlers cfg p inp) c s) P);
    [|exact Hst].
  intros s c Hin Hs. apply Hkeep; assumption.
Qed.

(** ** What a supported launch guarantees *)

Lemma check_supported_facts `{AR : Arith} (cfg : KernelConfig)
  (p : Params) :
  check_supported cfg p = Supported ->
  let al := kMinimumAlignment cfg in
  (cmod (query_ptr p) al = 0 /\ cmod (key_ptr p) al = 0
   /\ cmod (value_ptr p) al = 0)
  /\ ((num_heads p <= 1 \/ cmod (q_strideH p) al = 0)
      /\ (num_heads p <= 1 \/ cmod (k_strideH p) al = 0)
      /\ (num_heads p <= 1 \/ cmod (v_strideH p) al = 0))
  /\ ((num_batches p <= 1 \/ cmod (q_strideB p) al = 0)
      /\ (num_batches p <= 1 \/ cmod (k_strideB p) al = 0)
      /\ (num_batches p <= 1 \/ cmod (v_strideB p) al = 0))
  /\ (0 < head_dim p /\ 0 < head_dim_value p /\ 0 < num_queries p
      /\ 0 < num_keys p /\ 0 < num_heads p /\ 0 < num_batches p)
  /\ head_dim p <= kMaxK cfg /\ head_dim_value p <= kMaxK cfg.
Proof.
  intros H. apply check_supported_all_checks in H.
  unfold listed_preconditions, head_batch_stride_preconditions in H.
  cbv zeta in H.
  repeat match goal with
         | H : _ && _ = true |- _ =>
             let H' := fresh "H" in
             apply andb_true_iff in H; destruct H as [H H']
         end.
  repeat match goal with
         | H : _ || _ = true |- _ => apply orb_true_iff in H
         | H : (_ =? _) = true |- _ => apply Z.eqb_eq in H
         | H : (_ <? _) = true |- _ => apply Z.ltb_lt in H
         | H : (_ <=? _) = true |- _ => apply Z.leb_le in H
         | H : (_ <=? _) = true \/ _ |- _ =>
             rewrite Z.leb_le in H
         | H : _ \/ (_ =? _) = true |- _ =>
             rewrite Z.eqb_eq in H
         end.
  cbv zeta. tauto.
Qed.

(** X14.  For a launch that the validation accepts, the kernel never
    zero-fills a key tile: every key tile receives query tiles, since the
    first query tile of a key tile is always tile 0 and there is at least
    one query. *)
Theorem supported_launch_never_zero_fills `{AR : Arith}
  (cfg : KernelConfig) (p : Params) (skip : bool) (key_start : Z) :
  0 < kBlockSizeI cfg -> 0 < kBlockSizeJ cfg ->
  check_supported cfg p = Supported ->
  ~ In (CallZfillGradKV skip key_start) (attention_kernel_calls cfg p).
Proof.
  intros HI HJ Hok Hin.
  rewrite attention_kernel_calls_closed in Hin by assumption.
  apply (kernel_calls_In cfg p _ HI HJ) in Hin.
  destruct Hin as (_ & Hnq & _).
  pose proof (check_supported_facts cfg p Hok) as Hf. cbv zeta in Hf.
  destruct Hf as (_ & _ & _ & Hd & _).
  lia.
Qed.

(** ** Where the kernel writes *)

Ltac frame_loop_with tac f st :=
  apply (for_loop_invariant _ (fun s => f s = f st));
  [ reflexivity
  | let i := fresh "i" in
    let s := fresh "s" in
    let Hs := fresh "Hs" in
    intros i s Hs; rewrite <- Hs; cbv zeta; tac; break_ifs; reflexivity ].

Lemma kNumThreadsPerLine_nonneg (cfg : KernelConfig) :
  0 < kBlockSizeI cfg -> 0 < kBlockSizeJ cfg ->
  0 <= kNumThreadsPerLine cfg.
Proof.
  intros HI HJ. unfold kNumThreadsPerLine, kNumThreads, kNumWarpsPerBlock,
    kWarpSize, cdiv.
  assert (0 <= Z.quot (kBlockSizeI cfg * kBlockSizeJ cfg) (32 * 32))
    by (apply Z.quot_pos; nia).
  apply Z.quot_pos; lia.
Qed.

Lemma incrIteration_end `{AR : Arith} (cfg : KernelConfig) (p : Params)
  (ks : Z) :
  0 <= kBlockSizeI cfg ->
  incrIteration cfg p (num_queries p) ks = (0, ks + kBlockSizeJ cfg).
Proof.
  intros HI. unfold incrIteration, getQueryStart. cbv zeta.
  replace (num_queries p + kBlockSizeI cfg >=? num_queries p) with true;
    [reflexivity|].
  symmetry. rewrite Z.geb_leb. apply Z.leb_le. lia.
Qed.

Lemma isLastQuery_spec `{AR : Arith} (cfg : KernelConfig) (p : Params)
  (qs ks : Z) :
  0 < kBlockSizeJ cfg ->
  isLastQuery cfg p qs ks = (qs + kBlockSizeI cfg >=? num_queries p).
Proof.
  intros HJ. unfold isLastQuery, incrIteration, getQueryStart. cbv zeta.
  destruct (qs + kBlockSizeI cfg >=? num_queries p).
  - apply negb_true_iff, Z.eqb_neq. lia.
  - apply negb_false_iff, Z.eqb_refl.
Qed.

Section Footprint.

Context `{AR : Arith} `{EN : !Engine}.
Variable cfg : KernelConfig.
Variable p : Params.
Variable inp : Inputs.

Lemma computeDelta_mem_outside (e query_start r : Z)
  (dmem : gmap Z accum_t) :
  0 <= kNumThreadsPerLine cfg -> 0 <= query_start ->
  r < 0 \/ num_queries p <= r ->
  computeDelta_mem cfg e p inp query_start dmem !! r = dmem !! r.
Proof.
  intros HT Hq Hr. unfold computeDelta_mem. cbv zeta.
  apply (fold_left_keep_in _ (fun m : gmap Z accum_t => m !! r = dmem !! r));
    [|reflexivity].
  intros m t Hin Hm.
  assert (Ht : 0 <= t).
  { unfold thread_ids in Hin. apply in_map_iff in Hin.
    destruct Hin as (k & <- & _). lia. }
  assert (Hrow : 0 <= cdiv t (kNumThreadsPerLine cfg)).
  { unfold cdiv.
    destruct (Z.eq_dec (kNumThreadsPerLine cfg) 0) as [->|Hne].
    - destruct t; [cbv; discriminate | cbv; discriminate | lia].
    - apply Z.quot_pos; lia. }
  destruct (_ <? num_queries p) eqn:Erow; [|exact Hm].
  apply Z.ltb_lt in Erow.
  rewrite lookup_insert_ne by lia. exact Hm.
Qed.

(** *** The workspace planes *)

Lemma stage_GradV_workspace (skip : bool) (qs ks : Z) (f l : bool)
  (st : KernelState) :
  let st' := stage_GradV cfg skip p inp qs ks f l st in
  workspace_gk (gmem st') = workspace_gk (gmem st)
  /\ workspace_gq (gmem st') = workspace_gq (gmem st)
  /\ (kNeedsAccumGradV cfg = false \/ l = true ->
      workspace_gv (gmem st') = workspace_gv (gmem st)).
Proof.
  cbv zeta. unfold stage_GradV. cbv zeta. split; [|split].
  - frame_loop (fun s : KernelState => workspace_gk (gmem s)) st.
  - frame_loop (fun s : KernelState => workspace_gq (gmem s)) st.
  - intros H.
    assert (Hc : kNeedsAccumGradV cfg && negb l = false)
      by (destruct H as [-> | ->]; [reflexivity | apply andb_false_r]).
    frame_loop_with ltac:(rewrite Hc)
      (fun s : KernelState => workspace_gv (gmem s)) st.
Qed.

Lemma stage_GradK_workspace (skip : bool) (qs ks : Z) (f l : bool)
  (st : KernelState) :
  let st' := stage_GradK cfg skip p inp qs ks f l st in
  workspace_gv (gmem st') = workspace_gv (gmem st)
  /\ workspace_gq (gmem st') = workspace_gq (gmem st)
  /\ (kNeedsAccumGradK cfg = false \/ l = true ->
      workspace_gk (gmem st') = workspace_gk (gmem st)).
Proof.
  cbv zeta. unfold stage_GradK. cbv zeta. split; [|split].
  - frame_loop (fun s : KernelState => workspace_gv (gmem s)) st.
  - frame_loop (fun s : KernelState => workspace_gq (gmem s)) st.
  - intros H.
    assert (Hc : kNeedsAccumGradK cfg && negb l = false)
      by (destruct H as [-> | ->]; [reflexivity | apply andb_false_r]).
    frame_loop_with ltac:(rewrite Hc)
      (fun s : KernelState => workspace_gk (gmem s)) st.
Qed.

Lemma stage_GradQ_workspace (skip : bool) (qs ks : Z) (st : KernelState) :
  0 <= kBlockSizeI cfg ->
  let st' := stage_GradQ cfg skip p inp qs ks st in
  workspace_gk (gmem st') = workspace_gk (gmem st)
  /\ workspace_gv (gmem st') = workspace_gv (gmem st)
  /\ (kNeedsAccumGradQ cfg = false
      \/ num_keys p <= ks + kBlockSizeJ cfg ->
      workspace_gq (gmem st') = workspace_gq (gmem st)).
Proof.
  intros HI. cbv zeta. unfold stage_GradQ. cbv zeta. split; [|split].
  - frame_loop (fun s : KernelState => workspace_gk (gmem s)) st.
  - frame_loop (fun s : KernelState => workspace_gv (gmem s)) st.
  - intros H.
    assert (Hc : kNeedsAccumGradQ cfg
                 && negb ((0 >? qs) || (ks + kBlockSizeJ cfg >=? num_keys p))
                 = false).
    { destruct H as [-> | H]; [reflexivity|].
      replace (ks + kBlockSizeJ cfg >=? num_keys p) with true
        by (symmetry; rewrite Z.geb_leb; apply Z.leb_le; lia).
      rewrite orb_true_r. apply andb_false_r. }
    frame_loop_with
      ltac:(rewrite (incrIteration_end cfg p ks HI); cbv beta iota;
            rewrite Hc)
      (fun s : KernelState => workspace_gq (gmem s)) st.
Qed.

Lemma stage_MatmulDOIVJ_workspace (skip : bool) (qs ks : Z)
  (st : KernelState) :
  let st' := stage_MatmulDOIVJ cfg skip p inp qs ks st in
  workspace_gk (gmem st') = workspace_gk (gmem st)
  /\ workspace_gv (gmem st') = workspace_gv (gmem st)
  /\ workspace_gq (gmem st') = workspace_gq (gmem st).
Proof.
  cbv zeta. unfold stage_MatmulDOIVJ. cbv zeta.
  repeat split; break_ifs; reflexivity.
Qed.

End Footprint.

Section FootprintBlock.

Context `{AR : Arith} `{EN : !Engine}.
Variable cfg : KernelConfig.
Variable p : Params.
Variable inp : Inputs.

Lemma processBlockIJ_workspace (skip : bool) (qs ks : Z)
  (st : KernelState) :
  0 <= kBlockSizeI cfg ->
  let st' := processBlockIJ cfg skip p inp qs ks st in
  (kNeedsAccumGradK cfg = false ->
   workspace_gk (gmem st') = workspace_gk (gmem st))
  /\ (kNeedsAccumGradV cfg = false ->
      workspace_gv (gmem st') = workspace_gv (gmem st))
  /\ (kNeedsAccumGradQ cfg = false
      \/ num_keys p <= ks + kBlockSizeJ cfg ->
      workspace_gq (gmem st') = workspace_gq (gmem st)).
Proof.
  intros HI. cbv zeta. unfold processBlockIJ, processBlockIJ_front.
  cbv zeta.
  set (s0 := with_shared _ st).
  set (s1 := stage_MatmulQK cfg skip p inp qs ks s0).
  set (s2 := stage_GradV cfg skip p inp qs ks _ _ s1).
  set (s3 := stage_MatmulDOIVJ cfg skip p inp qs ks s2).
  set (s4 := stage_GradQ cfg skip p inp qs ks s3).
  assert (H1 : gmem s1 = gmem st)
    by (subst s1; rewrite stage_MatmulQK_gmem; reflexivity).
  destruct (stage_GradV_workspace cfg p inp skip qs ks
              (isFirstQuery p qs ks) (isLastQuery cfg p qs ks) s1)
    as (Vk & Vq & Vv).
  destruct (stage_MatmulDOIVJ_workspace cfg p inp skip qs ks s2)
    as (Dk & Dv & Dq).
  destruct (stage_GradQ_workspace cfg p inp skip qs ks s3 HI)
    as (Qk & Qv & Qq).
  destruct (stage_GradK_workspace cfg p inp skip qs ks
              (isFirstQuery p qs ks) (isLastQuery cfg p qs ks) s4)
    as (Kv & Kq & Kk).
  fold s2 in Vk, Vq, Vv. fold s3 in Dk, Dv, Dq. fold s4 in Qk, Qv, Qq.
  split; [|split].
  - intros H. rewrite Kk by (left; exact H).
    rewrite Qk, Dk, Vk, H1. reflexivity.
  - intros H. rewrite Kv, Qv, Dv, Vv by (left; exact H).
    rewrite H1. reflexivity.
  - intros H. rewrite Kq, Qq by exact H. rewrite Dq, Vq, H1. reflexivity.
Qed.

End FootprintBlock.

(** X9.  The delta tensor is written only at the rows of the queries, and
    not at all by a kernel variant that does not compute delta. *)
Theorem delta_written_only_at_query_rows `{AR : Arith} `{EN : !Engine}
  (cfg : KernelConfig) (p : Params) (inp : Inputs) (st : KernelState)
  (r : Z) :
  0 < kBlockSizeI cfg -> 0 < kBlockSizeJ cfg ->
  kKernelComputesDelta cfg = false \/ r < 0 \/ num_queries p <= r ->
  delta (gmem (attention_kernel cfg p inp st)) !! r = delta (gmem st) !! r.
Proof.
  intros HI HJ Hr.
  apply (attention_kernel_keeps cfg p inp
           (fun s => delta (gmem s) !! r = delta (gmem st) !! r));
    try assumption; [|reflexivity].
  intros c s Hin Hs.
  pose proof (kernel_calls_In cfg p c HI HJ Hin) as Hc.
  destruct c as [e q| |skip q k|skip k|skip k]; simpl.
  - destruct Hc as [Hk Hq]. apply (tile_starts_In _ _ _ HI) in Hq.
    destruct Hr as [Hr|Hr]; [congruence|].
    rewrite computeDelta_mem_outside; try assumption; try lia.
    apply kNumThreadsPerLine_nonneg; assumption.
  - exact Hs.
  - rewrite processBlockIJ_delta. exact Hs.
  - exact Hs.
  - exact Hs.
Qed.

(** X7.  A workspace plane for which the sizing functions reserve nothing
    because of the kernel variant (key and value gradients kept in
    registers or stored as floats) or because there is a single key tile
    (query gradient) is never written by the kernel. *)
Theorem unreserved_workspace_untouched `{AR : Arith} `{EN : !Engine}
  (cfg : KernelConfig) (p : Params) (inp : Inputs) (st : KernelState) :
  0 < kBlockSizeI cfg -> 0 < kBlockSizeJ cfg ->
  let final := gmem (attention_kernel cfg p inp st) in
  (kNeedsAccumGradK cfg = false ->
   workspace_elements_gk cfg p = 0
   /\ workspace_gk final = workspace_gk (gmem st))
  /\ (kNeedsAccumGradV cfg = false ->
      workspace_elements_gv cfg p = 0
      /\ workspace_gv final = workspace_gv (gmem st))
  /\ (kNeedsAccumGradQ cfg = false \/ num_keys p <= kBlockSizeJ cfg ->
      workspace_elements_gq cfg p = 0
      /\ workspace_gq final = workspace_gq (gmem st)).
Proof.
  intros HI HJ final. subst final. split; [|split].
  - intros H. split.
    + unfold workspace_elements_gk. rewrite H. reflexivity.
    + apply (attention_kernel_keeps cfg p inp
               (fun s => workspace_gk (gmem s) = workspace_gk (gmem st)));
        try assumption; [|reflexivity].
      intros c s Hin Hs. destruct c; simpl; try exact Hs.
      rewrite (proj1 (processBlockIJ_workspace cfg p inp _ _ _ _
                        ltac:(lia))) by exact H.
      exact Hs.
  - intros H. split.
    + unfold workspace_elements_gv. rewrite H. reflexivity.
    + apply (attention_kernel_keeps cfg p inp
               (fun s => workspace_gv (gmem s) = workspace_gv (gmem st)));
        try assumption; [|reflexivity].
      intros c s Hin Hs. destruct c; simpl; try exact Hs.
      rewrite (proj1 (proj2 (processBlockIJ_workspace cfg p inp _ _ _ _
                               ltac:(lia)))) by exact H.
      exact Hs.
  - intros H. split.
    + unfold workspace_elements_gq.
      destruct H as [-> | H]; [reflexivity|].
      destruct (negb (kNeedsAccumGradQ cfg)); [reflexivity|].
      replace (num_keys p <=? kBlockSizeJ cfg) with true
        by (symmetry; apply Z.leb_le; exact H).
      reflexivity.
    + apply (attention_kernel_keeps cfg p inp
               (fun s => workspace_gq (gmem s) = workspace_gq (gmem st)));
        try assumption; [|reflexivity].
      intros c s Hin Hs.
      pose proof (kernel_calls_In cfg p c HI HJ Hin) as Hc.
      destruct c as [e q| |skip q k|skip k|skip k]; simpl; try exact Hs.
      destruct Hc as (_ & Hk & _).
      rewrite (proj2 (proj2 (processBlockIJ_workspace cfg p inp _ _ _ _
                               ltac:(lia)))); [exact Hs|].
      destruct H as [H|H]; [left; exact H | right; lia].
Qed.

(** ** Where the gradients are written *)

Section GradWrites.

Context `{AR : Arith} `{EN : !Engine}.
Variable cfg : KernelConfig.
Variable p : Params.
Variable inp : Inputs.

Lemma stage_GradV_grads (skip : bool) (qs ks : Z) (f l : bool)
  (st : KernelState) :
  let st' := stage_GradV cfg skip p inp qs ks f l st in
  grad_query (gmem st') = grad_query (gmem st)
  /\ grad_key (gmem st') = grad_key (gmem st)
  /\ (kOutputInRF cfg = true \/ (kNeedsAccumGradV cfg = true /\ l = false) ->
      grad_value (gmem st') = grad_value (gmem st)).
Proof.
  cbv zeta. unfold stage_GradV. cbv zeta. split; [|split].
  - frame_loop (fun s : KernelState => grad_query (gmem s)) st.
  - frame_loop (fun s : KernelState => grad_key (gmem s)) st.
  - intros [H | [H ->]].
    + frame_loop_with ltac:(rewrite H; cbn [negb])
        (fun s : KernelState => grad_value (gmem s)) st.
    + frame_loop_with ltac:(rewrite H; cbn [negb andb])
        (fun s : KernelState => grad_value (gmem s)) st.
Qed.

Lemma stage_GradK_grads (skip : bool) (qs ks : Z) (f l : bool)
  (st : KernelState) :
  let st' := stage_GradK cfg skip p inp qs ks f l st in
  grad_query (gmem st') = grad_query (gmem st)
  /\ grad_value (gmem st') = grad_value (gmem st)
  /\ (kOutputInRF cfg = true \/ (kNeedsAccumGradK cfg = true /\ l = false) ->
      grad_key (gmem st') = grad_key (gmem st)).
Proof.
  cbv zeta. unfold stage_GradK. cbv zeta. split; [|split].
  - frame_loop (fun s : KernelState => grad_query (gmem s)) st.
  - frame_loop (fun s : KernelState => grad_value (gmem s)) st.
  - intros [H | [H ->]].
    + frame_loop_with ltac:(rewrite H; cbn [negb])
        (fun s : KernelState => grad_key (gmem s)) st.
    + frame_loop_with ltac:(rewrite H; cbn [negb andb])
        (fun s : KernelState => grad_key (gmem s)) st.
Qed.

Lemma stage_GradQ_grads (skip : bool) (qs ks : Z) (st : KernelState) :
  0 <= kBlockSizeI cfg ->
  let st' := stage_GradQ cfg skip p inp qs ks st in
  grad_key (gmem st') = grad_key (gmem st)
  /\ grad_value (gmem st') = grad_value (gmem st)
  /\ (kNeedsAccumGradQ cfg = true -> 0 <= qs ->
      ks + kBlockSizeJ cfg < num_keys p ->
      grad_query (gmem st') = grad_query (gmem st)).
Proof.
  intros HI. cbv zeta. unfold stage_GradQ. cbv zeta. split; [|split].
  - frame_loop (fun s : KernelState => grad_key (gmem s)) st.
  - frame_loop (fun s : KernelState => grad_value (gmem s)) st.
  - intros H Hq Hk.
    assert (Hc : kNeedsAccumGradQ cfg
                 && negb ((0 >? qs) || (ks + kBlockSizeJ cfg >=? num_keys p))
                 = true).
    { rewrite H.
      replace (0 >? qs) with false
        by (symmetry; rewrite Z.gtb_ltb; apply Z.ltb_ge; lia).
      replace (ks + kBlockSizeJ cfg >=? num_keys p) with false
        by (symmetry; rewrite Z.geb_leb; apply Z.leb_gt; lia).
      reflexivity. }
    frame_loop_with
      ltac:(rewrite (incrIteration_end cfg p ks HI); cbv beta iota;
            rewrite Hc)
      (fun s : KernelState => grad_query (gmem s)) st.
Qed.

Lemma stage_MatmulDOIVJ_grads (skip : bool) (qs ks : Z)
  (st : KernelState) :
  let st' := stage_MatmulDOIVJ cfg skip p inp qs ks st in
  grad_query (gmem st') = grad_query (gmem st)
  /\ grad_key (gmem st') = grad_key (gmem st)
  /\ grad_value (gmem st') = grad_value (gmem st).
Proof.
  cbv zeta. unfold stage_MatmulDOIVJ. cbv zeta.
  repeat split; break_ifs; reflexivity.
Qed.

End GradWrites.

(** X11.  In a kernel variant that accumulates the query gradient in the
    workspace, an iteration writes the GradQuery tensor only while the
    last key tile is processed; on every earlier key tile it leaves
    GradQuery as it is. *)
Theorem grad_query_written_on_last_key_tile `{AR : Arith} `{EN : !Engine}
  (cfg : KernelConfig) (p : Params) (inp : Inputs) (skip : bool)
  (query_start key_start : Z) (st : KernelState) :
  0 <= kBlockSizeI cfg ->
  kNeedsAccumGradQ cfg = true -> 0 <= query_start ->
  key_start + kBlockSizeJ cfg < num_keys p ->
  grad_query (gmem (processBlockIJ cfg skip p inp query_start key_start st))
  = grad_query (gmem st).
Proof.
  intros HI HQ Hq Hk. unfold processBlockIJ, processBlockIJ_front.
  cbv zeta.
  rewrite (proj1 (stage_GradK_grads cfg p inp _ _ _ _ _ _)).
  rewrite (proj2 (proj2 (stage_GradQ_grads cfg p inp _ _ _ _ HI)))
    by assumption.
  rewrite (proj1 (stage_MatmulDOIVJ_grads cfg p inp _ _ _ _)).
  rewrite (proj1 (stage_GradV_grads cfg p inp _ _ _ _ _ _)).
  rewrite stage_MatmulQK_gmem. reflexivity.
Qed.

(** X12.  An iteration writes the GradKey and GradValue tensors neither in a
    kernel variant that keeps these gradients in registers (they are
    written by [writeFragsToGmem]), nor, in a variant that accumulates
    them in the workspace, on any query tile but the last of the key
    tile. *)
Theorem grad_key_value_written_on_last_query_tile `{AR : Arith}
  `{EN : !Engine} (cfg : KernelConfig) (p : Params) (inp : Inputs)
  (skip : bool) (query_start key_start : Z) (st : KernelState) :
  0 <= kBlockSizeI cfg -> 0 < kBlockSizeJ cfg ->
  kOutputInRF cfg = true
  \/ (kNeedsAccumGradK cfg = true
      /\ query_start + kBlockSizeI cfg < num_queries p) ->
  let st' := processBlockIJ cfg skip p inp query_start key_start st in
  grad_key (gmem st') = grad_key (gmem st)
  /\ grad_value (gmem st') = grad_value (gmem st).
Proof.
  intros HI HJ H. cbv zeta.
  assert (Hl : kOutputInRF cfg = true
               \/ (kNeedsAccumGradK cfg = true
                   /\ isLastQuery cfg p query_start key_start = false)).
  { destruct H as [H | [H Hq]]; [left; exact H | right].
    split; [exact H|]. rewrite isLastQuery_spec by assumption.
    rewrite Z.geb_leb. apply Z.leb_gt. exact Hq. }
  unfold processBlockIJ, processBlockIJ_front. cbv zeta. split.
  - rewrite (proj2 (proj2 (stage_GradK_grads cfg p inp _ _ _ _ _ _)))
      by exact Hl.
    rewrite (proj1 (stage_GradQ_grads cfg p inp _ _ _ _ HI)).
    rewrite (proj1 (proj2 (stage_MatmulDOIVJ_grads cfg p inp _ _ _ _))).
    rewrite (proj1 (proj2 (stage_GradV_grads cfg p inp _ _ _ _ _ _))).
    rewrite stage_MatmulQK_gmem. reflexivity.
  - rewrite (proj1 (proj2 (stage_GradK_grads cfg p inp _ _ _ _ _ _))).
    rewrite (proj1 (proj2 (stage_GradQ_grads cfg p inp _ _ _ _ HI))).
    rewrite (proj2 (proj2 (stage_MatmulDOIVJ_grads cfg p inp _ _ _ _))).
    rewrite (proj2 (proj2 (stage_GradV_grads cfg p inp _ _ _ _ _ _)))
      by exact Hl.
    rewrite stage_MatmulQK_gmem. reflexivity.
Qed.

(** ** Registers at launch *)

Lemma key_tiles_head `{AR : Arith} (cfg : KernelConfig) (p : Params) :
  let key_end := cdiv (num_keys p) (kBlockSizeJ cfg) * kBlockSizeJ cfg in
  let key_start :=
    Z.of_nat (iter_count 0 key_end (kBlockSizeJ cfg)) * kBlockSizeJ cfg in
  let tiles :=
    flat_map (key_tile_calls cfg p true)
      (tile_starts key_end (kBlockSizeJ cfg))
    ++ (if negb (key_start =? num_keys p)
        then key_tile_calls cfg p false key_start else []) in
  tiles = [] \/ exists l, tiles = CallClear :: l.
Proof.
  cbv zeta.
  destruct (tile_starts _ (kBlockSizeJ cfg)) as [|k ks].
  - simpl. destruct (negb _); [right|left; reflexivity].
    unfold key_tile_calls. cbv zeta. simpl. eauto.
  - right. cbn [flat_map]. unfold key_tile_calls at 1. cbv zeta. simpl.
    eauto.
Qed.

(** X8.  The output register fragments are not initialised at launch, and
    what they hold then never reaches memory: two executions that differ
    only in these registers leave the same global and shared memory. *)
Theorem registers_at_launch_do_not_matter `{AR : Arith} `{EN : !Engine}
  (cfg : KernelConfig) (p : Params) (inp : Inputs) (st : KernelState)
  (frags : OutputFragments) :
  0 < kBlockSizeI cfg -> 0 < kBlockSizeJ cfg ->
  let st' :=
    Build_KernelState (shared_storage st) frags (gmem st) in
  gmem (attention_kernel cfg p inp st') = gmem (attention_kernel cfg p inp st)
  /\ shared_storage (attention_kernel cfg p inp st')
     = shared_storage (attention_kernel cfg p inp st).
Proof.
  intros HI HJ st'.
  rewrite !attention_kernel_calls_run by assumption.
  unfold kernel_calls. cbv zeta. unfold run_calls.
  rewrite !(fold_left_app _ (delta_calls cfg p)).
  set (h := kernel_handlers cfg p inp).
  set (R := fun s1 s2 : KernelState =>
              gmem s1 = gmem s2 /\ shared_storage s1 = shared_storage s2).
  assert (Hdelta :
    R (fold_left (fun s c => run_call h c s) (delta_calls cfg p) st')
      (fold_left (fun s c => run_call h c s) (delta_calls cfg p) st)).
  { assert (Hall : forall c, In c (delta_calls cfg p) ->
                             exists e q, c = CallComputeDelta e q).
    { intros c Hc. unfold delta_calls in Hc.
      destruct (kKernelComputesDelta cfg); [|contradiction].
      cbv zeta in Hc. apply in_map_iff in Hc.
      destruct Hc as (q & <- & _). eauto. }
    assert (Hst : R st' st) by (split; reflexivity).
    revert Hall Hst. generalize st' st.
    induction (delta_calls cfg p) as [|c l IH]; intros s1 s2 Hall Hs;
      simpl; [exact Hs|].
    apply IH; [intros c' Hc'; apply Hall; right; exact Hc'|].
    destruct (Hall c ltac:(left; reflexivity)) as (e & q & ->).
    destruct Hs as [Hg Hsh]. simpl. unfold computeDelta, with_gmem.
    simpl. rewrite Hg, Hsh. split; reflexivity. }
  destruct Hdelta as [Hg Hsh].
  destruct (key_tiles_head cfg p) as [-> | (l & ->)]; simpl.
  - split; assumption.
  - unfold clear_output_frags, with_frags. rewrite Hg, Hsh.
    split; reflexivity.
Qed.

(** ** The footprint of the boundary zero-fill *)

Lemma cmod_mod (a b : Z) : 0 <= a -> 0 < b -> cmod a b = a mod b.
Proof. intros. unfold cmod. apply Z.rem_mod_nonneg; lia. Qed.

Section ZeroFillFootprint.

Context `{AR : Arith}.
Variable cfg : KernelConfig.
Variable p : Params.

Hypothesis Hwarps : 1 <= kNumWarpsPerBlock cfg.
Hypothesis HJ : 0 < kBlockSizeJ cfg.
(* static_assert(kBlockSizeJ % kParallelKeys == 0, "") *)
Hypothesis Hassert : cmod (kBlockSizeJ cfg) (kParallelKeys cfg) = 0.

Lemma zero_loop_outside (base start stop a : Z) (m : gmap Z scalar_t) :
  0 <= start ->
  (forall k, 0 <= k < stop -> a <> base + k) ->
  snd (for_loop start stop kThreadsPerKey
         (fun k m => <[base + k := s_zero]> m) m) !! a = m !! a.
Proof.
  intros Hs Ha.
  apply (for_loop_invariant_in _
           (fun m' : gmap Z scalar_t => m' !! a = m !! a));
    [unfold kThreadsPerKey; lia | reflexivity |].
  intros k m' Hk _ Hm'. rewrite lookup_insert_ne; [exact Hm'|].
  intros Heq. apply (Ha k); [lia | symmetry; exact Heq].
Qed.

Lemma zfill_thread_outside (skip : bool) (key_start t : Z)
  (g : gmap Z scalar_t * gmap Z scalar_t) (a : Z) :
  0 <= t < kNumThreads cfg ->
  let g' := zfillGradKV_thread cfg skip p key_start (warp_of t) (lane_of t) g in
  ((forall key k,
      key_start <= key < key_start + kBlockSizeJ cfg ->
      skip = true \/ key < num_keys p ->
      0 <= k < head_dim_value p -> a <> key * gV_strideM p + k) ->
   fst g' !! a = fst g !! a)
  /\ ((forall key k,
         key_start <= key < key_start + kBlockSizeJ cfg ->
         skip = true \/ key < num_keys p ->
         0 <= k < head_dim p -> a <> key * gK_strideM p + k) ->
      snd g' !! a = snd g !! a).
Proof.
  intros Ht. cbv zeta. unfold zfillGradKV_thread. cbv zeta.
  pose proof (kParallelKeys_eq cfg Hwarps) as HP.
  assert (HPpos : 0 < kParallelKeys cfg) by lia.
  rewrite cmod_mod in Hassert by lia.
  assert (Hid : 32 * warp_of t + lane_of t = t).
  { unfold warp_of, lane_of, cdiv, cmod.
    pose proof (Z.quot_rem' t 32). lia. }
  rewrite Hid.
  assert (Hshift : 0 <= cmod (lane_of t) kThreadsPerKey).
  { unfold lane_of, cmod, kThreadsPerKey.
    apply Z.rem_nonneg; [lia|]. apply Z.rem_nonneg; lia. }
  assert (Hrow : 0 <= cdiv t kThreadsPerKey < kParallelKeys cfg).
  { unfold kThreadsPerKey. rewrite cdiv_nonneg by lia.
    unfold kNumThreads, kWarpSize in Ht. rewrite HP.
    split; [apply Z.div_pos; lia|].
    apply Z.div_lt_upper_bound; lia. }
  assert (Hkey : forall j, 0 <= j < kBlockSizeJ cfg ->
                           (j - 0) mod kParallelKeys cfg = 0 ->
                           j + kParallelKeys cfg <= kBlockSizeJ cfg).
  { intros j Hj Hm. rewrite Z.sub_0_r in Hm.
    pose proof (Z.div_mod j (kParallelKeys cfg) ltac:(lia)) as Hdj.
    pose proof (Z.div_mod (kBlockSizeJ cfg) (kParallelKeys cfg) ltac:(lia))
      as HdJ.
    rewrite Hm in Hdj. rewrite Hassert in HdJ.
    assert (j / kParallelKeys cfg < kBlockSizeJ cfg / kParallelKeys cfg)
      by nia.
    nia. }
  split; intros Ha.
  - apply (for_loop_invariant_in _
             (fun g' : gmap Z scalar_t * gmap Z scalar_t =>
                fst g' !! a = fst g !! a)); [lia | reflexivity |].
    intros j g' Hj Hm Hg'.
    destruct (negb skip && _) eqn:Eb; [exact Hg'|].
    simpl fst. rewrite zero_loop_outside; [exact Hg' | exact Hshift |].
    intros k Hk. apply Ha; [specialize (Hkey j Hj Hm); lia | | exact Hk].
    destruct skip; [left; reflexivity | right].
    simpl in Eb. rewrite Z.geb_leb in Eb. apply Z.leb_gt in Eb. exact Eb.
  - apply (for_loop_invariant_in _
             (fun g' : gmap Z scalar_t * gmap Z scalar_t =>
                snd g' !! a = snd g !! a)); [lia | reflexivity |].
    intros j g' Hj Hm Hg'.
    destruct (negb skip && _) eqn:Eb; [exact Hg'|].
    simpl snd. rewrite zero_loop_outside; [exact Hg' | exact Hshift |].
    intros k Hk. apply Ha; [specialize (Hkey j Hj Hm); lia | | exact Hk].
    destruct skip; [left; reflexivity | right].
    simpl in Eb. rewrite Z.geb_leb in Eb. apply Z.leb_gt in Eb. exact Eb.
Qed.

End ZeroFillFootprint.

(** X13.  The boundary zero-fill writes only inside its key tile: a cell of
    GradValue or GradKey that is not a feature element of a row of the
    tile (a row below [num_keys] when the bounds are checked) is left as
    it is, and no other tensor is touched. *)
Theorem zfillGradKV_stays_in_tile `{AR : Arith} (cfg : KernelConfig)
  (p : Params) (skip : bool) (key_start : Z) (st : KernelState) (a : Z) :
  1 <= kNumWarpsPerBlock cfg -> 0 < kBlockSizeJ cfg ->
  cmod (kBlockSizeJ cfg) (kParallelKeys cfg) = 0 ->
  let st' := zfillGradKV cfg skip p key_start st in
  ((forall key k,
      key_start <= key < key_start + kBlockSizeJ cfg ->
      skip = true \/ key < num_keys p ->
      0 <= k < head_dim_value p -> a <> key * gV_strideM p + k) ->
   grad_value (gmem st') !! a = grad_value (gmem st) !! a)
  /\ ((forall key k,
         key_start <= key < key_start + kBlockSizeJ cfg ->
         skip = true \/ key < num_keys p ->
         0 <= k < head_dim p -> a <> key * gK_strideM p + k) ->
      grad_key (gmem st') !! a = grad_key (gmem st) !! a)
  /\ grad_query (gmem st') = grad_query (gmem st)
  /\ delta (gmem st') = delta (gmem st)
  /\ shared_storage st' = shared_storage st.
Proof.
  intros Hw HJ Hassert. cbv zeta. unfold zfillGradKV. cbv zeta. simpl.
  unfold zfillGradKV_mem.
  split; [|split; [|repeat split]].
  - intros Ha.
    apply (fold_left_keep_in _
             (fun g : gmap Z scalar_t * gmap Z scalar_t =>
                fst g !! a = grad_value (gmem st) !! a)); [|reflexivity].
    intros g t Hin Hg. rewrite <- Hg.
    apply (zfill_thread_outside cfg p Hw HJ Hassert); [|exact Ha].
    unfold thread_ids in Hin. apply in_map_iff in Hin.
    destruct Hin as (n & <- & Hn). apply in_seq in Hn. lia.
  - intros Ha.
    apply (fold_left_keep_in _
             (fun g : gmap Z scalar_t * gmap Z scalar_t =>
                snd g !! a = grad_key (gmem st) !! a)); [|reflexivity].
    intros g t Hin Hg. rewrite <- Hg.
    apply (zfill_thread_outside cfg p Hw HJ Hassert); [|exact Ha].
    unfold thread_ids in Hin. apply in_map_iff in Hin.
    destruct Hin as (n & <- & Hn). apply in_seq in Hn. lia.
Qed.

(** ** incrIteration and the schedule *)

Lemma visited_kernel_calls `{AR : Arith} (cfg : KernelConfig) (p : Params) :
  0 < kBlockSizeI cfg -> 0 < kBlockSizeJ cfg -> 0 <= num_keys p ->
  visited (kernel_calls cfg p)
  = nested_tiles (num_keys p) (num_queries p)
      (kBlockSizeJ cfg) (kBlockSizeI cfg).
Proof.
  intros HI HJ Hnk. unfold kernel_calls, nested_tiles. cbv zeta.
  rewrite !visited_app, visited_delta_calls, visited_flat_map by assumption.
  simpl app.
  rewrite <- (tile_starts_split (num_keys p) (kBlockSizeJ cfg) HJ).
  cbv zeta. rewrite flat_map_app. f_equal.
  set (x := Z.of_nat (iter_count 0 _ _) * kBlockSizeJ cfg).
  assert (Hx : x = cdiv (num_keys p) (kBlockSizeJ cfg) * kBlockSizeJ cfg).
  { subst x. rewrite iter_count_multiple by assumption.
    destruct (cdiv_mul_bounds (num_keys p) (kBlockSizeJ cfg) HJ Hnk). lia. }
  destruct (cdiv_mul_bounds (num_keys p) (kBlockSizeJ cfg) HJ Hnk) as [Hb _].
  destruct (x =? num_keys p) eqn:E1; destruct (x <? num_keys p) eqn:E2;
    cbn [negb flat_map].
  - apply Z.eqb_eq in E1. apply Z.ltb_lt in E2. lia.
  - reflexivity.
  - rewrite visited_key_tile, app_nil_r by assumption. reflexivity.
  - apply Z.eqb_neq in E1. apply Z.ltb_ge in E2. lia.
Qed.

Lemma iterate_incrIteration_length `{AR : Arith} (cfg : KernelConfig)
  (p : Params) (n : nat) :
  forall q k, length (iterate_incrIteration cfg p n q k) = n.
Proof.
  induction n as [|n IH]; intros q k; simpl; [reflexivity|].
  destruct (incrIteration cfg p q k) as [q' k']. rewrite IH. reflexivity.
Qed.

Lemma iter_count_bounds (len t : Z) :
  0 < t -> 0 < len ->
  (Z.of_nat (iter_count 0 len t) - 1) * t < len
  <= Z.of_nat (iter_count 0 len t) * t.
Proof.
  intros Ht Hlen. unfold iter_count.
  pose proof (Z.div_mod (len - 0 + t - 1) t ltac:(lia)) as Hdm.
  pose proof (Z.mod_pos_bound (len - 0 + t - 1) t Ht) as Hm.
  assert (0 <= (len - 0 + t - 1) / t) by (apply Z.div_pos; lia).
  rewrite Z2Nat.id by assumption. nia.
Qed.

Section Successor.

Context `{AR : Arith}.
Variable cfg : KernelConfig.
Variable p : Params.
Hypothesis HI : 0 < kBlockSizeI cfg.
Hypothesis Hnq : 0 < num_queries p.

Let a := iter_count 0 (num_queries p) (kBlockSizeI cfg).

(** The query tiles of a key tile from tile [j] on, followed by the tiles
    that start at the next key tile. *)
Lemma key_tile_chain (k : Z) (n : nat) :
  forall (d j : nat),
    (j + d + 1 = a)%nat ->
    map (fun q => (k, q))
      (map (fun i => Z.of_nat i * kBlockSizeI cfg) (seq j (Datatypes.S d)))
    ++ iterate_incrIteration cfg p n 0 (k + kBlockSizeJ cfg)
    = iterate_incrIteration cfg p (Datatypes.S d + n)
        (Z.of_nat j * kBlockSizeI cfg) k.
Proof.
  pose proof (iter_count_bounds (num_queries p) (kBlockSizeI cfg) HI Hnq)
    as Hb. fold a in Hb.
  induction d as [|d IH]; intros j Hj.
  - simpl. f_equal. unfold incrIteration, getQueryStart. cbv zeta.
    replace (Z.of_nat j * kBlockSizeI cfg + kBlockSizeI cfg
             >=? num_queries p) with true; [reflexivity|].
    symmetry. rewrite Z.geb_leb. apply Z.leb_le. nia.
  - change (seq j (Datatypes.S (Datatypes.S d)))
      with (j :: seq (Datatypes.S j) (Datatypes.S d)).
    cbn [map app]. rewrite (IH (Datatypes.S j)) by lia.
    cbn [iterate_incrIteration Nat.add]. f_equal.
    unfold incrIteration at 2. unfold getQueryStart. cbv zeta.
    replace (Z.of_nat j * kBlockSizeI cfg + kBlockSizeI cfg
             >=? num_queries p) with false.
    + replace (Z.of_nat (Datatypes.S j) * kBlockSizeI cfg)
        with (Z.of_nat j * kBlockSizeI cfg + kBlockSizeI cfg) by lia.
      reflexivity.
    + symmetry. rewrite Z.geb_leb. apply Z.leb_gt. nia.
Qed.

Lemma key_tiles_chain :
  forall (c i : nat),
    flat_map
      (fun k => map (fun q => (k, q))
                    (tile_starts (num_queries p) (kBlockSizeI cfg)))
      (map (fun m => Z.of_nat m * kBlockSizeJ cfg) (seq i c))
    = iterate_incrIteration cfg p (c * a)
        0 (Z.of_nat i * kBlockSizeJ cfg).
Proof.
  pose proof (iter_count_bounds (num_queries p) (kBlockSizeI cfg) HI Hnq)
    as Hb. fold a in Hb.
  assert (Ha : (1 <= a)%nat) by nia.
  induction c as [|c IH]; intros i; [reflexivity|].
  cbn [seq map flat_map]. rewrite (IH (Datatypes.S i)).
  replace (Z.of_nat (Datatypes.S i) * kBlockSizeJ cfg)
    with (Z.of_nat i * kBlockSizeJ cfg + kBlockSizeJ cfg) by lia.
  unfold tile_starts. fold a.
  destruct a as [|a'] eqn:Ea; [lia|].
  rewrite (key_tile_chain _ _ a' 0%nat) by lia.
  f_equal.
Qed.

End Successor.

(** X15.  [incrIteration] is the successor of the schedule: the tiles that
    the kernel hands to [processBlockIJ] are, in order, the tiles reached
    from the first one by advancing with [incrIteration]. *)
Theorem incrIteration_follows_schedule `{AR : Arith} (cfg : KernelConfig)
  (p : Params) :
  0 < kBlockSizeI cfg -> 0 < kBlockSizeJ cfg -> 0 <= num_keys p ->
  let tiles := visited (attention_kernel_calls cfg p) in
  tiles
  = iterate_incrIteration cfg p (length tiles) (getQueryStart p 0) 0.
Proof.
  intros HI HJ Hnk. cbv zeta.
  rewrite attention_kernel_calls_closed by assumption.
  rewrite visited_kernel_calls by assumption.
  unfold nested_tiles, getQueryStart.
  destruct (Z_le_gt_dec (num_queries p) 0) as [Hq|Hq].
  - rewrite (tile_starts_nonpos (num_queries p)) by assumption.
    assert (Hnil : forall l : list Z,
              flat_map (fun k => map (fun q => (k, q)) (@nil Z)) l = []).
    { induction l; simpl; auto. }
    rewrite Hnil. reflexivity.
  - unfold tile_starts at 2 4.
    rewrite (key_tiles_chain cfg p HI ltac:(lia)).
    rewrite iterate_incrIteration_length. reflexivity.
Qed.

(** ** advance_to_block: the workspace of a block *)

Lemma fits64_wrap (x : Z) : 0 <= x < 2 ^ 63 -> wrap64 x = x.
Proof.
  intros Hx. apply wrap64_fits. unfold fits.
  change (2 ^ (64 - 1)) with (2 ^ 63). lia.
Qed.

Lemma fits32_wrap (x : Z) : 0 <= x < 2 ^ 31 -> wrap32 x = x.
Proof.
  intros Hx. apply wrap32_fits. unfold fits.
  change (2 ^ (32 - 1)) with (2 ^ 31). lia.
Qed.

(** The sizes of the planes, of the slice of a block and of the whole
    workspace when nothing overflows. *)
Lemma workspace_layout `{AR : Arith} (cfg : KernelConfig) (p : Params) :
  workspace_in_range cfg p ->
  let gk := workspace_elements_gk cfg p in
  let gv := workspace_elements_gv cfg p in
  let gq := workspace_elements_gq cfg p in
  let stride := workspace_strideBH cfg p in
  0 <= gk /\ 0 <= gv /\ 0 <= gq
  /\ gk + gv + gq <= stride /\ stride mod 4 = 0
  /\ num_batches p * num_heads p * stride * 4 < 2 ^ 63
  /\ workspace_size cfg p = num_batches p * num_heads p * stride * 4.
Proof.
  intros (HI & HJ & Hnk & Hnq & Hhd & Hhdv & Hnb & Hnh & Fnk & Fnq & FhdI
          & FhdJ & FhdvI & Pgk & Pgv & Pgq & Pbh & Ptot).
  cbv zeta. unfold spec_workspace_size in Ptot.
  unfold workspace_size, workspace_strideBH, workspace_elements_gk,
    workspace_elements_gv, workspace_elements_gq.
  rewrite !(workspace_elements_exact cfg p) by assumption.
  pose proof (align_up_bounds (num_keys p) (kBlockSizeJ cfg) Hnk HJ).
  pose proof (align_up_bounds (head_dim p) (kBlockSizeI cfg) Hhd HI).
  pose proof (align_up_bounds (head_dim p) (kBlockSizeJ cfg) Hhd HJ).
  pose proof (align_up_bounds (head_dim_value p) (kBlockSizeI cfg) Hhdv HI).
  pose proof (align_up_bounds (num_queries p) (kBlockSizeI cfg) Hnq HI).
  set (Egk := if negb (kNeedsAccumGradK cfg) then 0 else _).
  set (Egv := if negb (kNeedsAccumGradV cfg) then 0 else _).
  set (Egq := if negb (kNeedsAccumGradQ cfg) then 0 else _).
  set (Sgk := if kNeedsAccumGradK cfg then _ else 0) in *.
  set (Sgv := if kNeedsAccumGradV cfg then _ else 0) in *.
  set (Sgq := if kNeedsAccumGradQ cfg && _ then _ else 0) in *.
  assert (Egk = Sgk) as -> by
    (subst Egk Sgk; destruct (kNeedsAccumGradK cfg); reflexivity).
  assert (Egv = Sgv) as -> by
    (subst Egv Sgv; destruct (kNeedsAccumGradV cfg); reflexivity).
  assert (Egq = Sgq) as ->.
  { subst Egq Sgq. destruct (kNeedsAccumGradQ cfg); simpl; [|reflexivity].
    destruct (num_keys p <=? kBlockSizeJ cfg) eqn:E1;
      destruct (kBlockSizeJ cfg <? num_keys p) eqn:E2; try reflexivity.
    - apply Z.leb_le in E1. apply Z.ltb_lt in E2. lia.
    - apply Z.leb_gt in E1. apply Z.ltb_ge in E2. lia. }
  change (2 ^ 31) with 2147483648 in *.
  change (2 ^ 63) with 9223372036854775808 in *.
  assert (0 <= Sgk < 2147483648)
    by (subst Sgk; destruct (kNeedsAccumGradK cfg); nia).
  assert (0 <= Sgv < 2147483648)
    by (subst Sgv; destruct (kNeedsAccumGradV cfg); nia).
  assert (0 <= Sgq < 2147483648)
    by (subst Sgq; destruct (kNeedsAccumGradQ cfg && _); nia).
  assert (F64 : forall x, 0 <= x < 9223372036854775808 -> wrap64 x = x)
    by (intros x Hx; apply fits64_wrap;
        change (2 ^ 63) with 9223372036854775808; lia).
  unfold add64. rewrite (F64 (Sgk + Sgv)) by lia.
  rewrite (F64 (Sgk + Sgv + Sgq)) by lia.
  rewrite align_up64_exact
    by (try lia; change (2 ^ 63) with 9223372036854775808; lia).
  pose proof (align_up_bounds (Sgk + Sgv + Sgq) 4 ltac:(lia) ltac:(lia)).
  unfold sizeof_float in *.
  set (A := align_up (Sgk + Sgv + Sgq) 4) in *.
  assert (HA4 : A mod 4 = 0).
  { subst A. unfold align_up. apply Z.mod_mul. lia. }
  assert (0 <= num_batches p * num_heads p * A) by nia.
  repeat split; try lia.
  unfold mul32. rewrite wrap32_fits
    by (unfold fits; change (2 ^ (32 - 1)) with 2147483648; nia).
  unfold mul64. rewrite (F64 (num_batches p * num_heads p * A)) by nia.
  rewrite Z.mod_small
    by (change (2 ^ 64) with 18446744073709551616; nia).
  apply F64. nia.
Qed.

Section Workspace.

Context `{AR : Arith}.
Variable cfg : KernelConfig.
Variable warp_uniform : Z -> Z.
Variable broadcast_1_advance broadcast_2_advance
  : Z -> Z -> Z -> Z -> Z -> Z -> Z -> Z.
Variable bp : Block.BlockParams.

Let p := Block.params bp.
Let advance :=
  Block.advance_to_block cfg warp_uniform broadcast_1_advance
    broadcast_2_advance bp.

Hypothesis Huniform : forall x, warp_uniform x = x.
Hypothesis Hrange : workspace_in_range cfg p.
Hypothesis Hneeds :
  kNeedsAccumGradQ cfg || kNeedsAccumGradK cfg || kNeedsAccumGradV cfg
  = true.
Hypothesis Hworkspace : Block.workspace bp <> 0.

(** Where the workspace pointers of block [(0, y, z)] end up. *)
Lemma advance_to_block_workspace_at (y z : Z) :
  in_grid (getBlocksGrid p) 0 y z ->
  exists bp',
    advance y z = Some (true, bp')
    /\ Block.workspace bp'
       = Block.workspace bp
         + 4 * ((z * num_heads p + y) * workspace_strideBH cfg p)
    /\ Block.workspace_gv bp'
       = Block.workspace bp' + 4 * workspace_elements_gk cfg p
    /\ Block.workspace_gq bp'
       = Block.workspace_gv bp' + 4 * workspace_elements_gv cfg p.
Proof.
  intros (_ & Hy & Hz).
  pose proof (workspace_layout cfg p Hrange) as Hl. cbv zeta in Hl.
  destruct Hl as (Hgk & Hgv & Hgq & Hsum & Hal & Htot & Hsize).
  destruct Hrange as (_ & _ & _ & _ & _ & _ & Hnb & Hnh & _ & _ & _ & _ & _
                      & _ & _ & _ & Pbh & _).
  subst advance. unfold Block.advance_to_block. cbv zeta. fold p.
  rewrite Hneeds.
  replace (Block.workspace bp =? 0) with false
    by (symmetry; apply Z.eqb_neq; exact Hworkspace).
  rewrite orb_true_r. simpl negb. simpl andb. cbv iota.
  eexists. split; [reflexivity|]. simpl.
  rewrite Huniform. unfold Block.ptr_add, sizeof_float.
  split; [|split; reflexivity].
  f_equal. f_equal.
  assert (Hidx : 0 <= z * num_heads p + y < num_batches p * num_heads p)
    by nia.
  change (2 ^ 31) with 2147483648 in *.
  change (2 ^ 63) with 9223372036854775808 in *.
  assert (Hs : 0 <= workspace_strideBH cfg p) by lia.
  unfold mul64, add64.
  rewrite (fits64_wrap (z * num_heads p))
    by (change (2 ^ 63) with 9223372036854775808; nia).
  rewrite (fits64_wrap (z * num_heads p + y))
    by (change (2 ^ 63) with 9223372036854775808; nia).
  apply fits64_wrap. change (2 ^ 63) with 9223372036854775808. nia.
Qed.

End Workspace.

(** X3.  With a workspace of [workspace_size()] bytes at [workspace], every
    block of the grid passes the assertion of [advance_to_block] and gets
    its three planes one after the other, in the order gk, gv, gq, inside
    a slice of the allocation: nothing before [workspace], nothing past
    [workspace + workspace_size()]. *)
Theorem advance_to_block_workspace_in_bounds `{AR : Arith}
  (cfg : KernelConfig) (warp_uniform : Z -> Z)
  (broadcast_1_advance broadcast_2_advance
     : Z -> Z -> Z -> Z -> Z -> Z -> Z -> Z)
  (bp : Block.BlockParams) (y z : Z) :
  (forall x, warp_uniform x = x) ->
  workspace_in_range cfg (Block.params bp) ->
  kNeedsAccumGradQ cfg || kNeedsAccumGradK cfg || kNeedsAccumGradV cfg
  = true ->
  Block.workspace bp <> 0 ->
  in_grid (getBlocksGrid (Block.params bp)) 0 y z ->
  let p := Block.params bp in
  exists bp',
    Block.advance_to_block cfg warp_uniform broadcast_1_advance
      broadcast_2_advance bp y z = Some (true, bp')
    /\ Block.workspace bp <= Block.workspace bp'
    /\ Block.workspace_gv bp'
       = Block.workspace bp' + 4 * workspace_elements_gk cfg p
    /\ Block.workspace_gq bp'
       = Block.workspace_gv bp' + 4 * workspace_elements_gv cfg p
    /\ Block.workspace bp' <= Block.workspace_gv bp'
       <= Block.workspace_gq bp'
    /\ Block.workspace_gq bp' + 4 * workspace_elements_gq cfg p
       <= Block.workspace bp + workspace_size cfg p.
Proof.
  intros Hu Hrange Hneeds Hws Hgrid p.
  destruct (advance_to_block_workspace_at cfg warp_uniform
              broadcast_1_advance broadcast_2_advance bp Hu Hrange Hneeds
              Hws y z Hgrid) as (bp' & Hadv & Hw & Hwv & Hwq).
  exists bp'. split; [exact Hadv|].
  pose proof (workspace_layout cfg p Hrange) as Hl. cbv zeta in Hl.
  destruct Hl as (Hgk & Hgv & Hgq & Hsum & Hal & Htot & Hsize).
  destruct Hgrid as (_ & Hy & Hz). fold p in Hw, Hwv, Hwq, Hy, Hz.
  set (S := workspace_strideBH cfg p) in *.
  assert (HS : 0 <= S) by lia.
  assert (Hidx : 0 <= z * num_heads p + y
                 /\ z * num_heads p + y + 1 <= num_batches p * num_heads p)
    by nia.
  assert (Hlo : 0 <= (z * num_heads p + y) * S) by nia.
  assert (Hhi : (z * num_heads p + y) * S + S
                <= num_batches p * num_heads p * S) by nia.
  repeat split; try assumption; lia.
Qed.

(** X4.  When the caller passes a non-null workspace, the kernel variant
    uses a workspace (some kNeedsAccum flag is set) and the 32-bit and
    64-bit sums and products of the sizing functions do not overflow
    ([workspace_in_range]), the workspace slices of two different blocks
    of the grid, each of [workspace_strideBH()] floats, do not overlap. *)
Theorem advance_to_block_workspace_disjoint `{AR : Arith}
  (cfg : KernelConfig) (warp_uniform : Z -> Z)
  (broadcast_1_advance broadcast_2_advance
     : Z -> Z -> Z -> Z -> Z -> Z -> Z -> Z)
  (bp bp1 bp2 : Block.BlockParams) (y1 z1 y2 z2 : Z) :
  (forall x, warp_uniform x = x) ->
  workspace_in_range cfg (Block.params bp) ->
  in_grid (getBlocksGrid (Block.params bp)) 0 y1 z1 ->
  in_grid (getBlocksGrid (Block.params bp)) 0 y2 z2 ->
  (y1, z1) <> (y2, z2) ->
  Block.advance_to_block cfg warp_uniform broadcast_1_advance
    broadcast_2_advance bp y1 z1 = Some (true, bp1) ->
  Block.advance_to_block cfg warp_uniform broadcast_1_advance
    broadcast_2_advance bp y2 z2 = Some (true, bp2) ->
  kNeedsAccumGradQ cfg || kNeedsAccumGradK cfg || kNeedsAccumGradV cfg
  = true ->
  Block.workspace bp <> 0 ->
  let slice := 4 * workspace_strideBH cfg (Block.params bp) in
  Block.workspace bp1 + slice <= Block.workspace bp2
  \/ Block.workspace bp2 + slice <= Block.workspace bp1.
Proof.
  intros Hu Hrange Hg1 Hg2 Hne Ha1 Ha2 Hneeds Hws slice.
  destruct (advance_to_block_workspace_at cfg warp_uniform
              broadcast_1_advance broadcast_2_advance bp Hu Hrange Hneeds
              Hws y1 z1 Hg1) as (b1 & Hb1 & Hw1 & _).
  destruct (advance_to_block_workspace_at cfg warp_uniform
              broadcast_1_advance broadcast_2_advance bp Hu Hrange Hneeds
              Hws y2 z2 Hg2) as (b2 & Hb2 & Hw2 & _).
  rewrite Ha1 in Hb1. rewrite Ha2 in Hb2.
  inversion Hb1; subst b1. inversion Hb2; subst b2.
  pose proof (workspace_layout cfg (Block.params bp) Hrange) as Hl.
  cbv zeta in Hl.
  destruct Hl as (Hgk & Hgv & Hgq & Hsum & Hal & Htot & Hsize).
  destruct Hg1 as (_ & Hy1 & Hz1). destruct Hg2 as (_ & Hy2 & Hz2).
  subst slice. set (S := workspace_strideBH cfg (Block.params bp)) in *.
  set (nh := num_heads (Block.params bp)) in *.
  assert (HS : 0 <= S) by lia.
  assert (Hidx : z1 * nh + y1 <> z2 * nh + y2).
  { intros Heq. apply Hne.
    assert (z1 = z2) by nia. subst z2.
    assert (y1 = y2) by lia. subst y2. reflexivity. }
  rewrite Hw1, Hw2.
  destruct (Z_lt_ge_dec (z1 * nh + y1) (z2 * nh + y2)); [left|right]; nia.
Qed.

(** ** advance_to_block: alignment of the input pointers *)

Lemma wrap_divide (al bits x : Z) :
  0 < bits -> (al | 2 ^ bits) -> (al | x) -> (al | wrap bits x).
Proof.
  intros Hb Hal Hx. unfold wrap. cbv zeta.
  assert (Hm : 0 < 2 ^ bits) by (apply Z.pow_pos_nonneg; lia).
  assert (Hr : (al | x mod 2 ^ bits)).
  { rewrite Z.mod_eq by lia. apply Z.divide_sub_r; [exact Hx|].
    apply Z.divide_mul_l. exact Hal. }
  destruct (_ <? _); [exact Hr|].
  apply Z.divide_sub_r; assumption.
Qed.

Lemma cmod_divide (x al : Z) : al <> 0 -> cmod x al = 0 <-> (al | x).
Proof. intros Hal. unfold cmod. apply Z.rem_divide. exact Hal. Qed.

Lemma block_offset_aligned (al y z nh nb sH sB : Z) :
  0 < al -> (al | 2 ^ 32) ->
  0 <= y < nh -> 0 <= z < nb ->
  nh <= 1 \/ cmod sH al = 0 ->
  nb <= 1 \/ cmod sB al = 0 ->
  (al | add64 (mul64 z sB) (mul32 y sH)).
Proof.
  intros Hal H32 Hy Hz HH HB.
  assert (H64 : (al | 2 ^ 64)).
  { change (2 ^ 64) with (2 ^ 32 * 2 ^ 32). apply Z.divide_mul_l. exact H32. }
  assert (HyH : (al | y * sH)).
  { destruct HH as [HH|HH].
    - assert (y = 0) by lia. subst y. apply Z.divide_0_r.
    - apply Z.divide_mul_r. apply cmod_divide; [lia | exact HH]. }
  assert (HzB : (al | z * sB)).
  { destruct HB as [HB|HB].
    - assert (z = 0) by lia. subst z. apply Z.divide_0_r.
    - apply Z.divide_mul_r. apply cmod_divide; [lia | exact HB]. }
  unfold add64, mul64, mul32, wrap64, wrap32.
  apply wrap_divide; [lia | exact H64 |].
  apply Z.divide_add_r; apply wrap_divide; try assumption; lia.
Qed.

(** X5.  For a launch that the validation accepts, the query, key and value
    pointers of every block of the grid are still aligned after
    [advance_to_block]: the head and batch strides that the validation
    checks are the ones the pointers are advanced by, and the checks it
    skips for a single head or batch are those of an offset that is
    zero. *)
Theorem advance_to_block_keeps_alignment `{AR : Arith}
  (cfg : KernelConfig) (warp_uniform : Z -> Z)
  (broadcast_1_advance broadcast_2_advance
     : Z -> Z -> Z -> Z -> Z -> Z -> Z -> Z)
  (bp bp' : Block.BlockParams) (y z : Z) :
  (forall x, warp_uniform x = x) ->
  0 < kMinimumAlignment cfg -> (kMinimumAlignment cfg | 2 ^ 32) ->
  check_supported cfg (Block.params bp) = Supported ->
  in_grid (getBlocksGrid (Block.params bp)) 0 y z ->
  Block.advance_to_block cfg warp_uniform broadcast_1_advance
    broadcast_2_advance bp y z = Some (true, bp') ->
  cmod (query_ptr (Block.params bp')) (kMinimumAlignment cfg) = 0
  /\ cmod (key_ptr (Block.params bp')) (kMinimumAlignment cfg) = 0
  /\ cmod (value_ptr (Block.params bp')) (kMinimumAlignment cfg) = 0.
Proof.
  intros Hu Hal H32 Hok (_ & Hy & Hz) Hadv.
  pose proof (check_supported_facts cfg (Block.params bp) Hok) as Hf.
  cbv zeta in Hf.
  destruct Hf as ((Pq & Pk & Pv) & (Hq & Hk & Hv) & (Bq & Bk & Bv) & _).
  unfold Block.advance_to_block in Hadv. cbv zeta in Hadv.
  destruct (_ && negb _); [discriminate|].
  destruct (kNeedsAccumGradQ cfg || kNeedsAccumGradK cfg
            || kNeedsAccumGradV cfg);
    inversion Hadv; subst bp'; clear Hadv; simpl;
    rewrite !Hu; unfold Block.ptr_add;
    repeat split;
    (apply cmod_divide;
     [ lia
     | apply Z.divide_add_r;
       [ apply cmod_divide; [lia | assumption]
       | apply Z.divide_mul_r;
         apply (block_offset_aligned _ y z (num_heads (Block.params bp))
                  (num_batches (Block.params bp))); assumption ] ]).
Qed.

(** ** The workspace slots the kernel writes *)

Lemma loop_slot_bound (bound t col : Z) :
  0 < t -> 0 <= col < bound -> (col - 0) mod t = 0 ->
  0 <= cdiv col t < Z.of_nat (iter_count 0 bound t).
Proof.
  intros Ht Hcol Hm. rewrite Z.sub_0_r in Hm.
  rewrite cdiv_nonneg by lia.
  pose proof (Z.div_mod col t ltac:(lia)) as Hd. rewrite Hm in Hd.
  pose proof (iter_count_bounds bound t Ht ltac:(lia)) as Hb.
  assert (0 <= col / t) by (apply Z.div_pos; lia).
  split; [assumption|]. nia.
Qed.

Section Slots.

Context `{AR : Arith} `{EN : !Engine}.
Variable cfg : KernelConfig.
Variable p : Params.
Variable inp : Inputs.

Hypothesis HI : 0 < kBlockSizeI cfg.
Hypothesis HJ : 0 < kBlockSizeJ cfg.

Ltac slot_step :=
  cbv zeta; break_ifs; simpl; try reflexivity;
  unfold slot_store;
  match goal with
  | |- context [?a =? ?b] =>
      destruct (Z.eqb_spec a b); [exfalso; lia | reflexivity]
  end.

Lemma stage_GradV_slots (skip : bool) (qs ks : Z) (f l : bool)
  (st : KernelState) (id : Z) :
  id < 0 \/ workspace_slots_gv cfg p <= id ->
  workspace_gv (gmem (stage_GradV cfg skip p inp qs ks f l st)) id
  = workspace_gv (gmem st) id.
Proof.
  intros Hid. unfold stage_GradV. cbv zeta.
  apply (for_loop_invariant_in _
           (fun s => workspace_gv (gmem s) id = workspace_gv (gmem st) id));
    [exact HI | reflexivity |].
  intros col s Hcol Hm Hs. rewrite <- Hs.
  pose proof (loop_slot_bound _ _ _ HI Hcol Hm) as Hslot.
  unfold workspace_slots_gv, MatmulGradV_kN in *.
  slot_step.
Qed.

Lemma stage_GradK_slots (skip : bool) (qs ks : Z) (f l : bool)
  (st : KernelState) (id : Z) :
  id < 0 \/ workspace_slots_gk cfg p <= id ->
  workspace_gk (gmem (stage_GradK cfg skip p inp qs ks f l st)) id
  = workspace_gk (gmem st) id.
Proof.
  intros Hid. unfold stage_GradK. cbv zeta.
  apply (for_loop_invariant_in _
           (fun s => workspace_gk (gmem s) id = workspace_gk (gmem st) id));
    [exact HI | reflexivity |].
  intros col s Hcol Hm Hs. rewrite <- Hs.
  pose proof (loop_slot_bound _ _ _ HI Hcol Hm) as Hslot.
  unfold workspace_slots_gk, MatmulGradK_kN in *.
  slot_step.
Qed.

Lemma GradQ_col_bound (col : Z) :
  0 <= col < (if kSingleIterationGradQ cfg then 1 else head_dim p) ->
  (col - 0) mod MatmulGradQ_kN cfg = 0 ->
  0 <= cdiv col (MatmulGradQ_kN cfg) < GradQ_num_cols cfg p.
Proof.
  intros Hcol Hm. unfold MatmulGradQ_kN in *.
  pose proof (loop_slot_bound _ _ _ HJ Hcol Hm) as Hb.
  unfold GradQ_num_cols, MatmulGradQ_kN.
  destruct (kSingleIterationGradQ cfg).
  - assert (col = 0) by lia. subst col.
    rewrite cdiv_nonneg by lia. rewrite Z.div_0_l by lia. lia.
  - unfold iter_count in Hb. unfold ceil_div.
    rewrite (cdiv_nonneg (head_dim p + kBlockSizeJ cfg - 1)) by lia.
    replace (head_dim p - 0 + kBlockSizeJ cfg - 1)
      with (head_dim p + kBlockSizeJ cfg - 1) in Hb by lia.
    lia.
Qed.

Lemma stage_GradQ_slots (skip : bool) (qs ks : Z) (st : KernelState)
  (id : Z) :
  In qs (tile_starts (num_queries p) (kBlockSizeI cfg)) ->
  id < 0 \/ workspace_slots_gq cfg p <= id ->
  workspace_gq (gmem (stage_GradQ cfg skip p inp qs ks st)) id
  = workspace_gq (gmem st) id.
Proof.
  intros Hq Hid. unfold stage_GradQ. cbv zeta.
  assert (Ht : 0 <= cdiv qs (kBlockSizeI cfg)
               < Z.of_nat (iter_count 0 (num_queries p) (kBlockSizeI cfg))).
  { destruct (tile_starts_In _ _ _ HI Hq) as [Hb Hm].
    apply loop_slot_bound; [exact HI | exact Hb |].
    rewrite Z.sub_0_r. exact Hm. }
  apply (for_loop_invariant_in _
           (fun s => workspace_gq (gmem s) id = workspace_gq (gmem st) id));
    [exact HJ | reflexivity |].
  intros col s Hcol Hm Hs. rewrite <- Hs.
  pose proof (GradQ_col_bound col Hcol Hm) as Hc.
  unfold workspace_slots_gq in Hid.
  unfold GradQ_num_cols in Hc, Hid. unfold MatmulGradQ_kN in *.
  set (n := Z.of_nat (iter_count 0 (num_queries p) (kBlockSizeI cfg))) in *.
  set (t := cdiv qs (kBlockSizeI cfg)) in *.
  set (c := cdiv col (kBlockSizeJ cfg)) in *.
  set (nc := if kSingleIterationGradQ cfg then 1
             else ceil_div (head_dim p) (kBlockSizeJ cfg)) in *.
  assert (Hsid : 0 <= c + t * nc < n * nc) by nia.
  cbv zeta.
  destruct (incrIteration cfg p (num_queries p) ks) as [nq' nk'].
  break_ifs; simpl; try reflexivity;
    unfold slot_store;
    match goal with
    | |- context [?a =? ?b] =>
        destruct (Z.eqb_spec a b); [exfalso; lia | reflexivity]
    end.
Qed.

Lemma processBlockIJ_slots (skip : bool) (qs ks : Z) (st : KernelState)
  (id : Z) :
  In qs (tile_starts (num_queries p) (kBlockSizeI cfg)) ->
  let st' := processBlockIJ cfg skip p inp qs ks st in
  (id < 0 \/ workspace_slots_gk cfg p <= id ->
   workspace_gk (gmem st') id = workspace_gk (gmem st) id)
  /\ (id < 0 \/ workspace_slots_gv cfg p <= id ->
      workspace_gv (gmem st') id = workspace_gv (gmem st) id)
  /\ (id < 0 \/ workspace_slots_gq cfg p <= id ->
      workspace_gq (gmem st') id = workspace_gq (gmem st) id).
Proof.
  intros Hq. cbv zeta. unfold processBlockIJ, processBlockIJ_front.
  cbv zeta.
  set (s0 := with_shared _ st).
  set (s1 := stage_MatmulQK cfg skip p inp qs ks s0).
  set (s2 := stage_GradV cfg skip p inp qs ks _ _ s1).
  set (s3 := stage_MatmulDOIVJ cfg skip p inp qs ks s2).
  set (s4 := stage_GradQ cfg skip p inp qs ks s3).
  assert (H1 : gmem s1 = gmem st)
    by (subst s1; rewrite stage_MatmulQK_gmem; reflexivity).
  destruct (stage_GradV_workspace cfg p inp skip qs ks
              (isFirstQuery p qs ks) (isLastQuery cfg p qs ks) s1)
    as (Vk & Vq & _).
  destruct (stage_MatmulDOIVJ_workspace cfg p inp skip qs ks s2)
    as (Dk & Dv & Dq).
  destruct (stage_GradQ_workspace cfg p inp skip qs ks s3 ltac:(lia))
    as (Qk & Qv & _).
  destruct (stage_GradK_workspace cfg p inp skip qs ks
              (isFirstQuery p qs ks) (isLastQuery cfg p qs ks) s4)
    as (Kv & Kq & _).
  fold s2 in Vk, Vq. fold s3 in Dk, Dv, Dq. fold s4 in Qk, Qv.
  split; [|split]; intros Hid.
  - rewrite stage_GradK_slots by exact Hid.
    rewrite Qk, Dk, Vk, H1. reflexivity.
  - rewrite Kv, Qv, Dv. subst s2.
    rewrite stage_GradV_slots by exact Hid. rewrite H1. reflexivity.
  - rewrite Kq. subst s4.
    rewrite stage_GradQ_slots by assumption.
    rewrite Dq, Vq, H1. reflexivity.
Qed.

Lemma attention_kernel_slots (st : KernelState) (id : Z) :
  let final := gmem (attention_kernel cfg p inp st) in
  (id < 0 \/ workspace_slots_gk cfg p <= id ->
   workspace_gk final id = workspace_gk (gmem st) id)
  /\ (id < 0 \/ workspace_slots_gv cfg p <= id ->
      workspace_gv final id = workspace_gv (gmem st) id)
  /\ (id < 0 \/ workspace_slots_gq cfg p <= id ->
      workspace_gq final id = workspace_gq (gmem st) id).
Proof.
  cbv zeta. split; [|split]; intros Hid.
  - apply (attention_kernel_keeps cfg p inp
             (fun s => workspace_gk (gmem s) id = workspace_gk (gmem st) id));
      try assumption; [|reflexivity].
    intros c s Hin Hs.
    pose proof (kernel_calls_In cfg p c HI HJ Hin) as Hc.
    destruct c as [e q| |skip q k|skip k|skip k]; simpl; try exact Hs.
    destruct Hc as (Hq & _).
    rewrite (proj1 (processBlockIJ_slots skip q k s id Hq)) by exact Hid.
    exact Hs.
  - apply (attention_kernel_keeps cfg p inp
             (fun s => workspace_gv (gmem s) id = workspace_gv (gmem st) id));
      try assumption; [|reflexivity].
    intros c s Hin Hs.
    pose proof (kernel_calls_In cfg p c HI HJ Hin) as Hc.
    destruct c as [e q| |skip q k|skip k|skip k]; simpl; try exact Hs.
    destruct Hc as (Hq & _).
    rewrite (proj1 (proj2 (processBlockIJ_slots skip q k s id Hq)))
      by exact Hid.
    exact Hs.
  - apply (attention_kernel_keeps cfg p inp
             (fun s => workspace_gq (gmem s) id = workspace_gq (gmem st) id));
      try assumption; [|reflexivity].
    intros c s Hin Hs.
    pose proof (kernel_calls_In cfg p c HI HJ Hin) as Hc.
    destruct c as [e q| |skip q k|skip k|skip k]; simpl; try exact Hs.
    destruct Hc as (Hq & _).
    rewrite (proj2 (proj2 (processBlockIJ_slots skip q k s id Hq)))
      by exact Hid.
    exact Hs.
Qed.

End Slots.

Lemma iter_count_align_up (n m : Z) :
  0 < m -> 0 <= n -> Z.of_nat (iter_count 0 n m) * m = align_up n m.
Proof.
  intros Hm Hn. unfold iter_count, align_up.
  rewrite cdiv_nonneg by lia.
  replace (n - 0 + m - 1) with (n + m - 1) by lia.
  rewrite Z2Nat.id; [reflexivity|]. apply Z.div_pos; lia.
Qed.

Lemma align_up_at_least (n m : Z) : 0 < m -> 0 < n -> m <= align_up n m.
Proof.
  intros Hm Hn. unfold align_up. rewrite cdiv_nonneg by lia.
  assert (1 <= (n + m - 1) / m) by (apply Z.div_le_lower_bound; lia).
  nia.
Qed.

(** The slots of each plane fit in the elements reserved for it, a slot
    being a tile of [kBlockSizeI * kBlockSizeJ] floats. *)
Lemma workspace_slots_fit `{AR : Arith} (cfg : KernelConfig) (p : Params) :
  workspace_in_range cfg p ->
  0 < head_dim p -> 0 < head_dim_value p -> 0 < num_keys p ->
  let cap := kBlockSizeI cfg * kBlockSizeJ cfg in
  (kNeedsAccumGradK cfg = true ->
   workspace_slots_gk cfg p * cap <= workspace_elements_gk cfg p)
  /\ (kNeedsAccumGradV cfg = true ->
      workspace_slots_gv cfg p * cap <= workspace_elements_gv cfg p)
  /\ (kNeedsAccumGradQ cfg = true -> kBlockSizeJ cfg < num_keys p ->
      workspace_slots_gq cfg p * cap <= workspace_elements_gq cfg p).
Proof.
  intros Hrange Hhd Hhdv Hnk.
  destruct Hrange as (HI & HJ & _ & Hnq & _ & _ & _ & _ & Fnk & Fnq & FhdI
                      & FhdJ & FhdvI & Pgk & Pgv & Pgq & _ & _).
  cbv zeta.
  pose proof (align_up_at_least (num_keys p) (kBlockSizeJ cfg) HJ Hnk).
  pose proof (align_up_at_least (head_dim p) (kBlockSizeI cfg) HI Hhd).
  pose proof (align_up_at_least (head_dim p) (kBlockSizeJ cfg) HJ Hhd).
  pose proof (align_up_at_least (head_dim_value p) (kBlockSizeI cfg) HI
                Hhdv).
  pose proof (align_up_bounds (num_queries p) (kBlockSizeI cfg) Hnq HI).
  split; [|split].
  - intros HK. unfold workspace_elements_gk, workspace_slots_gk,
      MatmulGradK_kN. rewrite HK. simpl negb. cbv iota.
    rewrite (workspace_elements_exact cfg p) by (assumption || lia).
    destruct (kSingleIterationGradK cfg).
    + change (iter_count 0 1 (kBlockSizeI cfg))
        with (iter_count 0 1 (kBlockSizeI cfg)).
      pose proof (iter_count_align_up 1 (kBlockSizeI cfg) HI ltac:(lia))
        as He.
      pose proof (align_up_bounds 1 (kBlockSizeI cfg) ltac:(lia) HI).
      nia.
    + pose proof (iter_count_align_up (head_dim p) (kBlockSizeI cfg) HI
                    ltac:(lia)) as He.
      nia.
  - intros HV. unfold workspace_elements_gv, workspace_slots_gv,
      MatmulGradV_kN. rewrite HV. simpl negb. cbv iota.
    rewrite (workspace_elements_exact cfg p) by (assumption || lia).
    destruct (kSingleIterationGradV cfg).
    + pose proof (iter_count_align_up 1 (kBlockSizeI cfg) HI ltac:(lia))
        as He.
      pose proof (align_up_bounds 1 (kBlockSizeI cfg) ltac:(lia) HI).
      nia.
    + pose proof (iter_count_align_up (head_dim_value p) (kBlockSizeI cfg)
                    HI ltac:(lia)) as He.
      nia.
  - intros HQ Hk. unfold workspace_elements_gq, workspace_slots_gq,
      GradQ_num_cols, MatmulGradQ_kN. rewrite HQ. simpl negb. cbv iota.
    replace (num_keys p <=? kBlockSizeJ cfg) with false
      by (symmetry; apply Z.leb_gt; exact Hk).
    rewrite (workspace_elements_exact cfg p) by (assumption || lia).
    pose proof (iter_count_align_up (num_queries p) (kBlockSizeI cfg) HI
                  Hnq) as He.
    destruct (kSingleIterationGradQ cfg).
    + nia.
    + unfold ceil_div. unfold align_up at 2. unfold align_up in H1.
      set (c := cdiv (head_dim p + kBlockSizeJ cfg - 1) (kBlockSizeJ cfg))
        in *.
      nia.
Qed.

(** X6.  Every workspace slot that the kernel writes lies inside the plane
    that the sizing functions reserve for it: a slot of a plane that does
    not fit in the plane's [workspace_elements] (one slot being the
    [kElementsStored] floats of a tile) holds after the kernel what it
    held before. *)
Theorem workspace_writes_stay_in_planes `{AR : Arith} `{EN : !Engine}
  (cfg : KernelConfig) (p : Params) (inp : Inputs) (st : KernelState)
  (FragmentC_kElements : Z) (id : Z) :
  workspace_in_range cfg p ->
  0 < head_dim p -> 0 < head_dim_value p -> 0 < num_keys p ->
  kNumThreads cfg * FragmentC_kElements
  = kBlockSizeI cfg * kBlockSizeJ cfg ->
  let slot := GmemTile.kElementsStored FragmentC_kElements (kNumThreads cfg) in
  let final := gmem (attention_kernel cfg p inp st) in
  (~ (0 <= id /\ (id + 1) * slot <= workspace_elements_gk cfg p) ->
   workspace_gk final id = workspace_gk (gmem st) id)
  /\ (~ (0 <= id /\ (id + 1) * slot <= workspace_elements_gv cfg p) ->
      workspace_gv final id = workspace_gv (gmem st) id)
  /\ (~ (0 <= id /\ (id + 1) * slot <= workspace_elements_gq cfg p) ->
      workspace_gq final id = workspace_gq (gmem st) id).
Proof.
  intros Hrange Hhd Hhdv Hnk Hcap slot final.
  pose proof Hrange as (HI & HJ & _).
  assert (Hslot : slot = kBlockSizeI cfg * kBlockSizeJ cfg)
    by (subst slot; unfold GmemTile.kElementsStored; exact Hcap).
  assert (Hpos : 0 < slot) by nia.
  destruct (workspace_slots_fit cfg p Hrange Hhd Hhdv Hnk) as (Fk & Fv & Fq).
  cbv zeta in Fk, Fv, Fq. rewrite <- Hslot in Fk, Fv, Fq.
  destruct (attention_kernel_slots cfg p inp HI HJ st id) as (Sk & Sv & Sq).
  assert (Hkeep : forall f : GlobalMem -> Z -> tile accum_t,
            (forall c s, In c (kernel_calls cfg p) ->
                         f (gmem (run_call (kernel_handlers cfg p inp) c s))
                         = f (gmem s)) ->
            f final = f (gmem st)).
  { intros f Hf. subst final.
    apply (attention_kernel_keeps cfg p inp
             (fun s => f (gmem s) = f (gmem st)));
      try assumption; [|reflexivity].
    intros c s Hin Hs. rewrite Hf by exact Hin. exact Hs. }
  split; [|split]; intros Hid.
  - destruct (kNeedsAccumGradK cfg) eqn:EK.
    + apply Sk. specialize (Fk eq_refl).
      destruct (Z_lt_ge_dec id 0); [left; lia | right].
      destruct (Z_lt_ge_dec id (workspace_slots_gk cfg p)); [|lia].
      exfalso. apply Hid. split; [lia | nia].
    + rewrite (Hkeep workspace_gk); [reflexivity|].
      intros c s _. destruct c; simpl; try reflexivity.
      apply (processBlockIJ_workspace cfg p inp); [lia | exact EK].
  - destruct (kNeedsAccumGradV cfg) eqn:EV.
    + apply Sv. specialize (Fv eq_refl).
      destruct (Z_lt_ge_dec id 0); [left; lia | right].
      destruct (Z_lt_ge_dec id (workspace_slots_gv cfg p)); [|lia].
      exfalso. apply Hid. split; [lia | nia].
    + rewrite (Hkeep workspace_gv); [reflexivity|].
      intros c s _. destruct c; simpl; try reflexivity.
      apply (processBlockIJ_workspace cfg p inp); [lia | exact EV].
  - destruct (kNeedsAccumGradQ cfg) eqn:EQ;
      [destruct (Z_lt_ge_dec (kBlockSizeJ cfg) (num_keys p)) as [Hk|Hk]|].
    + apply Sq. specialize (Fq eq_refl Hk).
      destruct (Z_lt_ge_dec id 0); [left; lia | right].
      destruct (Z_lt_ge_dec id (workspace_slots_gq cfg p)); [|lia].
      exfalso. apply Hid. split; [lia | nia].
    + rewrite (Hkeep workspace_gq); [reflexivity|].
      intros c s Hin.
      pose proof (kernel_calls_In cfg p c HI HJ Hin) as Hc.
      destruct c as [e q| |skip q k|skip k|skip k]; simpl; try reflexivity.
      destruct Hc as (_ & Hk0 & _).
      apply (processBlockIJ_workspace cfg p inp); [lia | right; lia].
    + rewrite (Hkeep workspace_gq); [reflexivity|].
      intros c s _. destruct c; simpl; try reflexivity.
      apply (processBlockIJ_workspace cfg p inp); [lia | left; exact EQ].
Qed.

(** ** The workspace at launch *)

Lemma fold_left2_seq_ind {S1 S2 : Type} (f1 : S1 -> nat -> S1)
  (f2 : S2 -> nat -> S2) (P : nat -> S1 -> S2 -> Prop) (n : nat) :
  forall (i : nat) (s1 : S1) (s2 : S2),
    P i s1 s2 ->
    (forall k a b, (i <= k < i + n)%nat -> P k a b ->
                   P (Datatypes.S k) (f1 a k) (f2 b k)) ->
    P (i + n)%nat (fold_left f1 (seq i n) s1) (fold_left f2 (seq i n) s2).
Proof.
  induction n as [|n IH]; intros i s1 s2 H0 Hstep.
  - rewrite Nat.add_0_r. exact H0.
  - simpl. replace (i + Datatypes.S n)%nat with (Datatypes.S i + n)%nat
      by lia.
    apply IH.
    + apply Hstep; [lia | exact H0].
    + intros k a b Hk. apply Hstep. lia.
Qed.

(** Two loops with the same header, related iteration by iteration. *)
Lemma for_loop_rel_index {S1 S2 : Type} (P : nat -> S1 -> S2 -> Prop)
  (body1 : Z -> S1 -> S1) (body2 : Z -> S2 -> S2) (start stop step : Z)
  (s1 : S1) (s2 : S2) :
  0 < step ->
  P 0%nat s1 s2 ->
  (forall k a b, (k < iter_count start stop step)%nat -> P k a b ->
                 P (Datatypes.S k) (body1 (start + Z.of_nat k * step) a)
                   (body2 (start + Z.of_nat k * step) b)) ->
  P (iter_count start stop step)
    (snd (for_loop start stop step body1 s1))
    (snd (for_loop start stop step body2 s2)).
Proof.
  intros Hstep H0 Hbody. rewrite !for_loop_spec by assumption. simpl snd.
  apply (fold_left2_seq_ind
           (fun s k => body1 (start + Z.of_nat k * step) s)
           (fun s k => body2 (start + Z.of_nat k * step) s)
           P (iter_count start stop step) 0%nat s1 s2 H0).
  intros k a b Hk. apply Hbody. lia.
Qed.

Lemma cdiv_mul (n : nat) (t : Z) :
  0 < t -> cdiv (0 + Z.of_nat n * t) t = Z.of_nat n.
Proof.
  intros Ht. rewrite Z.add_0_l. rewrite cdiv_nonneg by nia.
  apply Z.div_mul. lia.
Qed.

(** A fold over two states, with an invariant that knows the calls already
    made. *)
Lemma fold_left_prefix_rel {S C : Type} (f : S -> C -> S)
  (P : list C -> S -> S -> Prop) (l : list C) :
  forall (pre : list C) (s1 s2 : S),
    P pre s1 s2 ->
    (forall pre' c post a b,
       pre ++ l = pre' ++ c :: post -> P pre' a b ->
       P (pre' ++ [c]) (f a c) (f b c)) ->
    P (pre ++ l) (fold_left f l s1) (fold_left f l s2).
Proof.
  induction l as [|c l IH]; intros pre s1 s2 H0 Hstep.
  - rewrite app_nil_r. exact H0.
  - simpl. replace (pre ++ c :: l) with ((pre ++ [c]) ++ l)
      by (rewrite <- app_assoc; reflexivity).
    apply IH.
    + apply (Hstep pre c l); [reflexivity | exact H0].
    + intros pre' c' post a b E. apply (Hstep pre' c' post).
      rewrite <- E, <- app_assoc. reflexivity.
Qed.

Lemma app_split_prefix {A : Type} (x : A) :
  forall (P L1 Q L2 : list A),
    P ++ Q = L1 ++ x :: L2 -> ~ In x P -> exists L1', L1 = P ++ L1'.
Proof.
  induction P as [|a P IH]; intros L1 Q L2 E Hn.
  - exists L1. reflexivity.
  - destruct L1 as [|b L1]; simpl in E; injection E as E1 E2.
    + subst. exfalso. apply Hn. left. reflexivity.
    + subst b. destruct (IH L1 Q L2 E2) as [L1' ->].
      * intros Hx. apply Hn. right. exact Hx.
      * exists L1'. reflexivity.
Qed.

Lemma tile_starts_head (len t : Z) :
  tile_starts len t = [] \/ exists r, tile_starts len t = 0 :: r.
Proof.
  unfold tile_starts. destruct (iter_count 0 len t); [left; reflexivity|].
  right. simpl. eexists. reflexivity.
Qed.

(** In the nested enumeration, a tile that is not the first query tile
    comes after a first query tile, and a tile that is not of the first key
    tile comes after the tile of the first key tile with the same query
    rows. *)
Lemma nested_tiles_earlier (nk nq J I : Z) (L1 L2 : list (Z * Z))
  (k q : Z) :
  nested_tiles nk nq J I = L1 ++ (k, q) :: L2 ->
  (q <> 0 -> exists k', In (k', 0) L1) /\ (k <> 0 -> In (0, q) L1).
Proof.
  intros E.
  assert (Hin : In (k, q) (nested_tiles nk nq J I))
    by (rewrite E; apply in_elt).
  unfold nested_tiles in Hin, E.
  apply in_flat_map in Hin. destruct Hin as (k0 & Hk0 & Hin).
  apply in_map_iff in Hin. destruct Hin as (q0 & Heq & Hq0).
  injection Heq as -> ->.
  destruct (tile_starts_head nk J) as [EK | [K EK]];
    rewrite EK in Hk0, E; [destruct Hk0|].
  simpl in E.
  destruct (tile_starts_head nq I) as [EQ | [Q EQ]];
    [rewrite EQ in Hq0; destruct Hq0|].
  split.
  - intros Hq. rewrite EQ in E at 1. simpl in E.
    destruct L1 as [|x L1]; simpl in E; injection E as E1 E2.
    + congruence.
    + exists 0. left. symmetry. exact E1.
  - intros Hk.
    destruct (app_split_prefix _ _ _ _ _ E) as [L1' ->].
    + intros Hx. apply in_map_iff in Hx. destruct Hx as (? & Hx & _).
      congruence.
    + apply in_or_app. left. apply in_map_iff.
      exists q. split; [reflexivity | exact Hq0].
Qed.

Lemma visited_In (l : list Call) (k q : Z) :
  In (k, q) (visited l) -> exists skip, In (CallProcessBlockIJ skip q k) l.
Proof.
  unfold visited. intros Hin. apply in_flat_map in Hin.
  destruct Hin as (c & Hc & Hin).
  destruct c as [e q'| |skip q' k'|skip k'|skip k']; simpl in Hin;
    try contradiction.
  destruct Hin as [Heq | []]. injection Heq as -> ->.
  exists skip. exact Hc.
Qed.

Section WorkspaceAtLaunch.

Context `{AR : Arith} `{EN : !Engine}.
Variable cfg : KernelConfig.
Variable p : Params.
Variable inp : Inputs.

Hypothesis HI : 0 < kBlockSizeI cfg.
Hypothesis HJ : 0 < kBlockSizeJ cfg.

(** Two states agree on the slots of a workspace plane that satisfy [A]. *)
Let agree_on (f : GlobalMem -> Z -> tile accum_t) (A : Z -> Prop)
  (s1 s2 : KernelState) : Prop :=
  forall id, A id -> f (gmem s1) id = f (gmem s2) id.

(** Two states agree but for their workspaces, and their workspaces agree
    on the slots given. *)
Let Rel (Ak Av Aq : Z -> Prop) (s1 s2 : KernelState) : Prop :=
  agree_but_workspace s1 s2
  /\ agree_on workspace_gk Ak s1 s2
  /\ agree_on workspace_gv Av s1 s2
  /\ agree_on workspace_gq Aq s1 s2.

Ltac rel_open H :=
  match type of H with
  | Rel _ _ _ ?a ?b =>
      let Hk := fresh "Hk" in
      let Hv := fresh "Hv" in
      let Hq := fresh "Hq" in
      destruct a as [sa fa ga]; destruct b as [sb fb gb];
      destruct ga as [d1 q1 k1 v1 b11 b21 wk1 wv1 wq1];
      destruct gb as [d2 q2 k2 v2 b12 b22 wk2 wv2 wq2];
      destruct H as (H & Hk & Hv & Hq);
      unfold agree_but_workspace in H; unfold agree_on in Hk, Hv, Hq;
      simpl in H, Hk, Hv, Hq;
      destruct H as (? & ? & ? & ? & ? & ? & ? & ?); subst
  end.

Ltac rel_close :=
  unfold Rel, agree_but_workspace, agree_on; simpl;
  repeat split; try reflexivity.

Lemma Rel_weaken (Ak Av Aq Ak' Av' Aq' : Z -> Prop) (s1 s2 : KernelState) :
  (forall id, Ak' id -> Ak id) -> (forall id, Av' id -> Av id) ->
  (forall id, Aq' id -> Aq id) ->
  Rel Ak Av Aq s1 s2 -> Rel Ak' Av' Aq' s1 s2.
Proof.
  intros Wk Wv Wq (H & Hk & Hv & Hq). split; [exact H|].
  split; [|split]; intros id Hid; auto.
Qed.

(** One column block of the GradV matmul. *)
Lemma GradV_body_agree (skip : bool) (qs ks : Z) (f l : bool)
  (Ak Av Aq : Z -> Prop) (col : Z) (a b : KernelState) :
  Rel Ak Av Aq a b ->
  (kNeedsAccumGradV cfg = true -> f = false ->
   Av (cdiv col (MatmulGradV_kN cfg))) ->
  let body :=
    fun col st =>
      let problem_size :=
        (num_keys_in_block cfg skip p ks, head_dim_value p - col,
         num_queries_in_block cfg skip p qs) in
      let iterator_B : tile scalar_t :=
        fun r c => grad_output inp ((qs + r) * gO_strideM p + col + c) in
      let storage_id := cdiv col (MatmulGradV_kN cfg) in
      let st :=
        if negb (kOutputInRF cfg) then
          if f || negb (kNeedsAccumGradV cfg)
          then with_frags (set_gradV zero_tile) st
          else with_frags (set_gradV (workspace_gv (gmem st) storage_id)) st
        else st in
      let st :=
        with_frags
          (set_gradV
             (mma_from_smem problem_size
                (attn_shared_storage (shared_storage st))
                (GradV_scale_operand cfg st)
                iterator_B (gradV (output_frags st))))
          st in
      if negb (kOutputInRF cfg) then
        if kNeedsAccumGradV cfg && negb l then
          with_gmem
            (set_workspace_gv
               (slot_store (workspace_gv (gmem st)) storage_id
                  (gradV (output_frags st))))
            st
        else
          with_gmem
            (set_grad_value
               (accumulateInGmem (grad_value (gmem st))
                  (ks * gV_strideM p + col) (gV_strideM p)
                  (num_keys_in_block cfg skip p ks, head_dim_value p - col)
                  (gradV (output_frags st))
                  (f || kNeedsAccumGradV cfg)))
            st
      else st in
  Rel Ak
    (fun id => Av id
               \/ (kNeedsAccumGradV cfg = true /\ l = false
                   /\ id = cdiv col (MatmulGradV_kN cfg)))
    Aq (body col a) (body col b).
Proof.
  intros H Hload. cbv zeta. rel_open H.
  unfold GradV_scale_operand, with_frags, with_gmem. simpl.
  destruct (kOutputInRF cfg) eqn:ERF; simpl.
  - assert (HN : kNeedsAccumGradV cfg = false)
      by (unfold kNeedsAccumGradV; rewrite ERF; reflexivity).
    rel_close; try assumption.
    intros id [Hid | (Hc & _)]; [auto | congruence].
  - destruct (kNeedsAccumGradV cfg) eqn:EN'; destruct f; destruct l; simpl;
      try rewrite (Hv _ (Hload eq_refl eq_refl));
      rel_close; try assumption;
      (intros id Hid; unfold slot_store;
       destruct Hid as [Hid | (Hc & Hl & Hsid)];
       [ try (destruct (_ =? _); [reflexivity|]); auto
       | try congruence; subst id; rewrite Z.eqb_refl; reflexivity ]).
Qed.

Lemma stage_GradV_agree (skip : bool) (qs ks : Z) (f l : bool)
  (Ak Av Aq : Z -> Prop) (a b : KernelState) :
  Rel Ak Av Aq a b ->
  (kNeedsAccumGradV cfg = true -> f = false ->
   forall id, 0 <= id < workspace_slots_gv cfg p -> Av id) ->
  Rel Ak
    (fun id => Av id
               \/ (kNeedsAccumGradV cfg = true /\ l = false
                   /\ 0 <= id < workspace_slots_gv cfg p))
    Aq
    (stage_GradV cfg skip p inp qs ks f l a)
    (stage_GradV cfg skip p inp qs ks f l b).
Proof.
  intros H Hload. unfold stage_GradV. cbv zeta.
  unfold workspace_slots_gv in *.
  apply (for_loop_rel_index
           (fun n s1 s2 =>
              Rel Ak
                (fun id => Av id
                           \/ (kNeedsAccumGradV cfg = true /\ l = false
                               /\ 0 <= id < Z.of_nat n))
                Aq s1 s2)).
  - exact HI.
  - apply (Rel_weaken Ak Av Aq); auto.
    intros id [Hid | (_ & _ & Hid)]; [exact Hid | lia].
  - intros k s1 s2 Hk Hrel.
    pose proof (cdiv_mul k (MatmulGradV_kN cfg) HI) as Hsid.
    eapply Rel_weaken;
      [ | | | refine (GradV_body_agree skip qs ks f l Ak _ Aq
                        (0 + Z.of_nat k * MatmulGradV_kN cfg) s1 s2 Hrel _) ];
      try (intros id Hid; exact Hid).
    + intros id [Hid | (Hn & Hl & Hid)].
      * left. left. exact Hid.
      * destruct (Z.eq_dec id (Z.of_nat k)) as [->|Hne].
        -- right. rewrite Hsid. auto.
        -- left. right. repeat split; auto; lia.
    + intros Hn Hf. left. rewrite Hsid. apply Hload; auto. lia.
Qed.

(** One column block of the GradK matmul. *)
Lemma GradK_body_agree (skip : bool) (qs ks : Z) (f l : bool)
  (Ak Av Aq : Z -> Prop) (col : Z) (a b : KernelState) :
  Rel Ak Av Aq a b ->
  (kNeedsAccumGradK cfg = true -> f = false ->
   Ak (cdiv col (MatmulGradK_kN cfg))) ->
  let body :=
    fun col st =>
      let problem_size :=
        (num_keys_in_block cfg skip p ks, head_dim p - col,
         num_queries_in_block cfg skip p qs) in
      let iterator_B : tile scalar_t :=
        fun r c => query inp ((qs + r) * q_strideM p + col + c) in
      let opA := GradK_operand_A cfg st in
      let storage_id := cdiv col (MatmulGradK_kN cfg) in
      let st :=
        if negb (kOutputInRF cfg) then
          if f || negb (kNeedsAccumGradK cfg)
          then with_frags (set_gradK zero_tile) st
          else with_frags (set_gradK (workspace_gk (gmem st) storage_id)) st
        else st in
      let st :=
        with_frags
          (set_gradK
             (mma_from_smem problem_size opA None iterator_B
                (gradK (output_frags st))))
          st in
      if negb (kOutputInRF cfg) then
        if kNeedsAccumGradK cfg && negb l then
          with_gmem
            (set_workspace_gk
               (slot_store (workspace_gk (gmem st)) storage_id
                  (gradK (output_frags st))))
            st
        else
          with_gmem
            (set_grad_key
               (accumulateInGmem (grad_key (gmem st))
                  (ks * gK_strideM p + col) (gK_strideM p)
                  (num_keys_in_block cfg skip p ks, head_dim p - col)
                  (gradK (output_frags st))
                  (f || kNeedsAccumGradK cfg)))
            st
      else st in
  Rel
    (fun id => Ak id
               \/ (kNeedsAccumGradK cfg = true /\ l = false
                   /\ id = cdiv col (MatmulGradK_kN cfg)))
    Av Aq (body col a) (body col b).
Proof.
  intros H Hload. cbv zeta. rel_open H.
  unfold GradK_operand_A, with_frags, with_gmem. simpl.
  destruct (kOutputInRF cfg) eqn:ERF; simpl.
  - assert (HN : kNeedsAccumGradK cfg = false)
      by (unfold kNeedsAccumGradK; rewrite ERF; reflexivity).
    rel_close; try assumption.
    intros id [Hid | (Hc & _)]; [auto | congruence].
  - destruct (kNeedsAccumGradK cfg) eqn:EN'; destruct f; destruct l; simpl;
      try rewrite (Hk _ (Hload eq_refl eq_refl));
      rel_close; try assumption;
      (intros id Hid; unfold slot_store;
       destruct Hid as [Hid | (Hc & Hl & Hsid)];
       [ try (destruct (_ =? _); [reflexivity|]); auto
       | try congruence; subst id; rewrite Z.eqb_refl; reflexivity ]).
Qed.

Lemma stage_GradK_agree (skip : bool) (qs ks : Z) (f l : bool)
  (Ak Av Aq : Z -> Prop) (a b : KernelState) :
  Rel Ak Av Aq a b ->
  (kNeedsAccumGradK cfg = true -> f = false ->
   forall id, 0 <= id < workspace_slots_gk cfg p -> Ak id) ->
  Rel
    (fun id => Ak id
               \/ (kNeedsAccumGradK cfg = true /\ l = false
                   /\ 0 <= id < workspace_slots_gk cfg p))
    Av Aq
    (stage_GradK cfg skip p inp qs ks f l a)
    (stage_GradK cfg skip p inp qs ks f l b).
Proof.
  intros H Hload. unfold stage_GradK. cbv zeta.
  unfold workspace_slots_gk in *.
  apply (for_loop_rel_index
           (fun n s1 s2 =>
              Rel
                (fun id => Ak id
                           \/ (kNeedsAccumGradK cfg = true /\ l = false
                               /\ 0 <= id < Z.of_nat n))
                Av Aq s1 s2)).
  - exact HI.
  - apply (Rel_weaken Ak Av Aq); auto.
    intros id [Hid | (_ & _ & Hid)]; [exact Hid | lia].
  - intros k s1 s2 Hk Hrel.
    pose proof (cdiv_mul k (MatmulGradK_kN cfg) HI) as Hsid.
    eapply Rel_weaken;
      [ | | | refine (GradK_body_agree skip qs ks f l _ Av Aq
                        (0 + Z.of_nat k * MatmulGradK_kN cfg) s1 s2 Hrel _) ];
      try (intros id Hid; exact Hid).
    + intros id [Hid | (Hn & Hl & Hid)].
      * left. left. exact Hid.
      * destruct (Z.eq_dec id (Z.of_nat k)) as [->|Hne].
        -- right. rewrite Hsid. auto.
        -- left. right. repeat split; auto; lia.
    + intros Hn Hf. left. rewrite Hsid. apply Hload; auto. lia.
Qed.

(** Whether the GradQ matmul of a key tile writes the GradQuery tensor
    rather than the workspace. *)
Let isLastKeyTile (qs ks : Z) : bool :=
  (0 >? qs) || (ks + kBlockSizeJ cfg >=? num_keys p).

(** One column block of the GradQ matmul. *)
Lemma GradQ_body_agree (skip : bool) (qs ks : Z)
  (Ak Av Aq : Z -> Prop) (col : Z) (a b : KernelState) :
  Rel Ak Av Aq a b ->
  let sid :=
    cdiv col (MatmulGradQ_kN cfg)
    + cdiv qs (kBlockSizeI cfg) * GradQ_num_cols cfg p in
  (kNeedsAccumGradQ cfg = true -> (ks =? 0) = false -> Aq sid) ->
  let body :=
    fun col st =>
      let problem_size :=
        (num_queries_in_block cfg skip p qs, head_dim p - col,
         num_keys_in_block cfg skip p ks) in
      let iterator_B : tile scalar_t :=
        fun r c => key inp ((ks + r) * k_strideM p + col + c) in
      let isFirst := ks =? 0 in
      let col_id := cdiv col (MatmulGradQ_kN cfg) in
      let num_cols :=
        if kSingleIterationGradQ cfg then 1
        else ceil_div (head_dim p) (MatmulGradQ_kN cfg) in
      let storage_id :=
        col_id + cdiv qs (kBlockSizeI cfg) * num_cols in
      let accum :=
        if isFirst || negb (kNeedsAccumGradQ cfg) then zero_tile
        else workspace_gq (gmem st) storage_id in
      let accum :=
        mma_from_smem problem_size
          (tmp_shared_storage (shared_storage st)) None iterator_B accum in
      let '(next_query, next_key) :=
        incrIteration cfg p (num_queries p) ks in
      let isLast :=
        (next_query >? qs) || (next_key >=? num_keys p) in
      if kNeedsAccumGradQ cfg && negb isLast then
        with_gmem
          (set_workspace_gq
             (slot_store (workspace_gq (gmem st)) storage_id accum))
          st
      else
        with_gmem
          (set_grad_query
             (accumulateInGmem (grad_query (gmem st))
                (qs * gQ_strideM p + col) (gQ_strideM p)
                (num_queries_in_block cfg skip p qs, head_dim p - col)
                accum (isFirst || kNeedsAccumGradQ cfg)))
          st in
  Rel Ak Av
    (fun id => Aq id
               \/ (kNeedsAccumGradQ cfg = true
                   /\ isLastKeyTile qs ks = false /\ id = sid))
    (body col a) (body col b).
Proof.
  intros H sid Hload. cbv zeta.
  rewrite (incrIteration_end cfg p ks ltac:(lia)). cbv beta iota.
  fold (isLastKeyTile qs ks). subst sid. unfold GradQ_num_cols in *.
  rel_open H. unfold with_gmem. simpl.
  destruct (kNeedsAccumGradQ cfg) eqn:EN'; destruct (ks =? 0) eqn:Ek;
    destruct (isLastKeyTile qs ks) eqn:El; simpl;
    try rewrite (Hq _ (Hload eq_refl eq_refl));
    rel_close; try assumption;
    (intros id Hid; unfold slot_store;
     destruct Hid as [Hid | (Hc & Hl & Hsid)];
     [ try match goal with
           | |- context [id =? ?s] => destruct (id =? s); [reflexivity|]
           end;
       apply Hq; exact Hid
     | try congruence; subst id; rewrite Z.eqb_refl; reflexivity ]).
Qed.

Lemma GradQ_cols_count (c : Z) :
  0 <= c < GradQ_num_cols cfg p
  <-> 0 <= c
      < Z.of_nat
          (iter_count 0 (if kSingleIterationGradQ cfg then 1 else head_dim p)
             (MatmulGradQ_kN cfg)).
Proof.
  unfold GradQ_num_cols, MatmulGradQ_kN, iter_count, ceil_div, cdiv.
  destruct (kSingleIterationGradQ cfg).
  - replace ((1 - 0 + kBlockSizeJ cfg - 1) / kBlockSizeJ cfg) with 1.
    + simpl. lia.
    + replace (1 - 0 + kBlockSizeJ cfg - 1) with (1 * kBlockSizeJ cfg) by lia.
      rewrite Z.div_mul by lia. reflexivity.
  - replace (head_dim p - 0 + kBlockSizeJ cfg - 1)
      with (head_dim p + kBlockSizeJ cfg - 1) by lia.
    destruct (Z_le_gt_dec 0 (head_dim p + kBlockSizeJ cfg - 1)) as [Hp|Hn].
    + rewrite Z.quot_div_nonneg by lia.
      assert (0 <= (head_dim p + kBlockSizeJ cfg - 1) / kBlockSizeJ cfg)
        by (apply Z.div_pos; lia).
      rewrite Z2Nat.id by assumption. reflexivity.
    + assert (Z.quot (head_dim p + kBlockSizeJ cfg - 1) (kBlockSizeJ cfg)
              <= 0).
      { rewrite <- (Z.opp_involutive (head_dim p + kBlockSizeJ cfg - 1)).
        rewrite Z.quot_opp_l by lia.
        assert (0 <= Z.quot (- (head_dim p + kBlockSizeJ cfg - 1))
                       (kBlockSizeJ cfg))
          by (apply Z.quot_pos; lia).
        lia. }
      assert ((head_dim p + kBlockSizeJ cfg - 1) / kBlockSizeJ cfg < 0)
        by (apply Z.div_lt_upper_bound; lia).
      lia.
Qed.

Lemma stage_GradQ_agree (skip : bool) (qs ks : Z)
  (Ak Av Aq : Z -> Prop) (a b : KernelState) :
  Rel Ak Av Aq a b ->
  let t := cdiv qs (kBlockSizeI cfg) in
  let nc := GradQ_num_cols cfg p in
  (kNeedsAccumGradQ cfg = true -> (ks =? 0) = false ->
   forall c, 0 <= c < nc -> Aq (c + t * nc)) ->
  Rel Ak Av
    (fun id => Aq id
               \/ (kNeedsAccumGradQ cfg = true
                   /\ isLastKeyTile qs ks = false
                   /\ exists c, 0 <= c < nc /\ id = c + t * nc))
    (stage_GradQ cfg skip p inp qs ks a)
    (stage_GradQ cfg skip p inp qs ks b).
Proof.
  intros H t nc Hload. unfold stage_GradQ. cbv zeta.
  eapply Rel_weaken;
    [ | |
    | apply (for_loop_rel_index
               (fun n s1 s2 =>
                  Rel Ak Av
                    (fun id => Aq id
                               \/ (kNeedsAccumGradQ cfg = true
                                   /\ isLastKeyTile qs ks = false
                                   /\ exists c, 0 <= c < Z.of_nat n
                                                /\ id = c + t * nc))
                    s1 s2)) ];
    try (intros id Hid; exact Hid).
  - intros id [Hid | (Hn & Hl & c & Hc & ->)]; [left; exact Hid | right].
    repeat split; auto. exists c. split; [|reflexivity].
    apply GradQ_cols_count. exact Hc.
  - exact HJ.
  - apply (Rel_weaken Ak Av Aq); auto.
    intros id [Hid | (_ & _ & c & Hc & _)]; [exact Hid | lia].
  - intros k s1 s2 Hk Hrel.
    pose proof (cdiv_mul k (MatmulGradQ_kN cfg) HJ) as Hsid.
    assert (Hkc : 0 <= Z.of_nat k < nc)
      by (apply GradQ_cols_count; lia).
    eapply Rel_weaken;
      [ | | | refine (GradQ_body_agree skip qs ks Ak Av _
                        (0 + Z.of_nat k * MatmulGradQ_kN cfg) s1 s2 Hrel _) ];
      try (intros id Hid; exact Hid).
    + intros id [Hid | (Hn & Hl & c & Hc & ->)].
      * left. left. exact Hid.
      * destruct (Z.eq_dec c (Z.of_nat k)) as [->|Hne].
        -- right. rewrite Hsid. auto.
        -- left. right. repeat split; auto. exists c. split; [lia|].
           reflexivity.
    + cbv zeta. intros Hn Hf. left. rewrite Hsid. apply Hload; auto.
Qed.

(** The stages that run no loop over the workspace. *)
Lemma loadDi_rel (qs : Z) (Ak Av Aq : Z -> Prop) (a b : KernelState) :
  Rel Ak Av Aq a b ->
  Rel Ak Av Aq
    (with_shared
       (fun s => set_di (loadDi cfg (di s) (delta (gmem a)) p qs) s) a)
    (with_shared
       (fun s => set_di (loadDi cfg (di s) (delta (gmem b)) p qs) s) b).
Proof.
  intros H. rel_open H. unfold with_shared. simpl.
  rel_close; assumption.
Qed.

Lemma stage_MatmulQK_rel (skip : bool) (qs ks : Z)
  (Ak Av Aq : Z -> Prop) (a b : KernelState) :
  Rel Ak Av Aq a b ->
  Rel Ak Av Aq (stage_MatmulQK cfg skip p inp qs ks a)
    (stage_MatmulQK cfg skip p inp qs ks b).
Proof.
  intros H. rel_open H. unfold stage_MatmulQK, with_shared. cbv zeta.
  destruct (bias_enabled cfg); simpl; rel_close; assumption.
Qed.

Lemma stage_MatmulDOIVJ_rel (skip : bool) (qs ks : Z)
  (Ak Av Aq : Z -> Prop) (a b : KernelState) :
  Rel Ak Av Aq a b ->
  Rel Ak Av Aq (stage_MatmulDOIVJ cfg skip p inp qs ks a)
    (stage_MatmulDOIVJ cfg skip p inp qs ks b).
Proof.
  intros H. rel_open H.
  unfold stage_MatmulDOIVJ, DOIVJ_scoreGrad, with_shared, with_gmem.
  cbv zeta.
  destruct (broadcast_1_kEnable cfg && negb (grad_bias1_ptr p =? 0));
    destruct (broadcast_2_kEnable cfg && negb (grad_bias2_ptr p =? 0));
    destruct (negb (kIsTransposedA cfg));
    simpl; rel_close; assumption.
Qed.

(** One call of [processBlockIJ] on two states that agree but for their
    workspaces: the slots it loads must agree, the slots it stores agree
    afterwards. *)
Lemma processBlockIJ_rel (skip : bool) (qs ks : Z)
  (Ak Av Aq : Z -> Prop) (a b : KernelState) :
  Rel Ak Av Aq a b ->
  (kNeedsAccumGradK cfg = true -> (qs =? 0) = false ->
   forall id, 0 <= id < workspace_slots_gk cfg p -> Ak id) ->
  (kNeedsAccumGradV cfg = true -> (qs =? 0) = false ->
   forall id, 0 <= id < workspace_slots_gv cfg p -> Av id) ->
  (kNeedsAccumGradQ cfg = true -> (ks =? 0) = false ->
   forall c, 0 <= c < GradQ_num_cols cfg p ->
             Aq (c + cdiv qs (kBlockSizeI cfg) * GradQ_num_cols cfg p)) ->
  Rel
    (fun id => Ak id
               \/ (kNeedsAccumGradK cfg = true
                   /\ isLastQuery cfg p qs ks = false
                   /\ 0 <= id < workspace_slots_gk cfg p))
    (fun id => Av id
               \/ (kNeedsAccumGradV cfg = true
                   /\ isLastQuery cfg p qs ks = false
                   /\ 0 <= id < workspace_slots_gv cfg p))
    (fun id => Aq id
               \/ (kNeedsAccumGradQ cfg = true
                   /\ isLastKeyTile qs ks = false
                   /\ exists c, 0 <= c < GradQ_num_cols cfg p
                                /\ id = c + cdiv qs (kBlockSizeI cfg)
                                            * GradQ_num_cols cfg p))
    (processBlockIJ cfg skip p inp qs ks a)
    (processBlockIJ cfg skip p inp qs ks b).
Proof.
  intros H HK HV HQ. unfold processBlockIJ, processBlockIJ_front.
  cbv zeta. unfold isFirstQuery, getQueryStart.
  apply stage_GradK_agree; [|exact HK].
  apply stage_GradQ_agree; [|exact HQ].
  apply stage_MatmulDOIVJ_rel.
  apply stage_GradV_agree; [|exact HV].
  apply stage_MatmulQK_rel.
  apply loadDi_rel. exact H.
Qed.

(** The calls that do not touch the workspace. *)
Lemma other_calls_rel (c : Call) (Ak Av Aq : Z -> Prop)
  (a b : KernelState) :
  (forall skip q k, c <> CallProcessBlockIJ skip q k) ->
  Rel Ak Av Aq a b ->
  Rel Ak Av Aq (run_call (kernel_handlers cfg p inp) c a)
    (run_call (kernel_handlers cfg p inp) c b).
Proof.
  intros Hc H. destruct c as [e q| |skip q k|skip k|skip k]; simpl.
  - rel_open H. unfold computeDelta, with_gmem. simpl.
    rel_close; assumption.
  - rel_open H. unfold clear_output_frags, with_frags. simpl.
    rel_close; assumption.
  - exfalso. exact (Hc skip q k eq_refl).
  - rel_open H. unfold writeFragsToGmem, with_gmem. simpl.
    rel_close; assumption.
  - rel_open H. unfold zfillGradKV, with_gmem. simpl.
    rel_close; assumption.
Qed.

(** What the calls already made have stored in the workspace. *)
Let processed (pre : list Call) (P : Z -> Z -> Prop) : Prop :=
  exists skip q k, In (CallProcessBlockIJ skip q k) pre /\ P q k.

Let AkP (pre : list Call) (id : Z) : Prop :=
  kNeedsAccumGradK cfg = true /\ 0 <= id < workspace_slots_gk cfg p
  /\ processed pre (fun q k => isLastQuery cfg p q k = false).

Let AvP (pre : list Call) (id : Z) : Prop :=
  kNeedsAccumGradV cfg = true /\ 0 <= id < workspace_slots_gv cfg p
  /\ processed pre (fun q k => isLastQuery cfg p q k = false).

Let AqP (pre : list Call) (id : Z) : Prop :=
  kNeedsAccumGradQ cfg = true
  /\ exists c t, 0 <= c < GradQ_num_cols cfg p
                 /\ id = c + t * GradQ_num_cols cfg p
                 /\ processed pre
                      (fun q k => isLastKeyTile q k = false
                                  /\ cdiv q (kBlockSizeI cfg) = t).

Lemma processed_snoc (pre : list Call) (c : Call) (P : Z -> Z -> Prop) :
  processed (pre ++ [c]) P ->
  processed pre P
  \/ exists skip q k, c = CallProcessBlockIJ skip q k /\ P q k.
Proof.
  intros (skip & q & k & Hin & HP). apply in_app_iff in Hin.
  destruct Hin as [Hin | [Heq | []]].
  - left. exists skip, q, k. split; assumption.
  - right. exists skip, q, k. split; [exact Heq | exact HP].
Qed.

Lemma tile_start_next (len t x : Z) :
  0 < t -> In x (tile_starts len t) -> x <> 0 -> 0 + t < len.
Proof.
  intros Ht Hin Hx. destruct (tile_starts_In len t x Ht Hin) as [Hb Hm].
  apply Z.mod_divide in Hm; [|lia]. destruct Hm as [m ->].
  assert (1 <= m) by nia. nia.
Qed.

(** One call of the kernel keeps two runs in step. *)
Lemma kernel_step_rel (pre post : list Call) (c : Call)
  (a b : KernelState) :
  0 <= num_keys p ->
  kernel_calls cfg p = pre ++ c :: post ->
  Rel (AkP pre) (AvP pre) (AqP pre) a b ->
  Rel (AkP (pre ++ [c])) (AvP (pre ++ [c])) (AqP (pre ++ [c]))
    (run_call (kernel_handlers cfg p inp) c a)
    (run_call (kernel_handlers cfg p inp) c b).
Proof.
  intros Hnk E H.
  assert (Hproc : (exists skip q k, c = CallProcessBlockIJ skip q k)
                  \/ forall skip q k, c <> CallProcessBlockIJ skip q k).
  { destruct c; try (right; intros; discriminate).
    left. eauto. }
  destruct Hproc as [(skip & q & k & ->) | Hother].
  - assert (Hin : In (CallProcessBlockIJ skip q k) (kernel_calls cfg p))
      by (rewrite E; apply in_elt).
    destruct (kernel_calls_In cfg p _ HI HJ Hin) as (Hq & Hk0 & Hk).
    specialize (Hk Hnk).
    pose proof (visited_kernel_calls cfg p HI HJ Hnk) as Hv.
    rewrite E, visited_app in Hv. simpl in Hv.
    destruct (nested_tiles_earlier _ _ _ _ _ _ _ _ (eq_sym Hv))
      as [Hfirst Hzero].
    assert (HfirstQ : (q =? 0) = false ->
              processed pre (fun q k => isLastQuery cfg p q k = false)).
    { intros Hne. apply Z.eqb_neq in Hne.
      destruct (Hfirst Hne) as (k' & Hin').
      destruct (visited_In _ _ _ Hin') as [skip' Hc].
      exists skip', 0, k'. split; [exact Hc|].
      rewrite isLastQuery_spec by assumption.
      pose proof (tile_start_next _ _ _ HI Hq Hne).
      rewrite Z.geb_leb. apply Z.leb_gt. lia. }
    eapply Rel_weaken;
      [ | |
      | apply (processBlockIJ_rel skip q k (AkP pre) (AvP pre) (AqP pre)
                 a b H) ].
    + intros id (HN & Hid & Hp).
      destruct (processed_snoc _ _ _ Hp)
        as [Hp' | (s' & q' & k' & Heq & Hl)].
      * left.
        repeat split; first [assumption | lia].
      * injection Heq as <- <- <-. right.
        repeat split; first [assumption | lia].
    + intros id (HN & Hid & Hp).
      destruct (processed_snoc _ _ _ Hp)
        as [Hp' | (s' & q' & k' & Heq & Hl)].
      * left.
        repeat split; first [assumption | lia].
      * injection Heq as <- <- <-. right.
        repeat split; first [assumption | lia].
    + intros id (HN & c & t & Hc & -> & Hp).
      destruct (processed_snoc _ _ _ Hp)
        as [Hp' | (s' & q' & k' & Heq & Hl & Ht)].
      * left. split; [exact HN|]. exists c, t.
        repeat split; first [assumption | lia].
      * injection Heq as <- <- <-. right. subst t.
        split; [exact HN|]. split; [exact Hl|].
        exists c. split; [exact Hc | reflexivity].
    + intros HN Hne id Hid. repeat split; try assumption; try lia.
      apply HfirstQ. exact Hne.
    + intros HN Hne id Hid. repeat split; try assumption; try lia.
      apply HfirstQ. exact Hne.
    + intros HN Hne c Hc. split; [exact HN|].
      exists c, (cdiv q (kBlockSizeI cfg)).
      split; [exact Hc|]. split; [reflexivity|].
      apply Z.eqb_neq in Hne.
      destruct (visited_In _ _ _ (Hzero Hne)) as [skip' Hc'].
      exists skip', q, 0. split; [exact Hc'|]. split; [|reflexivity].
      unfold isLastKeyTile.
      pose proof (tile_start_next _ _ _ HJ Hk Hne).
      destruct (tile_starts_In _ _ _ HI Hq) as [Hqb _].
      apply orb_false_iff. split.
      * rewrite Z.gtb_ltb. apply Z.ltb_ge. lia.
      * rewrite Z.geb_leb. apply Z.leb_gt. lia.
  - eapply Rel_weaken; [ | | | apply other_calls_rel; eassumption ].
    + intros id (HN & Hid & Hp).
      destruct (processed_snoc _ _ _ Hp)
        as [Hp' | (s' & q' & k' & Heq & _)].
      * repeat split; first [assumption | lia].
      * exfalso. exact (Hother _ _ _ Heq).
    + intros id (HN & Hid & Hp).
      destruct (processed_snoc _ _ _ Hp)
        as [Hp' | (s' & q' & k' & Heq & _)].
      * repeat split; first [assumption | lia].
      * exfalso. exact (Hother _ _ _ Heq).
    + intros id (HN & c' & t & Hc & -> & Hp).
      destruct (processed_snoc _ _ _ Hp)
        as [Hp' | (s' & q' & k' & Heq & _)].
      * split; [exact HN|]. exists c', t.
        repeat split; first [assumption | lia].
      * exfalso. exact (Hother _ _ _ Heq).
Qed.

(** X16.  With positive tile sizes and a key count that is not negative, two
    launches of the kernel that differ only in what the workspace holds
    give the same outputs: the same Delta, GradQuery, GradKey, GradValue
    and bias gradients (and the same shared memory and register
    accumulators).  Every workspace slot the kernel loads was stored
    earlier in the same launch, so the workspace need not be initialised. *)
Theorem workspace_contents_do_not_matter (st st' : KernelState) :
  0 <= num_keys p ->
  agree_but_workspace st st' ->
  agree_but_workspace (attention_kernel cfg p inp st)
    (attention_kernel cfg p inp st').
Proof.
  intros Hnk H.
  rewrite !attention_kernel_calls_run by assumption. unfold run_calls.
  assert (HR : Rel (AkP ([] ++ kernel_calls cfg p))
                 (AvP ([] ++ kernel_calls cfg p))
                 (AqP ([] ++ kernel_calls cfg p))
                 (fold_left
                    (fun s c => run_call (kernel_handlers cfg p inp) c s)
                    (kernel_calls cfg p) st)
                 (fold_left
                    (fun s c => run_call (kernel_handlers cfg p inp) c s)
                    (kernel_calls cfg p) st')).
  { apply (fold_left_prefix_rel
             (fun s c => run_call (kernel_handlers cfg p inp) c s)
             (fun pre s1 s2 => Rel (AkP pre) (AvP pre) (AqP pre) s1 s2)).
    - split; [exact H|].
      split; [|split]; intros id Hid.
      + destruct Hid as (_ & _ & (? & ? & ? & [] & _)).
      + destruct Hid as (_ & _ & (? & ? & ? & [] & _)).
      + destruct Hid as (_ & ? & ? & _ & _ & (? & ? & ? & [] & _)).
    - intros pre' c post a b E Hab.
      apply (kernel_step_rel pre' post c a b Hnk E Hab). }
  exact (proj1 HR).
Qed.

End WorkspaceAtLaunch.

(** ** The further properties at concrete inputs *)

Lemma GmemTile_store_then_load_witness :
  GmemTile.load 8 2 16
    (GmemTile.store_block 8 2 16 (fun t e => 10 * t + e) (fun _ => 0))
    (fun _ => -1) 1 5
  = 15.
Proof.
  apply (GmemTile_store_then_load (AR := ZArith_inst) 8 2 16
           (fun t e => 10 * t + e) (fun _ => 0) (fun _ => -1) 1 5);
    try reflexivity; lia.
Defined.

Lemma GmemTile_store_stays_in_tile_witness :
  GmemTile.store_block 8 2 (100 + 3 * 16) (fun t e => 10 * t + e)
    (fun a => a) 147 = 147
  /\ GmemTile.load 8 2 (100 + 2 * 16)
       (GmemTile.store_block 8 2 (100 + 3 * 16) (fun t e => 10 * t + e)
          (fun a => a))
       (fun _ => -1) 1 7
     = GmemTile.load 8 2 (100 + 2 * 16) (fun a => a) (fun _ => -1) 1 7.
Proof.
  pose proof (GmemTile_store_stays_in_tile (AR := ZArith_inst) 8 2 100
                (fun t e => 10 * t + e) (fun a => a) (fun _ => -1) 3
                ltac:(reflexivity) ltac:(lia) ltac:(lia)) as [Hout Hslot].
  split.
  - apply (Hout 147). left. vm_compute. reflexivity.
  - apply (Hslot 2 1 7); lia.
Defined.

Lemma null_bias_gradient_untouched_witness :
  grad_bias1_ptr params_example = 0
  /\ grad_bias1
       (gmem (attention_kernel (EN := engine_example) cfg_half_rf
                params_example inputs_example
                (state_example (fun _ _ => 1))))
     = grad_bias1 (gmem (state_example (fun _ _ => 1)))
  /\ grad_bias2
       (gmem (attention_kernel (EN := engine_example) cfg_half_rf
                params_example inputs_example
                (state_example (fun _ _ => 1))))
     = grad_bias2 (gmem (state_example (fun _ _ => 1))).
Proof.
  pose proof (null_bias_gradient_untouched (AR := ZArith_inst)
                (EN := engine_example) cfg_half_rf params_example
                inputs_example (state_example (fun _ _ => 1))) as [H1 H2].
  split; [reflexivity|]. split.
  - apply H1. right. reflexivity.
  - apply H2. right. reflexivity.
Defined.

Lemma supported_launch_never_zero_fills_witness :
  check_supported cfg_half_spill params_example = Supported
  /\ ~ In (CallZfillGradKV false 128)
         (attention_kernel_calls cfg_half_spill params_example).
Proof.
  split; [reflexivity|].
  apply (supported_launch_never_zero_fills (AR := ZArith_inst)
           cfg_half_spill params_example false 128);
    reflexivity.
Defined.

Lemma delta_written_only_at_query_rows_witness :
  num_queries params_example = 100
  /\ delta
       (gmem (attention_kernel (EN := engine_example) cfg_half_rf
                params_example inputs_example
                (state_example (fun _ _ => 1)))) !! 100
     = delta (gmem (state_example (fun _ _ => 1))) !! 100.
Proof.
  split; [reflexivity|].
  apply (delta_written_only_at_query_rows (AR := ZArith_inst)
           (EN := engine_example) cfg_half_rf params_example inputs_example
           (state_example (fun _ _ => 1)) 100); try reflexivity.
  right. right. vm_compute. congruence.
Defined.

Lemma unreserved_workspace_untouched_witness :
  kNeedsAccumGradK cfg_half_rf = false
  /\ workspace_elements_gk cfg_half_rf params_example = 0
  /\ workspace_gk
       (gmem (attention_kernel (EN := engine_example) cfg_half_rf
                params_example inputs_example
                (state_example (fun _ _ => 1))))
     = workspace_gk (gmem (state_example (fun _ _ => 1))).
Proof.
  split; [reflexivity|].
  apply (proj1 (unreserved_workspace_untouched (AR := ZArith_inst)
                  (EN := engine_example) cfg_half_rf params_example
                  inputs_example (state_example (fun _ _ => 1))
                  ltac:(reflexivity) ltac:(reflexivity))).
  reflexivity.
Defined.

Lemma grad_query_written_on_last_key_tile_witness :
  kNeedsAccumGradQ cfg_half_rf = true
  /\ grad_query
       (gmem (processBlockIJ (EN := engine_example) cfg_half_rf true
                params_example inputs_example 0 64
                (state_example (fun _ _ => 1))))
     = grad_query (gmem (state_example (fun _ _ => 1))).
Proof.
  split; [reflexivity|].
  apply (grad_query_written_on_last_key_tile (AR := ZArith_inst)
           (EN := engine_example) cfg_half_rf params_example inputs_example
           true 0 64 (state_example (fun _ _ => 1)));
    try reflexivity; vm_compute; congruence.
Defined.

Lemma grad_key_value_written_on_last_query_tile_witness :
  kNeedsAccumGradK cfg_half_spill = true
  /\ grad_key
       (gmem (processBlockIJ (EN := engine_example) cfg_half_spill true
                params_example inputs_example 0 64
                (state_example (fun _ _ => 1))))
     = grad_key (gmem (state_example (fun _ _ => 1)))
  /\ grad_value
       (gmem (processBlockIJ (EN := engine_example) cfg_half_spill true
                params_example inputs_example 0 64
                (state_example (fun _ _ => 1))))
     = grad_value (gmem (state_example (fun _ _ => 1))).
Proof.
  split; [reflexivity|].
  apply (grad_key_value_written_on_last_query_tile (AR := ZArith_inst)
           (EN := engine_example) cfg_half_spill params_example
           inputs_example true 0 64 (state_example (fun _ _ => 1)));
    try reflexivity; try (vm_compute; congruence).
  right. split; [reflexivity|]. vm_compute. reflexivity.
Defined.

Lemma registers_at_launch_do_not_matter_witness :
  gmem
    (attention_kernel (EN := engine_example) cfg_half_rf params_dropout
       inputs_example
       (@Build_KernelState ZArith_inst (shared_example (fun _ _ => 1))
          frags_example gmem_example))
  = gmem
      (attention_kernel (EN := engine_example) cfg_half_rf params_dropout
         inputs_example (state_example (fun _ _ => 1))).
Proof.
  apply (proj1 (registers_at_launch_do_not_matter (AR := ZArith_inst)
                  (EN := engine_example) cfg_half_rf params_dropout
                  inputs_example (state_example (fun _ _ => 1))
                  frags_example
                  ltac:(reflexivity) ltac:(reflexivity))).
Defined.

Lemma zfillGradKV_stays_in_tile_witness :
  grad_value
    (gmem (zfillGradKV cfg_half_spill false params_no_queries 128
             (state_example (fun _ _ => 1)))) !! (130 * 64)
  = grad_value (gmem (state_example (fun _ _ => 1))) !! (130 * 64).
Proof.
  apply (proj1 (zfillGradKV_stays_in_tile (AR := ZArith_inst)
                  cfg_half_spill params_no_queries false 128
                  (state_example (fun _ _ => 1)) (130 * 64)
                  ltac:(vm_compute; congruence) ltac:(reflexivity)
                  ltac:(reflexivity))).
  intros key k Hkey Hlt Hk.
  destruct Hlt as [Hs|Hlt]; [discriminate|].
  change (num_keys params_no_queries) with 130 in Hlt.
  change (head_dim_value params_no_queries) with 32 in Hk.
  change (gV_strideM params_no_queries) with 64.
  lia.
Defined.

Lemma incrIteration_follows_schedule_witness :
  visited (attention_kernel_calls cfg_half_rf params_example)
  = iterate_incrIteration cfg_half_rf params_example 6 0 0.
Proof.
  pose proof (incrIteration_follows_schedule (AR := ZArith_inst)
                cfg_half_rf params_example ltac:(reflexivity)
                ltac:(reflexivity) ltac:(vm_compute; congruence)) as H.
  cbv zeta in H. rewrite H at 1.
  f_equal.
Defined.

Lemma advance_to_block_workspace_in_bounds_witness :
  workspace_in_range cfg_half_spill (Block.params block_example)
  /\ in_grid (getBlocksGrid (Block.params block_example)) 0 1 1
  /\ exists bp',
       Block.advance_to_block cfg_half_spill (fun x => x)
         (fun ptr _ _ _ _ _ _ => ptr) (fun ptr _ _ _ _ _ _ => ptr)
         block_example 1 1 = Some (true, bp')
       /\ Block.workspace block_example <= Block.workspace bp'
       /\ Block.workspace_gq bp'
          + 4 * workspace_elements_gq cfg_half_spill params_example
          <= Block.workspace block_example
             + workspace_size cfg_half_spill params_example.
Proof.
  assert (Hr : workspace_in_range cfg_half_spill
                 (Block.params block_example)).
  { unfold workspace_in_range. vm_compute. intuition congruence. }
  assert (Hg : in_grid (getBlocksGrid (Block.params block_example)) 0 1 1).
  { vm_compute. intuition congruence. }
  split; [exact Hr|]. split; [exact Hg|].
  destruct (advance_to_block_workspace_in_bounds (AR := ZArith_inst)
              cfg_half_spill (fun x => x)
              (fun ptr _ _ _ _ _ _ => ptr) (fun ptr _ _ _ _ _ _ => ptr)
              block_example 1 1 ltac:(reflexivity) Hr ltac:(reflexivity)
              ltac:(discriminate) Hg)
    as (bp' & Hadv & Hlo & _ & _ & _ & Hhi).
  exists bp'. split; [exact Hadv|]. split; [exact Hlo | exact Hhi].
Defined.

Lemma advance_to_block_workspace_disjoint_witness :
  exists bp1 bp2,
    Block.advance_to_block cfg_half_spill (fun x => x)
      (fun ptr _ _ _ _ _ _ => ptr) (fun ptr _ _ _ _ _ _ => ptr)
      block_example 0 0 = Some (true, bp1)
    /\ Block.advance_to_block cfg_half_spill (fun x => x)
         (fun ptr _ _ _ _ _ _ => ptr) (fun ptr _ _ _ _ _ _ => ptr)
         block_example 1 0 = Some (true, bp2)
    /\ (Block.workspace bp1
        + 4 * workspace_strideBH cfg_half_spill params_example
        <= Block.workspace bp2
        \/ Block.workspace bp2
           + 4 * workspace_strideBH cfg_half_spill params_example
           <= Block.workspace bp1).
Proof.
  eexists. eexists.
  split; [vm_compute; reflexivity|]. split; [vm_compute; reflexivity|].
  apply (advance_to_block_workspace_disjoint (AR := ZArith_inst)
           cfg_half_spill (fun x => x)
           (fun ptr _ _ _ _ _ _ => ptr) (fun ptr _ _ _ _ _ _ => ptr)
           block_example _ _ 0 0 1 0);
    try reflexivity; try discriminate;
    try (vm_compute; intuition congruence).
Defined.

Lemma advance_to_block_keeps_alignment_witness :
  check_supported cfg_half_rf (Block.params block_example) = Supported
  /\ exists bp',
       Block.advance_to_block cfg_half_rf (fun x => x)
         (fun ptr _ _ _ _ _ _ => ptr) (fun ptr _ _ _ _ _ _ => ptr)
         block_example 1 1 = Some (true, bp')
       /\ query_ptr (Block.params bp') = 4096 + 2 * (6400 + 32)
       /\ cmod (query_ptr (Block.params bp')) 8 = 0
       /\ cmod (key_ptr (Block.params bp')) 8 = 0
       /\ cmod (value_ptr (Block.params bp')) 8 = 0.
Proof.
  split; [reflexivity|]. eexists.
  split; [vm_compute; reflexivity|]. split; [reflexivity|].
  apply (advance_to_block_keeps_alignment (AR := ZArith_inst) cfg_half_rf
           (fun x => x) (fun ptr _ _ _ _ _ _ => ptr)
           (fun ptr _ _ _ _ _ _ => ptr) block_example _ 1 1);
    try reflexivity.
  - exists 536870912. reflexivity.
  - vm_compute. intuition congruence.
Defined.

Lemma workspace_writes_stay_in_planes_witness :
  workspace_elements_gv cfg_half_spill params_example = 192 * 64
  /\ workspace_gv
       (gmem (attention_kernel (EN := engine_example) cfg_half_spill
                params_example inputs_example
                (state_example (fun _ _ => 1)))) 3
     = workspace_gv (gmem (state_example (fun _ _ => 1))) 3.
Proof.
  split; [reflexivity|].
  apply (proj1 (proj2 (workspace_writes_stay_in_planes (AR := ZArith_inst)
                         (EN := engine_example) cfg_half_spill
                         params_example inputs_example
                         (state_example (fun _ _ => 1)) 32 3
                         ltac:(unfold workspace_in_range; vm_compute;
                               intuition congruence)
                         ltac:(reflexivity) ltac:(reflexivity)
                         ltac:(reflexivity) ltac:(reflexivity)))).
  vm_compute. intuition congruence.
Defined.

Lemma workspace_contents_do_not_matter_witness :
  agree_but_workspace
    (attention_kernel (EN := engine_example) cfg_half_spill params_example
       inputs_example
       (with_gmem (set_workspace_gv (fun _ _ _ => 5))
          (state_example (fun _ _ => 1))))
    (attention_kernel (EN := engine_example) cfg_half_spill params_example
       inputs_example (state_example (fun _ _ => 1))).
Proof.
  apply (workspace_contents_do_not_matter (AR := ZArith_inst)
           (EN := engine_example) cfg_half_spill params_example
           inputs_example ltac:(reflexivity) ltac:(reflexivity) _ _
           ltac:(vm_compute; congruence)).
  repeat split.
Defined.
